(* ===== verification/_CoqProject ===== *)
-Q . S2P
Prelude.v
GoStrings.v
Utf8.v
Sha256.v
Proto.v
Identity.v
Base64.v
Json.v
Codec.v
Session.v
Crypto.v
Backup.v
Bolt.v
StoreData.v
StoreCore.v
StoreMessages.v
MessageLog.v
StorePeers.v
PeerPins.v
StoreFiles.v
FileTransfer.v
StoreRooms.v
StoreFrame.v
RowLog.v
RoomLog.v
Backoff.v
Invite.v
NodeState.v
Stream.v
NodeRooms.v
NodeViews.v
App.v
Discovery.v
NodeCore.v
Accept.v
Sniff.v
Api.v
Daemon.v
Demo.v
NodeLink.v
NodeFrame.v
FileFlow.v
Delivery.v
LiveKeys.v
WellTyped.v
TypedNode.v
TypedApp.v
Progress.v
RoomAuth.v
