(* ===== verification/Prelude.v ===== *)
(** * A verified model of Chirp

    Chirp (module github.com/Mattathiasa/chirp, Go) is a messenger for the
    local network without a server.  A device has a key pair and a display
    name; devices find each other by multicast, talk over Noise sessions, pin
    a name to the first key seen under it, queue messages and files until
    they are acknowledged, and keep everything in one bbolt database and a
    directory of files.  A loopback HTTP interface serves the user's browser.
    This library models the Go code of src/internal and proves what makes it
    correct; the present file holds the vocabulary all others share.

    ** The parts of the program and the files that model them

    - internal/proto (proto.go): frames, envelopes, their validator,
      identifiers, capabilities.  [Proto]; the JSON form of an envelope is
      [Codec], on top of [Json] (package encoding/json) and [Base64].
    - internal/session (session.go): the three-message handshake and the
      encrypted channel.  [Session], against the class [Noise].
    - internal/identity (identity.go, words.go, backup.go): [Identity] (names,
      fingerprints, words, passphrase strength) and [Backup] (the encrypted
      backup file).  [Sha256] computes the hash they show.
    - internal/crypto (crypto.go): the container of encrypted values and the
      keys.  [Crypto], against the class [Primitives].
    - internal/store (store.go, files.go): [StoreData] has the records, the
      twelve buckets, the transaction monad [Tx] and the disk; [StoreCore]
      keys, identity, settings and passphrase; [StoreMessages], [StorePeers],
      [StoreFiles] and [StoreRooms] one operation per method.  [Bolt] is the
      interface of the database library (a class with its laws).  The
      specifications they implement are [MessageLog] (a list of messages),
      [PeerPins] (a table of pins), [FileTransfer] (a source text and its
      hash), [RoomLog] (a list of room messages, a set of copies owed, a table
      of members and counters; on [RowLog], the log any bucket can hold);
      [StoreFrame] says which buckets each operation leaves alone.
    - internal/node (node.go, link.go, rooms.go, events.go, views.go,
      invite.go, qr.go): [NodeState] has the node's record and the monad [M]
      of handlers; [NodeCore] outbox, files, sessions, discovery and the
      user's operations; [NodeLink] one turn of the read loop per envelope;
      [NodeRooms] rooms; [NodeViews] what the interface shows, start and
      stop; [Backoff] delays and fingerprint comparison; [Invite] invitations.
      [NodeFrame] lifts the store's frames to handlers; [Accept] is the accept
      loop with its bound on half-open handshakes.
    - internal/discovery (discovery.go, memory.go, mdns.go): [Discovery].
    - internal/app (app.go): [App].
    - internal/api (api.go): [Api], with [Sniff] for http.DetectContentType;
      [Stream] is the event stream after its subscription.
    - cmd/chirpd and cmd/demo (main.go): [Daemon], with net.ParseIP; [Demo] the
      lives of the demonstration's bots.
    - [GoStrings] and [Utf8] model the Go standard library's strings, UTF-8,
      hexadecimal and byte order.

    ** How state and operations correspond

    A Go string or byte slice is a [string] of bytes, an integer a [Z] with its
    wrap-around or bounds written out, a time nanoseconds in a [Z], an [error]
    the sum type [error] below ([errors.Is] is [errors_is]).  A function that
    returns a value and an error returns a [result].  A method of the store
    takes the store and gives its result and the store after it; its body
    runs a [Tx], which commits as a whole or not at all.  A handler of the
    node is one atomic step of the state monad [M]: the code holds the node's
    mutex or is the only reader of its session.  Where a handler reads and
    writes in separate steps and that matters, the steps are definitions of
    their own ([NodeCore.flushFile_prepare], [StoreFiles.complete_read]).  What leaves the node is the
    trace [n_out]; a goroutine a handler starts is a [task] in that trace, and
    runs as a later step.  A slice panic, a nil dereference and a failed
    random read the code panics on are [None].  A bucket value is JSON text;
    [StoreData.marshal] is what the store puts when [json.Marshal] may fail on
    a time a peer sent, whose error it drops.

    What the environment decides is an argument: the clock, each random read
    ([None] is a failed one), whether a write to a session fails ([Wire]), the
    errors of the disk ([DiskFaults]), the outcome of a dial or handshake.
    Code outside the repository is a type class whose laws are its documented
    behaviour: [Bolt], [Primitives], [Curve], [Noise], [UnicodeTables], [QR],
    [Web], [Zeroconf].  Each has a concrete instance on which the examples run.

    ** What the theorems show

    - Delivery ([Delivery], [Progress]): over a network that loses, repeats
      and reorders, between two nodes that run any of their handlers in any
      order and restart, messages arrive once, what is shown as delivered
      arrived, nothing is lost but by deletion, and whatever is queued can be
      delivered from every reachable state with a session.
    - Files ([FileTransfer], [FileFlow]): what arrives under an identifier is
      the source with the advertised hash, across interruptions.
    - The rows ([WellTyped], [TypedNode], [TypedApp]): through any requests,
      steps of the node and restarts every row decodes (but for rooms and room
      messages with a time JSON has no text for), lies under its key and has
      the directions, statuses, identifiers and bounds the rest of the
      program takes for granted, and so has what the interface answers.
    - Trust ([PeerPins], [LiveKeys]): no handshake replaces a pinned key; a
      verified mark vouches for the key it was set on; an open session is with
      the key pinned under its peer's name, with two exceptions.
    - Rooms ([RoomLog], [RoomAuth]): the room store is the abstract state it
      promises to be; which changes of the rooms a peer can cause.
    - Sessions and the wire ([Session], [Codec]): two parties agree after the
      handshake, envelopes arrive in order or not at all, JSON and frames are
      lossless, messages fit a frame.
    - The device ([App], [Backup], [StoreCore]): setup, restart, passphrase
      and backup bring the same identity back; hostile backups are contained.
    - The interface ([Api], [NodeViews]): only own pages change state, previews
      are raster images, the contact list tells the truth.
    - The programs ([Daemon]): the interface is served on the loopback
      interface only; what a start of the daemon serves is decided by its
      database.
    - Discovery and invitations ([Discovery], [Invite]).
    - Where the code does not do what it means to, a theorem exhibits it: an
      unsendable message blocks its outbox, a peer with our name deletes our
      rooms, a room of the far future hides all rooms, accepting a changed key
      or forgetting a peer by its name with a space leaves the old session
      open, a header within [CompleteFile] gives verified bytes another hash,
      the daemon panics when started with a name on a protected device,
      deleting one file can delete the data directory, a search can panic, the
      room back-off overflows, garbage after an envelope passes, setup panics
      on a locked shell.

    ** Bounds and fuel

    Recursion that is not structural carries fuel computed from its input:
    [Json.parse] twice the length of the text plus one ([Json.parse_fuel]
    proves that more makes no difference), [NodeCore.chunk_loop] the number of
    chunks left plus one, [Json.dec_nat] the bits of the number.  Page sizes,
    frame and message limits, member and reaction limits, queue lengths and
    the rate limit are the source's constants.

    ** Not modelled

    The embedded web files (internal/web) and the tests; of the programs
    under cmd the parsing of flags, signals and the clock; sockets, goroutine
    scheduling and contexts (a step runs when the environment says so);
    multicast DNS itself, and which entries its library delivers; the text of
    JSON answers and events of the HTTP interface, multipart parsing.  The
    years of a time are those of UTC.  Interleavings inside one handler are
    not modelled but where it is split into steps, nor is more than one connection's handshake at the byte level
    at a time. *)

From stdpp Require Export base numbers list gmap strings.
From stdpp Require Import sorting.
From Stdlib Require Import Ascii.

Open Scope Z_scope.
Open Scope stdpp_scope.

(** ** Errors

    A Go [error] is a value that is compared by identity ([errors.Is]) and
    whose text is sometimes inspected.  The sentinel errors the program
    declares are constructors; [Errorf] is an [errors.New] or an [fmt.Errorf]
    without [%w] (its text stands up to the formatted arguments) and [Wrapf]
    an [fmt.Errorf] whose [%w] argument is kept. *)

Inductive sentinel :=
| ErrNotFound | ErrPassphraseRequired | ErrFileNotFound | ErrFileHashMismatch
| ErrFrameTooLarge | ErrEmptyFrame | ErrUnknownPeer | ErrKeyChanged
| ErrBadBody | ErrBadName | ErrRoomPending | ErrFPMismatch | ErrBadPassphrase
| ErrNeedsSetup | ErrEOF | ErrUnexpectedEOF | ErrNotExist.

#[export] Instance sentinel_eq_dec : EqDecision sentinel.
Proof. solve_decision. Defined.

Inductive error :=
| Sentinel (s : sentinel)
| Errorf (msg : string)
| Wrapf (msg : string) (e : error).

#[export] Instance error_eq_dec : EqDecision error.
Proof. solve_decision. Defined.

Definition sentinel_text (s : sentinel) : string :=
  match s with
  | ErrNotFound => "store: not found"
  | ErrPassphraseRequired => "store: database passphrase required"
  | ErrFileNotFound => "store: file not found"
  | ErrFileHashMismatch => "store: file hash mismatch"
  | ErrFrameTooLarge => "proto: frame too large"
  | ErrEmptyFrame => "proto: empty frame"
  | ErrUnknownPeer => "node: unknown peer"
  | ErrKeyChanged => "node: peer key changed; review it before sending"
  | ErrBadBody => "node: message must be 1-4096 bytes of valid UTF-8"
  | ErrBadName => "node: invalid display name"
  | ErrRoomPending => "node: accept the invitation to this room first"
  | ErrFPMismatch => "node: fingerprint mismatch"
  | ErrBadPassphrase => "wrong passphrase or corrupted backup"
  | ErrNeedsSetup => "app: no identity yet"
  | ErrEOF => "EOF"
  | ErrUnexpectedEOF => "unexpected EOF"
  | ErrNotExist => "file does not exist"
  end.

(** [err.Error()]. *)
Fixpoint error_text (e : error) : string :=
  match e with
  | Sentinel s => sentinel_text s
  | Errorf msg => msg
  | Wrapf msg e' => msg +:+ ": " +:+ error_text e'
  end.

(** [errors.Is(err, target)] for a sentinel target. *)
Fixpoint errors_is (e : error) (s : sentinel) : bool :=
  match e with
  | Sentinel s' => bool_decide (s' = s)
  | Errorf _ => false
  | Wrapf _ e' => errors_is e' s
  end.

(** ** The result monad: Go's [(A, error)] with the error checked at once *)

Inductive result (A : Type) :=
| Ok (a : A)
| Err (e : error).
Arguments Ok {A} a.
Arguments Err {A} e.

#[export] Instance result_ret : MRet result := fun A a => Ok a.
#[export] Instance result_bind : MBind result := fun A B f m =>
  match m with Ok a => f a | Err e => Err e end.

Definition is_ok {A} (r : result A) : bool :=
  match r with Ok _ => true | Err _ => false end.

Definition ok_or {A} (e : error) (o : option A) : result A :=
  match o with Some a => Ok a | None => Err e end.

(** [if cond { return err }]. *)
Definition guard_ (b : bool) (e : error) : result unit :=
  if b then Ok tt else Err e.

Lemma bind_ok {A B} (m : result A) (f : A → result B) b :
  (m ≫= f) = Ok b ↔ ∃ a, m = Ok a ∧ f a = Ok b.
Proof. destruct m; cbn; split; naive_solver. Qed.

Lemma guard_ok b e : guard_ b e = Ok tt ↔ b = true.
Proof. destruct b; cbn; split; congruence. Qed.

(** ** Machine integers *)

Definition w64 : Z := 2 ^ 64.
Definition uint64 (z : Z) : Z := z mod 2 ^ 64.
Definition int64 (z : Z) : Z := (z + 2 ^ 63) mod 2 ^ 64 - 2 ^ 63.
Definition uint16 (z : Z) : Z := z mod 2 ^ 16.
Definition byte8 (z : Z) : Z := z mod 2 ^ 8.

Lemma int64_id z : - 2 ^ 63 <= z < 2 ^ 63 → int64 z = z.
Proof. intros H. unfold int64. rewrite Z.mod_small; lia. Qed.

Lemma int64_range z : - 2 ^ 63 <= int64 z < 2 ^ 63.
Proof.
  unfold int64. pose proof (Z.mod_pos_bound (z + 2 ^ 63) (2 ^ 64)). lia.
Qed.

Lemma uint64_id z : 0 <= z < 2 ^ 64 → uint64 z = z.
Proof. intros H. unfold uint64. apply Z.mod_small; lia. Qed.

Lemma uint64_range z : 0 <= uint64 z < 2 ^ 64.
Proof. unfold uint64. apply Z.mod_pos_bound. lia. Qed.

(** ** Automation *)

(** Split every [match] and [if] on which a hypothesis or the goal is stuck,
    keeping the equation, and discharge the impossible branches. *)
Ltac case_match_hyp :=
  match goal with
  | H : context [match ?x with _ => _ end] |- _ =>
      lazymatch x with context [match _ with _ => _ end] => fail | _ => idtac end;
      destruct x eqn:?; simplify_eq/=
  end.

Ltac case_match_goal :=
  match goal with
  | |- context [match ?x with _ => _ end] =>
      lazymatch x with context [match _ with _ => _ end] => fail | _ => idtac end;
      destruct x eqn:?; simplify_eq/=
  end.

(** Boolean tests of the program to propositions. *)
Ltac bool_to_prop :=
  repeat match goal with
  | H : (_ && _)%bool = true |- _ => apply andb_true_iff in H as [? ?]
  | H : (_ || _)%bool = false |- _ => apply orb_false_iff in H as [? ?]
  | H : negb _ = true |- _ => apply negb_true_iff in H
  | H : negb _ = false |- _ => apply negb_false_iff in H
  | H : bool_decide _ = true |- _ => apply bool_decide_eq_true in H
  | H : bool_decide _ = false |- _ => apply bool_decide_eq_false in H
  end.

Create HintDb chirp.
Create Rewrite HintDb chirp.
#[export] Hint Resolve int64_range uint64_range : chirp.
#[export] Hint Rewrite @bind_ok guard_ok : chirp.

(** ** Lists *)

Lemma filter_all {A} (P : A → Prop) `{!∀ x, Decision (P x)} (l : list A) :
  Forall P l → filter P l = l.
Proof.
  induction 1 as [|x l Hx _ IH]; [done|]. by rewrite filter_cons_True, IH.
Qed.

Lemma filter_none {A} (P : A → Prop) `{!∀ x, Decision (P x)} (l : list A) :
  Forall (λ x, ¬ P x) l → filter P l = [].
Proof.
  induction 1 as [|x l Hx _ IH]; [done|]. by rewrite filter_cons_False, IH.
Qed.

(** Two lists in the same strict order with the same members are equal. *)
Lemma StronglySorted_ext {A} (R : relation A) `{!Irreflexive R} `{!Transitive R} (l1 l2 : list A) :
  StronglySorted R l1 → StronglySorted R l2 → (∀ x, x ∈ l1 ↔ x ∈ l2) → l1 = l2.
Proof.
  intros H1. revert l2. induction H1 as [|x l1 Hl1 IH Ha1]; intros l2 H2 He.
  - destruct l2 as [|y l2]; [done|]. destruct (not_elem_of_nil y). apply He. by left.
  - destruct H2 as [|y l2 Hl2 Ha2]; [destruct (not_elem_of_nil x); apply He; by left|].
    rewrite Forall_forall in Ha1, Ha2.
    assert (x = y) as ->.
    { assert (x ∈ y :: l2) as [->|Hx]%elem_of_cons; [apply He; by left|done|].
      assert (y ∈ x :: l1) as [->|Hy]%elem_of_cons; [apply He; by left|done|].
      destruct (irreflexivity R x). trans y; auto. }
    f_equal. apply IH; [done|]. intros z. split; intros Hz.
    + assert (z ∈ y :: l2) as [->|?]%elem_of_cons; [apply He; by right| |done].
      by destruct (irreflexivity R y); apply Ha1.
    + assert (z ∈ y :: l1) as [->|?]%elem_of_cons; [apply He; by right| |done].
      by destruct (irreflexivity R y); apply Ha2.
Qed.

Lemma StronglySorted_filter {A} (R : relation A) (P : A → Prop) `{!∀ x, Decision (P x)} l :
  StronglySorted R l → StronglySorted R (filter P l).
Proof.
  induction 1 as [|x l Hl IH Ha]; [constructor|].
  destruct (decide (P x)); [rewrite filter_cons_True by done|by rewrite filter_cons_False].
  constructor; [done|]. rewrite Forall_forall in *. intros y [_ Hy]%list_elem_of_filter. auto.
Qed.

Lemma StronglySorted_fmap {A B} (R : relation A) (S : relation B) (f : A → B) l :
  (∀ x y, x ∈ l → y ∈ l → R x y → S (f x) (f y)) →
  StronglySorted R l → StronglySorted S (f <$> l).
Proof.
  intros Hf. induction 1 as [|x l Hl IH Ha]; [constructor|]. constructor.
  - apply IH. intros y z ? ?. apply Hf; by right.
  - apply Forall_fmap. rewrite Forall_forall in *. intros y Hy. cbn.
    apply Hf; [by left|by right|by apply Ha].
Qed.

(** The last [n] elements of a list. *)
Definition lastn {A} (n : nat) (l : list A) : list A := reverse (take n (reverse l)).

Lemma lastn_sublist {A} n (l : list A) : ∃ k, l = k ++ lastn n l.
Proof.
  exists (reverse (drop n (reverse l))). unfold lastn.
  by rewrite <- reverse_app, take_drop, reverse_involutive.
Qed.

Lemma lastn_length {A} n (l : list A) : length (lastn n l) = Nat.min n (length l).
Proof. unfold lastn. by rewrite length_reverse, length_take, length_reverse. Qed.

(** A mapping that cannot fail on the members of a list. *)
Lemma mapM_all_ok {A B} (f : A → result B) (g : A → option B) (l : list A) :
  (∀ x, x ∈ l → ∃ y, f x = Ok y ∧ g x = Some y) → mapM f l = Ok (omap g l).
Proof.
  induction l as [|x l IH]; intros Hf; [done|]. cbn.
  destruct (Hf x) as (y & -> & ->); [by left|]. cbn. rewrite IH; [done|]. intros z Hz.
  apply Hf. by right.
Qed.

Lemma list_elem_of_concat {A} (x : A) (ls : list (list A)) : x ∈ concat ls ↔ ∃ l, l ∈ ls ∧ x ∈ l.
Proof.
  rewrite list_elem_of_In, in_concat. setoid_rewrite list_elem_of_In. naive_solver.
Qed.

(** ** The byte order on Go strings

    [s < t] on Go strings and [bytes.Compare] are the lexicographic order of
    the bytes, which is [String.compare] of the standard library. *)

Definition str_ltb (a b : string) : bool := String.ltb a b.
Definition str_lt (a b : string) : Prop := str_ltb a b = true.

Lemma ascii_compare_N a b : Ascii.compare a b = N.compare (N_of_ascii a) (N_of_ascii b).
Proof. reflexivity. Qed.

Lemma N_of_ascii_inj a b : N_of_ascii a = N_of_ascii b → a = b.
Proof. intros H. rewrite <- (ascii_N_embedding a), <- (ascii_N_embedding b). by f_equal. Qed.

Lemma str_lt_cons x a y b :
  str_lt (String x a) (String y b)
  ↔ (N_of_ascii x < N_of_ascii y)%N ∨ (x = y ∧ str_lt a b).
Proof.
  unfold str_lt, str_ltb, String.ltb. simpl. rewrite ascii_compare_N.
  destruct (N.compare_spec (N_of_ascii x) (N_of_ascii y)) as [H|H|H].
  - apply N_of_ascii_inj in H as ->. split; [auto|].
    intros [?|[_ ?]]; [lia|done].
  - split; auto.
  - split; [done|]. intros [?|[-> _]]; lia.
Qed.

Lemma str_lt_nil_l b : str_lt "" b ↔ b ≠ "".
Proof. unfold str_lt, str_ltb, String.ltb. destruct b; simpl; naive_solver. Qed.

Lemma str_lt_nil_r a : ¬ str_lt a "".
Proof. unfold str_lt, str_ltb, String.ltb. destruct a; simpl; done. Qed.

#[export] Instance str_lt_irrefl : Irreflexive str_lt.
Proof.
  intros a. induction a as [|x a IH]; [apply str_lt_nil_r|].
  intros [?|[_ ?]]%str_lt_cons; [lia|by apply IH].
Qed.

#[export] Instance str_lt_trans : Transitive str_lt.
Proof.
  intros a. induction a as [|x a IH]; intros b c Hab Hbc.
  - apply str_lt_nil_l. intros ->. by apply str_lt_nil_r in Hbc.
  - destruct b as [|y b]; [by apply str_lt_nil_r in Hab|].
    destruct c as [|z c]; [by apply str_lt_nil_r in Hbc|].
    apply str_lt_cons in Hab, Hbc. apply str_lt_cons.
    destruct Hab as [?|[-> Hab]], Hbc as [?|[-> Hbc]]; try (left; lia).
    right; split; [done|]. by apply (IH b).
Qed.

Lemma str_lt_trichotomy a b : str_lt a b ∨ a = b ∨ str_lt b a.
Proof.
  revert b. induction a as [|x a IH]; intros [|y b].
  - auto.
  - left. by apply str_lt_nil_l.
  - right; right. by apply str_lt_nil_l.
  - rewrite !str_lt_cons.
    destruct (N.compare_spec (N_of_ascii x) (N_of_ascii y)) as [H|H|H]; [|auto|auto].
    apply N_of_ascii_inj in H as ->. destruct (IH b) as [?|[->|?]]; auto.
Qed.

#[export] Instance str_lt_dec : RelDecision str_lt.
Proof. intros a b. exact (decide (str_ltb a b = true)). Defined.

Definition str_le (a b : string) : Prop := ¬ str_lt b a.

#[export] Instance str_le_trans : Transitive str_le.
Proof.
  intros a b c Hab Hbc Hca. unfold str_le in *.
  destruct (str_lt_trichotomy b c) as [?|[->|?]]; [|done|done].
  apply Hab. by trans c.
Qed.

Lemma str_le_lt_eq a b : str_le a b ↔ a = b ∨ str_lt a b.
Proof.
  unfold str_le. split.
  - intros H. destruct (str_lt_trichotomy a b) as [?|[?|?]]; auto; done.
  - intros [->|H] H'; [by apply (irreflexivity str_lt) in H'|].
    apply (irreflexivity str_lt a). by trans b.
Qed.

#[export] Hint Resolve str_lt_nil_r : chirp.

(** ** Insertion sort

    [sortBySeq], [sortByRoomSeq] and [sortStrings] are the same loop over
    three element types:
<<
      for i := 1; i < len(m); i++ {
        for j := i; j > 0 && less(m[j], m[j-1]); j-- { swap }
      }
>>
    [sift_down] is the inner loop on the array itself, [sort_loop] the outer
    one; [insert_rev] is the functional insertion they are proved equal to. *)

Section sorting.
Context {A : Type} (less : A → A → bool).

Fixpoint sift_down (j : nat) (m : list A) : list A :=
  match j with
  | O => m
  | S j' =>
      match m !! j, m !! j' with
      | Some x, Some y =>
          if less x y then sift_down j' (<[j' := x]> (<[j := y]> m)) else m
      | _, _ => m
      end
  end.

Definition sort_loop (m : list A) : list A :=
  foldl (fun m i => sift_down i m) m (seq 1 (length m - 1)).

(** Insert into a list kept in descending order. *)
Fixpoint insert_rev (x : A) (rp : list A) : list A :=
  match rp with
  | [] => [x]
  | y :: rp' => if less x y then y :: insert_rev x rp' else x :: rp
  end.

Definition isort (m : list A) : list A :=
  reverse (foldl (fun rp x => insert_rev x rp) [] m).

Lemma swap_app (p : list A) x y s :
  <[length p := x]> (<[S (length p) := y]> (p ++ [y] ++ x :: s)) = p ++ x :: y :: s.
Proof. induction p as [|z p IH]; cbn; [done|]. f_equal. apply IH. Qed.

Lemma sift_down_spec rp x s :
  sift_down (length rp) (reverse rp ++ x :: s) = reverse (insert_rev x rp) ++ s.
Proof.
  revert x s. induction rp as [|y rp IH]; intros x s; [done|].
  cbn [length sift_down insert_rev].
  assert (Hj : (reverse (y :: rp) ++ x :: s) !! S (length rp) = Some x).
  { rewrite lookup_app_r; rewrite length_reverse; cbn; [|done].
    by rewrite Nat.sub_diag. }
  assert (Hj' : (reverse (y :: rp) ++ x :: s) !! length rp = Some y).
  { rewrite reverse_cons, <- (assoc_L (++)). cbn.
    by rewrite list_lookup_middle by (by rewrite length_reverse). }
  rewrite Hj, Hj'. destruct (less x y);
    [|by rewrite (reverse_cons (y :: rp)), <- (assoc_L (++))].
  rewrite reverse_cons, <- !(assoc_L (++)), <- (length_reverse rp), swap_app.
  rewrite length_reverse.
  rewrite IH, reverse_cons, <- (assoc_L (++)). done.
Qed.

Lemma insert_rev_length x rp : length (insert_rev x rp) = S (length rp).
Proof.
  induction rp as [|y rp IH]; cbn; [done|]. destruct (less x y); cbn; auto.
Qed.

Lemma sort_loop_from rp s :
  foldl (fun m i => sift_down i m) (reverse rp ++ s) (seq (length rp) (length s))
  = reverse (foldl (fun rp x => insert_rev x rp) rp s).
Proof.
  revert rp. induction s as [|x s IH]; intros rp; cbn; [by rewrite app_nil_r|].
  rewrite sift_down_spec, <- (insert_rev_length x rp). apply IH.
Qed.

Lemma sort_loop_isort m : sort_loop m = isort m.
Proof.
  unfold sort_loop, isort. destruct m as [|x m]; [done|].
  cbn [length foldl]. rewrite Nat.sub_0_r || rewrite Nat.sub_succ, Nat.sub_0_r.
  apply (sort_loop_from [x] m).
Qed.

Lemma insert_rev_Permutation x rp : insert_rev x rp ≡ₚ x :: rp.
Proof.
  induction rp as [|y rp IH]; cbn; [done|]. destruct (less x y); [|done].
  rewrite IH. apply Permutation_swap.
Qed.

Lemma foldl_insert_rev_Permutation rp m :
  foldl (fun rp x => insert_rev x rp) rp m ≡ₚ rp ++ m.
Proof.
  revert rp. induction m as [|x m IH]; intros rp; cbn; [by rewrite app_nil_r|].
  rewrite IH, insert_rev_Permutation. cbn. apply Permutation_middle.
Qed.

Lemma sort_loop_Permutation m : sort_loop m ≡ₚ m.
Proof.
  rewrite sort_loop_isort. unfold isort.
  by rewrite reverse_Permutation, foldl_insert_rev_Permutation.
Qed.

(** [le x y]: [y] need not move before [x]. *)
Definition not_less (x y : A) : Prop := less y x = false.

Context (less_trans : ∀ x y z, not_less x y → not_less y z → not_less x z)
        (less_asym : ∀ x y, less x y = true → less y x = false).

Lemma insert_rev_sorted x rp :
  StronglySorted (flip not_less) rp → StronglySorted (flip not_less) (insert_rev x rp).
Proof.
  induction 1 as [|y rp Hrp IH Hall]; cbn; [repeat constructor|].
  destruct (less x y) eqn:E.
  - constructor; [done|]. rewrite insert_rev_Permutation.
    constructor; [|done]. by apply less_asym in E.
  - constructor; [by constructor|]. constructor; [done|].
    eapply Forall_impl; [done|]. intros z Hz. by eapply less_trans.
Qed.

Lemma StronglySorted_reverse (R : relation A) l :
  StronglySorted (flip R) l → StronglySorted R (reverse l).
Proof.
  induction 1 as [|x l Hl IH Hall]; [constructor|].
  rewrite reverse_cons. apply StronglySorted_app_2; [|done|repeat constructor].
  intros a b Ha Hb. apply list_elem_of_singleton in Hb as ->.
  rewrite elem_of_reverse in Ha. rewrite Forall_forall in Hall. by apply Hall.
Qed.

Lemma sort_loop_sorted m : StronglySorted not_less (sort_loop m).
Proof.
  rewrite sort_loop_isort. unfold isort. apply StronglySorted_reverse.
  generalize (SSorted_nil (flip not_less)). generalize (@nil A).
  induction m as [|x m IH]; intros rp Hrp; cbn; [done|].
  by apply IH, insert_rev_sorted.
Qed.
End sorting.
