(* ===== verification/GoStrings.v ===== *)
(** * Go strings: bytes, UTF-8 and the functions of package strings

    A Go string or byte slice is a [string] of 8-bit characters.  This file
    models what the program uses of the Go standard library on them: UTF-8
    decoding as [range] and package utf8 do it, [strings.ToLower],
    [strings.EqualFold], [strings.TrimSpace], prefixes and cuts, package hex
    and [binary.BigEndian].  The case tables of package unicode are data of
    the Unicode database and stay a parameter ([UnicodeTables]), with the
    facts the program relies on as laws and an ASCII table as an instance. *)

From Stdlib Require Import Ascii.
From S2P Require Import Prelude.

(** ** Bytes *)

Fixpoint bytes_of (s : string) : list Z :=
  match s with
  | "" => []
  | String c s' => Z.of_N (N_of_ascii c) :: bytes_of s'
  end.

Lemma str_app_cons c s t : String c s +:+ t = String c (s +:+ t).
Proof. done. Qed.

Lemma str_app_nil_r s : s +:+ "" = s.
Proof. induction s as [|c s IH]; [done|]. by rewrite str_app_cons, IH. Qed.

Lemma str_app_assoc s t u : s +:+ (t +:+ u) = (s +:+ t) +:+ u.
Proof. induction s as [|c s IH]; [done|]. by rewrite !str_app_cons, IH. Qed.

Definition ascii_of_byte (b : Z) : ascii := ascii_of_N (Z.to_N (byte8 b)).

Fixpoint of_bytes (l : list Z) : string :=
  match l with
  | [] => ""
  | b :: l' => String (ascii_of_byte b) (of_bytes l')
  end.

(** [len(s)]. *)
Definition slen (s : string) : Z := Z.of_nat (String.length s).

Definition is_byte (b : Z) : Prop := 0 <= b < 256.

Lemma ascii_of_byte_of c : ascii_of_byte (Z.of_N (N_of_ascii c)) = c.
Proof.
  unfold ascii_of_byte, byte8. pose proof (N_ascii_bounded c).
  rewrite Z.mod_small by lia. rewrite N2Z.id. apply ascii_N_embedding.
Qed.

Lemma byte_of_ascii_of b : is_byte b → Z.of_N (N_of_ascii (ascii_of_byte b)) = b.
Proof.
  unfold ascii_of_byte, byte8, is_byte. intros H.
  rewrite Z.mod_small by lia. rewrite N_ascii_embedding by lia. lia.
Qed.

Lemma of_bytes_of s : of_bytes (bytes_of s) = s.
Proof. induction s as [|c s IH]; cbn; [done|]. by rewrite ascii_of_byte_of, IH. Qed.

Lemma bytes_of_of l : Forall is_byte l → bytes_of (of_bytes l) = l.
Proof. induction 1; cbn; [done|]. rewrite byte_of_ascii_of by done. by f_equal. Qed.

Lemma bytes_of_range s : Forall is_byte (bytes_of s).
Proof.
  induction s as [|c s IH]; constructor; [|done].
  pose proof (N_ascii_bounded c). unfold is_byte. lia.
Qed.

Lemma bytes_of_inj s t : bytes_of s = bytes_of t → s = t.
Proof. intros H. by rewrite <- (of_bytes_of s), H, of_bytes_of. Qed.

Lemma bytes_of_app s t : bytes_of (s +:+ t) = bytes_of s ++ bytes_of t.
Proof. induction s as [|c s IH]; [done|]. exact (f_equal (cons _) IH). Qed.

Lemma of_bytes_app l k : of_bytes (l ++ k) = of_bytes l +:+ of_bytes k.
Proof. induction l as [|b l IH]; [done|]. exact (f_equal (String _) IH). Qed.

Lemma bytes_of_length s : length (bytes_of s) = String.length s.
Proof. induction s; cbn; auto. Qed.

Lemma of_bytes_length l : String.length (of_bytes l) = length l.
Proof. induction l; cbn; auto. Qed.

Lemma slen_app s t : slen (s +:+ t) = slen s + slen t.
Proof. unfold slen. rewrite <- !bytes_of_length, bytes_of_app, length_app. lia. Qed.

Lemma slen_nonneg s : 0 <= slen s.
Proof. unfold slen. lia. Qed.

Lemma slen_of_bytes l : slen (of_bytes l) = Z.of_nat (length l).
Proof. unfold slen. by rewrite of_bytes_length. Qed.

#[export] Hint Rewrite bytes_of_app slen_app of_bytes_app of_bytes_of slen_of_bytes : chirp.
#[export] Hint Resolve slen_nonneg bytes_of_range : chirp.

(** ** Slices of a string: [s[i:]], [s[:i]] and [s[i:j]] within bounds *)

Definition str_drop (n : nat) (s : string) : string := of_bytes (drop n (bytes_of s)).
Definition str_take (n : nat) (s : string) : string := of_bytes (take n (bytes_of s)).

Lemma str_take_drop n s : str_take n s +:+ str_drop n s = s.
Proof. unfold str_take, str_drop. by rewrite <- of_bytes_app, take_drop, of_bytes_of. Qed.

Lemma str_drop_app s t n : n = String.length s → str_drop n (s +:+ t) = t.
Proof.
  intros ->. unfold str_drop. rewrite bytes_of_app, drop_app_length'.
  - apply of_bytes_of.
  - by rewrite bytes_of_length.
Qed.

Lemma str_take_app s t n : n = String.length s → str_take n (s +:+ t) = s.
Proof.
  intros ->. unfold str_take. rewrite bytes_of_app, take_app_length'.
  - apply of_bytes_of.
  - by rewrite bytes_of_length.
Qed.

(** [strings.HasPrefix], [bytes.HasPrefix]. *)
Definition has_prefix (s p : string) : bool := String.prefix p s.

Lemma has_prefix_spec s p : has_prefix s p = true ↔ ∃ r, s = p +:+ r.
Proof.
  unfold has_prefix. revert s. induction p as [|c p IH]; intros s; cbn.
  - split; [|by destruct s]. intros _. by exists s.
  - destruct s as [|d s]; cbn.
    { split; [done|]. by intros [r Hr]. }
    destruct (ascii_dec c d) as [->|Hne].
    + rewrite IH. split; intros [r Hr]; exists r; rewrite ?str_app_cons in *; congruence.
    + split; [done|]. intros [r Hr]. rewrite str_app_cons in Hr. congruence.
Qed.

Lemma has_prefix_app p r : has_prefix (p +:+ r) p = true.
Proof. apply has_prefix_spec. by exists r. Qed.

Lemma has_prefix_drop s p :
  has_prefix s p = true → s = p +:+ str_drop (String.length p) s.
Proof. intros [r ->]%has_prefix_spec. by rewrite str_drop_app. Qed.

#[export] Hint Resolve has_prefix_app : chirp.

(** ** Numbers in big-endian order *)

(** [binary.BigEndian.PutUint16] and [Uint16]. *)
Definition be_put16 (v : Z) : string := of_bytes [Z.shiftr v 8; byte8 v].
Definition be_get16 (s : string) : Z :=
  match bytes_of s with
  | b1 :: b0 :: _ => Z.lor (Z.shiftl b1 8) b0
  | _ => 0
  end.

(** The [n] low bytes of [v], most significant first. *)
Fixpoint be_bytes (n : nat) (v : Z) : list Z :=
  match n with
  | O => []
  | S n' => byte8 (Z.shiftr v (8 * Z.of_nat n')) :: be_bytes n' v
  end.

(** [binary.BigEndian.PutUint64] and [Uint64]. *)
Definition be_put64 (v : Z) : string := of_bytes (be_bytes 8 v).
Definition be_combine (l : list Z) : Z := foldl (λ acc b, 256 * acc + b) 0 l.
Definition be_get64 (s : string) : Z := be_combine (take 8 (bytes_of s)).

Lemma byte8_range b : is_byte (byte8 b).
Proof. unfold byte8, is_byte. pose proof (Z.mod_pos_bound b (2 ^ 8)). lia. Qed.

Lemma be_bytes_range n v : Forall is_byte (be_bytes n v).
Proof. induction n; constructor; auto using byte8_range. Qed.

Lemma be_bytes_length n v : length (be_bytes n v) = n.
Proof. induction n; cbn; auto. Qed.

Lemma be_combine_acc l acc :
  foldl (λ acc b, 256 * acc + b) acc l = acc * 256 ^ Z.of_nat (length l) + be_combine l.
Proof.
  unfold be_combine. revert acc. induction l as [|b l IH]; intros acc; cbn [foldl length].
  - change (Z.of_nat 0) with 0. lia.
  - rewrite IH, (IH (256 * 0 + b)), Nat2Z.inj_succ, Z.pow_succ_r by lia. lia.
Qed.

Lemma be_combine_bytes n v : be_combine (be_bytes n v) = v mod 256 ^ Z.of_nat n.
Proof.
  induction n as [|n IH]; cbn [be_bytes].
  - by rewrite Z.mod_1_r.
  - unfold be_combine at 1. cbn [foldl].
    rewrite be_combine_acc, IH, be_bytes_length, Nat2Z.inj_succ, Z.pow_succ_r by lia.
    unfold byte8. rewrite Z.shiftr_div_pow2 by lia.
    rewrite Z.pow_mul_r by lia. change (2 ^ 8) with 256.
    rewrite (Z.mul_comm 256 (256 ^ Z.of_nat n)).
    rewrite (Z.rem_mul_r v (256 ^ Z.of_nat n) 256) by lia. lia.
Qed.

Lemma be_get_put64 v : be_get64 (be_put64 v) = uint64 v.
Proof.
  unfold be_get64, be_put64. rewrite bytes_of_of by apply be_bytes_range.
  rewrite take_ge by (rewrite be_bytes_length; lia). by rewrite be_combine_bytes.
Qed.

Lemma be_put64_length v : String.length (be_put64 v) = 8%nat.
Proof. reflexivity. Qed.

Lemma be_get_put16 v r : 0 <= v < 2 ^ 16 → be_get16 (be_put16 v +:+ r) = v.
Proof.
  intros Hv. unfold be_get16, be_put16. rewrite bytes_of_app, bytes_of_of.
  - cbn. unfold byte8. rewrite <- Z.land_ones by lia.
    apply Z.bits_inj'. intros i Hi.
    rewrite Z.lor_spec, Z.shiftl_spec, Z.land_spec by lia.
    destruct (Z.le_gt_cases 8 i).
    + rewrite Z.shiftr_spec, (Z.ones_spec_high 8) by lia.
      replace (i - 8 + 8) with i by lia. by rewrite andb_false_r, orb_false_r.
    + rewrite (Z.testbit_neg_r _ (i - 8)), Z.ones_spec_low by lia.
      by rewrite andb_true_r.
  - constructor; [|constructor; [apply byte8_range|constructor]].
    unfold is_byte. rewrite Z.shiftr_div_pow2 by lia. split.
    + apply Z.div_pos; lia.
    + apply Z.div_lt_upper_bound; lia.
Qed.

Lemma be_combine_cons b l :
  be_combine (b :: l) = b * 256 ^ Z.of_nat (length l) + be_combine l.
Proof. unfold be_combine at 1. cbn [foldl]. rewrite be_combine_acc. lia. Qed.

Lemma be_combine_range l :
  Forall is_byte l → 0 <= be_combine l < 256 ^ Z.of_nat (length l).
Proof.
  induction 1 as [|b l Hb _ IH]; [done|].
  rewrite be_combine_cons. cbn [length]. rewrite Nat2Z.inj_succ, Z.pow_succ_r by lia.
  unfold is_byte in Hb. nia.
Qed.

(** Big-endian numbers of one width compare like their byte strings: this is
    what makes bbolt's key order the order of the sequence numbers. *)
Lemma be_combine_lt l k :
  Forall is_byte l → Forall is_byte k → length l = length k →
  be_combine l < be_combine k → str_lt (of_bytes l) (of_bytes k).
Proof.
  intros Hl. revert k. induction Hl as [|b l Hb Hl IH]; intros k Hk Hlen Hlt;
    destruct Hk as [|c k Hc Hk]; try done.
  rewrite !be_combine_cons in Hlt. injection Hlen as Hlen.
  pose proof (be_combine_range l Hl). pose proof (be_combine_range k Hk).
  rewrite <- Hlen in *. cbn [of_bytes]. apply str_lt_cons.
  destruct (Z.lt_trichotomy b c) as [Hbc|[->|Hbc]].
  - left. apply N2Z.inj_lt. by rewrite !byte_of_ascii_of.
  - right. split; [done|]. apply IH; [done..|lia].
  - unfold is_byte in *. nia.
Qed.

Lemma be_put64_lt v w :
  0 <= v → w < 2 ^ 64 → v < w → str_lt (be_put64 v) (be_put64 w).
Proof.
  intros Hv Hw Hlt. apply be_combine_lt; auto using be_bytes_range.
  rewrite !be_combine_bytes. change (256 ^ Z.of_nat 8) with (2 ^ 64).
  rewrite !Z.mod_small; lia.
Qed.

Lemma be_put64_inj v w :
  0 <= v < 2 ^ 64 → 0 <= w < 2 ^ 64 → be_put64 v = be_put64 w → v = w.
Proof.
  intros Hv Hw H. apply (f_equal be_get64) in H. rewrite !be_get_put64 in H.
  rewrite !uint64_id in H by done. done.
Qed.

(** ** Composite keys

    A key is a name, a NUL and a fixed-width number. *)

Lemma nul_split (a b x y : list Z) : 0 ∉ a → 0 ∉ b → a ++ 0 :: x = b ++ 0 :: y → a = b ∧ x = y.
Proof.
  revert b. induction a as [|c a IH]; intros [|d b] Ha Hb He; simplify_eq/=; [done| | |].
  - destruct Hb. by left.
  - destruct Ha. by left.
  - destruct (IH b) as [-> ->]; [by intros ?; apply Ha; right|by intros ?; apply Hb; right|done|done].
Qed.

Lemma str_lt_app_l p a b : str_lt (p +:+ a) (p +:+ b) ↔ str_lt a b.
Proof.
  induction p as [|c p IH]; [done|]. rewrite !str_app_cons, str_lt_cons, IH.
  split; [|by right]. intros [?|[_ ?]]; [lia|done].
Qed.

Lemma str_app_suffix_inj (a b x y : string) :
  String.length x = String.length y → a +:+ x = b +:+ y → a = b ∧ x = y.
Proof.
  intros Hl He. assert (Hb : bytes_of a ++ bytes_of x = bytes_of b ++ bytes_of y).
  { by rewrite <- !bytes_of_app, He. }
  apply app_inj_2 in Hb as [? ?]; [|by rewrite !bytes_of_length].
  split; by apply bytes_of_inj.
Qed.
