(* ===== verification/Utf8.v ===== *)
(** * UTF-8, letter case and hex

    UTF-8 as package utf8 and [range] decode it (a byte that starts no
    well-formed sequence is one [Bad] unit, read as U+FFFD), the functions of
    package strings that look at runes, and package hex.  The case tables of
    package unicode are the parameter [UnicodeTables]. *)

From Stdlib Require Import Lia.
From S2P Require Import Prelude GoStrings.

#[local] Ltac Zify.zify_post_hook ::= Z.to_euclidean_division_equations.

(** ** Decoding *)

Inductive unit8 :=
| Rune (r : Z)      (** a well-formed sequence *)
| Bad (b : Z).      (** one byte of an ill-formed one *)

Definition RuneError : Z := 0xFFFD.

Definition rune_of (u : unit8) : Z := match u with Rune r => r | Bad _ => RuneError end.

Definition cont (b : Z) : bool := (0x80 <=? b) && (b <=? 0xBF).

(** The range of the second byte after a three- or four-byte lead. *)
Definition second_ok (b0 b1 : Z) : bool :=
  (if b0 =? 0xE0 then 0xA0 <=? b1 else if b0 =? 0xF0 then 0x90 <=? b1 else 0x80 <=? b1)
  && (if b0 =? 0xED then b1 <=? 0x9F else if b0 =? 0xF4 then b1 <=? 0x8F else b1 <=? 0xBF).

Definition two (b0 b1 : Z) : Z := (b0 - 0xC0) * 64 + (b1 - 0x80).
Definition three (b0 b1 b2 : Z) : Z := (b0 - 0xE0) * 4096 + (b1 - 0x80) * 64 + (b2 - 0x80).
Definition four (b0 b1 b2 b3 : Z) : Z :=
  (b0 - 0xF0) * 262144 + (b1 - 0x80) * 4096 + (b2 - 0x80) * 64 + (b3 - 0x80).

Fixpoint decode (l : list Z) : list unit8 :=
  match l with
  | [] => []
  | b0 :: l1 =>
      if b0 <? 0x80 then Rune b0 :: decode l1 else
      match l1 with
      | [] => [Bad b0]
      | b1 :: l2 =>
          if (0xC2 <=? b0) && (b0 <=? 0xDF) && cont b1
          then Rune (two b0 b1) :: decode l2 else
          match l2 with
          | [] => Bad b0 :: decode l1
          | b2 :: l3 =>
              if (0xE0 <=? b0) && (b0 <=? 0xEF) && second_ok b0 b1 && cont b2
              then Rune (three b0 b1 b2) :: decode l3 else
              match l3 with
              | [] => Bad b0 :: decode l1
              | b3 :: l4 =>
                  if (0xF0 <=? b0) && (b0 <=? 0xF4) && second_ok b0 b1 && cont b2 && cont b3
                  then Rune (four b0 b1 b2 b3) :: decode l4
                  else Bad b0 :: decode l1
              end
          end
      end
  end.

(** [utf8.ValidRune]. *)
Definition valid_rune (r : Z) : bool :=
  ((0 <=? r) && (r <? 0xD800)) || ((0xDFFF <? r) && (r <=? 0x10FFFF)).

(** [utf8.AppendRune]. *)
Definition encode_rune (r : Z) : list Z :=
  if negb (valid_rune r) then [0xEF; 0xBF; 0xBD]
  else if r <? 0x80 then [r]
  else if r <? 0x800 then [0xC0 + r / 64; 0x80 + r mod 64]
  else if r <? 0x10000 then [0xE0 + r / 4096; 0x80 + r / 64 mod 64; 0x80 + r mod 64]
  else [0xF0 + r / 262144; 0x80 + r / 4096 mod 64; 0x80 + r / 64 mod 64; 0x80 + r mod 64].

Definition encode_unit (u : unit8) : list Z :=
  match u with Rune r => encode_rune r | Bad b => [b] end.

Definition units (s : string) : list unit8 := decode (bytes_of s).

(** The runes a [for _, r := range s] loop visits. *)
Definition runes (s : string) : list Z := rune_of <$> units s.

(** [utf8.ValidString]. *)
Definition ValidString (s : string) : bool :=
  forallb (λ u, match u with Rune _ => true | Bad _ => false end) (units s).

(** [utf8.RuneCountInString]. *)
Definition RuneCountInString (s : string) : Z := Z.of_nat (length (units s)).

(** ** Facts about the codec *)

Ltac ztests :=
  repeat match goal with
  | |- context [?a <? ?b] => destruct (Z.ltb_spec a b); try lia
  | |- context [?a <=? ?b] => destruct (Z.leb_spec a b); try lia
  | |- context [?a =? ?b] => destruct (Z.eqb_spec a b); try lia
  end; cbn [andb orb negb].

Lemma decode_1 b0 l : (b0 <? 0x80) = true → decode (b0 :: l) = Rune b0 :: decode l.
Proof. intros H. cbn. by rewrite H. Qed.

Lemma decode_2 b0 b1 l :
  (b0 <? 0x80) = false → (0xC2 <=? b0) && (b0 <=? 0xDF) && cont b1 = true →
  decode (b0 :: b1 :: l) = Rune (two b0 b1) :: decode l.
Proof. intros H1 H2. cbn. by rewrite H1, H2. Qed.

Lemma decode_3 b0 b1 b2 l :
  (b0 <? 0x80) = false → (0xC2 <=? b0) && (b0 <=? 0xDF) && cont b1 = false →
  (0xE0 <=? b0) && (b0 <=? 0xEF) && second_ok b0 b1 && cont b2 = true →
  decode (b0 :: b1 :: b2 :: l) = Rune (three b0 b1 b2) :: decode l.
Proof. intros H1 H2 H3. cbn. by rewrite H1, H2, H3. Qed.

Lemma decode_4 b0 b1 b2 b3 l :
  (b0 <? 0x80) = false → (0xC2 <=? b0) && (b0 <=? 0xDF) && cont b1 = false →
  (0xE0 <=? b0) && (b0 <=? 0xEF) && second_ok b0 b1 && cont b2 = false →
  (0xF0 <=? b0) && (b0 <=? 0xF4) && second_ok b0 b1 && cont b2 && cont b3 = true →
  decode (b0 :: b1 :: b2 :: b3 :: l) = Rune (four b0 b1 b2 b3) :: decode l.
Proof. intros H1 H2 H3 H4. cbn. by rewrite H1, H2, H3, H4. Qed.

Lemma decode_encode r l :
  valid_rune r = true → decode (encode_rune r ++ l) = Rune r :: decode l.
Proof.
  intros Hv. unfold encode_rune. rewrite Hv. cbn [negb].
  unfold valid_rune in Hv.
  destruct (Z.ltb_spec r 0x80) as [H1|H1]; [apply decode_1; lia|].
  destruct (Z.ltb_spec r 0x800) as [H2|H2].
  { cbn [app]. rewrite decode_2 by (unfold cont; lia). unfold two. do 2 f_equal. lia. }
  destruct (Z.ltb_spec r 0x10000) as [H3|H3].
  { cbn [app]. rewrite decode_3 by (unfold cont, second_ok; ztests; lia).
    unfold three. do 2 f_equal. lia. }
  cbn [app]. rewrite decode_4 by (unfold cont, second_ok; ztests; lia).
  unfold four. do 2 f_equal. lia.
Qed.

Lemma decode_encode_list rs :
  Forall (λ r, valid_rune r = true) rs → decode (concat (encode_rune <$> rs)) = Rune <$> rs.
Proof.
  induction 1 as [|r rs Hr _ IH]; [done|]. cbn. by rewrite decode_encode, IH.
Qed.

Lemma encode_rune_range r : Forall is_byte (encode_rune r).
Proof.
  unfold encode_rune, is_byte. destruct (valid_rune r) eqn:Hv; cbn [negb].
  - unfold valid_rune in Hv. ztests; repeat constructor; lia.
  - repeat constructor; lia.
Qed.

Lemma encode_rune_ne r : encode_rune r ≠ [].
Proof. unfold encode_rune. repeat case_match; done. Qed.

(** Decoding splits the bytes: nothing is lost or invented. *)
Lemma encode_two b0 b1 :
  (0xC2 <=? b0) && (b0 <=? 0xDF) && cont b1 = true → encode_rune (two b0 b1) = [b0; b1].
Proof.
  intros H. unfold cont in H. unfold encode_rune, two, valid_rune.
  ztests. f_equal; [lia|f_equal; lia].
Qed.

Lemma second_ok_range b0 b1 : second_ok b0 b1 = true → 0x80 <= b1 <= 0xBF.
Proof. unfold second_ok. ztests; lia. Qed.

Lemma three_range b0 b1 b2 :
  (0xE0 <=? b0) && (b0 <=? 0xEF) && second_ok b0 b1 && cont b2 = true →
  0x800 <= three b0 b1 b2 < 0x10000 ∧ valid_rune (three b0 b1 b2) = true.
Proof.
  intros H. apply andb_true_iff in H as [H Hc]. apply andb_true_iff in H as [H Hs].
  pose proof (second_ok_range _ _ Hs). unfold cont, second_ok, valid_rune, three in *.
  destruct (Z.eqb_spec b0 0xE0); destruct (Z.eqb_spec b0 0xF0);
    destruct (Z.eqb_spec b0 0xED); destruct (Z.eqb_spec b0 0xF4); lia.
Qed.

Lemma four_range b0 b1 b2 b3 :
  (0xF0 <=? b0) && (b0 <=? 0xF4) && second_ok b0 b1 && cont b2 && cont b3 = true →
  0x10000 <= four b0 b1 b2 b3 ∧ valid_rune (four b0 b1 b2 b3) = true.
Proof.
  intros H. apply andb_true_iff in H as [H Hc3]. apply andb_true_iff in H as [H Hc2].
  apply andb_true_iff in H as [H Hs].
  pose proof (second_ok_range _ _ Hs). unfold cont, second_ok, valid_rune, four in *.
  destruct (Z.eqb_spec b0 0xE0); destruct (Z.eqb_spec b0 0xF0);
    destruct (Z.eqb_spec b0 0xED); destruct (Z.eqb_spec b0 0xF4); lia.
Qed.

Lemma encode_three b0 b1 b2 :
  (0xE0 <=? b0) && (b0 <=? 0xEF) && second_ok b0 b1 && cont b2 = true →
  encode_rune (three b0 b1 b2) = [b0; b1; b2].
Proof.
  intros H. destruct (three_range _ _ _ H) as [Hr Hv]. unfold encode_rune.
  rewrite Hv. cbn [negb].
  apply andb_true_iff in H as [H Hc]. apply andb_true_iff in H as [H Hs].
  apply second_ok_range in Hs. unfold cont in Hc.
  destruct (Z.ltb_spec (three b0 b1 b2) 0x80); [lia|].
  destruct (Z.ltb_spec (three b0 b1 b2) 0x800); [lia|].
  destruct (Z.ltb_spec (three b0 b1 b2) 0x10000); [|lia].
  unfold three. repeat (f_equal; try lia).
Qed.

Lemma encode_four b0 b1 b2 b3 :
  (0xF0 <=? b0) && (b0 <=? 0xF4) && second_ok b0 b1 && cont b2 && cont b3 = true →
  encode_rune (four b0 b1 b2 b3) = [b0; b1; b2; b3].
Proof.
  intros H. destruct (four_range _ _ _ _ H) as [Hr Hv]. unfold encode_rune.
  rewrite Hv. cbn [negb].
  apply andb_true_iff in H as [H Hc3]. apply andb_true_iff in H as [H Hc2].
  apply andb_true_iff in H as [H Hs]. apply second_ok_range in Hs. unfold cont in *.
  destruct (Z.ltb_spec (four b0 b1 b2 b3) 0x80); [lia|].
  destruct (Z.ltb_spec (four b0 b1 b2 b3) 0x800); [lia|].
  destruct (Z.ltb_spec (four b0 b1 b2 b3) 0x10000); [lia|].
  unfold four. repeat (f_equal; try lia).
Qed.

Lemma encode_ascii b : 0 <= b → (b <? 0x80) = true → encode_rune b = [b].
Proof.
  intros H0 H. unfold encode_rune. replace (valid_rune b) with true by (unfold valid_rune; lia).
  cbn [negb]. by rewrite H.
Qed.

Ltac unit_step := rewrite fmap_cons; cbn [concat encode_unit].

Lemma encode_decode_aux n l :
  (length l <= n)%nat → Forall is_byte l → concat (encode_unit <$> decode l) = l.
Proof.
  revert l. induction n as [|n IH]; intros [|b0 l1] Hn Hl; try done; [cbn in Hn; lia|].
  apply Forall_cons in Hl as [Hb0 Hl1]. cbn [length] in Hn.
  assert (IH' : ∀ l, (length l <= length l1)%nat → Forall is_byte l →
    concat (encode_unit <$> decode l) = l) by (intros; apply IH; [lia|done]).
  clear IH. cbn [decode]. unfold is_byte in Hb0.
  destruct (b0 <? 0x80) eqn:E0.
  { unit_step. rewrite encode_ascii, IH' by (done || lia). done. }
  destruct l1 as [|b1 l2]; [done|].
  apply Forall_cons in Hl1 as Hl2. destruct Hl2 as [_ Hl2].
  destruct (_ && cont b1) eqn:E1.
  { unit_step. rewrite encode_two, IH' by (done || (cbn; lia)). done. }
  destruct l2 as [|b2 l3]; [unit_step; by rewrite IH'|].
  apply Forall_cons in Hl2 as Hl3. destruct Hl3 as [_ Hl3].
  destruct (_ && cont b2) eqn:E2.
  { unit_step. rewrite encode_three, IH' by (done || (cbn; lia)). done. }
  destruct l3 as [|b3 l4]; [unit_step; by rewrite IH'|].
  apply Forall_cons in Hl3 as Hl4. destruct Hl4 as [_ Hl4].
  destruct (_ && cont b3) eqn:E3.
  { unit_step. rewrite encode_four, IH' by (done || (cbn; lia)). done. }
  unit_step. by rewrite IH'.
Qed.

Lemma encode_units s : of_bytes (concat (encode_unit <$> units s)) = s.
Proof.
  unfold units. rewrite (encode_decode_aux (length (bytes_of s))); auto with chirp.
  apply of_bytes_of.
Qed.

(** ** Letter case *)

(** The tables of package unicode: [unicode.ToLower] on one rune, and the
    representative of a rune's [unicode.SimpleFold] orbit. *)
Class UnicodeTables := {
  to_lower_rune : Z → Z;
  fold_rune : Z → Z;
  to_lower_valid r : valid_rune r = true → valid_rune (to_lower_rune r) = true;
  to_lower_idem r : to_lower_rune (to_lower_rune r) = to_lower_rune r;
  to_lower_ascii r : 0 <= r < 0x80 →
    to_lower_rune r = if (65 <=? r) && (r <=? 90) then r + 32 else r;
  to_lower_nonzero r : r ≠ 0 → to_lower_rune r ≠ 0;
}.

(** The tables restricted to ASCII, for running the model. *)
Definition ascii_lower (r : Z) : Z := if (65 <=? r) && (r <=? 90) then r + 32 else r.

Program Definition ascii_tables : UnicodeTables := {|
  to_lower_rune := ascii_lower; fold_rune := ascii_lower |}.
Next Obligation.
  intros r H. unfold ascii_lower, valid_rune in *. destruct (_ && (r <=? 90)) eqn:E; lia.
Qed.
Next Obligation.
  intros r. unfold ascii_lower. destruct (_ && (r <=? 90)) eqn:E; [|by rewrite E].
  case_match; lia.
Qed.
Next Obligation. done. Qed.
Next Obligation. intros r Hr. unfold ascii_lower. destruct (_ && _) eqn:E; lia. Qed.

(** [unicode.IsSpace]: White_Space of the Unicode database. *)
Definition is_space (r : Z) : bool :=
  ((9 <=? r) && (r <=? 13)) || (r =? 0x20) || (r =? 0x85) || (r =? 0xA0)
  || (r =? 0x1680) || ((0x2000 <=? r) && (r <=? 0x200A))
  || (r =? 0x2028) || (r =? 0x2029) || (r =? 0x202F) || (r =? 0x205F) || (r =? 0x3000).

Fixpoint drop_space (l : list unit8) : list unit8 :=
  match l with
  | Rune r :: l' => if is_space r then drop_space l' else l
  | _ => l
  end.

(** [strings.TrimSpace]. *)
Definition TrimSpace (s : string) : string :=
  of_bytes (concat (encode_unit <$> reverse (drop_space (reverse (drop_space (units s)))))).

Section case.
Context `{UnicodeTables}.

(** [strings.ToLower]: rune by rune, an ill-formed byte becoming U+FFFD. *)
Definition ToLower (s : string) : string :=
  of_bytes (concat (encode_rune <$> (to_lower_rune <$> runes s))).

(** [strings.EqualFold]. *)
Definition fold_key (s : string) : list Z := fold_rune <$> runes s.
Definition EqualFold (s t : string) : bool := bool_decide (fold_key s = fold_key t).

Lemma EqualFold_refl s : EqualFold s s = true.
Proof. unfold EqualFold. by rewrite bool_decide_eq_true. Qed.

Lemma EqualFold_sym s t : EqualFold s t = EqualFold t s.
Proof. unfold EqualFold. apply bool_decide_ext. naive_solver. Qed.

Lemma EqualFold_trans s t u :
  EqualFold s t = true → EqualFold t u = true → EqualFold s u = true.
Proof. unfold EqualFold. rewrite !bool_decide_eq_true. congruence. Qed.

Lemma EqualFold_l s t u : EqualFold s t = true → EqualFold s u = EqualFold t u.
Proof. unfold EqualFold. rewrite bool_decide_eq_true. by intros ->. Qed.
End case.

#[export] Hint Resolve EqualFold_refl : chirp.

Lemma decode_valid_aux n l r :
  (length l <= n)%nat → Forall is_byte l → Rune r ∈ decode l → valid_rune r = true.
Proof.
  revert l. induction n as [|n IH]; intros [|b0 l1] Hn Hl; cbn [decode]; try (by intros []%elem_of_nil);
    [cbn in Hn; lia|].
  apply Forall_cons in Hl as [Hb0 Hl1]. cbn [length] in Hn.
  assert (IH' : ∀ l, (length l <= length l1)%nat → Forall is_byte l →
    Rune r ∈ decode l → valid_rune r = true) by (intros l ?; apply IH; lia).
  clear IH. unfold is_byte in Hb0.
  destruct (b0 <? 0x80) eqn:E0.
  { intros [[= ->]|?]%elem_of_cons; [unfold valid_rune; lia|by apply (IH' l1)]. }
  destruct l1 as [|b1 l2]; [by intros [[=]|[]%elem_of_nil]%elem_of_cons|].
  apply Forall_cons in Hl1 as Hl2. destruct Hl2 as [_ Hl2].
  destruct (_ && cont b1) eqn:E1.
  { intros [[= ->]|?]%elem_of_cons; [|apply (IH' l2); cbn; auto; lia].
    unfold cont, two, valid_rune in *. lia. }
  destruct l2 as [|b2 l3]; [intros [[=]|?]%elem_of_cons; by apply (IH' [b1])|].
  apply Forall_cons in Hl2 as Hl3. destruct Hl3 as [_ Hl3].
  destruct (_ && cont b2) eqn:E2.
  { intros [[= ->]|?]%elem_of_cons; [by apply three_range|apply (IH' l3); cbn; auto; lia]. }
  destruct l3 as [|b3 l4]; [intros [[=]|?]%elem_of_cons; by apply (IH' [b1; b2])|].
  apply Forall_cons in Hl3 as Hl4. destruct Hl4 as [_ Hl4].
  destruct (_ && cont b3) eqn:E3.
  { intros [[= ->]|?]%elem_of_cons; [by apply four_range|apply (IH' l4); cbn; auto; lia]. }
  intros [[=]|?]%elem_of_cons. by apply (IH' (b1 :: b2 :: b3 :: l4)).
Qed.

Lemma runes_valid s : Forall (λ r, valid_rune r = true) (runes s).
Proof.
  apply Forall_fmap, Forall_forall. intros [r|b] Hr; [|done]. cbn.
  by apply (decode_valid_aux (length (bytes_of s)) (bytes_of s)); auto with chirp.
Qed.

Lemma concat_encode_range rs : Forall is_byte (concat (encode_rune <$> rs)).
Proof.
  induction rs as [|r rs IH]; [constructor|]. cbn. apply Forall_app.
  split; [apply encode_rune_range|done].
Qed.

(** Decoding what [AppendRune] wrote gives the runes back. *)
Lemma runes_of_encoded rs :
  Forall (λ r, valid_rune r = true) rs → runes (of_bytes (concat (encode_rune <$> rs))) = rs.
Proof.
  intros Hrs. unfold runes, units. rewrite bytes_of_of by apply concat_encode_range.
  rewrite decode_encode_list by done. rewrite <- list_fmap_compose.
  rewrite <- (list_fmap_id rs) at 2. by apply list_fmap_ext.
Qed.

Section lower_facts.
Context `{UnicodeTables}.

Lemma runes_ToLower s : runes (ToLower s) = to_lower_rune <$> runes s.
Proof.
  apply runes_of_encoded, Forall_fmap.
  eapply Forall_impl; [apply runes_valid|]. intros r. apply to_lower_valid.
Qed.

Lemma ToLower_idem s : ToLower (ToLower s) = ToLower s.
Proof.
  unfold ToLower at 1. rewrite runes_ToLower. unfold ToLower.
  do 3 f_equal. rewrite <- list_fmap_compose. apply list_fmap_ext.
  intros ? r _. apply to_lower_idem.
Qed.
End lower_facts.

(** ** Package hex *)

Definition hex_digit (d : Z) : Z := if d <? 10 then 48 + d else 87 + d.

(** [hex.EncodeToString]. *)
Definition hex_encode (s : string) : string :=
  of_bytes (b ← bytes_of s; [hex_digit (b / 16); hex_digit (b mod 16)]).

Definition is_hex (b : Z) : bool :=
  ((48 <=? b) && (b <=? 57)) || ((97 <=? b) && (b <=? 102)) || ((65 <=? b) && (b <=? 70)).

(** Whether [hex.DecodeString] returns no error: an even number of digits. *)
Definition hex_decodable (s : string) : bool :=
  forallb is_hex (bytes_of s) && (slen s mod 2 =? 0).


Lemma hex_digit_range d : 0 <= d < 16 → is_byte (hex_digit d) ∧ is_hex (hex_digit d) = true.
Proof. intros Hd. unfold hex_digit, is_byte, is_hex. ztests; lia. Qed.

Lemma hex_list_spec l :
  Forall is_byte l →
  let h := b ← l; [hex_digit (b / 16); hex_digit (b mod 16)] in
  Forall is_byte h ∧ forallb is_hex h = true ∧ length h = (2 * length l)%nat.
Proof.
  induction 1 as [|b l Hb _ (IH1 & IH2 & IH3)]; [done|]. unfold is_byte in Hb.
  destruct (hex_digit_range (b / 16)) as [? E1]; [lia|].
  destruct (hex_digit_range (b mod 16)) as [? E2]; [lia|].
  cbn in *. rewrite E1, E2, IH2, IH3. split; [by constructor; [|constructor]|split; [done|lia]].
Qed.

Lemma bytes_of_hex s :
  bytes_of (hex_encode s) = (b ← bytes_of s; [hex_digit (b / 16); hex_digit (b mod 16)]).
Proof. unfold hex_encode. apply bytes_of_of. by apply hex_list_spec, bytes_of_range. Qed.

(** [hex.EncodeToString] writes two hex digits per byte. *)
Lemma hex_encode_decodable s : hex_decodable (hex_encode s) = true.
Proof.
  unfold hex_decodable, slen. rewrite <- bytes_of_length, bytes_of_hex.
  destruct (hex_list_spec (bytes_of s)) as (_ & -> & ->); [apply bytes_of_range|].
  cbn [andb]. apply Z.eqb_eq. lia.
Qed.

Lemma hex_encode_length s : slen (hex_encode s) = 2 * slen s.
Proof.
  unfold slen. rewrite <- bytes_of_length, bytes_of_hex.
  destruct (hex_list_spec (bytes_of s)) as (_ & _ & ->); [apply bytes_of_range|].
  rewrite bytes_of_length. lia.
Qed.

(** ** NUL bytes

    The store ends a name inside a key with a NUL byte, so it matters that
    names hold none and that trimming and lower-casing bring none in. *)

Definition no_nul (s : string) : Prop := 0 ∉ bytes_of s.

Lemma bytes_of_units s : bytes_of s = concat (encode_unit <$> units s).
Proof.
  unfold units. by rewrite (encode_decode_aux (length (bytes_of s))) by auto with chirp.
Qed.

Lemma units_no_zero l : Forall is_byte l → Bad 0 ∉ decode l.
Proof.
  intros Hl. cut (∀ n l, (length l <= n)%nat → Forall is_byte l → Bad 0 ∉ decode l).
  { intros Hc. by apply (Hc (length l)). }
  clear l Hl. induction n as [|n IH]; intros [|b0 l1] Hn Hl; cbn [decode];
    try (by intros []%elem_of_nil); [cbn in Hn; lia|].
  apply Forall_cons in Hl as [Hb0 Hl]. cbn in Hn. unfold is_byte in Hb0.
  assert (IH' : ∀ l, (length l <= length l1)%nat → Forall is_byte l → Bad 0 ∉ decode l)
    by (intros l ?; apply IH; lia). clear IH.
  assert (Hbad : (b0 <? 0x80) = false → Bad 0 ≠ Bad b0) by (intros ? [=]; lia).
  destruct (b0 <? 0x80) eqn:E0.
  { apply not_elem_of_cons. split; [done|]. by apply IH'. }
  specialize (Hbad eq_refl).
  destruct l1 as [|b1 l2]; [by apply not_elem_of_cons; split; [|apply not_elem_of_nil]|].
  pose proof Hl as [_ Hl2]%Forall_cons. destruct (_ && cont b1) eqn:E1.
  { apply not_elem_of_cons. split; [done|]. apply IH'; [cbn; lia|done]. }
  destruct l2 as [|b2 l3]; [by apply not_elem_of_cons; split; [|apply IH']|].
  pose proof Hl2 as [_ Hl3]%Forall_cons. destruct (_ && cont b2) eqn:E2.
  { apply not_elem_of_cons. split; [done|]. apply IH'; [cbn; lia|done]. }
  destruct l3 as [|b3 l4]; [by apply not_elem_of_cons; split; [|apply IH']|].
  pose proof Hl3 as [_ Hl4]%Forall_cons. destruct (_ && cont b3) eqn:E3.
  { apply not_elem_of_cons. split; [done|]. apply IH'; [cbn; lia|done]. }
  apply not_elem_of_cons. by split; [|apply IH'].
Qed.

Lemma encode_rune_zero r : 0 ∈ encode_rune r → r = 0.
Proof.
  unfold encode_rune, valid_rune. intros H0.
  repeat case_match; repeat (apply elem_of_cons in H0 as [H0|H0]; [lia|]);
    by apply not_elem_of_nil in H0.
Qed.

Lemma concat_no_zero (ls : list (list Z)) : Forall (λ l, 0 ∉ l) ls → 0 ∉ concat ls.
Proof.
  induction 1 as [|l ls Hl _ IH]; cbn; [apply not_elem_of_nil|].
  by rewrite elem_of_app; intros [?|?].
Qed.

Lemma encode_unit_no_zero u : u ≠ Rune 0 → u ≠ Bad 0 → 0 ∉ encode_unit u.
Proof.
  destruct u as [r|b]; cbn.
  - intros Hr _ H0. apply encode_rune_zero in H0 as ->. done.
  - intros _ Hb <-%list_elem_of_singleton. done.
Qed.

Lemma no_nul_units s : no_nul s ↔ Forall (λ u, u ≠ Rune 0 ∧ u ≠ Bad 0) (units s).
Proof.
  unfold no_nul. rewrite bytes_of_units. generalize (units s). intros us. split.
  - intros H0. apply Forall_forall. intros u Hu.
    apply list_elem_of_split in Hu as (u1 & u2 & ->).
    rewrite fmap_app, concat_app in H0. cbn in H0.
    split; intros ->; apply H0; cbn; set_solver.
  - intros Hu. apply concat_no_zero, Forall_fmap. eapply Forall_impl; [done|].
    intros u [? ?]. by apply encode_unit_no_zero.
Qed.

Lemma runes_no_nul s : Forall (λ r, r ≠ 0) (runes s) → no_nul s.
Proof.
  intros Hr. apply no_nul_units. pose proof (units_no_zero (bytes_of s)) as Hb.
  unfold runes in Hr. rewrite Forall_fmap in Hr. rewrite Forall_forall in *.
  intros u Hu. split; intros ->; [by apply (Hr _ Hu)|by apply Hb; auto with chirp].
Qed.

Lemma no_nul_runes s : no_nul s → Forall (λ r, r ≠ 0) (runes s).
Proof.
  rewrite no_nul_units. unfold runes. rewrite Forall_fmap.
  intros Hu. eapply Forall_impl; [done|]. intros [r|b] [H1 H2]; cbn; [congruence|done].
Qed.

Lemma drop_space_subseteq l : drop_space l ⊆ l.
Proof.
  induction l as [|[r|b] l IH]; cbn; [done| |done].
  destruct (is_space r); [by apply list_subseteq_cons|done].
Qed.

Lemma no_nul_concat us :
  Forall (λ u, u ≠ Rune 0 ∧ u ≠ Bad 0) us → Forall is_byte (concat (encode_unit <$> us)) →
  no_nul (of_bytes (concat (encode_unit <$> us))).
Proof.
  intros Hu Hb. unfold no_nul. rewrite bytes_of_of by done.
  apply concat_no_zero, Forall_fmap. eapply Forall_impl; [done|].
  intros u [? ?]. by apply encode_unit_no_zero.
Qed.

Lemma concat_units_range us s :
  us ⊆ units s → Forall is_byte (concat (encode_unit <$> us)).
Proof.
  intros Hs. pose proof (bytes_of_range s) as Hr. rewrite bytes_of_units in Hr.
  induction us as [|u us IH]; cbn; [constructor|]. apply Forall_app. split; [|set_solver].
  assert (Hu : u ∈ units s) by set_solver.
  apply list_elem_of_split in Hu as (u1 & u2 & Hu). rewrite Hu, fmap_app, concat_app in Hr.
  apply Forall_app in Hr as [_ Hr]. cbn in Hr. by apply Forall_app in Hr as [? _].
Qed.

Lemma TrimSpace_no_nul s : no_nul s → no_nul (TrimSpace s).
Proof.
  intros Hs. unfold TrimSpace.
  assert (Hsub : reverse (drop_space (reverse (drop_space (units s)))) ⊆ units s).
  { intros u. rewrite elem_of_reverse. intros Hu%drop_space_subseteq.
    rewrite elem_of_reverse in Hu. by apply drop_space_subseteq. }
  apply no_nul_concat; [|by eapply concat_units_range].
  apply no_nul_units in Hs. rewrite Forall_forall in *. auto.
Qed.

Lemma ToLower_no_nul `{UnicodeTables} s : no_nul s → no_nul (ToLower s).
Proof.
  intros Hs. apply runes_no_nul. rewrite runes_ToLower. apply Forall_fmap.
  eapply Forall_impl; [by apply no_nul_runes|]. intros r. apply to_lower_nonzero.
Qed.

(** ** ASCII texts *)

Definition ascii_text (s : string) : Prop := Forall (λ b, 0 <= b < 0x80) (bytes_of s).

#[export] Instance ascii_text_dec s : Decision (ascii_text s).
Proof. unfold ascii_text. apply _. Defined.

Lemma units_ascii s : ascii_text s → units s = Rune <$> bytes_of s.
Proof.
  unfold ascii_text, units. induction 1 as [|b l Hb _ IH]; [done|].
  rewrite decode_1 by lia. cbn. by rewrite IH.
Qed.

Lemma encode_ascii_list l :
  Forall (λ b, 0 <= b < 0x80) l → concat (encode_rune <$> l) = l.
Proof.
  induction 1 as [|b l Hb _ IH]; [done|]. cbn. rewrite encode_ascii by lia. cbn. by rewrite IH.
Qed.

Lemma ToLower_ascii `{UnicodeTables} s :
  ascii_text s → ToLower s = of_bytes (ascii_lower <$> bytes_of s).
Proof.
  intros Hs. unfold ToLower, runes. rewrite units_ascii by done.
  assert (to_lower_rune <$> (rune_of <$> (Rune <$> bytes_of s)) = ascii_lower <$> bytes_of s) as ->.
  { rewrite <- !list_fmap_compose. apply list_fmap_ext. intros i b Hb. cbn.
    unfold ascii_text in Hs. rewrite Forall_lookup in Hs. apply to_lower_ascii. eauto. }
  rewrite encode_ascii_list; [done|]. apply Forall_fmap. eapply Forall_impl; [exact Hs|].
  intros b Hb. cbn in *. unfold ascii_lower. destruct (_ && _) eqn:E; lia.
Qed.
