(* ===== verification/Sha256.v ===== *)
(** * SHA-256 (package crypto/sha256)

    The hash of the Go standard library, as FIPS 180-4 defines it, on the
    bytes of a string.  Executable: the examples are the standard's vectors. *)

From S2P Require Import Prelude GoStrings Utf8.

Definition w32 (z : Z) : Z := z mod 2 ^ 32.
Definition rotr (n x : Z) : Z := Z.lor (Z.shiftr x n) (w32 (Z.shiftl x (32 - n))).

Definition Ch (x y z : Z) : Z := Z.lxor (Z.land x y) (Z.land (2 ^ 32 - 1 - x) z).
Definition Maj (x y z : Z) : Z := Z.lxor (Z.land x y) (Z.lxor (Z.land x z) (Z.land y z)).
Definition Sigma0 (x : Z) : Z := Z.lxor (rotr 2 x) (Z.lxor (rotr 13 x) (rotr 22 x)).
Definition Sigma1 (x : Z) : Z := Z.lxor (rotr 6 x) (Z.lxor (rotr 11 x) (rotr 25 x)).
Definition sigma0 (x : Z) : Z := Z.lxor (rotr 7 x) (Z.lxor (rotr 18 x) (Z.shiftr x 3)).
Definition sigma1 (x : Z) : Z := Z.lxor (rotr 17 x) (Z.lxor (rotr 19 x) (Z.shiftr x 10)).

(** The round constants, eight words of 32 bits to a row, most significant first. *)
Definition K_rows : list Z :=
  [ 0x428a2f9871374491b5c0fbcfe9b5dba53956c25b59f111f1923f82a4ab1c5ed5;
    0xd807aa9812835b01243185be550c7dc372be5d7480deb1fe9bdc06a7c19bf174;
    0xe49b69c1efbe47860fc19dc6240ca1cc2de92c6f4a7484aa5cb0a9dc76f988da;
    0x983e5152a831c66db00327c8bf597fc7c6e00bf3d5a7914706ca635114292967;
    0x27b70a852e1b21384d2c6dfc53380d13650a7354766a0abb81c2c92e92722c85;
    0xa2bfe8a1a81a664bc24b8b70c76c51a3d192e819d6990624f40e3585106aa070;
    0x19a4c1161e376c082748774c34b0bcb5391c0cb34ed8aa4a5b9cca4f682e6ff3;
    0x748f82ee78a5636f84c878148cc7020890befffaa4506cebbef9a3f7c67178f2 ].

Definition split_row (row : Z) : list Z :=
  (λ i, w32 (Z.shiftr row (32 * i))) <$> [7; 6; 5; 4; 3; 2; 1; 0].

Definition K256 : list Z := Eval vm_compute in row ← K_rows; split_row row.

Record hstate := mkH { ha : Z; hb : Z; hc : Z; hd : Z; he : Z; hf : Z; hg : Z; hh : Z }.

Definition H0 : hstate :=
  match split_row 0x6a09e667bb67ae853c6ef372a54ff53a510e527f9b05688c1f83d9ab5be0cd19 with
  | [a; b; c; d; e; f; g; h] => mkH a b c d e f g h
  | _ => mkH 0 0 0 0 0 0 0 0
  end.

Definition round (s : hstate) (kw : Z * Z) : hstate :=
  let '(k, w) := kw in
  let t1 := hh s + Sigma1 (he s) + Ch (he s) (hf s) (hg s) + k + w in
  let t2 := Sigma0 (ha s) + Maj (ha s) (hb s) (hc s) in
  mkH (w32 (t1 + t2)) (ha s) (hb s) (hc s) (w32 (hd s + t1)) (he s) (hf s) (hg s).

(** The message schedule, latest word first. *)
Fixpoint schedule (n : nat) (w : list Z) : list Z :=
  match n with
  | O => w
  | S n' =>
      let at_ i := default 0 (w !! i) in
      schedule n'
        (w32 (sigma1 (at_ 1%nat) + at_ 6%nat + sigma0 (at_ 14%nat) + at_ 15%nat) :: w)
  end.

Definition add_state (s t : hstate) : hstate :=
  mkH (w32 (ha s + ha t)) (w32 (hb s + hb t)) (w32 (hc s + hc t)) (w32 (hd s + hd t))
      (w32 (he s + he t)) (w32 (hf s + hf t)) (w32 (hg s + hg t)) (w32 (hh s + hh t)).

Definition compress (s : hstate) (block : list Z) : hstate :=
  add_state s (foldl round s (zip K256 (reverse (schedule 48 (reverse block))))).

(** Words of four bytes, blocks of sixteen words. *)
Fixpoint words (n : nat) (l : list Z) : list Z :=
  match n with
  | O => []
  | S n' => be_combine (take 4 l) :: words n' (drop 4 l)
  end.

Definition pad (l : list Z) : list Z :=
  let n := Z.of_nat (length l) in
  l ++ [0x80] ++ replicate (Z.to_nat ((55 - n) mod 64)) 0 ++ be_bytes 8 (8 * n).

Fixpoint blocks (n : nat) (s : hstate) (l : list Z) : hstate :=
  match n with
  | O => s
  | S n' => blocks n' (compress s (words 16 l)) (drop 64 l)
  end.

(** [sha256.Sum256]. *)
Definition Sum256 (s : string) : string :=
  let m := pad (bytes_of s) in
  let h := blocks (length m / 64) H0 m in
  of_bytes (w ← [ha h; hb h; hc h; hd h; he h; hf h; hg h; hh h]; be_bytes 4 w).

Lemma Sum256_length s : slen (Sum256 s) = 32.
Proof. unfold Sum256. rewrite slen_of_bytes. done. Qed.

Example sha256_empty :
  hex_encode (Sum256 "") = "e3b0c44298fc1c149afbf4c8996fb92427ae41e4649b934ca495991b7852b855".
Proof. vm_compute. done. Qed.

Example sha256_abc :
  hex_encode (Sum256 "abc") = "ba7816bf8f01cfea414140de5dae2223b00361a396177a9cb410ff61f20015ad".
Proof. vm_compute. done. Qed.

Example sha256_two_blocks :
  hex_encode (Sum256 "abcdbcdecdefdefgefghfghighijhijkijkljklmklmnlmnomnopnopq")
  = "248d6a61d20638b8e5c026930c3e6039a33ce45964ff2167f6ecedd419db06c1".
Proof. vm_compute. done. Qed.

#[export] Hint Resolve Sum256_length : chirp.
