(* ===== verification/Proto.v ===== *)
(** * The wire format (internal/proto/proto.go)

    Length-prefixed frames, the envelope with its validation, message ids and
    the handshake's Hello.  A reader is the string of bytes still to come; a
    writer's [Write] is not modelled beyond the bytes handed to it. *)

From S2P Require Import Prelude GoStrings Utf8.

(** ** Constants *)

Definition Version : Z := 2.
Definition MaxFrame : Z := 65535.
Definition MaxBody : Z := 4096.
Definition MaxFileSize : Z := Z.shiftl 100 20.
Definition IDLen : Z := 16.
Definition ChunkSize : Z := Z.shiftl 32 10.

Definition CapFiles := "files".
Definition CapReactions := "reactions".
Definition CapReceipts := "receipts".
Definition CapTyping := "typing".
Definition CapRooms := "rooms".
Definition CapResume := "resume".

(** ** Frames *)

(** The bytes handed to the one [w.Write] call. *)
Definition WriteFrame (payload : string) : result string :=
  if slen payload =? 0 then Err (Sentinel ErrEmptyFrame)
  else if MaxFrame <? slen payload then Err (Sentinel ErrFrameTooLarge)
  else Ok (be_put16 (uint16 (slen payload)) +:+ payload).

(** [io.ReadFull(r, buf)] with [len(buf) = n]: the bytes read and what is left. *)
Definition ReadFull (n : Z) (r : string) : result (string * string) :=
  if n =? 0 then Ok ("", r)
  else if slen r =? 0 then Err (Sentinel ErrEOF)
  else if slen r <? n then Err (Sentinel ErrUnexpectedEOF)
  else Ok (str_take (Z.to_nat n) r, str_drop (Z.to_nat n) r).

Definition ReadFrame (r : string) : result (string * string) :=
  '(hdr, r1) ← ReadFull 2 r;
  let n := be_get16 hdr in
  if n =? 0 then Err (Sentinel ErrEmptyFrame)
  else '(buf, r2) ← ReadFull n r1; Ok (buf, r2).

(** ** Envelopes *)

Definition TypeMsg := "msg".
Definition TypeAck := "ack".
Definition TypePing := "ping".
Definition TypeReact := "react".
Definition TypeDel := "del".
Definition TypeDelAll := "delall".
Definition TypeTyping := "typing".
Definition TypeRead := "read".
Definition TypeFile := "file".
Definition TypeChunk := "chunk".
Definition TypeFileAck := "fileack".
Definition TypeRoomMsg := "roommsg".
Definition TypeRoomAck := "roomack".
Definition TypeRoomEvent := "roomevent".

Record Envelope := mkEnvelope {
  T : string; ID : string; TS : Z; Body : string; ReplyTo : string;
  Emoji : string; Target : string; Src : string; Size : Z; Hash : string;
  Offset : Z; Chunk : string;
  Room : string; Seq : Z; RoomEvent : string; RoomName : string;
  RoomActor : string; RoomMembers : list string
}.

(** The zero [Envelope{T: t}]; literals set fields on top of it. *)
Definition envelope (t : string) : Envelope :=
  mkEnvelope t "" 0 "" "" "" "" "" 0 "" 0 "" "" 0 "" "" "" [].

Definition eqs (a b : string) : bool := bool_decide (a = b).
Infix "=s?" := eqs (at level 70, no associativity) : stdpp_scope.

Definition checkID (id : string) : result unit :=
  if negb (slen id =? IDLen * 2) then Err (Errorf "proto: bad id length")
  else if negb (hex_decodable id) then Err (Errorf "proto: id is not hex")
  else Ok tt.

(** [if err := checkID(id); err != nil { return fmt.Errorf(msg, err) }]. *)
Definition checkID_as (msg id : string) : result unit :=
  match checkID id with Ok _ => Ok tt | Err e => Err (Wrapf msg e) end.

Definition require (ok : bool) (msg : string) : result unit :=
  if ok then Ok tt else Err (Errorf msg).

(** Room events the validator knows. *)
Definition validEvents : list string := ["join"; "leave"; "remove"; "rename"; "create"].

Definition validate_body (e : Envelope) : result unit :=
  if T e =s? TypeMsg then
    _ ← checkID (ID e);
    _ ← require (negb (Body e =s? "")) "proto: empty body";
    _ ← require (slen (Body e) <=? MaxBody) "proto: body too long";
    _ ← require (ValidString (Body e)) "proto: body is not valid UTF-8";
    if ReplyTo e =s? "" then Ok tt else checkID_as "proto: bad replyTo" (ReplyTo e)
  else if T e =s? TypeAck then
    _ ← checkID (ID e);
    require (Body e =s? "") "proto: ack must not carry a body"
  else if T e =s? TypePing then
    require ((ID e =s? "") && (Body e =s? "")) "proto: ping must be empty"
  else if T e =s? TypeReact then
    _ ← checkID_as "proto: bad react target" (Target e);
    _ ← require (negb (Emoji e =s? "")) "proto: react must have emoji";
    _ ← require (RuneCountInString (Emoji e) <=? 32) "proto: emoji too long";
    _ ← require (ValidString (Emoji e)) "proto: emoji is not valid UTF-8";
    if Room e =s? "" then Ok tt else checkID_as "proto: bad react room" (Room e)
  else if T e =s? TypeDel then checkID_as "proto: bad del target" (Target e)
  else if T e =s? TypeDelAll then checkID_as "proto: bad delall target" (Target e)
  else if T e =s? TypeTyping then Ok tt
  else if T e =s? TypeRead then
    _ ← require (negb (Target e =s? "")) "proto: read must have target";
    checkID_as "proto: bad read target" (Target e)
  else if T e =s? TypeFile then
    _ ← checkID (ID e);
    _ ← require (negb (Src e =s? "")) "proto: file must have src";
    _ ← require (negb ((Size e <=? 0) || (MaxFileSize <? Size e))) "proto: file size out of range";
    _ ← require (negb ((Hash e =s? "") || negb (slen (Hash e) =? 64)))
          "proto: file must have 64-char SHA-256 hash";
    require (hex_decodable (Hash e)) "proto: file hash is not hex"
  else if T e =s? TypeChunk then
    _ ← checkID (ID e);
    _ ← require (negb ((Offset e <? 0) || (MaxFileSize <? Offset e)))
          "proto: chunk offset out of range";
    require (negb ((slen (Chunk e) =? 0) || (ChunkSize + 1024 <? slen (Chunk e))))
      "proto: chunk size out of range"
  else if T e =s? TypeFileAck then
    _ ← checkID (ID e);
    _ ← require (negb ((Offset e <? 0) || (MaxFileSize <? Offset e)))
          "proto: fileack offset out of range";
    require (negb (negb (slen (Chunk e) =? 0) || negb (Body e =s? "")))
      "proto: fileack must carry no data"
  else if T e =s? TypeRoomMsg then
    _ ← checkID (ID e);
    _ ← require (negb (Room e =s? "")) "proto: roommsg must have room";
    _ ← checkID_as "proto: bad room id" (Room e);
    _ ← require (negb (Body e =s? "")) "proto: roommsg must have body";
    _ ← require (slen (Body e) <=? MaxBody) "proto: body too long";
    _ ← require (ValidString (Body e)) "proto: body is not valid UTF-8";
    if ReplyTo e =s? "" then Ok tt else checkID_as "proto: bad replyTo" (ReplyTo e)
  else if T e =s? TypeRoomAck then
    _ ← checkID (ID e);
    _ ← require (negb (Room e =s? "")) "proto: roomack must have room";
    checkID_as "proto: bad room id" (Room e)
  else if T e =s? TypeRoomEvent then
    _ ← require (negb (Room e =s? "")) "proto: roomevent must have room";
    _ ← checkID_as "proto: bad room id" (Room e);
    _ ← require (bool_decide (RoomEvent e ∈ validEvents)) "proto: unknown room event";
    require (negb (RoomActor e =s? "")) "proto: roomevent must have roomActor"
  else Err (Errorf "proto: unknown type").

Definition validate (e : Envelope) : result unit :=
  _ ← validate_body e;
  require (negb (negb (Seq e =? 0) && negb (T e =s? TypeRoomMsg))) "proto: must not carry seq".

(** [NewID(r)]: sixteen bytes of the reader, in hex. *)
Definition NewID (r : string) : result (string * string) :=
  '(b, r') ← ReadFull IDLen r; Ok (hex_encode b, r').

(** ** Hello *)

Record Hello := { V : Z; Name : string; Caps : list string }.

Fixpoint has_cap (caps : list string) (cap : string) : bool :=
  match caps with
  | [] => false
  | c :: caps' => if c =s? cap then true else has_cap caps' cap
  end.

Definition HasCap (h : Hello) (cap : string) : bool := has_cap (Caps h) cap.

Definition RemoteVersion (local remote : Z) : Z :=
  if remote <? local then remote else local.

(** ** Lemmas *)

Lemma eqs_true a b : (a =s? b) = true ↔ a = b.
Proof. apply bool_decide_eq_true. Qed.

Lemma eqs_false a b : (a =s? b) = false ↔ a ≠ b.
Proof. apply bool_decide_eq_false. Qed.

Lemma eqs_refl a : (a =s? a) = true.
Proof. by apply eqs_true. Qed.

Lemma require_ok b m : require b m = Ok tt ↔ b = true.
Proof. destruct b; cbn; split; congruence. Qed.

#[export] Hint Rewrite require_ok : chirp.
#[export] Hint Resolve eqs_refl : chirp.

Lemma slen_zero s : slen s = 0 ↔ s = "".
Proof. unfold slen. destruct s; cbn; split; (done || lia). Qed.

Lemma slen_take n s : 0 <= n <= slen s → slen (str_take (Z.to_nat n) s) = n.
Proof.
  unfold slen, str_take. intros H. rewrite of_bytes_length, length_take, bytes_of_length. lia.
Qed.

(** What [ReadFull] returns is a prefix of the reader of the asked length. *)
Lemma ReadFull_ok n r b r' :
  0 <= n → ReadFull n r = Ok (b, r') ↔ r = b +:+ r' ∧ slen b = n.
Proof.
  intros Hn. unfold ReadFull.
  destruct (Z.eqb_spec n 0) as [->|Hn0].
  { split; [by intros [= <- <-]|]. intros [-> Hb]. by apply slen_zero in Hb as ->. }
  destruct (Z.eqb_spec (slen r) 0) as [Hr|Hr].
  { split; [done|]. intros [-> Hb]. rewrite slen_app in Hr.
    pose proof (slen_nonneg r'). lia. }
  destruct (Z.ltb_spec (slen r) n) as [Hl|Hl].
  { split; [done|]. intros [-> Hb]. rewrite slen_app in Hl.
    pose proof (slen_nonneg r'). lia. }
  split.
  - intros [= <- <-]. split; [by rewrite str_take_drop|]. apply slen_take. lia.
  - intros [-> Hb]. assert (Z.to_nat n = String.length b) by (unfold slen in Hb; lia).
    by rewrite str_take_app, str_drop_app.
Qed.

Lemma be_put16_len v : slen (be_put16 v) = 2.
Proof. done. Qed.

Lemma WriteFrame_ok p b :
  WriteFrame p = Ok b ↔ 1 <= slen p <= MaxFrame ∧ b = be_put16 (slen p) +:+ p.
Proof.
  unfold WriteFrame, MaxFrame. pose proof (slen_nonneg p).
  destruct (Z.eqb_spec (slen p) 0); [split; [done|lia]|].
  destruct (Z.ltb_spec 65535 (slen p)); [split; [done|lia]|].
  unfold uint16. rewrite Z.mod_small by lia. split; [intros [= <-]; split; [lia|done]|].
  by intros [_ ->].
Qed.

Lemma be_put16_get16 s : slen s = 2 → be_put16 (be_get16 s) = s.
Proof.
  intros Hs. apply bytes_of_inj. unfold slen in Hs. rewrite <- bytes_of_length in Hs.
  pose proof (bytes_of_range s) as Hr. unfold be_get16.
  destruct (bytes_of s) as [|b1 [|b0 [|]]]; cbn in Hs; try lia.
  apply Forall_cons in Hr as [Hb1 [Hb0 _]%Forall_cons]. unfold is_byte in *.
  unfold be_put16.
  assert (E : Z.lor (Z.shiftl b1 8) b0 = 256 * b1 + b0).
  { rewrite Z.shiftl_mul_pow2 by lia. pose proof (Z.add_lor_land (b1 * 2 ^ 8) b0).
    enough (Z.land (b1 * 2 ^ 8) b0 = 0) by lia. apply Z.bits_inj'. intros i Hi. rewrite Z.land_spec, Z.bits_0.
    destruct (Z.lt_ge_cases i 8).
    - by rewrite Z.mul_pow2_bits_low by lia.
    - rewrite (Z.bits_above_log2 b0); [by rewrite andb_false_r|lia|].
      destruct (Z.eq_dec b0 0) as [->|]; [cbn; lia|].
      apply Z.log2_lt_pow2; [lia|]. eapply Z.lt_le_trans; [apply Hb0|].
      change 256 with (2 ^ 8). apply Z.pow_le_mono_r; lia. }
  rewrite E, bytes_of_of.
  - rewrite Z.shiftr_div_pow2 by lia. unfold byte8.
    replace ((256 * b1 + b0) / 2 ^ 8) with b1 by (apply Z.div_unique with b0; lia).
    replace ((256 * b1 + b0) mod 2 ^ 8) with b0 by (apply Z.mod_unique with b1; lia). done.
  - constructor; [|constructor; [apply byte8_range|constructor]].
    rewrite Z.shiftr_div_pow2 by lia.
    replace ((256 * b1 + b0) / 2 ^ 8) with b1 by (apply Z.div_unique with b0; lia). done.
Qed.

Lemma be_get16_range s : 0 <= be_get16 s < 2 ^ 16.
Proof.
  unfold be_get16. pose proof (bytes_of_range s) as Hr.
  destruct (bytes_of s) as [|b1 [|b0 l]]; [lia..|].
  apply Forall_cons in Hr as [Hb1 [Hb0 _]%Forall_cons]. unfold is_byte in *.
  split; [apply Z.lor_nonneg; rewrite Z.shiftl_nonneg; lia|].
  destruct (Z.eq_dec (Z.lor (Z.shiftl b1 8) b0) 0) as [->|Hne]; [lia|].
  assert (0 <= Z.lor (Z.shiftl b1 8) b0) by (apply Z.lor_nonneg; rewrite Z.shiftl_nonneg; lia).
  apply Z.log2_lt_pow2; [lia|]. rewrite Z.log2_lor by (rewrite ?Z.shiftl_nonneg; lia).
  apply Z.max_lub_lt; rewrite ?Z.shiftl_mul_pow2 by lia;
    (apply Z.le_lt_trans with (Z.log2 (2 ^ 16 - 1)); [apply Z.log2_le_mono; lia|done]).
Qed.

(** Reading inverts writing, and whatever reading accepts is the frame
    writing would have produced: the framing is a bijection on its image. *)
Lemma ReadFrame_ok s p r :
  ReadFrame s = Ok (p, r) ↔ ∃ b, WriteFrame p = Ok b ∧ s = b +:+ r.
Proof.
  unfold ReadFrame. rewrite bind_ok. split.
  - intros [[hdr r1] [[-> Hh]%ReadFull_ok Hf]]; [|lia].
    destruct (Z.eqb_spec (be_get16 hdr) 0) as [|Hn]; [done|].
    apply bind_ok in Hf as [[buf r2] [Hb [= -> ->]]].
    pose proof (be_get16_range hdr).
    apply ReadFull_ok in Hb as [-> Hb]; [|lia].
    exists (be_put16 (slen p) +:+ p). split.
    + apply WriteFrame_ok. unfold MaxFrame. split; [lia|done].
    + rewrite Hb, be_put16_get16 by done. by rewrite str_app_assoc.
  - intros [b [[Hp ->]%WriteFrame_ok ->]]. unfold MaxFrame in Hp.
    exists (be_put16 (slen p), p +:+ r). split.
    + apply ReadFull_ok; [lia|]. by rewrite str_app_assoc.
    + replace (be_get16 (be_put16 (slen p))) with (slen p).
      2: { rewrite <- (str_app_nil_r (be_put16 _)), be_get_put16; [done|lia]. }
      destruct (Z.eqb_spec (slen p) 0); [lia|].
      rewrite bind_ok. exists (p, r). split; [|done]. apply ReadFull_ok; [lia|done].
Qed.
