(* ===== verification/Identity.v ===== *)
(** * Identities (internal/identity)

    Display names, fingerprints, the six words, the identicon seed, the
    passphrase meter.  Key generation is package noise's: the parameter
    [Curve]. *)

From S2P Require Import Prelude GoStrings Utf8 Proto Sha256.

(** [noise.DH25519.GenerateKeypair] on the 32 bytes it reads: the private key
    is those bytes, the public key is computed from it. *)
Class Curve := {
  dh_public : string → result string;
  dh_public_len priv pub : dh_public priv = Ok pub → slen pub = 32;
}.

(** A stand-in for running the model. *)
Program Definition toy_curve : Curve := {| dh_public priv := Ok (Sum256 priv) |}.
Next Obligation. intros priv pub [= <-]. apply Sum256_length. Qed.

(** [Identity], its [noise.DHKey] inlined. *)
Record Identity := mkIdentity { id_Name : string; id_Private : string; id_Public : string }.

Definition MaxNameLen : Z := 32.

Definition ValidateName (name : string) : result string :=
  let name := TrimSpace name in
  if name =s? "" then Err (Errorf "name is empty")
  else if MaxNameLen <? RuneCountInString name
  then Err (Errorf "name is longer than 32 characters")
  else if existsb (λ r, (r <? 0x20) || (r =? 0x7f)) (runes name)
  then Err (Errorf "name contains control characters")
  else Ok name.

Section generate.
Context `{Curve}.

(** [noise.DH25519.GenerateKeypair(rng)]. *)
Definition GenerateKeypair (rng : result string) : result (string * string) :=
  priv ← rng; pub ← dh_public priv; Ok (priv, pub).

Definition Generate (name : string) (rng : result string) : result Identity :=
  name ← ValidateName name;
  '(priv, pub) ← GenerateKeypair rng;
  Ok (mkIdentity name priv pub).
(** A key pair and a display name as setup leaves them. *)
Definition identity_ok (id : Identity) : Prop :=
  dh_public (id_Private id) = Ok (id_Public id) ∧ ValidateName (id_Name id) = Ok (id_Name id)
  ∧ ValidString (id_Name id) = true.
End generate.

Definition Fingerprint (pub : string) : string := hex_encode (Sum256 pub).

(** The loop [for i := 0; i+4 <= len(fp); i += 4]. *)
Fixpoint groups_of (l : list Z) : list string :=
  match l with
  | a :: b :: c :: d :: l' => of_bytes [a; b; c; d] :: groups_of l'
  | _ => []
  end.

Definition FingerprintGroups (fp : string) : list string := groups_of (bytes_of fp).

Definition wordList : list string :=
  ["acorn"; "amber"; "anchor"; "apple"; "arrow"; "aspen"; "atlas"; "aurora";
   "badge"; "bagel"; "baker"; "basalt"; "beacon"; "birch"; "bison"; "blaze";
   "bloom"; "bolt"; "bramble"; "breeze"; "bridge"; "brook"; "cabin"; "cactus";
   "cairn"; "candle"; "canyon"; "cedar"; "chalk"; "cherry"; "cider"; "cinder";
   "clover"; "cobalt"; "comet"; "copper"; "coral"; "cotton"; "crane"; "creek";
   "crest"; "crisp"; "crown"; "dagger"; "daisy"; "dapple"; "dawn"; "delta";
   "dune"; "eagle"; "ebony"; "ember"; "falcon"; "fern"; "ferry"; "fjord";
   "flint"; "forest"; "fossil"; "frost"; "garnet"; "ginger"; "glacier"; "granite";
   "grove"; "harbor"; "hazel"; "heron"; "hollow"; "honey"; "iris"; "ivory";
   "jasper"; "jungle"; "kettle"; "kite"; "lagoon"; "lantern"; "larch"; "laurel";
   "lemon"; "lichen"; "lilac"; "linen"; "lotus"; "lumen"; "maple"; "marble";
   "meadow"; "mesa"; "mint"; "mist"; "moss"; "mango"; "nectar"; "nickel";
   "nutmeg"; "oasis"; "olive"; "onyx"; "opal"; "orchid"; "otter"; "oyster";
   "paddle"; "pebble"; "pepper"; "pine"; "plum"; "pond"; "poppy"; "prairie";
   "quartz"; "quill"; "rabbit"; "raven"; "reed"; "ridge"; "river"; "robin";
   "rocket"; "saddle"; "saffron"; "sage"; "sailor"; "sand"; "sequoia"; "shadow";
   "silver"; "sketch"; "slate"; "sparrow"; "spruce"; "stone"; "summit"; "sunset";
   "swift"; "tanager"; "thistle"; "thunder"; "tiger"; "timber"; "topaz"; "tulip";
   "tundra"; "umber"; "valley"; "velvet"; "violet"; "walnut"; "willow"; "winter";
   "yarrow"; "zephyr"; "zinc"; "almond"; "bamboo"; "barley"; "basil"; "berry";
   "biscuit"; "blossom"; "bronze"; "butter"; "canvas"; "caramel"; "carrot"; "cashew";
   "celery"; "chestnut"; "cinnamon"; "citrus"; "clay"; "cocoa"; "compass"; "cricket";
   "cypress"; "dolphin"; "dragon"; "drift"; "echo"; "elm"; "engine"; "feather";
   "fiddle"; "finch"; "flame"; "flute"; "galaxy"; "garden"; "gecko"; "glow";
   "gravel"; "guitar"; "harvest"; "hawk"; "hickory"; "island"; "jade"; "jelly";
   "juniper"; "kayak"; "koala"; "ladder"; "lark"; "lemur"; "lime"; "lunar";
   "magnet"; "marsh"; "mirror"; "mosaic"; "mule"; "nova"; "orbit"; "panda";
   "parrot"; "pelican"; "pilot"; "pixel"; "planet"; "puffin"; "pulse"; "radar";
   "rain"; "rhythm"; "ripple"; "rustic"; "sable"; "satin"; "scarlet"; "shell";
   "signal"; "spark"; "spice"; "sprout"; "stream"; "sugar"; "tango"; "teal";
   "thyme"; "trail"; "tulle"; "turtle"; "vapor"; "violin"; "voyage"; "wagon";
   "walrus"; "wheat"; "whisper"; "yonder"; "zebra"; "pearl"; "tempo"; "lynx"].

(** [wordList[h[i]]] for the first six bytes of the hash. *)
Definition Words (pub : string) : list string :=
  let h := bytes_of (Sum256 ("chirp/words/v1" +:+ pub)) in
  (λ b, default "" (wordList !! Z.to_nat b)) <$> take 6 h.

Definition IdenticonSeed (pub : string) : string :=
  str_take 8 (Sum256 ("chirp/identicon/v1" +:+ pub)).

(** ** The passphrase meter (backup.go) *)

Definition MinPassphraseLen : Z := 12.

Definition in_range (lo hi r : Z) : bool := (lo <=? r) && (r <=? hi).
Definition is_lower (r : Z) : bool := in_range 97 122 r.
Definition is_upper (r : Z) : bool := in_range 65 90 r.
Definition is_digit (r : Z) : bool := in_range 48 57 r.
Definition is_special (r : Z) : bool := negb (is_lower r || is_upper r || is_digit r).

Definition PassphraseStrength (pw : string) : Z :=
  let n := RuneCountInString pw in
  if n =? 0 then 0 else
  let score := if 20 <=? n then 3 else if 16 <=? n then 2 else if 12 <=? n then 1 else 0 in
  let has f := Z.b2z (existsb f (runes pw)) in
  let classes := has is_lower + has is_upper + has is_digit + has is_special in
  let score := score + (classes - 1) in
  if 5 <? score then 5 else score.

(** ** Lemmas *)

Lemma Fingerprint_length pub : slen (Fingerprint pub) = 64.
Proof. unfold Fingerprint. rewrite hex_encode_length, Sum256_length. done. Qed.

Lemma Fingerprint_hex pub : hex_decodable (Fingerprint pub) = true.
Proof. apply hex_encode_decodable. Qed.

Lemma wordList_length : length wordList = 256%nat.
Proof. done. Qed.

Lemma wordList_NoDup : NoDup wordList.
Proof. apply (bool_decide_unpack _). vm_compute. done. Qed.

Lemma ValidateName_ok name n :
  ValidateName name = Ok n →
  n = TrimSpace name ∧ n ≠ "" ∧ RuneCountInString n <= 32
  ∧ Forall (λ r, 0x20 <= r ∧ r ≠ 0x7f) (runes n).
Proof.
  unfold ValidateName. destruct (_ =s? "") eqn:E1; [done|].
  destruct (Z.ltb_spec MaxNameLen (RuneCountInString (TrimSpace name))); [done|].
  destruct (existsb _ _) eqn:E2; [done|]. intros [= <-].
  apply eqs_false in E1. repeat split; [done|unfold MaxNameLen in *; lia|].
  apply Forall_forall. intros r Hr.
  destruct (decide (0x20 <= r ∧ r ≠ 0x7f)) as [|Hn]; [done|].
  assert (existsb (λ r, (r <? 32) || (r =? 127)) (runes (TrimSpace name)) = true); [|congruence].
  apply existsb_exists. exists r. split; [by apply list_elem_of_In|].
  destruct (Z.ltb_spec r 32); [done|]. cbn. apply Z.eqb_eq. lia.
Qed.

(** A valid name holds no NUL byte, which is what ends it inside a key. *)
Lemma ValidateName_no_nul name n : ValidateName name = Ok n → no_nul n.
Proof.
  intros (_ & _ & _ & Hr)%ValidateName_ok. apply runes_no_nul.
  eapply Forall_impl; [done|]. cbn. lia.
Qed.
