(* ===== verification/Base64.v ===== *)
(** * Standard base64 (package encoding/base64, StdEncoding)

    The store writes encrypted strings in base64 and JSON carries byte
    slices in it.  The decoder skips line breaks and insists on padding, as
    Go's does. *)

From Stdlib Require Import Lia.
From S2P Require Import Prelude GoStrings.

#[local] Ltac Zify.zify_post_hook ::= Z.to_euclidean_division_equations.

(** The alphabet: A-Z a-z 0-9 + /. *)
Definition b64_char (v : Z) : Z :=
  if v <? 26 then 65 + v else if v <? 52 then 71 + v else if v <? 62 then v - 4
  else if v =? 62 then 43 else 47.

Definition b64_value (c : Z) : option Z :=
  if (65 <=? c) && (c <=? 90) then Some (c - 65)
  else if (97 <=? c) && (c <=? 122) then Some (c - 71)
  else if (48 <=? c) && (c <=? 57) then Some (c + 4)
  else if c =? 43 then Some 62 else if c =? 47 then Some 63 else None.

Definition b64_pad : Z := 61.

Fixpoint b64_encode (l : list Z) : list Z :=
  match l with
  | [] => []
  | [a] => [b64_char (a / 4); b64_char (a mod 4 * 16); b64_pad; b64_pad]
  | [a; b] =>
      [b64_char (a / 4); b64_char (a mod 4 * 16 + b / 16); b64_char (b mod 16 * 4); b64_pad]
  | a :: b :: c :: l' =>
      b64_char (a / 4) :: b64_char (a mod 4 * 16 + b / 16)
      :: b64_char (b mod 16 * 4 + c / 64) :: b64_char (c mod 64) :: b64_encode l'
  end.

Fixpoint b64_decode (l : list Z) : option (list Z) :=
  match l with
  | [] => Some []
  | x :: y :: z :: w :: l' =>
      a ← b64_value x; b ← b64_value y;
      if z =? b64_pad then
        if (w =? b64_pad) && bool_decide (l' = []) then Some [a * 4 + b / 16] else None
      else
        c ← b64_value z;
        if w =? b64_pad then
          if bool_decide (l' = []) then Some [a * 4 + b / 16; b mod 16 * 16 + c / 4] else None
        else
          d ← b64_value w; k ← b64_decode l';
          Some (a * 4 + b / 16 :: b mod 16 * 16 + c / 4 :: c mod 4 * 64 + d :: k)
  | _ => None
  end.

Definition is_newline (c : Z) : bool := (c =? 10) || (c =? 13).

(** [base64.StdEncoding.EncodeToString] and [DecodeString]. *)
Definition EncodeToString (s : string) : string := of_bytes (b64_encode (bytes_of s)).
Definition DecodeString (s : string) : result string :=
  match b64_decode (filter (λ c, is_newline c = false) (bytes_of s)) with
  | Some l => Ok (of_bytes l)
  | None => Err (Errorf "illegal base64 data")
  end.

Lemma b64_char_spec v :
  0 <= v < 64 →
  b64_value (b64_char v) = Some v ∧ b64_char v ≠ b64_pad ∧ is_byte (b64_char v)
  ∧ is_newline (b64_char v) = false.
Proof.
  intros Hv. unfold b64_char, b64_value, b64_pad, is_byte, is_newline.
  repeat case_match; try lia; repeat split; try lia; try (f_equal; lia).
Qed.

(** Three-byte steps: induction along the encoder. *)
Lemma triple_ind (P : list Z → Prop) :
  P [] → (∀ a, P [a]) → (∀ a b, P [a; b]) →
  (∀ a b c l, P l → P (a :: b :: c :: l)) → ∀ l, P l.
Proof.
  intros H0 H1 H2 H3 l. cut (∀ n l, (length l <= n)%nat → P l).
  { intros H. by apply (H (length l)). }
  clear l. induction n as [|n IH]; intros [|a [|b [|c l]]] Hl; auto; cbn in Hl; [lia..|].
  apply H3, IH. lia.
Qed.

Ltac b64_bytes H :=
  repeat match type of H with
  | Forall _ (_ :: _) => apply Forall_cons in H as [? H]
  end; unfold is_byte in *.

Lemma b64_decode_encode l : Forall is_byte l → b64_decode (b64_encode l) = Some l.
Proof.
  induction l as [|a|a b|a b c l IH] using triple_ind; intros Hl; [done|..]; b64_bytes Hl;
    cbn [b64_encode b64_decode].
  - destruct (b64_char_spec (a / 4)) as (-> & _); [lia|].
    destruct (b64_char_spec (a mod 4 * 16)) as (-> & _); [lia|].
    cbn. repeat f_equal; lia.
  - destruct (b64_char_spec (a / 4)) as (-> & _); [lia|].
    destruct (b64_char_spec (a mod 4 * 16 + b / 16)) as (-> & _); [lia|].
    destruct (b64_char_spec (b mod 16 * 4)) as (-> & Hp & _); [lia|].
    rewrite (proj2 (Z.eqb_neq _ _) Hp). cbn. repeat f_equal; lia.
  - destruct (b64_char_spec (a / 4)) as (-> & _); [lia|].
    destruct (b64_char_spec (a mod 4 * 16 + b / 16)) as (-> & _); [lia|].
    destruct (b64_char_spec (b mod 16 * 4 + c / 64)) as (-> & Hp & _); [lia|].
    destruct (b64_char_spec (c mod 64)) as (-> & Hp' & _); [lia|].
    rewrite (proj2 (Z.eqb_neq _ _) Hp). cbn [mbind option_bind].
    rewrite (proj2 (Z.eqb_neq _ _) Hp'). cbn [mbind option_bind].
    rewrite IH by done. cbn. repeat f_equal; lia.
Qed.

Lemma b64_encode_range l :
  Forall is_byte l → Forall (λ c, is_byte c ∧ is_newline c = false) (b64_encode l).
Proof.
  induction l as [|a|a b|a b c l IH] using triple_ind; intros Hl; [done|..]; b64_bytes Hl;
    cbn [b64_encode]; repeat constructor; try done; try (apply b64_char_spec; lia); by apply IH.
Qed.

Lemma DecodeString_Encode s : DecodeString (EncodeToString s) = Ok s.
Proof.
  unfold DecodeString, EncodeToString.
  pose proof (b64_encode_range (bytes_of s) (bytes_of_range s)) as Hr.
  rewrite bytes_of_of by (eapply Forall_impl; [done|]; naive_solver).
  rewrite filter_all by (eapply Forall_impl; [done|]; naive_solver).
  rewrite b64_decode_encode by auto with chirp. by rewrite of_bytes_of.
Qed.

(** The characters of the alphabet: none that JSON escapes. *)
Lemma b64_encode_plain l :
  Forall is_byte l →
  Forall (λ c, 0 <= c < 128 ∧ 43 <= c ∧ c ≠ 60 ∧ c ≠ 62 ∧ c ≠ 92) (b64_encode l).
Proof.
  assert (Hc : ∀ v, 0 <= v < 64 →
    0 <= b64_char v < 128 ∧ 43 <= b64_char v ∧ b64_char v ≠ 60 ∧ b64_char v ≠ 62 ∧ b64_char v ≠ 92).
  { intros v Hv. unfold b64_char. repeat case_match; lia. }
  induction l as [|a|a b|a b c l IH] using triple_ind; intros Hl; [done|..]; b64_bytes Hl;
    cbn [b64_encode]; repeat (constructor; try (apply Hc; lia)); try (unfold b64_pad; lia); by apply IH.
Qed.

Lemma b64_encode_ascii l : Forall is_byte l → Forall (λ c, 0 <= c < 128) (b64_encode l).
Proof. intros Hl. eapply Forall_impl; [by apply b64_encode_plain|]. naive_solver. Qed.

Lemma b64_encode_len l : 3 * Z.of_nat (length (b64_encode l)) <= 4 * Z.of_nat (length l) + 8.
Proof.
  induction l as [|a|a b|a b c l IH] using triple_ind; cbn [b64_encode length] in *; lia.
Qed.
