(* ===== verification/Json.v ===== *)
(** * JSON as package encoding/json prints and parses it

    Envelopes, handshake greetings and backups are JSON texts.  A parsed text
    is a [jvalue]; a string in it is its bytes after unescaping, a number its
    literal.  Printing escapes as [json.Marshal] does (HTML characters
    included), parsing accepts the grammar [json.Unmarshal] accepts, with its
    replacement of ill-formed UTF-8 and its bound on nesting.  Main result:
    parsing what was printed gives the value back ([parse_print]), and the
    fuel of the parser never runs out ([parse_fuel]). *)

From Stdlib Require Import Lia.
From S2P Require Import Prelude GoStrings Utf8.

#[local] Ltac Zify.zify_post_hook ::= Z.to_euclidean_division_equations.

Inductive jvalue :=
| JNull
| JBool (b : bool)
| JNum (lit : list Z)
| JStr (s : string)
| JArr (l : list jvalue)
| JObj (l : list (string * jvalue)).

(** ** Printing *)

Definition u_escape (r : Z) : list Z :=
  [92; 117; hex_digit (r / 4096 mod 16); hex_digit (r / 256 mod 16); hex_digit (r / 16 mod 16);
   hex_digit (r mod 16)].

(** One unit of a string. *)
Definition escape (u : unit8) : list Z :=
  match u with
  | Bad _ => u_escape RuneError
  | Rune r =>
      if (r =? 34) || (r =? 92) then [92; r]
      else if r =? 8 then [92; 98]
      else if r =? 12 then [92; 102]
      else if r =? 10 then [92; 110]
      else if r =? 13 then [92; 114]
      else if r =? 9 then [92; 116]
      else if (r <? 32) || (r =? 60) || (r =? 62) || (r =? 38) || (r =? 0x2028) || (r =? 0x2029)
      then u_escape r
      else encode_rune r
  end.

Definition print_str (s : string) : list Z := [34] ++ concat (escape <$> units s) ++ [34].

Fixpoint commas (ls : list (list Z)) : list Z :=
  match ls with
  | [] => []
  | [x] => x
  | x :: ls => x ++ [44] ++ commas ls
  end.

Definition json_true : list Z := bytes_of "true".
Definition json_false : list Z := bytes_of "false".
Definition json_null : list Z := bytes_of "null".

Fixpoint print (v : jvalue) : list Z :=
  match v with
  | JNull => json_null
  | JBool b => if b then json_true else json_false
  | JNum lit => lit
  | JStr s => print_str s
  | JArr l => [91] ++ commas (map print l) ++ [93]
  | JObj l => [123] ++ commas (map (λ kv, print_str kv.1 ++ [58] ++ print kv.2) l) ++ [125]
  end.

(** [strconv.AppendInt] in base ten. *)
Fixpoint dec_loop (fuel : nat) (n : Z) : list Z :=
  match fuel with
  | O => []
  | S fuel => if n <? 10 then [48 + n] else dec_loop fuel (n / 10) ++ [48 + n mod 10]
  end.
Definition dec_nat (n : Z) : list Z := dec_loop (Z.to_nat (Z.log2 n + 1)) n.
Definition dec (z : Z) : list Z := if z <? 0 then 45 :: dec_nat (- z) else dec_nat z.
Definition JInt (z : Z) : jvalue := JNum (dec z).

(** ** Parsing *)

Definition is_ws (c : Z) : bool := (c =? 32) || (c =? 9) || (c =? 10) || (c =? 13).

Fixpoint skip_ws (l : list Z) : list Z :=
  match l with
  | c :: l' => if is_ws c then skip_ws l' else l
  | [] => []
  end.

(** A character of a string literal: itself, or an escaped UTF-16 unit. *)
Inductive item := Raw (b : Z) | Unit16 (u : Z).

Definition simple_escape (e : Z) : option Z :=
  if (e =? 34) || (e =? 92) || (e =? 47) then Some e
  else if e =? 98 then Some 8
  else if e =? 102 then Some 12
  else if e =? 110 then Some 10
  else if e =? 114 then Some 13
  else if e =? 116 then Some 9
  else None.

Definition hex_val (c : Z) : option Z :=
  if (48 <=? c) && (c <=? 57) then Some (c - 48)
  else if (97 <=? c) && (c <=? 102) then Some (c - 87)
  else if (65 <=? c) && (c <=? 70) then Some (c - 55)
  else None.

Definition hex4 (a b c d : Z) : option Z :=
  a ← hex_val a; b ← hex_val b; c ← hex_val c; d ← hex_val d;
  Some (a * 4096 + b * 256 + c * 16 + d).

(** The characters of a literal after its opening quote, and what follows it. *)
Fixpoint str_items (l : list Z) : option (list item * list Z) :=
  match l with
  | [] => None
  | b :: l1 =>
      if b =? 34 then Some ([], l1)
      else if b =? 92 then
        match l1 with
        | [] => None
        | e :: l2 =>
            if e =? 117 then
              match l2 with
              | a :: b :: c :: d :: l3 =>
                  u ← hex4 a b c d;
                  '(its, r) ← str_items l3; Some (Unit16 u :: its, r)
              | _ => None
              end
            else
              x ← simple_escape e;
              '(its, r) ← str_items l2; Some (Raw x :: its, r)
        end
      else if b <? 32 then None
      else '(its, r) ← str_items l1; Some (Raw b :: its, r)
  end.

Definition is_surrogate (u : Z) : bool := (0xD800 <=? u) && (u <? 0xE000).
(** [utf16.DecodeRune], [None] for its error. *)
Definition surrogate_pair (u v : Z) : option Z :=
  if (0xD800 <=? u) && (u <? 0xDC00) && (0xDC00 <=? v) && (v <? 0xE000)
  then Some ((u - 0xD800) * 1024 + (v - 0xDC00) + 0x10000) else None.

(** Ill-formed sequences become U+FFFD. *)
Definition sanitize (l : list Z) : list Z := concat (encode_rune ∘ rune_of <$> decode l).

(** The bytes of the items; [run] are the raw bytes since the last escape. *)
Fixpoint render (run : list Z) (its : list item) : list Z :=
  match its with
  | [] => sanitize run
  | Raw b :: its => render (run ++ [b]) its
  | Unit16 u :: its =>
      sanitize run ++
      (if is_surrogate u then
         match its with
         | Unit16 v :: its' =>
             match surrogate_pair u v with
             | Some r => encode_rune r ++ render [] its'
             | None => encode_rune RuneError ++ render [] its
             end
         | _ => encode_rune RuneError ++ render [] its
         end
       else encode_rune u ++ render [] its)
  end.

(** A string literal after its opening quote. *)
Definition parse_str (l : list Z) : option (string * list Z) :=
  '(its, r) ← str_items l; Some (of_bytes (render [] its), r).

Definition is_dec (c : Z) : bool := (48 <=? c) && (c <=? 57).

Fixpoint span_digits (l : list Z) : list Z * list Z :=
  match l with
  | c :: l' => if is_dec c then let (d, r) := span_digits l' in (c :: d, r) else ([], l)
  | [] => ([], [])
  end.

(** At least one digit after the prefix [p], which the head of the list gave. *)
Definition some_digits (p : list Z) (l : list Z) : option (list Z * list Z) :=
  let (d, r) := span_digits l in match d with [] => None | _ => Some (p ++ d, r) end.

Definition scan_frac (l : list Z) : option (list Z * list Z) :=
  match l with
  | c :: l' => if c =? 46 then some_digits [46] l' else Some ([], l)
  | [] => Some ([], [])
  end.

Definition scan_exp (l : list Z) : option (list Z * list Z) :=
  match l with
  | c :: l' =>
      if (c =? 101) || (c =? 69) then
        match l' with
        | s :: l'' => if (s =? 43) || (s =? 45) then some_digits [c; s] l'' else some_digits [c] l'
        | [] => None
        end
      else Some ([], l)
  | [] => Some ([], [])
  end.

(** A number literal and what follows it. *)
Definition scan_number (l : list Z) : option (list Z * list Z) :=
  let (sign, l) := match l with c :: l' => if c =? 45 then ([45], l') else ([], l) | [] => ([], []) end in
  '(ip, l) ← match l with
    | c :: l' =>
        if c =? 48 then Some ([48], l')
        else if is_dec c then let (d, r) := span_digits l' in Some (c :: d, r)
        else None
    | [] => None
    end;
  '(fp, l) ← scan_frac l;
  '(ep, l) ← scan_exp l;
  Some (sign ++ ip ++ fp ++ ep, l).

Definition strip (p l : list Z) : option (list Z) :=
  if bool_decide (take (length p) l = p) then Some (drop (length p) l) else None.

(** [maxNestingDepth]. *)
Definition max_depth : nat := 10000.

(** A value, the elements of an array after one, the members of an object
    after its brace; [depth] counts the arrays and objects around. *)
Fixpoint parse_value (fuel depth : nat) (l : list Z) : option (jvalue * list Z) :=
  match fuel with
  | O => None
  | S fuel =>
      match skip_ws l with
      | [] => None
      | c :: l' =>
          if c =? 34 then '(s, r) ← parse_str l'; Some (JStr s, r)
          else if c =? 123 then
            if (max_depth <=? depth)%nat then None else
            match skip_ws l' with
            | d :: r => if d =? 125 then Some (JObj [], r)
                        else '(ms, r) ← parse_members fuel (S depth) l'; Some (JObj ms, r)
            | [] => None
            end
          else if c =? 91 then
            if (max_depth <=? depth)%nat then None else
            match skip_ws l' with
            | d :: r => if d =? 93 then Some (JArr [], r)
                        else '(vs, r) ← parse_elems fuel (S depth) l'; Some (JArr vs, r)
            | [] => None
            end
          else if c =? 116 then r ← strip json_true (c :: l'); Some (JBool true, r)
          else if c =? 102 then r ← strip json_false (c :: l'); Some (JBool false, r)
          else if c =? 110 then r ← strip json_null (c :: l'); Some (JNull, r)
          else '(lit, r) ← scan_number (c :: l'); Some (JNum lit, r)
      end
  end
with parse_elems (fuel depth : nat) (l : list Z) : option (list jvalue * list Z) :=
  match fuel with
  | O => None
  | S fuel =>
      '(v, r) ← parse_value fuel depth l;
      match skip_ws r with
      | c :: r =>
          if c =? 44 then '(vs, r) ← parse_elems fuel depth r; Some (v :: vs, r)
          else if c =? 93 then Some ([v], r) else None
      | [] => None
      end
  end
with parse_members (fuel depth : nat) (l : list Z) : option (list (string * jvalue) * list Z) :=
  match fuel with
  | O => None
  | S fuel =>
      match skip_ws l with
      | c :: r =>
          if negb (c =? 34) then None else
          '(k, r) ← parse_str r;
          match skip_ws r with
          | c :: r =>
              if negb (c =? 58) then None else
              '(v, r) ← parse_value fuel depth r;
              match skip_ws r with
              | c :: r =>
                  if c =? 44 then '(ms, r) ← parse_members fuel depth r; Some ((k, v) :: ms, r)
                  else if c =? 125 then Some ([(k, v)], r) else None
              | [] => None
              end
          | [] => None
          end
      | [] => None
      end
  end.

(** The first value of a text and what follows it. *)
Definition parse (s : string) : option (jvalue * list Z) :=
  let l := bytes_of s in parse_value (S (2 * length l)) 0 l.

(** [strconv.ParseInt(lit, 10, 64)] and [ParseUint] on a number literal. *)
Definition digits_val (l : list Z) : Z := foldl (λ a c, 10 * a + (c - 48)) 0 l.
Definition parse_nat (l : list Z) : option Z :=
  if negb (bool_decide (l = [])) && forallb is_dec l then Some (digits_val l) else None.
Definition parse_int64 (lit : list Z) : option Z :=
  z ← match lit with
      | c :: l => if c =? 45 then Z.opp <$> parse_nat l else parse_nat lit
      | [] => None
      end;
  if (- 2 ^ 63 <=? z) && (z <? 2 ^ 63) then Some z else None.
Definition parse_uint64 (lit : list Z) : option Z :=
  z ← parse_nat lit; if z <? 2 ^ 64 then Some z else None.

(** ** Strings come back *)

(** What the printed form of a unit parses to. *)
Definition escaped_u (r : Z) : bool :=
  (r <? 32) || (r =? 60) || (r =? 62) || (r =? 38) || (r =? 0x2028) || (r =? 0x2029).
Definition unit_items (u : unit8) : list item :=
  match u with
  | Bad _ => [Unit16 RuneError]
  | Rune r =>
      if (r =? 34) || (r =? 92) || (r =? 8) || (r =? 12) || (r =? 10) || (r =? 13) || (r =? 9)
      then [Raw r]
      else if escaped_u r then [Unit16 r] else Raw <$> encode_rune r
  end.

Definition unit_ok (u : unit8) : Prop :=
  match u with Rune r => valid_rune r = true | Bad _ => True end.

Lemma units_ok s : Forall unit_ok (units s).
Proof.
  apply Forall_forall. intros [r|b] Hu; [|done].
  by apply (decode_valid_aux (length (bytes_of s)) (bytes_of s)); auto with chirp.
Qed.

Lemma hex_val_digit d : 0 <= d < 16 → hex_val (hex_digit d) = Some d.
Proof. intros Hd. unfold hex_val, hex_digit. ztests; f_equal; lia. Qed.

Lemma hex4_escape r :
  0 <= r < 65536 →
  hex4 (hex_digit (r / 4096 mod 16)) (hex_digit (r / 256 mod 16)) (hex_digit (r / 16 mod 16))
    (hex_digit (r mod 16)) = Some r.
Proof. intros Hr. unfold hex4. rewrite !hex_val_digit by lia. cbn. f_equal. lia. Qed.

(** A literal whose head is consumed as the items [its0]. *)
Definition head_items (its0 : list item) (l l' : list Z) : Prop :=
  str_items l = '(its, r) ← str_items l'; Some (its0 ++ its, r).

Lemma head_raw b l : b ≠ 34 → b ≠ 92 → 32 <= b → head_items [Raw b] (b :: l) l.
Proof.
  intros H1 H2 H3. unfold head_items. cbn [str_items].
  destruct (Z.eqb_spec b 34), (Z.eqb_spec b 92), (Z.ltb_spec b 32); (done || lia).
Qed.

Lemma head_raws bs l :
  Forall (λ b, b ≠ 34 ∧ b ≠ 92 ∧ 32 <= b) bs → head_items (Raw <$> bs) (bs ++ l) l.
Proof.
  induction 1 as [|b bs (H1 & H2 & H3) _ IH].
  - unfold head_items. cbn. by destruct (str_items l) as [[]|].
  - unfold head_items in *. cbn [app]. rewrite (head_raw b (bs ++ l)), IH by done.
    by destruct (str_items l) as [[]|].
Qed.

Lemma head_simple e x l :
  simple_escape e = Some x → e ≠ 117 → head_items [Raw x] (92 :: e :: l) l.
Proof.
  intros He Hu. unfold head_items. cbn [str_items].
  destruct (Z.eqb_spec e 117); [done|]. rewrite He. done.
Qed.

Lemma head_u r l : 0 <= r < 65536 → head_items [Unit16 r] (u_escape r ++ l) l.
Proof.
  intros Hr. unfold head_items, u_escape. cbn [app str_items].
  rewrite hex4_escape by done. done.
Qed.

Lemma encode_rune_plain r :
  valid_rune r = true → 32 <= r → r ≠ 34 → r ≠ 92 →
  Forall (λ b, b ≠ 34 ∧ b ≠ 92 ∧ 32 <= b) (encode_rune r).
Proof.
  intros Hv H1 H2 H3. unfold encode_rune. rewrite Hv. cbn [negb]. unfold valid_rune in Hv.
  ztests; repeat constructor; lia.
Qed.

Lemma head_escape u l : unit_ok u → head_items (unit_items u) (escape u ++ l) l.
Proof.
  destruct u as [r|b]; intros Hv; [|by apply head_u]. cbn [unit_ok unit_items escape] in *.
  destruct (Z.eqb_spec r 34) as [->|]; [by apply head_simple|].
  destruct (Z.eqb_spec r 92) as [->|]; [by apply head_simple|].
  destruct (Z.eqb_spec r 8) as [->|]; [by apply head_simple|].
  destruct (Z.eqb_spec r 12) as [->|]; [by apply head_simple|].
  destruct (Z.eqb_spec r 10) as [->|]; [by apply head_simple|].
  destruct (Z.eqb_spec r 13) as [->|]; [by apply head_simple|].
  destruct (Z.eqb_spec r 9) as [->|]; [by apply head_simple|].
  cbn [orb]. fold (escaped_u r). destruct (escaped_u r) eqn:Ee.
  - apply head_u. unfold escaped_u, valid_rune in *. lia.
  - unfold escaped_u in Ee. apply head_raws, encode_rune_plain; [done|lia..].
Qed.

Lemma str_items_units us l :
  Forall unit_ok us →
  str_items (concat (escape <$> us) ++ 34 :: l) = Some (concat (unit_items <$> us), l).
Proof.
  induction 1 as [|u us Hu _ IH]; [done|]. cbn [fmap list_fmap concat].
  rewrite <- app_assoc, (head_escape u) by done. by rewrite IH.
Qed.

Lemma sanitize_encoded rs :
  Forall (λ r, valid_rune r = true) rs →
  sanitize (concat (encode_rune <$> rs)) = concat (encode_rune <$> rs).
Proof.
  intros Hrs. unfold sanitize. rewrite decode_encode_list by done.
  by rewrite <- list_fmap_compose.
Qed.

Lemma render_raws run bs its : render run ((Raw <$> bs) ++ its) = render (run ++ bs) its.
Proof.
  revert run. induction bs as [|b bs IH]; intros run; cbn; [by rewrite app_nil_r|].
  by rewrite IH, <- app_assoc.
Qed.

Lemma render_unit16 run u its :
  is_surrogate u = false →
  render run (Unit16 u :: its) = sanitize run ++ encode_rune u ++ render [] its.
Proof. intros Hu. cbn [render]. by rewrite Hu. Qed.

Lemma render_units rs us :
  Forall (λ r, valid_rune r = true) rs → Forall unit_ok us →
  render (concat (encode_rune <$> rs)) (concat (unit_items <$> us))
  = concat (encode_rune <$> rs) ++ concat (encode_rune ∘ rune_of <$> us).
Proof.
  intros Hrs Hus. revert rs Hrs. induction Hus as [|u us Hu _ IH]; intros rs Hrs.
  { cbn. by rewrite sanitize_encoded, app_nil_r. }
  assert (Hraw : ∀ r, valid_rune r = true →
    render (concat (encode_rune <$> rs) ++ encode_rune r) (concat (unit_items <$> us))
    = concat (encode_rune <$> rs) ++ encode_rune r ++ concat (encode_rune ∘ rune_of <$> us)).
  { intros r Hr. specialize (IH (rs ++ [r])). rewrite fmap_app, concat_app in IH. cbn in IH.
    rewrite app_nil_r in IH. rewrite IH; [by rewrite <- app_assoc|]. apply Forall_app. by repeat constructor. }
  assert (Huni : ∀ r, is_surrogate r = false →
    render (concat (encode_rune <$> rs)) (Unit16 r :: concat (unit_items <$> us))
    = concat (encode_rune <$> rs) ++ encode_rune r ++ concat (encode_rune ∘ rune_of <$> us)).
  { intros r Hr. rewrite render_unit16, sanitize_encoded by done.
    pose proof (IH [] (Forall_nil_2 _)) as E. cbn [fmap list_fmap concat app] in E. by rewrite E. }
  cbn [fmap list_fmap concat]. destruct u as [r|b]; cbn [unit_items unit_ok rune_of compose] in *.
  2: { by apply Huni. }
  destruct (_ || (r =? 9)) eqn:Es.
  - cbn [app render]. rewrite <- (Hraw r) by done.
    assert (Hr : encode_rune r = [r]); [|by rewrite Hr].
    apply encode_ascii; lia.
  - destruct (escaped_u r) eqn:Ee.
    + cbn [app]. rewrite Huni; [done|]. unfold escaped_u, is_surrogate in *. lia.
    + rewrite render_raws. by apply Hraw.
Qed.

(** The string with U+FFFD for what is not UTF-8. *)
Definition to_valid (s : string) : string := of_bytes (sanitize (bytes_of s)).

Lemma parse_print_str s l :
  parse_str (concat (escape <$> units s) ++ 34 :: l) = Some (to_valid s, l).
Proof.
  unfold parse_str. rewrite str_items_units by apply units_ok. cbn.
  pose proof (render_units [] (units s) (Forall_nil_2 _) (units_ok s)) as Hr.
  cbn [fmap list_fmap concat app] in Hr. by rewrite Hr.
Qed.

Lemma to_valid_id s : ValidString s = true → to_valid s = s.
Proof.
  intros Hv. unfold to_valid, sanitize. rewrite <- (encode_units s) at 2. do 2 f_equal.
  fold (units s). unfold ValidString in Hv. revert Hv.
  induction (units s) as [|[r|b] us IH]; cbn; intros Hv; [done| |done]. by rewrite IH.
Qed.

(** ** Numbers come back *)

(** The head of a text does not continue a number. *)
Definition no_num (l : list Z) : Prop :=
  match l with [] => True | c :: _ => is_dec c = false ∧ c ≠ 46 ∧ c ≠ 101 ∧ c ≠ 69 end.

Definition num_ok (lit : list Z) : Prop :=
  (match lit with c :: _ => c = 45 ∨ is_dec c = true | [] => False end) ∧
  Forall is_byte lit ∧ ∀ l, no_num l → scan_number (lit ++ l) = Some (lit, l).

Lemma span_digits_app d l :
  forallb is_dec d = true → (match l with c :: _ => is_dec c = false | [] => True end) →
  span_digits (d ++ l) = (d, l).
Proof.
  intros Hd Hl. induction d as [|c d IH]; cbn in *.
  - destruct l as [|c l]; [done|]. cbn. by rewrite Hl.
  - apply andb_true_iff in Hd as [-> Hd]. by rewrite IH.
Qed.

Lemma no_num_frac l : no_num l → scan_frac l = Some ([], l).
Proof. destruct l as [|c l]; [done|]. intros (_ & Hc & _). cbn. by destruct (Z.eqb_spec c 46). Qed.
Lemma no_num_exp l : no_num l → scan_exp l = Some ([], l).
Proof.
  destruct l as [|c l]; [done|]. intros (_ & _ & H1 & H2). cbn.
  by destruct (Z.eqb_spec c 101), (Z.eqb_spec c 69).
Qed.
Lemma no_num_span l : no_num l → (match l with c :: _ => is_dec c = false | [] => True end).
Proof. destruct l as [|c l]; [done|]. by intros [? _]. Qed.

(** A digit string without a leading zero, with or without a sign. *)
Definition plain_digits (d : list Z) : Prop :=
  forallb is_dec d = true ∧ match d with [] => False | c :: d => c = 48 → d = [] end.

Lemma scan_digits sign d l :
  sign = [] ∨ sign = [45] → plain_digits d → no_num l →
  scan_number (sign ++ d ++ l) = Some (sign ++ d, l).
Proof.
  intros Hs [Hd Hz] Hl. destruct d as [|c d]; [done|]. cbn [forallb] in Hd.
  apply andb_true_iff in Hd as [Hc Hd].
  assert (Hn : c ≠ 45) by (unfold is_dec in Hc; lia).
  assert (E : scan_number (sign ++ (c :: d) ++ l) = '(ip, l) ← (
    if c =? 48 then Some ([48], d ++ l)
    else let (d, r) := span_digits (d ++ l) in Some (c :: d, r));
    '(fp, l) ← scan_frac l; '(ep, l) ← scan_exp l; Some (sign ++ ip ++ fp ++ ep, l)).
  { unfold scan_number. destruct Hs as [-> | ->]; cbn [app].
    - destruct (Z.eqb_spec c 45); [done|]. by rewrite Hc.
    - cbn. by rewrite Hc. }
  rewrite E. rewrite span_digits_app by (done || by apply no_num_span).
  destruct (Z.eqb_spec c 48) as [->|]; [rewrite Hz by done|]; cbn;
    rewrite no_num_frac by done; cbn; rewrite no_num_exp by done; cbn; by rewrite ?app_nil_r.
Qed.

Lemma dec_loop_digits fuel n :
  0 <= n < 2 ^ Z.of_nat fuel → (0 < fuel)%nat →
  forallb is_dec (dec_loop fuel n) = true ∧ digits_val (dec_loop fuel n) = n ∧
  (match dec_loop fuel n with [] => False | c :: d => c = 48 → n = 0 end).
Proof.
  revert n. induction fuel as [|fuel IH]; intros n Hn Hf; [lia|]. cbn [dec_loop].
  rewrite Nat2Z.inj_succ, Z.pow_succ_r in Hn by lia.
  destruct (Z.ltb_spec n 10) as [Hs|Hs].
  - split_and!; [cbn; unfold is_dec; ztests; done|cbn; lia|]. intros ?. lia.
  - destruct (decide (fuel = 0%nat)) as [->|Hne]; [change (2 ^ Z.of_nat 0) with 1 in Hn; lia|].
    destruct (IH (n / 10)) as (I1 & I2 & I3); [lia|lia|]. split_and!.
    + rewrite forallb_app, I1. cbn. unfold is_dec. ztests; done.
    + unfold digits_val in *. rewrite foldl_app, I2. cbn. lia.
    + destruct (dec_loop fuel (n / 10)) as [|c d]; [done|]. cbn. intros Hc. specialize (I3 Hc). lia.
Qed.

Lemma dec_nat_spec n :
  0 <= n → plain_digits (dec_nat n) ∧ digits_val (dec_nat n) = n.
Proof.
  intros Hn. unfold dec_nat.
  assert (Hb : 0 <= n < 2 ^ Z.of_nat (Z.to_nat (Z.log2 n + 1))).
  { pose proof (Z.log2_nonneg n). rewrite Z2Nat.id by lia. split; [done|].
    destruct (Z.eq_dec n 0) as [->|]; [done|]. apply Z.log2_spec. lia. }
  pose proof (Z.log2_nonneg n).
  destruct (dec_loop_digits _ n Hb ltac:(lia)) as (H1 & H2 & H3). split; [|done].
  split; [done|]. destruct (dec_loop _ n) as [|c d] eqn:E; [done|]. intros Hc.
  specialize (H3 Hc) as ->. vm_compute in E. congruence.
Qed.

Lemma dec_plain z : ∃ sign d, dec z = sign ++ d ∧ (sign = [] ∨ sign = [45]) ∧ plain_digits d.
Proof.
  unfold dec. destruct (Z.ltb_spec z 0).
  - exists [45], (dec_nat (- z)). split; [done|]. split; [by right|]. apply dec_nat_spec. lia.
  - exists [], (dec_nat z). split; [done|]. split; [by left|]. by apply dec_nat_spec.
Qed.

Lemma dec_ok z : num_ok (dec z).
Proof.
  destruct (dec_plain z) as (sign & d & -> & Hs & Hd). split_and!.
  - destruct Hs as [-> | ->]; [|by left]. destruct Hd as [Hd Hne]. destruct d as [|c d]; [done|].
    cbn in Hd. apply andb_true_iff in Hd as [Hc _]. by right.
  - apply Forall_app. split; [destruct Hs as [-> | ->]; by repeat constructor|].
    destruct Hd as [Hd _]. apply Forall_forall. intros c Hc. rewrite forallb_forall in Hd.
    specialize (Hd c ltac:(by apply list_elem_of_In)). unfold is_dec, is_byte in *. lia.
  - intros l Hl. rewrite <- app_assoc. by apply scan_digits.
Qed.

Lemma parse_nat_dec n : 0 <= n → parse_nat (dec_nat n) = Some n.
Proof.
  intros Hn. destruct (dec_nat_spec n Hn) as [[Hd Hne] Hv]. unfold parse_nat. rewrite Hd, Hv.
  rewrite bool_decide_eq_false_2; [done|]. intros E. by rewrite E in Hne.
Qed.

Lemma dec_nat_head n : 0 <= n → ∃ c d, dec_nat n = c :: d ∧ c ≠ 45.
Proof.
  intros Hn. destruct (dec_nat_spec n Hn) as [[Hd Hne] _]. destruct (dec_nat n) as [|c d]; [done|].
  exists c, d. split; [done|]. cbn in Hd. unfold is_dec in Hd. lia.
Qed.

Lemma parse_int64_dec z : - 2 ^ 63 <= z < 2 ^ 63 → parse_int64 (dec z) = Some z.
Proof.
  intros Hz. unfold parse_int64, dec. destruct (Z.ltb_spec z 0).
  - change (45 =? 45) with true. cbv iota. rewrite parse_nat_dec by lia. cbn [fmap option_fmap option_map mbind option_bind].
    rewrite Z.opp_involutive. destruct (Z.leb_spec (- 2 ^ 63) z); [|lia]. by destruct (Z.ltb_spec z (2 ^ 63)); [|lia].
  - destruct (dec_nat_head z) as (c & d & E & Hc); [done|]. rewrite E.
    destruct (Z.eqb_spec c 45); [done|]. rewrite <- E, parse_nat_dec by done. cbn [mbind option_bind].
    destruct (Z.leb_spec (- 2 ^ 63) z); [|lia]. by destruct (Z.ltb_spec z (2 ^ 63)); [|lia].
Qed.

Lemma parse_uint64_dec z : 0 <= z < 2 ^ 64 → parse_uint64 (dec z) = Some z.
Proof.
  intros Hz. unfold parse_uint64, dec. destruct (Z.ltb_spec z 0); [lia|].
  rewrite parse_nat_dec by lia. cbn [mbind option_bind]. by destruct (Z.ltb_spec z (2 ^ 64)); [|lia].
Qed.

(** ** Values come back *)

(** Induction over a value with its parts. *)
Fixpoint jvalue_rect' (P : jvalue → Prop) (Hnull : P JNull) (Hb : ∀ b, P (JBool b))
    (Hn : ∀ lit, P (JNum lit)) (Hs : ∀ s, P (JStr s)) (Ha : ∀ l, Forall P l → P (JArr l))
    (Ho : ∀ l, Forall (λ kv, P kv.2) l → P (JObj l)) (v : jvalue) : P v :=
  let rec := jvalue_rect' P Hnull Hb Hn Hs Ha Ho in
  match v with
  | JNull => Hnull | JBool b => Hb b | JNum lit => Hn lit | JStr s => Hs s
  | JArr l => Ha l ((fix go l : Forall P l :=
      match l with [] => Forall_nil_2 _ | v :: l => Forall_cons_2 _ _ _ (rec v) (go l) end) l)
  | JObj l => Ho l ((fix go l : Forall (λ kv, P kv.2) l :=
      match l with [] => Forall_nil_2 _ | kv :: l => Forall_cons_2 _ _ _ (rec kv.2) (go l) end) l)
  end.

(** How deep the value nests. *)
Fixpoint height (v : jvalue) : nat :=
  match v with
  | JArr l => S (max_list (map height l))
  | JObj l => S (max_list (map (λ kv, height kv.2) l))
  | _ => 0
  end.

(** Values the printer prints as JSON: the number literals are ones. *)
Fixpoint printable (v : jvalue) : Prop :=
  match v with
  | JNum lit => num_ok lit
  | JArr l => (fix go l := match l with [] => True | v :: l => printable v ∧ go l end) l
  | JObj l => (fix go l := match l with [] => True | kv :: l => printable kv.2 ∧ go l end) l
  | _ => True
  end.

(** The value with U+FFFD for what is not UTF-8. *)
Fixpoint valid_value (v : jvalue) : jvalue :=
  match v with
  | JStr s => JStr (to_valid s)
  | JArr l => JArr (map valid_value l)
  | JObj l => JObj (map (λ kv, (to_valid kv.1, valid_value kv.2)) l)
  | v => v
  end.

(** What may follow a value. *)
Definition ends (l : list Z) : Prop := no_num l.

Definition comes_back (v : jvalue) : Prop :=
  ∀ fuel depth l, ends l → printable v → (2 * length (print v) < fuel)%nat →
    (height v + depth <= max_depth)%nat →
    parse_value fuel depth (print v ++ l) = Some (valid_value v, l).

(** No printed value starts with white space. *)
Lemma print_str_head s : ∃ l, print_str s = 34 :: l.
Proof. by eexists. Qed.

Lemma parse_value_num lit l fuel depth :
  num_ok lit → no_num l → parse_value (S fuel) depth (lit ++ l) = Some (JNum lit, l).
Proof.
  intros (Hh & _ & Hs) Hl. specialize (Hs l Hl). destruct lit as [|c lit]; [done|].
  cbn [app] in *. assert (Hc : c = 45 ∨ 48 <= c <= 57) by (unfold is_dec in Hh; lia).
  cbn [parse_value skip_ws]. assert (Hw : is_ws c = false) by (unfold is_ws; lia). rewrite Hw.
  destruct (Z.eqb_spec c 34), (Z.eqb_spec c 123), (Z.eqb_spec c 91), (Z.eqb_spec c 116),
    (Z.eqb_spec c 102), (Z.eqb_spec c 110); try lia.
  by rewrite Hs.
Qed.

Lemma parse_value_str s l fuel depth :
  parse_value (S fuel) depth (print_str s ++ l) = Some (JStr (to_valid s), l).
Proof.
  unfold print_str. cbn [app parse_value skip_ws]. cbn [is_ws Z.eqb orb].
  change (is_ws 34) with false. cbn iota. change (34 =? 34) with true. cbv iota.
  rewrite <- app_assoc. cbn [app]. by rewrite parse_print_str.
Qed.

Lemma elems_back vs fuel depth l :
  Forall comes_back vs → vs ≠ [] → Forall printable vs →
  Forall (λ v, height v + depth <= max_depth)%nat vs →
  (2 * length (commas (map print vs)) + 1 < fuel)%nat →
  parse_elems fuel depth (commas (map print vs) ++ 93 :: l) = Some (map valid_value vs, l).
Proof.
  intros Hvs Hne. revert fuel. induction Hvs as [|v vs Hv Hvs IH]; [done|].
  intros fuel [Hp Hps]%Forall_cons [Hd Hds]%Forall_cons Hf. destruct fuel as [|fuel]; [lia|].
  cbn [parse_elems]. destruct vs as [|v2 vs].
  - cbn [map commas] in *. rewrite Hv by (done || cbn; unfold is_dec; lia). done.
  - cbn [map commas] in *. rewrite !length_app in Hf. cbn [length] in Hf.
    rewrite <- !app_assoc. rewrite Hv by (done || cbn; unfold is_dec; lia).
    cbn [mbind option_bind app]. change (skip_ws (44 :: ?x)) with (44 :: x).
    cbv iota beta. change (44 =? 44) with true. cbv iota.
    rewrite IH; [done|done|done|done|]. lia.
Qed.

Definition print_member (kv : string * jvalue) : list Z := print_str kv.1 ++ [58] ++ print kv.2.
Definition valid_member (kv : string * jvalue) : string * jvalue := (to_valid kv.1, valid_value kv.2).

(** One member, up to its value. *)
Lemma member_step k v fuel depth l :
  comes_back v → ends l → printable v → (height v + depth <= max_depth)%nat →
  (2 * length (print v) < fuel)%nat →
  parse_members (S fuel) depth (print_member (k, v) ++ l) =
  match skip_ws l with
  | c :: r =>
      if c =? 44 then '(ms, r) ← parse_members fuel depth r; Some (valid_member (k, v) :: ms, r)
      else if c =? 125 then Some ([valid_member (k, v)], r) else None
  | [] => None
  end.
Proof.
  intros Hv Hl Hp Hd Hf. unfold print_member, print_str. cbn [fst snd]. rewrite <- !app_assoc. cbn [app].
  cbn [parse_members skip_ws]. change (is_ws 34) with false. cbv iota.
  change (negb (34 =? 34)) with false. cbv iota. rewrite parse_print_str.
  cbn [mbind option_bind]. change (skip_ws (58 :: ?x)) with (58 :: x). cbv iota beta.
  change (negb (58 =? 58)) with false. cbv iota. rewrite Hv by done. done.
Qed.

Lemma members_back ms fuel depth l :
  Forall (λ kv, comes_back kv.2) ms → ms ≠ [] → Forall (λ kv, printable kv.2) ms →
  Forall (λ kv, height kv.2 + depth <= max_depth)%nat ms →
  (2 * length (commas (map print_member ms)) + 1 < fuel)%nat →
  parse_members fuel depth (commas (map print_member ms) ++ 125 :: l) = Some (map valid_member ms, l).
Proof.
  intros Hvs Hne. revert fuel. induction Hvs as [|[k v] ms Hv Hvs IH]; [done|].
  intros fuel [Hp Hps]%Forall_cons [Hd Hds]%Forall_cons Hf. destruct fuel as [|fuel]; [lia|].
  cbn [snd] in *. assert (Hlen : (length (print v) <= length (print_member (k, v)))%nat)
    by (unfold print_member; cbn [snd]; rewrite !length_app; lia).
  destruct ms as [|kv2 ms].
  - cbn [map commas] in *.
    rewrite member_step; [done|done|cbn; unfold is_dec; lia|done|done|lia].
  - cbn [map commas] in *. rewrite !length_app in Hf. cbn [length] in Hf. rewrite <- !app_assoc.
    rewrite member_step; [|done|cbn; unfold is_dec; lia|done|done|lia].
    cbn [app]. change (skip_ws (44 :: ?x)) with (44 :: x). cbv iota.
    change (44 =? 44) with true. cbv iota. rewrite IH; [done|done|done|done|lia].
Qed.

Lemma max_list_Forall (l : list nat) d m :
  (max_list l + d <= m)%nat → Forall (λ x, x + d <= m)%nat l.
Proof. induction l as [|x l IH]; cbn; intros Hm; constructor; [lia|]. apply IH. lia. Qed.

Lemma printable_arr l : printable (JArr l) ↔ Forall printable l.
Proof.
  induction l as [|v l IH]; cbn in *; [split; [constructor|done]|]. rewrite Forall_cons, <- IH. done.
Qed.
Lemma printable_obj l : printable (JObj l) ↔ Forall (λ kv, printable kv.2) l.
Proof.
  induction l as [|v l IH]; cbn in *; [split; [constructor|done]|]. rewrite Forall_cons, <- IH. done.
Qed.

Lemma commas_head x ls : ∃ t, commas (x :: ls) = x ++ t.
Proof. destruct ls as [|y ls]; cbn; [exists []; by rewrite app_nil_r|eauto]. Qed.

(** A printed value starts with a character that is no closing bracket and no space. *)
Lemma print_head v : printable v → ∃ c t, print v = c :: t ∧ is_ws c = false ∧ c ≠ 93 ∧ c ≠ 125.
Proof.
  destruct v as [|[]|lit|s|l|l]; cbn [printable print]; try (intros _; by do 2 eexists).
  intros [Hh _]. destruct lit as [|c lit]; [done|]. exists c, lit. split; [done|].
  unfold is_ws, is_dec in *. lia.
Qed.

Lemma value_back v : comes_back v.
Proof.
  induction v as [|b|lit|s|vs IH|ms IH] using jvalue_rect'; intros fuel depth l Hl Hp Hf Hd;
    (destruct fuel as [|fuel]; [lia|]).
  - done.
  - by destruct b.
  - by apply parse_value_num.
  - apply parse_value_str.
  - destruct vs as [|v vs].
    { cbn [print map commas app parse_value skip_ws]. change (is_ws 91) with false. cbv iota.
      change (91 =? 34) with false. change (91 =? 123) with false. change (91 =? 91) with true. cbv iota.
      destruct (Nat.leb_spec max_depth depth); [cbn [height] in Hd; lia|].
      change (skip_ws (93 :: l)) with (93 :: l). cbv iota. done. }
    cbn [print] in *. rewrite <- !app_assoc. cbn [app parse_value skip_ws]. change (is_ws 91) with false. cbv iota.
    change (91 =? 34) with false. change (91 =? 123) with false. change (91 =? 91) with true. cbv iota.
    cbn [height] in Hd. destruct (Nat.leb_spec max_depth depth); [lia|].
    apply printable_arr in Hp. apply Forall_cons in Hp as Hp'. destruct Hp' as [Hpv _].
    destruct (print_head v Hpv) as (c & t & Ev & Hc & Hc1 & _).
    destruct (commas_head (print v) (map print vs)) as [t2 Et].
    assert (Eh : skip_ws (commas (map print (v :: vs)) ++ 93 :: l)
      = c :: (t ++ t2) ++ 93 :: l).
    { cbn [map]. rewrite Et, Ev. cbn. by rewrite Hc, <- app_assoc. }
    rewrite Eh. destruct (Z.eqb_spec c 93); [done|].
    rewrite (elems_back (v :: vs)); [done|done|done|done| |].
    + apply (Forall_fmap height (λ x, x + S depth <= max_depth)%nat (v :: vs)).
      apply max_list_Forall. unfold fmap. change list_fmap with @map in *. cbn [map] in *. lia.
    + rewrite !length_app in Hf. cbn [length] in Hf. lia.
  - destruct ms as [|kv ms].
    { cbn [print map commas app parse_value skip_ws]. change (is_ws 123) with false. cbv iota.
      change (123 =? 34) with false. change (123 =? 123) with true. cbv iota.
      destruct (Nat.leb_spec max_depth depth); [cbn [height] in Hd; lia|].
      change (skip_ws (125 :: l)) with (125 :: l). cbv iota. done. }
    cbn [print] in *. change (λ kv, print_str kv.1 ++ [58] ++ print kv.2) with print_member in *.
    rewrite <- !app_assoc. cbn [app parse_value skip_ws]. change (is_ws 123) with false. cbv iota.
    change (123 =? 34) with false. change (123 =? 123) with true. cbv iota.
    cbn [height] in Hd. destruct (Nat.leb_spec max_depth depth); [lia|].
    apply printable_obj in Hp. destruct (commas_head (print_member kv) (map print_member ms)) as [t2 Et].
    assert (Eh : ∃ t, skip_ws (commas (map print_member (kv :: ms)) ++ 125 :: l) = 34 :: t).
    { cbn [map]. rewrite Et. unfold print_member at 1, print_str. rewrite <- !app_assoc. cbn [app].
      eexists. reflexivity. }
    destruct Eh as [t ->]. change (34 =? 125) with false. cbv iota.
    rewrite (members_back (kv :: ms)); [done|done|done|done| |].
    + apply (Forall_fmap (λ kv, height kv.2) (λ x, x + S depth <= max_depth)%nat (kv :: ms)).
      apply max_list_Forall. unfold fmap. change list_fmap with @map in *. cbn [map] in *. lia.
    + rewrite !length_app in Hf. cbn [length] in Hf. lia.
Qed.

Lemma escape_range u : Forall is_byte (escape u).
Proof.
  assert (Hu : ∀ r, Forall is_byte (u_escape r)).
  { intros r. unfold u_escape. repeat constructor; try done; apply hex_digit_range; lia. }
  destruct u as [r|b]; [|apply Hu]. unfold escape. repeat case_match; try apply Hu; try (by repeat constructor).
  - repeat constructor; unfold is_byte; lia.
  - apply encode_rune_range.
Qed.

Lemma print_str_range s : Forall is_byte (print_str s).
Proof.
  unfold print_str. rewrite !Forall_app. split_and!; [by repeat constructor| |by repeat constructor].
  induction (units s) as [|u us IH]; cbn; [constructor|]. apply Forall_app. split; [apply escape_range|done].
Qed.

Lemma commas_range ls : Forall (Forall is_byte) ls → Forall is_byte (commas ls).
Proof.
  induction 1 as [|x [|y ls] Hx _ IH]; cbn [commas] in *; [constructor|done|].
  rewrite !Forall_app. split_and!; [done|by repeat constructor|done].
Qed.

Lemma print_range v : printable v → Forall is_byte (print v).
Proof.
  induction v as [|[]|lit|s|vs IH|ms IH] using jvalue_rect'; cbn [print]; intros Hp;
    try (repeat constructor; done).
  - apply Hp.
  - apply print_str_range.
  - apply printable_arr in Hp. rewrite !Forall_app. split_and!; [by repeat constructor| |by repeat constructor].
    apply commas_range. induction IH as [|v vs Hv _ IH']; [constructor|].
    apply Forall_cons in Hp as [Hp Hps]. constructor; auto.
  - apply printable_obj in Hp. rewrite !Forall_app. split_and!; [by repeat constructor| |by repeat constructor].
    apply commas_range. induction IH as [|v vs Hv _ IH']; [constructor|].
    apply Forall_cons in Hp as [Hp Hps]. constructor; [|auto].
    rewrite !Forall_app. split_and!; [apply print_str_range|by repeat constructor|auto].
Qed.

(** Parsing what was printed. *)
Lemma parse_print v l :
  printable v → (height v <= max_depth)%nat → ends l → Forall is_byte l →
  parse (of_bytes (print v ++ l)) = Some (valid_value v, l).
Proof.
  intros Hp Hh Hl Hbl. pose proof (print_range v Hp) as Hb. unfold parse. rewrite bytes_of_of by (by apply Forall_app).
  cbv zeta. apply value_back; [done|done| |lia]. rewrite length_app. lia.
Qed.

(** ** The fuel of the parser is enough *)

Lemma skip_ws_len l : (length (skip_ws l) <= length l)%nat.
Proof. induction l as [|c l IH]; cbn; [lia|]. case_match; cbn; lia. Qed.

Lemma str_items_len l its r : str_items l = Some (its, r) → (length r < length l)%nat.
Proof.
  remember (length l) as n eqn:En. revert l En its r.
  induction n as [n IH] using lt_wf_ind. intros l -> its r. destruct l as [|b l1]; [done|].
  cbn [str_items length]. case_match; [intros [= _ <-]; lia|].
  assert (Hrec : ∀ l' (f : list item → list item), (length l' <= length l1)%nat →
    ('(its, r) ← str_items l'; Some (f its, r)) = Some (its, r) → (length r < S (length l1))%nat).
  { intros l' f Hl. destruct (str_items l') as [[its' r']|] eqn:E; [|done]. intros [= _ <-].
    specialize (IH (length l') ltac:(cbn; lia) l' eq_refl its' r' E). lia. }
  case_match.
  - destruct l1 as [|e l2]; [done|]. cbn [length] in *. case_match.
    + destruct l2 as [|a [|b' [|c [|d l3]]]]; try done. cbn [length] in *.
      destruct (hex4 a b' c d) as [u|]; [|done]. apply (Hrec l3 (cons (Unit16 u))). lia.
    + destruct (simple_escape e) as [x|]; [|done]. apply (Hrec l2 (cons (Raw x))). lia.
  - case_match; [done|]. by apply (Hrec l1 (cons (Raw b))).
Qed.

Lemma parse_str_len l s r : parse_str l = Some (s, r) → (length r < length l)%nat.
Proof.
  unfold parse_str. destruct (str_items l) as [[its r']|] eqn:E; [|done]. intros [= _ <-].
  by apply str_items_len in E.
Qed.

Lemma span_digits_len l : (length (span_digits l).2 <= length l)%nat.
Proof.
  induction l as [|c l IH]; cbn; [done|]. case_match; [|done]. destruct (span_digits l). cbn in *. lia.
Qed.

Lemma some_digits_len p l d r : some_digits p l = Some (d, r) → (length r <= length l)%nat.
Proof.
  unfold some_digits. pose proof (span_digits_len l). destruct (span_digits l) as [[|]]; [done|].
  by intros [= _ <-].
Qed.

Lemma scan_number_len l lit r : scan_number l = Some (lit, r) → (length r < length l)%nat.
Proof.
  assert (Hf : ∀ l d r, scan_frac l = Some (d, r) → (length r <= length l)%nat).
  { intros [|c l'] d r'; cbn; [by intros [= _ <-]|]. case_match; [|by intros [= _ <-]].
    intros Hd%some_digits_len. lia. }
  assert (He : ∀ l d r, scan_exp l = Some (d, r) → (length r <= length l)%nat).
  { intros [|c l'] d r'; cbn; [by intros [= _ <-]|]. case_match; [|by intros [= _ <-]].
    destruct l' as [|s l'']; [done|]. case_match; intros Hd%some_digits_len; cbn in *; lia. }
  unfold scan_number. destruct (match l with [] => _ | c :: l' => _ end) as [sign l0] eqn:El.
  assert (H0 : (length l0 <= length l)%nat).
  { destruct l as [|c l']; [by injection El as _ <-|]. case_match; injection El as _ <-; cbn; lia. }
  destruct (match l0 with [] => _ | c :: l' => _ end) as [[ip l1]|] eqn:Ei; [|done].
  assert (H1 : (length l1 < length l0)%nat).
  { destruct l0 as [|c l']; [done|]. case_match; [injection Ei as _ <-; cbn; lia|].
    case_match; [|done]. pose proof (span_digits_len l') as Hs. destruct (span_digits l') as [d r'].
    injection Ei as _ <-. cbn in *. lia. }
  cbn [mbind option_bind]. destruct (scan_frac l1) as [[fp l2]|] eqn:E2; [|done]. apply Hf in E2.
  cbn [mbind option_bind]. destruct (scan_exp l2) as [[ep l3]|] eqn:E3; [|done]. apply He in E3.
  intros [= _ <-]. lia.
Qed.

Lemma strip_len p l r : strip p l = Some r → p ≠ [] → l ≠ [] → (length r < length l)%nat.
Proof.
  unfold strip. case_bool_decide; [|done]. intros [= <-] Hp Hl. rewrite length_drop.
  destruct p, l; cbn; (done || lia).
Qed.

(** What the three parsers leave is shorter than what they got. *)
Lemma parse_len fuel :
  (∀ depth l v r, parse_value fuel depth l = Some (v, r) → (length r < length l)%nat) ∧
  (∀ depth l vs r, parse_elems fuel depth l = Some (vs, r) → (length r < length l)%nat) ∧
  (∀ depth l ms r, parse_members fuel depth l = Some (ms, r) → (length r < length l)%nat).
Proof.
  induction fuel as [|fuel (IV & IE & IM)]; [done|]. split_and!.
  - intros depth l v r. cbn [parse_value]. pose proof (skip_ws_len l) as Hl.
    destruct (skip_ws l) as [|c l'] eqn:El; [done|]. cbn [length] in Hl.
    case_match. { destruct (parse_str l') as [[s r']|] eqn:E; [|done]. apply parse_str_len in E. intros [= _ <-]. lia. }
    case_match.
    { case_match; [done|]. pose proof (skip_ws_len l') as Hl'. destruct (skip_ws l') as [|d r0]; [done|].
      cbn [length] in Hl'. case_match; [intros [= _ <-]; lia|].
      destruct (parse_members _ _ _) as [[ms r']|] eqn:E; [|done]. apply IM in E. intros [= _ <-]. lia. }
    case_match.
    { case_match; [done|]. pose proof (skip_ws_len l') as Hl'. destruct (skip_ws l') as [|d r0]; [done|].
      cbn [length] in Hl'. case_match; [intros [= _ <-]; lia|].
      destruct (parse_elems _ _ _) as [[ms r']|] eqn:E; [|done]. apply IE in E. intros [= _ <-]. lia. }
    do 3 (case_match; [destruct (strip _ _) as [r'|] eqn:E; [|done];
      apply strip_len in E; [|done..]; cbn [length] in E; intros [= _ <-]; lia|]).
    destruct (scan_number _) as [[lit r']|] eqn:E; [|done]. apply scan_number_len in E. cbn [length] in E.
    intros [= _ <-]. lia.
  - intros depth l vs r. cbn [parse_elems]. destruct (parse_value fuel depth l) as [[v r0]|] eqn:E; [|done].
    apply IV in E. cbn [mbind option_bind]. pose proof (skip_ws_len r0) as Hr.
    destruct (skip_ws r0) as [|c r1]; [done|]. cbn [length] in Hr. case_match.
    + destruct (parse_elems fuel depth r1) as [[vs' r']|] eqn:E2; [|done]. apply IE in E2. intros [= _ <-]. lia.
    + case_match; [|done]. intros [= _ <-]. lia.
  - intros depth l ms r. cbn [parse_members]. pose proof (skip_ws_len l) as Hl.
    destruct (skip_ws l) as [|c r0]; [done|]. cbn [length] in Hl. case_match; [done|].
    destruct (parse_str r0) as [[k r1]|] eqn:Ek; [|done]. apply parse_str_len in Ek.
    cbn [mbind option_bind]. pose proof (skip_ws_len r1) as Hl1. destruct (skip_ws r1) as [|c1 r2]; [done|].
    cbn [length] in Hl1. case_match; [done|]. destruct (parse_value fuel depth r2) as [[v r3]|] eqn:Ev; [|done].
    apply IV in Ev. cbn [mbind option_bind]. pose proof (skip_ws_len r3) as Hl3.
    destruct (skip_ws r3) as [|c3 r4]; [done|]. cbn [length] in Hl3. case_match.
    + destruct (parse_members fuel depth r4) as [[ms' r']|] eqn:E2; [|done]. apply IM in E2. intros [= _ <-]. lia.
    + case_match; [|done]. intros [= _ <-]. lia.
Qed.

(** Beyond twice the length of the text, fuel makes no difference. *)
Lemma parse_fuel fuel :
  (∀ fuel' depth l, (2 * length l < fuel)%nat → (fuel <= fuel')%nat →
     parse_value fuel' depth l = parse_value fuel depth l) ∧
  (∀ fuel' depth l, (2 * length l + 1 < fuel)%nat → (fuel <= fuel')%nat →
     parse_elems fuel' depth l = parse_elems fuel depth l) ∧
  (∀ fuel' depth l, (2 * length l < fuel)%nat → (fuel <= fuel')%nat →
     parse_members fuel' depth l = parse_members fuel depth l).
Proof.
  induction fuel as [|fuel (IV & IE & IM)]; [split_and!; lia|]. split_and!.
  - intros [|fuel'] depth l Hf Hle; [lia|]. cbn [parse_value]. pose proof (skip_ws_len l) as Hl.
    destruct (skip_ws l) as [|c l']; [done|]. cbn [length] in Hl.
    rewrite (IM fuel' (S depth) l'), (IE fuel' (S depth) l') by lia. done.
  - intros [|fuel'] depth l Hf Hle; [lia|]. cbn [parse_elems]. rewrite (IV fuel' depth l) by lia.
    destruct (parse_value fuel depth l) as [[v r0]|] eqn:E; [|done]. apply parse_len in E.
    cbn [mbind option_bind]. pose proof (skip_ws_len r0) as Hr.
    destruct (skip_ws r0) as [|c r1]; [done|]. cbn [length] in Hr. by rewrite (IE fuel' depth r1) by lia.
  - intros [|fuel'] depth l Hf Hle; [lia|]. cbn [parse_members]. pose proof (skip_ws_len l) as Hl.
    destruct (skip_ws l) as [|c r0]; [done|]. cbn [length] in Hl. case_match; [done|].
    destruct (parse_str r0) as [[k r1]|] eqn:Ek; [|done]. apply parse_str_len in Ek.
    cbn [mbind option_bind]. pose proof (skip_ws_len r1) as Hl1. destruct (skip_ws r1) as [|c1 r2]; [done|].
    cbn [length] in Hl1. case_match; [done|]. rewrite (IV fuel' depth r2) by lia.
    destruct (parse_value fuel depth r2) as [[v r3]|] eqn:Ev; [|done]. apply parse_len in Ev.
    cbn [mbind option_bind]. pose proof (skip_ws_len r3) as Hl3.
    destruct (skip_ws r3) as [|c3 r4]; [done|]. cbn [length] in Hl3. by rewrite (IM fuel' depth r4) by lia.
Qed.
