(* ===== verification/Codec.v ===== *)
(** * Envelopes and greetings as JSON (internal/proto/proto.go)

    [Encode] and [Decode] on top of [Json]: a struct is a list of fields, each
    with its JSON name, its printer (nothing for an omitted zero value) and
    its setter, as the struct tags of the source give them.  The reader's
    behaviour is that of encoding/json: an exact name wins over one equal up
    to case, [null] changes nothing, a later duplicate wins. *)

From S2P Require Import Prelude GoStrings Utf8 Proto Base64 Json.

(** ** Structs *)

Record field (R : Type) := mkField {
  fl_name : string;
  fl_get : R → option jvalue;
  fl_set : jvalue → R → option R }.
Arguments mkField {R}.
Arguments fl_name {R}.
Arguments fl_get {R}.
Arguments fl_set {R}.

(** Elements of an array over what the slice held; [null] leaves one as it is. *)
Fixpoint set_elems {A} (elem : A → jvalue → option A) (zero : A) (old : list A) (l : list jvalue)
    : option (list A) :=
  match l with
  | [] => Some []
  | v :: l => x ← elem (default zero (head old)) v; xs ← set_elems elem zero (tail old) l; Some (x :: xs)
  end.

Section kinds.
Context {R : Type}.

Definition set_string (upd : string → R → R) (v : jvalue) (r : R) : option R :=
  match v with JStr s => Some (upd s r) | JNull => Some r | _ => None end.

(** A string field without and with [omitempty]. *)
Definition required_field (name : string) (get : R → string) (upd : string → R → R) : field R :=
  mkField name (λ r, Some (JStr (get r))) (set_string upd).
Definition string_field (name : string) (get : R → string) (upd : string → R → R) : field R :=
  mkField name (λ r, if get r =s? "" then None else Some (JStr (get r))) (set_string upd).

Definition set_num (parse : list Z → option Z) (upd : Z → R → R) (v : jvalue) (r : R) : option R :=
  match v with JNum lit => z ← parse lit; Some (upd z r) | JNull => Some r | _ => None end.
Definition required_int (name : string) (get : R → Z) (upd : Z → R → R) : field R :=
  mkField name (λ r, Some (JInt (get r))) (set_num parse_int64 upd).
Definition int_field (name : string) (get : R → Z) (upd : Z → R → R) : field R :=
  mkField name (λ r, if get r =? 0 then None else Some (JInt (get r))) (set_num parse_int64 upd).
Definition uint_field (name : string) (get : R → Z) (upd : Z → R → R) : field R :=
  mkField name (λ r, if get r =? 0 then None else Some (JInt (get r))) (set_num parse_uint64 upd).

(** [[]byte]: base64 in a string, or an array of numbers. *)
Definition byte_elem (old : Z) (v : jvalue) : option Z :=
  match v with
  | JNum lit => z ← parse_uint64 lit; if z <? 256 then Some z else None
  | JNull => Some old
  | _ => None
  end.
Definition set_bytes (get : R → string) (upd : string → R → R) (v : jvalue) (r : R) : option R :=
  match v with
  | JStr s => match DecodeString s with Ok b => Some (upd b r) | Err _ => None end
  | JArr l => bs ← set_elems byte_elem 0 (bytes_of (get r)) l; Some (upd (of_bytes bs) r)
  | JNull => Some (upd "" r)
  | _ => None
  end.
Definition bytes_field (name : string) (get : R → string) (upd : string → R → R) : field R :=
  mkField name (λ r, if get r =s? "" then None else Some (JStr (EncodeToString (get r))))
    (set_bytes get upd).

Definition string_elem (old : string) (v : jvalue) : option string :=
  match v with JStr s => Some s | JNull => Some old | _ => None end.
Definition set_strings (get : R → list string) (upd : list string → R → R) (v : jvalue) (r : R)
    : option R :=
  match v with
  | JArr l => ss ← set_elems string_elem "" (get r) l; Some (upd ss r)
  | JNull => Some (upd [] r)
  | _ => None
  end.
Definition strings_field (name : string) (get : R → list string) (upd : list string → R → R)
    : field R :=
  mkField name (λ r, match get r with [] => None | l => Some (JArr (JStr <$> l)) end)
    (set_strings get upd).

(** [json.Marshal] of a struct. *)
Definition to_json (fields : list (field R)) (r : R) : jvalue :=
  JObj (omap (λ f, pair (fl_name f) <$> fl_get f r) fields).

Context `{UnicodeTables}.

Definition find_field (fields : list (field R)) (k : string) : option (field R) :=
  match List.find (λ f, fl_name f =s? k) fields with
  | Some f => Some f
  | None => List.find (λ f, EqualFold (fl_name f) k) fields
  end.

(** The members of an object, in order; [strict] is [DisallowUnknownFields]. *)
Fixpoint set_members (strict : bool) (fields : list (field R)) (l : list (string * jvalue)) (r : R)
    : option R :=
  match l with
  | [] => Some r
  | (k, v) :: l =>
      match find_field fields k with
      | Some f => r' ← fl_set f v r; set_members strict fields l r'
      | None => if strict then None else set_members strict fields l r
      end
  end.

Definition of_json (strict : bool) (fields : list (field R)) (v : jvalue) (r : R) : option R :=
  match v with JObj l => set_members strict fields l r | JNull => Some r | _ => None end.

(** [json.Unmarshal]: the whole text is one value. *)
Definition Unmarshal (fields : list (field R)) (b : string) (r : R) : option R :=
  '(v, rest) ← parse b;
  match skip_ws rest with [] => of_json false fields v r | _ => None end.
End kinds.

(** ** The envelope *)

Definition set_T (x : string) (e : Envelope) : Envelope :=
  mkEnvelope x (ID e) (TS e) (Body e) (ReplyTo e) (Emoji e) (Target e) (Src e) (Size e)
    (Hash e) (Offset e) (Chunk e) (Proto.Room e) (Seq e) (Proto.RoomEvent e) (RoomName e)
    (RoomActor e) (RoomMembers e).
Definition set_ID (x : string) (e : Envelope) : Envelope :=
  mkEnvelope (T e) x (TS e) (Body e) (ReplyTo e) (Emoji e) (Target e) (Src e) (Size e) (Hash
    e) (Offset e) (Chunk e) (Proto.Room e) (Seq e) (Proto.RoomEvent e) (RoomName e)
    (RoomActor e) (RoomMembers e).
Definition set_TS (x : Z) (e : Envelope) : Envelope :=
  mkEnvelope (T e) (ID e) x (Body e) (ReplyTo e) (Emoji e) (Target e) (Src e) (Size e) (Hash
    e) (Offset e) (Chunk e) (Proto.Room e) (Seq e) (Proto.RoomEvent e) (RoomName e)
    (RoomActor e) (RoomMembers e).
Definition set_Body (x : string) (e : Envelope) : Envelope :=
  mkEnvelope (T e) (ID e) (TS e) x (ReplyTo e) (Emoji e) (Target e) (Src e) (Size e) (Hash
    e) (Offset e) (Chunk e) (Proto.Room e) (Seq e) (Proto.RoomEvent e) (RoomName e)
    (RoomActor e) (RoomMembers e).
Definition set_ReplyTo (x : string) (e : Envelope) : Envelope :=
  mkEnvelope (T e) (ID e) (TS e) (Body e) x (Emoji e) (Target e) (Src e) (Size e) (Hash e)
    (Offset e) (Chunk e) (Proto.Room e) (Seq e) (Proto.RoomEvent e) (RoomName e) (RoomActor
    e) (RoomMembers e).
Definition set_Emoji (x : string) (e : Envelope) : Envelope :=
  mkEnvelope (T e) (ID e) (TS e) (Body e) (ReplyTo e) x (Target e) (Src e) (Size e) (Hash e)
    (Offset e) (Chunk e) (Proto.Room e) (Seq e) (Proto.RoomEvent e) (RoomName e) (RoomActor
    e) (RoomMembers e).
Definition set_Target (x : string) (e : Envelope) : Envelope :=
  mkEnvelope (T e) (ID e) (TS e) (Body e) (ReplyTo e) (Emoji e) x (Src e) (Size e) (Hash e)
    (Offset e) (Chunk e) (Proto.Room e) (Seq e) (Proto.RoomEvent e) (RoomName e) (RoomActor
    e) (RoomMembers e).
Definition set_Src (x : string) (e : Envelope) : Envelope :=
  mkEnvelope (T e) (ID e) (TS e) (Body e) (ReplyTo e) (Emoji e) (Target e) x (Size e) (Hash
    e) (Offset e) (Chunk e) (Proto.Room e) (Seq e) (Proto.RoomEvent e) (RoomName e)
    (RoomActor e) (RoomMembers e).
Definition set_Size (x : Z) (e : Envelope) : Envelope :=
  mkEnvelope (T e) (ID e) (TS e) (Body e) (ReplyTo e) (Emoji e) (Target e) (Src e) x (Hash
    e) (Offset e) (Chunk e) (Proto.Room e) (Seq e) (Proto.RoomEvent e) (RoomName e)
    (RoomActor e) (RoomMembers e).
Definition set_Hash (x : string) (e : Envelope) : Envelope :=
  mkEnvelope (T e) (ID e) (TS e) (Body e) (ReplyTo e) (Emoji e) (Target e) (Src e) (Size e)
    x (Offset e) (Chunk e) (Proto.Room e) (Seq e) (Proto.RoomEvent e) (RoomName e)
    (RoomActor e) (RoomMembers e).
Definition set_Offset (x : Z) (e : Envelope) : Envelope :=
  mkEnvelope (T e) (ID e) (TS e) (Body e) (ReplyTo e) (Emoji e) (Target e) (Src e) (Size e)
    (Hash e) x (Chunk e) (Proto.Room e) (Seq e) (Proto.RoomEvent e) (RoomName e) (RoomActor
    e) (RoomMembers e).
Definition set_Chunk (x : string) (e : Envelope) : Envelope :=
  mkEnvelope (T e) (ID e) (TS e) (Body e) (ReplyTo e) (Emoji e) (Target e) (Src e) (Size e)
    (Hash e) (Offset e) x (Proto.Room e) (Seq e) (Proto.RoomEvent e) (RoomName e) (RoomActor
    e) (RoomMembers e).
Definition set_Room (x : string) (e : Envelope) : Envelope :=
  mkEnvelope (T e) (ID e) (TS e) (Body e) (ReplyTo e) (Emoji e) (Target e) (Src e) (Size e)
    (Hash e) (Offset e) (Chunk e) x (Seq e) (Proto.RoomEvent e) (RoomName e) (RoomActor e)
    (RoomMembers e).
Definition set_Seq (x : Z) (e : Envelope) : Envelope :=
  mkEnvelope (T e) (ID e) (TS e) (Body e) (ReplyTo e) (Emoji e) (Target e) (Src e) (Size e)
    (Hash e) (Offset e) (Chunk e) (Proto.Room e) x (Proto.RoomEvent e) (RoomName e)
    (RoomActor e) (RoomMembers e).
Definition set_RoomEvent (x : string) (e : Envelope) : Envelope :=
  mkEnvelope (T e) (ID e) (TS e) (Body e) (ReplyTo e) (Emoji e) (Target e) (Src e) (Size e)
    (Hash e) (Offset e) (Chunk e) (Proto.Room e) (Seq e) x (RoomName e) (RoomActor e)
    (RoomMembers e).
Definition set_RoomName (x : string) (e : Envelope) : Envelope :=
  mkEnvelope (T e) (ID e) (TS e) (Body e) (ReplyTo e) (Emoji e) (Target e) (Src e) (Size e)
    (Hash e) (Offset e) (Chunk e) (Proto.Room e) (Seq e) (Proto.RoomEvent e) x (RoomActor e)
    (RoomMembers e).
Definition set_RoomActor (x : string) (e : Envelope) : Envelope :=
  mkEnvelope (T e) (ID e) (TS e) (Body e) (ReplyTo e) (Emoji e) (Target e) (Src e) (Size e)
    (Hash e) (Offset e) (Chunk e) (Proto.Room e) (Seq e) (Proto.RoomEvent e) (RoomName e) x
    (RoomMembers e).
Definition set_RoomMembers (x : list string) (e : Envelope) : Envelope :=
  mkEnvelope (T e) (ID e) (TS e) (Body e) (ReplyTo e) (Emoji e) (Target e) (Src e) (Size e)
    (Hash e) (Offset e) (Chunk e) (Proto.Room e) (Seq e) (Proto.RoomEvent e) (RoomName e)
    (RoomActor e) x.

(** The struct tags of [Envelope]. *)
Definition envelope_fields : list (field Envelope) :=
  [ required_field "t" T set_T;
    string_field "id" ID set_ID;
    int_field "ts" TS set_TS;
    string_field "body" Body set_Body;
    string_field "replyTo" ReplyTo set_ReplyTo;
    string_field "emoji" Emoji set_Emoji;
    string_field "target" Target set_Target;
    string_field "src" Src set_Src;
    int_field "size" Size set_Size;
    string_field "hash" Hash set_Hash;
    int_field "offset" Offset set_Offset;
    bytes_field "chunk" Chunk set_Chunk;
    string_field "room" Proto.Room set_Room;
    uint_field "seq" Seq set_Seq;
    string_field "roomEvent" Proto.RoomEvent set_RoomEvent;
    string_field "roomName" RoomName set_RoomName;
    string_field "roomActor" RoomActor set_RoomActor;
    strings_field "roomMembers" RoomMembers set_RoomMembers ].

Definition Encode (e : Envelope) : result string :=
  _ ← validate e; Ok (of_bytes (print (to_json envelope_fields e))).

(** [dec.More()] after the value: something follows that closes nothing. *)
Definition More (rest : list Z) : bool :=
  match skip_ws rest with c :: _ => negb ((c =? 93) || (c =? 125)) | [] => false end.

Definition Decode `{UnicodeTables} (b : string) : result Envelope :=
  '(v, rest) ← ok_or (Wrapf "proto" (Errorf "invalid JSON")) (parse b);
  e ← ok_or (Wrapf "proto" (Errorf "cannot unmarshal")) (of_json true envelope_fields v (envelope ""));
  if More rest then Err (Errorf "proto: trailing data") else
  _ ← validate e; Ok e.

(** ** The greeting *)

Definition set_V (x : Z) (h : Hello) : Hello := {| V := x; Name := Name h; Caps := Caps h |}.
Definition set_Name (x : string) (h : Hello) : Hello := {| V := V h; Name := x; Caps := Caps h |}.
Definition set_Caps (x : list string) (h : Hello) : Hello := {| V := V h; Name := Name h; Caps := x |}.

Definition hello_fields : list (field Hello) :=
  [ required_int "v" V set_V; required_field "name" Name set_Name; strings_field "caps" Caps set_Caps ].

(** [json.Marshal(hello)] and [json.Unmarshal(b, &h)]. *)
Definition marshal_hello (h : Hello) : string := of_bytes (print (to_json hello_fields h)).
Definition unmarshal_hello `{UnicodeTables} (b : string) : option Hello :=
  Unmarshal hello_fields b {| V := 0; Name := ""; Caps := [] |}.

(** ** Printing and reading back a struct *)

Lemma to_valid_ascii s : ascii_text s → to_valid s = s.
Proof.
  intros Ha. apply to_valid_id. unfold ValidString. rewrite units_ascii by done.
  by induction (bytes_of s).
Qed.

Section back.
Context {R : Type}.
Implicit Types (f : field R) (fs : list (field R)) (r : R).

(** What a field prints is JSON of bounded depth. *)
Definition field_ok f : Prop := ∀ r v, fl_get f r = Some v → printable v ∧ (height v <= 1)%nat.

Lemma required_field_ok name get upd : field_ok (required_field (R := R) name get upd).
Proof. intros r v [= <-]. split; [done|cbn; lia]. Qed.
Lemma string_field_ok name get upd : field_ok (string_field (R := R) name get upd).
Proof. intros r v. cbn. case_match; [done|]. intros [= <-]. split; [done|cbn; lia]. Qed.
Lemma required_int_ok name get upd : field_ok (required_int (R := R) name get upd).
Proof. intros r v [= <-]. split; [apply dec_ok|cbn; lia]. Qed.
Lemma int_field_ok name get upd : field_ok (int_field (R := R) name get upd).
Proof. intros r v. cbn. case_match; [done|]. intros [= <-]. split; [apply dec_ok|cbn; lia]. Qed.
Lemma uint_field_ok name get upd : field_ok (uint_field (R := R) name get upd).
Proof. intros r v. cbn. case_match; [done|]. intros [= <-]. split; [apply dec_ok|cbn; lia]. Qed.
Lemma bytes_field_ok name get upd : field_ok (bytes_field (R := R) name get upd).
Proof. intros r v. cbn. case_match; [done|]. intros [= <-]. split; [done|cbn; lia]. Qed.
Lemma strings_field_ok name get upd : field_ok (strings_field (R := R) name get upd).
Proof.
  intros r v. cbn. destruct (get r) as [|s l]; [done|]. intros [= <-].
  split.
  - apply printable_arr. constructor; [done|]. by apply Forall_fmap, Forall_true.
  - cbn. induction l as [|s' l IH]; cbn in *; lia.
Qed.

Lemma to_json_ok fs r :
  Forall field_ok fs → printable (to_json fs r) ∧ (height (to_json fs r) <= 2)%nat.
Proof.
  intros Hfs. unfold to_json. rewrite printable_obj.
  induction Hfs as [|f fs Hf _ [IH1 IH2]]; [split; [constructor|cbn; lia]|].
  cbn [omap list_omap]. destruct (fl_get f r) as [v|] eqn:E; cbn [fmap option_fmap option_map]; [|done].
  destruct (Hf r v E) as [Hp Hh]. split; [by constructor|]. cbn in *. lia.
Qed.

Lemma parse_json fs r :
  Forall field_ok fs →
  parse (of_bytes (print (to_json fs r))) = Some (valid_value (to_json fs r), []).
Proof.
  intros Hfs. destruct (to_json_ok fs r Hfs) as [Hp Hh].
  pose proof (parse_print (to_json fs r) [] Hp) as Hpp. rewrite app_nil_r in Hpp.
  apply Hpp; [|done|constructor]. etrans; [exact Hh|]. apply Nat.leb_le. by vm_compute.
Qed.

Context `{UnicodeTables}.

(** What reading back the printed field of [e] does to [r]. *)
Definition copy (e : R) f r : option R :=
  match fl_get f e with Some v => fl_set f (valid_value v) r | None => Some r end.
Fixpoint copies (e : R) fs r : option R :=
  match fs with [] => Some r | f :: fs => r' ← copy e f r; copies e fs r' end.

Definition named fs f : Prop := find_field fs (fl_name f) = Some f ∧ ascii_text (fl_name f).

Lemma set_members_copies strict all fs e r :
  Forall (named all) fs →
  set_members strict all (map valid_member (omap (λ f, pair (fl_name f) <$> fl_get f e) fs)) r
  = copies e fs r.
Proof.
  intros Hfs. revert r. induction Hfs as [|f fs [Hf Hn] _ IH]; intros r; [done|].
  cbn [omap list_omap copies]. unfold copy. destruct (fl_get f e) as [v|]; cbn [fmap option_fmap option_map];
    [|by rewrite IH].
  cbn [map set_members valid_member fst snd]. rewrite to_valid_ascii, Hf by done.
  destruct (fl_set f (valid_value v) r); cbn; [by rewrite IH|done].
Qed.

Lemma of_json_copies strict fs e r :
  Forall (named fs) fs → of_json strict fs (valid_value (to_json fs e)) r = copies e fs r.
Proof. intros Hfs. by apply set_members_copies. Qed.

(** Copying into a record whose field is still zero. *)
Lemma copy_required name get upd e r :
  copy e (required_field name get upd) r = Some (upd (to_valid (get e)) r).
Proof. done. Qed.
Lemma copy_string name get upd e r :
  upd "" r = r → copy e (string_field name get upd) r = Some (upd (to_valid (get e)) r).
Proof.
  intros Hz. unfold copy. cbn. destruct (get e =s? "") eqn:E; [|done].
  apply eqs_true in E as ->. f_equal. symmetry. exact Hz.
Qed.
Lemma copy_required_int name get upd e r :
  - 2 ^ 63 <= get e < 2 ^ 63 → copy e (required_int name get upd) r = Some (upd (get e) r).
Proof. intros Hr. unfold copy. cbn. by rewrite parse_int64_dec. Qed.
Lemma copy_int name get upd e r :
  upd 0 r = r → - 2 ^ 63 <= get e < 2 ^ 63 →
  copy e (int_field name get upd) r = Some (upd (get e) r).
Proof.
  intros Hz Hr. unfold copy. cbn. destruct (Z.eqb_spec (get e) 0) as [E|E]; [by rewrite E, Hz|].
  cbn. by rewrite parse_int64_dec.
Qed.
Lemma copy_uint name get upd e r :
  upd 0 r = r → 0 <= get e < 2 ^ 64 →
  copy e (uint_field name get upd) r = Some (upd (get e) r).
Proof.
  intros Hz Hr. unfold copy. cbn. destruct (Z.eqb_spec (get e) 0) as [E|E]; [by rewrite E, Hz|].
  cbn. by rewrite parse_uint64_dec.
Qed.

Lemma EncodeToString_ascii s : ascii_text (EncodeToString s).
Proof.
  unfold ascii_text, EncodeToString. rewrite bytes_of_of.
  - eapply Forall_impl; [apply b64_encode_ascii, bytes_of_range|done].
  - eapply Forall_impl; [apply b64_encode_range, bytes_of_range|]. naive_solver.
Qed.
Lemma copy_bytes name get upd e r :
  upd "" r = r → copy e (bytes_field name get upd) r = Some (upd (get e) r).
Proof.
  intros Hz. unfold copy. cbn. destruct (get e =s? "") eqn:E.
  - apply eqs_true in E as ->. by rewrite Hz.
  - cbn. rewrite to_valid_ascii by apply EncodeToString_ascii. by rewrite DecodeString_Encode.
Qed.

Lemma set_elems_strings ss old :
  set_elems string_elem "" old (map valid_value (JStr <$> ss)) = Some (to_valid <$> ss).
Proof. revert old. induction ss as [|s ss IH]; intros old; cbn; [done|]. by rewrite IH. Qed.
Lemma copy_strings name get upd e r :
  upd [] r = r → copy e (strings_field name get upd) r = Some (upd (to_valid <$> get e) r).
Proof.
  intros Hz. unfold copy. cbn [fl_get strings_field]. destruct (get e) as [|s l] eqn:E; [by cbn; rewrite Hz|].
  cbn [fl_set strings_field set_strings valid_value]. by rewrite set_elems_strings.
Qed.
End back.

Lemma copies_cons `{UnicodeTables} {R} (e : R) f fs r r' :
  copy e f r = Some r' → copies e (f :: fs) r = copies e fs r'.
Proof. intros Hc. cbn [copies]. by rewrite Hc. Qed.

(** One field of [copies]. *)
Ltac copy_step :=
  lazymatch goal with
  | |- copies _ (required_field _ _ _ :: _) _ = _ => etrans; [apply copies_cons, copy_required|]
  | |- copies _ (required_int _ _ _ :: _) _ = _ => etrans; [apply copies_cons, copy_required_int; assumption|]
  | |- copies _ (string_field _ _ _ :: _) _ = _ => etrans; [apply copies_cons, copy_string; reflexivity|]
  | |- copies _ (int_field _ _ _ :: _) _ = _ => etrans; [apply copies_cons, copy_int; [reflexivity|assumption]|]
  | |- copies _ (uint_field _ _ _ :: _) _ = _ => etrans; [apply copies_cons, copy_uint; [reflexivity|assumption]|]
  | |- copies _ (bytes_field _ _ _ :: _) _ = _ => etrans; [apply copies_cons, copy_bytes; reflexivity|]
  | |- copies _ (strings_field _ _ _ :: _) _ = _ => etrans; [apply copies_cons, copy_strings; reflexivity|]
  end.

Create HintDb codec.
#[export] Hint Resolve required_field_ok string_field_ok required_int_ok int_field_ok uint_field_ok
  bytes_field_ok strings_field_ok : codec.

(** ** Envelopes and greetings come back *)

Section codec.
Context `{UnicodeTables}.

(** The envelope as the other side reads it: U+FFFD where a string is not UTF-8. *)
Definition clean (e : Envelope) : Envelope :=
  mkEnvelope (to_valid (T e)) (to_valid (ID e)) (TS e) (to_valid (Body e)) (to_valid (ReplyTo e))
    (to_valid (Emoji e)) (to_valid (Target e)) (to_valid (Src e)) (Size e) (to_valid (Hash e))
    (Offset e) (Chunk e) (to_valid (Proto.Room e)) (Seq e) (to_valid (Proto.RoomEvent e))
    (to_valid (RoomName e)) (to_valid (RoomActor e)) (to_valid <$> RoomMembers e).

(** The integers have their Go types. *)
Definition env_typed (e : Envelope) : Prop :=
  - 2 ^ 63 <= TS e < 2 ^ 63 ∧ - 2 ^ 63 <= Size e < 2 ^ 63 ∧ - 2 ^ 63 <= Offset e < 2 ^ 63
  ∧ 0 <= Seq e < 2 ^ 64.

(** Every string of it is UTF-8. *)
Definition env_text (e : Envelope) : bool :=
  forallb ValidString ([T e; ID e; Body e; ReplyTo e; Emoji e; Target e; Src e; Hash e; Proto.Room e;
    Proto.RoomEvent e; RoomName e; RoomActor e] ++ RoomMembers e).

Lemma envelope_fields_ok : Forall field_ok envelope_fields.
Proof. unfold envelope_fields. repeat (constructor; [eauto with codec|]). constructor. Qed.

Lemma envelope_fields_named : Forall (named envelope_fields) envelope_fields.
Proof.
  assert (Ha : ∀ f, f ∈ envelope_fields → ascii_text (fl_name f)).
  { apply Forall_forall. unfold envelope_fields, ascii_text. repeat constructor; cbn; lia. }
  apply Forall_forall. intros f Hf. split; [|by apply Ha]. revert f Hf. apply Forall_forall.
  repeat constructor.
Qed.

Lemma copies_envelope e : env_typed e → copies e envelope_fields (envelope "") = Some (clean e).
Proof.
  intros (H1 & H2 & H3 & H4). unfold envelope_fields, envelope.
  repeat (copy_step; cbv beta iota delta [set_T set_ID set_TS set_Body set_ReplyTo set_Emoji set_Target set_Src
      set_Size set_Hash set_Offset set_Chunk set_Room set_Seq set_RoomEvent set_RoomName set_RoomActor
      set_RoomMembers T ID TS Body ReplyTo Emoji Target Src Size Hash Offset Chunk Proto.Room Seq
      Proto.RoomEvent RoomName RoomActor RoomMembers]).
  reflexivity.
Qed.

Lemma ok_eq {A} (a b : A) : Ok a = Ok b → a = b.
Proof. congruence. Qed.

Lemma Decode_Encode e b :
  env_typed e → Encode e = Ok b → Decode b = (_ ← validate (clean e); Ok (clean e)).
Proof.
  intros He. unfold Encode. destruct (validate e); [|done]. cbn [mbind result_bind]. intros <-%ok_eq.
  unfold Decode. rewrite parse_json by apply envelope_fields_ok. cbn [ok_or mbind result_bind].
  rewrite of_json_copies by apply envelope_fields_named. rewrite copies_envelope by done. done.
Qed.

Lemma clean_id e : env_text e = true → clean e = e.
Proof.
  unfold env_text. cbn [app forallb]. rewrite !andb_true_iff.
  intros (?&?&?&?&?&?&?&?&?&?&?&?&Hl).
  assert (Hm : to_valid <$> RoomMembers e = RoomMembers e).
  { induction (RoomMembers e) as [|m l IH]; [done|]. cbn [forallb] in Hl.
    apply andb_true_iff in Hl as [Hm Hl]. cbn [fmap list_fmap]. by rewrite to_valid_id, IH. }
  unfold clean. rewrite Hm, !to_valid_id by done. by destruct e.
Qed.

Lemma hello_back h :
  - 2 ^ 63 <= V h < 2 ^ 63 →
  unmarshal_hello (marshal_hello h)
  = Some {| V := V h; Name := to_valid (Name h); Caps := to_valid <$> Caps h |}.
Proof.
  intros Hv. unfold unmarshal_hello, marshal_hello, Unmarshal.
  rewrite parse_json by (unfold hello_fields; repeat (constructor; [eauto with codec|]); constructor).
  cbn [mbind option_bind skip_ws]. rewrite of_json_copies.
  2: { repeat constructor; cbn; lia. }
  unfold hello_fields. repeat copy_step. reflexivity.
Qed.
End codec.

(** ** How long a printed envelope is *)

Lemma encode_unit_len u : unit_ok u → (1 <= length (encode_unit u))%nat.
Proof.
  destruct u as [r|b]; cbn; [|lia]. intros _. pose proof (encode_rune_ne r).
  destruct (encode_rune r); cbn; [done|lia].
Qed.

Lemma escape_len u : unit_ok u → (length (escape u) <= 6 * length (encode_unit u))%nat.
Proof.
  intros Hu. pose proof (encode_unit_len u Hu). destruct u as [r|b]; [|cbn; lia].
  unfold escape. repeat case_match; cbn [length u_escape] in *; try lia. cbn [encode_unit] in *. lia.
Qed.

Lemma print_str_len s : Z.of_nat (length (print_str s)) <= 6 * slen s + 2.
Proof.
  assert (Hl : (length (concat (escape <$> units s)) <= 6 * length (concat (encode_unit <$> units s)))%nat).
  { pose proof (units_ok s) as Hu. induction Hu as [|u us Hu _ IH]; [done|].
    cbn [fmap list_fmap concat]. rewrite !length_app. pose proof (escape_len u Hu).
    change (list_fmap _ _ escape us) with (escape <$> us).
    change (list_fmap _ _ encode_unit us) with (encode_unit <$> us). lia. }
  unfold print_str. rewrite !length_app. cbn [length]. rewrite <- bytes_of_units in Hl.
  rewrite bytes_of_length in Hl. unfold slen. lia.
Qed.

Lemma dec_loop_len fuel n : (length (dec_loop fuel n) <= fuel)%nat.
Proof.
  revert n. induction fuel as [|fuel IH]; intros n; cbn; [lia|]. case_match; cbn; [lia|].
  rewrite length_app. specialize (IH (n / 10)). cbn. lia.
Qed.

Lemma dec_len z : - 2 ^ 63 <= z < 2 ^ 64 → Z.of_nat (length (dec z)) <= 65.
Proof.
  intros Hz. assert (Hn : ∀ n, 0 <= n <= 2 ^ 64 - 1 → Z.of_nat (length (dec_nat n)) <= 64).
  { intros n Hn. unfold dec_nat. pose proof (dec_loop_len (Z.to_nat (Z.log2 n + 1)) n).
    assert (Z.log2 n <= 63); [|pose proof (Z.log2_nonneg n); lia].
    apply (Z.log2_le_mono n (2 ^ 64 - 1)). lia. }
  unfold dec. destruct (Z.ltb_spec z 0).
  - cbn [length]. specialize (Hn (- z)). lia.
  - specialize (Hn z). lia.
Qed.

(** Base64 needs no escape. *)
Lemma plain_ascii_len l :
  Forall (λ c, 0 <= c < 128 ∧ escape (Rune c) = [c]) l → length (print_str (of_bytes l)) = (length l + 2)%nat.
Proof.
  intros Hl. assert (Hb : bytes_of (of_bytes l) = l).
  { apply bytes_of_of. eapply Forall_impl; [exact Hl|]. unfold is_byte. lia. }
  unfold print_str. rewrite units_ascii.
  2: { unfold ascii_text. rewrite Hb. eapply Forall_impl; [exact Hl|]. naive_solver. }
  rewrite Hb. rewrite !length_app. cbn [length].
  assert (E : length (concat (escape <$> (Rune <$> l))) = length l); [|lia].
  clear Hb. induction Hl as [|c l [_ Hc] _ IH]; [done|]. cbn [fmap list_fmap concat].
  rewrite Hc. cbn. f_equal. exact IH.
Qed.

Lemma b64_print_len s :
  3 * Z.of_nat (length (print_str (EncodeToString s))) <= 4 * slen s + 8 + 6.
Proof.
  unfold EncodeToString. rewrite plain_ascii_len.
  - pose proof (b64_encode_len (bytes_of s)) as Hb. rewrite bytes_of_length in Hb. unfold slen. lia.
  - eapply Forall_impl; [apply b64_encode_plain, bytes_of_range|]. intros c (H1 & H2).
    split; [done|]. unfold escape. ztests; try lia. apply encode_ascii; lia.
Qed.

Section sizes.
Context {R : Type}.

(** The bytes a field adds, its comma included. *)
Definition field_len (r : R) (f : field R) : Z :=
  match fl_get f r with
  | None => 0
  | Some v => Z.of_nat (length (print_member (fl_name f, v))) + 1
  end.

Lemma commas_len ls : Z.of_nat (length (commas ls)) <= foldr (λ x n, Z.of_nat (length x) + 1 + n) 0 ls.
Proof.
  induction ls as [|x ls IH]; [done|]. cbn [foldr]. destruct ls as [|y ls]; [cbn; lia|].
  change (commas (x :: y :: ls)) with (x ++ [44] ++ commas (y :: ls)).
  rewrite !length_app. cbn [length] in *. lia.
Qed.

Lemma to_json_len fs r :
  Z.of_nat (length (print (to_json fs r))) <= 2 + foldr (λ f n, field_len r f + n) 0 fs.
Proof.
  unfold to_json. cbn [print]. rewrite !length_app. cbn [length].
  change (λ kv, print_str kv.1 ++ [58] ++ print kv.2) with print_member.
  set (l := omap _ fs). pose proof (commas_len (map print_member l)).
  assert (E : foldr (λ x n, Z.of_nat (length x) + 1 + n) 0 (map print_member l)
    = foldr (λ f n, field_len r f + n) 0 fs); [|lia].
  subst l. clear. induction fs as [|f fs IH]; [done|]. cbn [omap list_omap foldr]. unfold field_len at 1.
  destruct (fl_get f r) as [v|]; cbn [fmap option_fmap option_map map foldr]; [|lia].
  rewrite IH. lia.
Qed.

Lemma member_len k v :
  Z.of_nat (length (print_member (k, v))) = Z.of_nat (length (print_str k)) + 1 + Z.of_nat (length (print v)).
Proof. unfold print_member. cbn [fst snd]. rewrite !length_app. cbn [length]. lia. Qed.

Lemma string_field_len name get upd (r : R) :
  field_len r (string_field name get upd) <= 6 * slen name + 6 * slen (get r) + 6.
Proof.
  unfold field_len. cbn [fl_get string_field fl_name]. pose proof (slen_nonneg name).
  pose proof (slen_nonneg (get r)). case_match; case_match; simplify_eq; [|lia].
  rewrite member_len. cbn [print]. pose proof (print_str_len name). pose proof (print_str_len (get r)). lia.
Qed.

Lemma int_field_len name get upd (r : R) :
  - 2 ^ 63 <= get r < 2 ^ 63 → field_len r (int_field name get upd) <= 6 * slen name + 69.
Proof.
  intros Hr. unfold field_len. cbn [fl_get int_field fl_name]. pose proof (slen_nonneg name).
  case_match; case_match; simplify_eq; [|lia].
  rewrite member_len. cbn [print JInt]. pose proof (print_str_len name). pose proof (dec_len (get r)). lia.
Qed.

Lemma bytes_field_len name get upd (r : R) :
  3 * field_len r (bytes_field name get upd) <= 18 * slen name + 4 * slen (get r) + 26.
Proof.
  unfold field_len. cbn [fl_get bytes_field fl_name]. pose proof (slen_nonneg name).
  pose proof (slen_nonneg (get r)). case_match; case_match; simplify_eq; [|lia].
  rewrite member_len. cbn [print]. pose proof (print_str_len name).
  pose proof (b64_print_len (get r)). lia.
Qed.
End sizes.

Lemma required_field_len {R} name get upd (r : R) :
  field_len r (required_field name get upd) <= 6 * slen name + 6 * slen (get r) + 6.
Proof.
  unfold field_len. cbn [fl_get required_field fl_name]. rewrite member_len. cbn [print].
  pose proof (print_str_len name). pose proof (print_str_len (get r)). lia.
Qed.

Lemma uint_field_len {R} name get upd (r : R) :
  0 <= get r < 2 ^ 64 → field_len r (uint_field name get upd) <= 6 * slen name + 69.
Proof.
  intros Hr. unfold field_len. cbn [fl_get uint_field fl_name]. pose proof (slen_nonneg name).
  case_match; case_match; simplify_eq; [|lia].
  rewrite member_len. cbn [print JInt]. pose proof (print_str_len name). pose proof (dec_len (get r)). lia.
Qed.

(** The bytes of the strings of an envelope, its chunk apart. *)
Definition text_len (e : Envelope) : Z :=
  slen (T e) + slen (ID e) + slen (Body e) + slen (ReplyTo e) + slen (Emoji e) + slen (Target e)
  + slen (Src e) + slen (Hash e) + slen (Proto.Room e) + slen (Proto.RoomEvent e) + slen (RoomName e)
  + slen (RoomActor e).

Lemma envelope_len e :
  env_typed e → RoomMembers e = [] →
  3 * Z.of_nat (length (print (to_json envelope_fields e))) <= 18 * text_len e + 4 * slen (Chunk e) + 4000.
Proof.
  intros (H1 & H2 & H3 & H4) Hm. pose proof (to_json_len envelope_fields e) as Hl. revert Hl.
  unfold envelope_fields at 2. cbn [foldr]. unfold text_len.
  pose proof (required_field_len "t" T set_T e). pose proof (string_field_len "id" ID set_ID e).
  pose proof (int_field_len "ts" TS set_TS e H1). pose proof (string_field_len "body" Body set_Body e).
  pose proof (string_field_len "replyTo" ReplyTo set_ReplyTo e).
  pose proof (string_field_len "emoji" Emoji set_Emoji e).
  pose proof (string_field_len "target" Target set_Target e).
  pose proof (string_field_len "src" Src set_Src e). pose proof (int_field_len "size" Size set_Size e H2).
  pose proof (string_field_len "hash" Hash set_Hash e). pose proof (int_field_len "offset" Offset set_Offset e H3).
  pose proof (bytes_field_len "chunk" Chunk set_Chunk e).
  pose proof (string_field_len "room" Proto.Room set_Room e). pose proof (uint_field_len "seq" Seq set_Seq e H4).
  pose proof (string_field_len "roomEvent" Proto.RoomEvent set_RoomEvent e).
  pose proof (string_field_len "roomName" RoomName set_RoomName e).
  pose proof (string_field_len "roomActor" RoomActor set_RoomActor e).
  assert (field_len e (strings_field "roomMembers" RoomMembers set_RoomMembers) = 0)
    by (unfold field_len; cbn [fl_get strings_field]; by rewrite Hm).
  unfold slen in *. cbn [String.length] in *. intros Hl.
  repeat match goal with H : context [field_len e ?f] |- _ =>
    let x := fresh "x" in set (x := field_len e f) in *; clearbody x end.
  lia.
Qed.

(** The envelopes that carry messages and files: nothing but their content is set. *)
Definition plain (e : Envelope) : Prop :=
  Emoji e = "" ∧ Target e = "" ∧ Src e = "" ∧ Hash e = "" ∧ Proto.RoomEvent e = "" ∧ RoomName e = ""
  ∧ RoomActor e = "" ∧ RoomMembers e = [].
Definition carries_content (e : Envelope) : Prop :=
  plain e ∧
  ((T e = TypeMsg ∧ Proto.Room e = "" ∧ Chunk e = "") ∨ (T e = TypeRoomMsg ∧ Chunk e = "")
   ∨ (T e = TypeChunk ∧ Body e = "" ∧ ReplyTo e = "" ∧ Proto.Room e = "")).

Lemma checkID_len id : checkID id = Ok tt → slen id = 32.
Proof. unfold checkID, IDLen. by destruct (Z.eqb_spec (slen id) (16 * 2)). Qed.
Lemma checkID_as_len m id : checkID_as m id = Ok tt → slen id = 32.
Proof. unfold checkID_as. destruct (checkID id) as [[]|] eqn:E; [|done]. intros _. by apply checkID_len. Qed.

(** What the validator bounds of such an envelope. *)
Lemma validated_len e :
  carries_content e → validate e = Ok tt →
  text_len e <= 4300 ∧ slen (Chunk e) = 0 ∨ text_len e <= 100 ∧ slen (Chunk e) <= 33792.
Proof.
  intros [(H1 & H2 & H3 & H4 & H5 & H6 & H7 & _) Hs] ([] & Hv & _)%bind_ok.
  unfold text_len. rewrite H1, H2, H3, H4, H5, H6, H7. change (slen "") with 0.
  assert (Hrt : ∀ s, (if ReplyTo e =s? "" then Ok tt else checkID_as s (ReplyTo e)) = Ok tt →
    slen (ReplyTo e) <= 32).
  { intros s. destruct (ReplyTo e =s? "") eqn:E; [apply eqs_true in E as ->; done|].
    intros Hi%checkID_as_len. lia. }
  unfold validate_body, MaxBody, ChunkSize in Hv. change (Z.shiftl 32 10) with 32768 in Hv.
  destruct Hs as [(Ht & Hr & Hc)|[(Ht & Hc)|(Ht & Hb & Hp & Hr)]]; rewrite Ht in *; cbn in Hv.
  - left. rewrite Hr, Hc. split; [|done]. change (slen TypeMsg) with 3. change (slen "") with 0.
    apply bind_ok in Hv as ([] & Hi%checkID_len & Hv). apply bind_ok in Hv as ([] & _ & Hv).
    apply bind_ok in Hv as ([] & Hl%require_ok & Hv). apply bind_ok in Hv as ([] & _ & Hv%Hrt). lia.
  - left. rewrite Hc. split; [|done]. change (slen TypeRoomMsg) with 7.
    apply bind_ok in Hv as ([] & Hi%checkID_len & Hv). apply bind_ok in Hv as ([] & _ & Hv).
    apply bind_ok in Hv as ([] & Hr%checkID_as_len & Hv). apply bind_ok in Hv as ([] & _ & Hv).
    apply bind_ok in Hv as ([] & Hl%require_ok & Hv). apply bind_ok in Hv as ([] & _ & Hv%Hrt). lia.
  - right. rewrite Hb, Hp, Hr. change (slen TypeChunk) with 5. change (slen "") with 0.
    apply bind_ok in Hv as ([] & Hi%checkID_len & Hv). apply bind_ok in Hv as ([] & _ & Hv).
    apply require_ok in Hv. lia.
Qed.

(** ** Properties *)

Section properties.
Context `{UnicodeTables}.

(** C30: the wire format is lossless.  An envelope whose text is UTF-8 and
    whose numbers have their Go types, encoded, framed and followed by
    anything, is read back as the same envelope, and the rest of the stream is
    what followed. *)
Theorem envelope_roundtrip e b w rest :
  env_typed e → env_text e = true → Encode e = Ok b → WriteFrame b = Ok w →
  ReadFrame (w +:+ rest) = Ok (b, rest) ∧ Decode b = Ok e.
Proof.
  intros He Ht Hb Hw. split; [apply ReadFrame_ok; eauto|].
  rewrite (Decode_Encode e b He Hb), clean_id by done. unfold Encode in Hb. by destruct (validate e) as [[]|].
Qed.

(** C31: messages and chunks fit a frame.  Whatever text of at most
    [MaxBody] bytes, every character escaped if need be, and whatever
    chunk of at most [ChunkSize] + 1024 bytes in base64: the encoded
    envelope is not empty and, with the sixteen bytes the cipher adds, no
    longer than the largest frame, so [WriteFrame] accepts it. *)
Theorem messages_fit_a_frame e b :
  env_typed e → carries_content e → Encode e = Ok b → 0 < slen b ∧ slen b + 16 <= MaxFrame.
Proof.
  intros He Hc Hb. unfold Encode in Hb. destruct (validate e) as [[]|] eqn:Hv; [|done].
  cbn [mbind result_bind] in Hb. apply ok_eq in Hb as <-. rewrite slen_of_bytes.
  pose proof (validated_len e Hc Hv) as Hl.
  pose proof (envelope_len e He ltac:(apply Hc)) as Hlen. unfold MaxFrame. split; [|lia].
  unfold to_json. cbn [print app length]. lia.
Qed.

(** Garbage after an envelope may pass.  [Decode] refuses trailing data
    only when [dec.More] reports some, and [dec.More] reports none before a
    closing brace or bracket: an encoded envelope with a brace and anything
    after it decodes like the envelope alone. *)
Lemma trailing_brace_accepted e b junk :
  env_typed e → env_text e = true → Encode e = Ok b → Decode (b +:+ ("}" +:+ junk)) = Ok e.
Proof.
  intros He Ht Hb. unfold Encode in Hb. destruct (validate e) as [[]|] eqn:Hv; [|done].
  cbn [mbind result_bind] in Hb. apply ok_eq in Hb as <-. unfold Decode.
  destruct (to_json_ok envelope_fields e envelope_fields_ok) as [Hp Hh].
  rewrite <- (of_bytes_of ("}" +:+ junk)), <- of_bytes_app, bytes_of_app.
  rewrite parse_print; [|done|etrans; [exact Hh|apply Nat.leb_le; by vm_compute]| |].
  - cbn [ok_or mbind result_bind]. rewrite of_json_copies by apply envelope_fields_named.
    rewrite copies_envelope, clean_id by done. cbn [ok_or mbind result_bind].
    assert (Em : More (bytes_of "}" ++ bytes_of junk) = false) by done. rewrite Em. by rewrite Hv.
  - by split_and!.
  - apply Forall_app. split; apply bytes_of_range.
Qed.
End properties.

(** ** Examples *)

#[local] Existing Instance ascii_tables.

Definition ex_id : string := "0123456789abcdef0123456789abcdef".
Definition ex_msg : Envelope := mkEnvelope TypeMsg ex_id 1700000000000 "a<b" "" "" "" "" 0 "" 0 "" "" 0 "" "" "" [].
Definition ex_msg_json : string := default "" (match Encode ex_msg with Ok b => Some b | Err _ => None end).

Lemma ex_msg_encoded : Encode ex_msg = Ok ex_msg_json.
Proof. by vm_compute. Qed.

Lemma envelope_roundtrip_witness :
  ∃ w, WriteFrame ex_msg_json = Ok w ∧
  ReadFrame (w +:+ "more") = Ok (ex_msg_json, "more") ∧ Decode ex_msg_json = Ok ex_msg.
Proof.
  assert (Ht : env_typed ex_msg) by done. assert (Hu : env_text ex_msg = true) by by vm_compute.
  destruct (WriteFrame ex_msg_json) as [w|] eqn:E; [|by vm_compute in E]. exists w. split; [reflexivity|].
  exact (envelope_roundtrip ex_msg ex_msg_json w "more" Ht Hu ex_msg_encoded E).
Defined.

Lemma messages_fit_a_frame_witness : 0 < slen ex_msg_json ∧ slen ex_msg_json + 16 <= MaxFrame.
Proof.
  apply (messages_fit_a_frame ex_msg ex_msg_json); [done| |exact ex_msg_encoded].
  split; [done|by left].
Defined.

Lemma trailing_brace_accepted_example : Decode (ex_msg_json +:+ ("}" +:+ "{junk")) = Ok ex_msg.
Proof. apply trailing_brace_accepted; [done|by vm_compute|exact ex_msg_encoded]. Defined.
