(* ===== verification/Session.v ===== *)
(** * Secure sessions (internal/session/session.go)

    The Noise XX handshake over a framed byte stream and the encrypted channel
    of envelopes that follows.  The handshake state machine and the cipher
    states of package noise are the parameter [Noise], with the laws its
    documentation promises; what a session does around them is modelled: the
    order of reads and writes, the greetings, version and name checks, and
    [Send] and [Recv].  Deadlines are the environment's: a read or write past
    one is the end of the stream. *)

From S2P Require Import Prelude GoStrings Utf8 Proto Sha256 Identity Base64 Json Codec.

Class Noise `{Curve} := {
  (** [*noise.HandshakeState] and [*noise.CipherState]. *)
  HS : Type;
  Cipher : Type;
  (** [noise.NewHandshakeState] for the XX pattern: initiator, static key
      pair, prologue, and what the random source gives for the ephemeral key. *)
  noise_new : bool → string * string → string → string → result HS;
  noise_write : HS → string → result (string * option (Cipher * Cipher) * HS);
  noise_read : HS → string → result (string * option (Cipher * Cipher) * HS);
  noise_peer : HS → string;
  (** [cs.Encrypt(nil, nil, p)] and [cs.Decrypt(nil, nil, ct)]. *)
  c_seal : Cipher → string → result (string * Cipher);
  c_open : Cipher → string → result (string * Cipher);
  c_nonce : Cipher → Z;
  (** The two ends of one direction. *)
  paired : Cipher → Cipher → Prop;
  xx_complete priv pub priv' pub' pro eph eph' i0 r0 h h' :
    dh_public priv = Ok pub → dh_public priv' = Ok pub' →
    noise_new true (priv, pub) pro eph = Ok i0 → noise_new false (priv', pub') pro eph' = Ok r0 →
    ∃ m1 m2 m3 i1 i2 i3 r1 r2 r3 a b a' b',
      noise_write i0 "" = Ok (m1, None, i1) ∧ noise_read r0 m1 = Ok ("", None, r1) ∧
      noise_write r1 h = Ok (m2, None, r2) ∧ noise_read i1 m2 = Ok (h, None, i2) ∧
      noise_write i2 h' = Ok (m3, Some (a, b), i3) ∧ noise_read r2 m3 = Ok (h', Some (a', b'), r3) ∧
      slen m1 = 32 ∧ slen m2 = 96 + slen h ∧ slen m3 = 64 + slen h' ∧
      noise_peer i3 = pub' ∧ noise_peer r3 = pub ∧ paired a a' ∧ paired b' b;
  seal_opens c d p ct c' :
    paired c d → c_seal c p = Ok (ct, c') → ∃ d', c_open d ct = Ok (p, d') ∧ paired c' d';
  seal_nonce c p ct c' : c_seal c p = Ok (ct, c') → c_nonce c' = c_nonce c + 1;
  (** A text sealed under one counter does not open under another. *)
  open_nonce c d c1 p ct c1' r :
    paired c d → c_seal c1 p = Ok (ct, c1') → c_open d ct = Ok r → c_nonce c1 = c_nonce c;
}.

Definition prologue : string := "chirp/2".
Definition LocalCaps : list string :=
  [CapFiles; CapReactions; CapReceipts; CapTyping; CapRooms; CapResume].

Section session.
Context `{Noise} `{UnicodeTables}.

(** [Conn]. *)
Record Conn := mkConn {
  RemoteKey : string; RemoteName : string; RemoteVer : Z; RemoteCaps : list string;
  enc : Cipher; dec : Cipher }.

(** ** The handshake: a byte stream to read, the frames written, the state *)

Record io := mkIO {
  io_in : string; io_out : list string; io_hs : HS; io_cs : option (Cipher * Cipher) }.

Definition IO (A : Type) : Type := io → result A * io.
#[export] Instance IO_ret : MRet IO := λ A a s, (Ok a, s).
#[export] Instance IO_bind : MBind IO := λ A A' f m s,
  match m s with (Ok a, s') => f a s' | (Err e, s') => (Err e, s') end.
Definition io_fail {A} (e : error) : IO A := λ s, (Err e, s).
Definition io_lift {A} (r : result A) : IO A := λ s, (r, s).

(** The closures [read] and [write] of [handshake]. *)
Definition read : IO string := λ s,
  match ReadFrame (io_in s) with
  | Err e => (Err e, s)
  | Ok (m, rest) =>
      let s := mkIO rest (io_out s) (io_hs s) (io_cs s) in
      match noise_read (io_hs s) m with
      | Err e => (Err (Wrapf "session: handshake" e), s)
      | Ok (p, cs, hs) => (Ok p, mkIO (io_in s) (io_out s) hs cs)
      end
  end.

Definition write (payload : string) : IO unit := λ s,
  match noise_write (io_hs s) payload with
  | Err e => (Err e, s)
  | Ok (m, cs, hs) =>
      let s := mkIO (io_in s) (io_out s) hs cs in
      match WriteFrame m with
      | Err e => (Err e, s)
      | Ok w => (Ok tt, mkIO (io_in s) (io_out s ++ [w]) hs cs)
      end
  end.

Definition ciphers : IO (option (Cipher * Cipher)) := λ s, (Ok (io_cs s), s).
Definition peer_static : IO string := λ s, (Ok (noise_peer (io_hs s)), s).

(** What follows the three messages. *)
Definition finish (peerHello : string) (cs : option (Cipher * Cipher)) : IO Conn :=
  match cs with
  | None => io_fail (Errorf "session: handshake incomplete")
  | Some (csWrite, csRead) =>
      match unmarshal_hello peerHello with
      | None => io_fail (Errorf "session: bad hello")
      | Some h =>
          let negotiated := RemoteVersion Version (V h) in
          match ValidateName (Name h) with
          | Err e => io_fail (Wrapf "session: bad peer name" e)
          | Ok name =>
              rs ← peer_static;
              if negb (slen rs =? 32) then io_fail (Errorf "session: missing peer static key") else
              mret (mkConn rs name negotiated (Caps h) csWrite csRead)
          end
      end
  end.

(** [handshake] on a connection whose incoming bytes are [input]. *)
Definition handshake (id : Identity) (initiator : bool) (prologue eph input : string)
    : result Conn * option io :=
  match noise_new initiator (id_Private id, id_Public id) prologue eph with
  | Err e => (Err e, None)
  | Ok hs =>
      let hello := marshal_hello {| V := Version; Name := id_Name id; Caps := LocalCaps |} in
      let run : IO Conn :=
        if initiator then
          _ ← write ""; peerHello ← read; _ ← write hello; cs ← ciphers;
          finish peerHello cs
        else
          _ ← read; _ ← write hello; peerHello ← read; cs ← ciphers;
          finish peerHello (prod_swap <$> cs) in
      let (r, s) := run (mkIO input [] hs None) in (r, Some s)
  end.

Definition Initiator (eph input : string) (id : Identity) := handshake id true prologue eph input.
Definition Responder (eph input : string) (id : Identity) := handshake id false prologue eph input.

(** ** The channel *)

Definition with_enc (x : Cipher) (c : Conn) : Conn :=
  mkConn (RemoteKey c) (RemoteName c) (RemoteVer c) (RemoteCaps c) x (dec c).
Definition with_dec (x : Cipher) (c : Conn) : Conn :=
  mkConn (RemoteKey c) (RemoteName c) (RemoteVer c) (RemoteCaps c) (enc c) x.

(** [c.Send(e)]: the bytes written and the connection after. *)
Definition Send (e : Envelope) (c : Conn) : result string * Conn :=
  match Encode e with
  | Err err => (Err err, c)
  | Ok plain =>
      match c_seal (enc c) plain with
      | Err err => (Err err, c)
      | Ok (ct, x) => (WriteFrame ct, with_enc x c)
      end
  end.

(** [c.Recv()] on the bytes to come: an envelope and the bytes left. *)
Definition Recv (input : string) (c : Conn) : result (Envelope * string) * Conn :=
  match ReadFrame input with
  | Err err => (Err err, c)
  | Ok (ct, rest) =>
      match c_open (dec c) ct with
      | Err _ => (Err (Errorf "session: authentication failed"), c)
      | Ok (plain, x) => (e ← Decode plain; Ok (e, rest), with_dec x c)
      end
  end.

(** Sending one envelope after the other; the frames written. *)
Fixpoint send_all (es : list Envelope) (c : Conn) : result (list string) * Conn :=
  match es with
  | [] => (Ok [], c)
  | e :: es =>
      match Send e c with
      | (Err err, c) => (Err err, c)
      | (Ok w, c) => let (ws, c) := send_all es c in (ws ← ws; Ok (w :: ws), c)
      end
  end.

(** The read loop's view: envelopes until the first error, which ends the session. *)
Fixpoint recv_all (fuel : nat) (input : string) (c : Conn) : list Envelope :=
  match fuel with
  | O => []
  | S fuel =>
      match Recv input c with
      | (Err _, _) => []
      | (Ok (e, rest), c) => e :: recv_all fuel rest c
      end
  end.
End session.

(** ** What two sessions agree on *)

Section facts.
Context `{Noise} `{UnicodeTables}.

Definition hello_of (id : Identity) : string :=
  marshal_hello {| V := Version; Name := id_Name id; Caps := LocalCaps |}.

Lemma frame_back m w rest : WriteFrame m = Ok w → ReadFrame (w +:+ rest) = Ok (m, rest).
Proof. intros Hw. apply ReadFrame_ok. eauto. Qed.

Lemma slen_runes s : slen s <= 4 * RuneCountInString s.
Proof.
  unfold RuneCountInString, slen. rewrite <- bytes_of_length, bytes_of_units.
  induction (units s) as [|u us IH]; [done|]. cbn [fmap list_fmap concat length].
  rewrite length_app. assert (length (encode_unit u) <= 4)%nat; [|cbn in *; lia].
  destruct u as [r|b]; cbn; [|lia]. unfold encode_rune. repeat case_match; cbn; lia.
Qed.

Lemma hello_len id : ValidateName (id_Name id) = Ok (id_Name id) → 0 <= slen (hello_of id) <= 2000.
Proof.
  intros (_ & _ & Hn & _)%ValidateName_ok. pose proof (slen_runes (id_Name id)).
  unfold hello_of, marshal_hello. rewrite slen_of_bytes. split; [lia|].
  set (h := {| V := Version; Name := id_Name id; Caps := LocalCaps |}).
  pose proof (to_json_len hello_fields h) as Hl. unfold hello_fields at 2 in Hl. cbn [foldr] in Hl.
  pose proof (required_field_len "name" Name set_Name h) as H1'. change (Name h) with (id_Name id) in H1'.
  change (slen "name") with 4 in H1'.
  assert (E1 : field_len h (required_int "v" V set_V) <= 10) by by vm_compute.
  assert (E2 : field_len h (strings_field "caps" Caps set_Caps) <= 200) by by vm_compute.
  lia.
Qed.

Lemma hello_back_of id :
  ValidString (id_Name id) = true →
  unmarshal_hello (hello_of id) = Some {| V := Version; Name := id_Name id; Caps := LocalCaps |}.
Proof.
  intros Hv. unfold hello_of. rewrite hello_back by done. cbn [V Name Caps]. rewrite to_valid_id by done.
  do 2 f_equal.
Qed.

Lemma write_total s payload m cs hs :
  noise_write (io_hs s) payload = Ok (m, cs, hs) → 1 <= slen m <= 65535 →
  ∃ w, WriteFrame m = Ok w ∧ write payload s = (Ok tt, mkIO (io_in s) (io_out s ++ [w]) hs cs).
Proof.
  intros Hw Hm. unfold write. rewrite Hw. destruct (WriteFrame m) as [w|err] eqn:E; [by exists w|].
  assert (E' : WriteFrame m = Ok (be_put16 (slen m) +:+ m)) by (apply WriteFrame_ok; done). congruence.
Qed.

Lemma read_total s m w rest p cs hs :
  io_in s = w +:+ rest → WriteFrame m = Ok w → noise_read (io_hs s) m = Ok (p, cs, hs) →
  read s = (Ok p, mkIO rest (io_out s) hs cs).
Proof. intros Hi Hw Hr. unfold read. rewrite Hi, (frame_back m w rest Hw). cbn. by rewrite Hr. Qed.

Lemma finish_ok id a b s :
  identity_ok id → noise_peer (io_hs s) = id_Public id →
  finish (hello_of id) (Some (a, b)) s =
  (Ok (mkConn (id_Public id) (id_Name id) Version LocalCaps a b), s).
Proof.
  intros (Hk & Hn & Hv) Hp. unfold finish. rewrite hello_back_of by done.
  cbn [Name V Caps]. rewrite Hn. unfold mbind, IO_bind, peer_static. rewrite Hp.
  apply dh_public_len in Hk. rewrite Hk. done.
Qed.

(** ** The channel *)

Lemma Send_ok e c w c' :
  Send e c = (Ok w, c') →
  ∃ plain ct x, Encode e = Ok plain ∧ c_seal (enc c) plain = Ok (ct, x) ∧ WriteFrame ct = Ok w
                ∧ c' = with_enc x c.
Proof.
  unfold Send. destruct (Encode e) as [plain|]; [|done].
  destruct (c_seal (enc c) plain) as [[ct x]|] eqn:Ec; [|done].
  intros [= Hw <-]. by exists plain, ct, x.
Qed.

Lemma send_all_cons e es c ws c' :
  send_all (e :: es) c = (Ok ws, c') →
  ∃ w c1 ws', Send e c = (Ok w, c1) ∧ send_all es c1 = (Ok ws', c') ∧ ws = w :: ws'.
Proof.
  cbn [send_all]. destruct (Send e c) as [[w|] c1]; [|done].
  destruct (send_all es c1) as [[ws'|] c2] eqn:Er; [|done]. intros [= <- <-].
  by exists w, c1, ws'.
Qed.

(** Frame [w] was sealed [j] after the state of [c]. *)
Definition sealed_at (c : Conn) (j : Z) (w : string) : Prop :=
  ∃ c1 p ct c1', WriteFrame ct = Ok w ∧ c_seal c1 p = Ok (ct, c1') ∧ c_nonce c1 = c_nonce (enc c) + j.

Lemma send_all_sealed es c ws c' i w :
  send_all es c = (Ok ws, c') → ws !! i = Some w → sealed_at c (Z.of_nat i) w.
Proof.
  revert c ws i. induction es as [|e es IH]; intros c ws i.
  { intros [= <- _]. done. }
  intros (w0 & c1 & ws' & Hs & Hr & ->)%send_all_cons Hi.
  apply Send_ok in Hs as (plain & ct & x & _ & Hc & Hw & ->). destruct i as [|i].
  - injection Hi as <-. exists (enc c), plain, ct, x. split_and!; [done|done|lia].
  - destruct (IH _ _ _ Hr Hi) as (c2 & p & ct2 & c2' & H1' & H2' & H3').
    exists c2, p, ct2, c2'. split_and!; [done|done|]. cbn [enc with_enc] in H3'.
    rewrite (seal_nonce _ _ _ _ Hc) in H3'. lia.
Qed.

(** One genuine frame, where it is due. *)
Lemma Recv_due e c w c' d rest :
  env_typed e → env_text e = true → Send e c = (Ok w, c') → paired (enc c) (dec d) →
  ∃ x, Recv (w +:+ rest) d = (Ok (e, rest), with_dec x d) ∧ paired (enc c') x.
Proof.
  intros He Ht (plain & ct & x & Hp & Hc & Hw & ->)%Send_ok Hpd.
  destruct (seal_opens _ _ _ _ _ Hpd Hc) as (x' & Ho & Hp'). exists x'. split; [|done].
  unfold Recv. rewrite (frame_back ct w rest Hw), Ho, (Decode_Encode e plain He Hp), clean_id by done.
  unfold Encode in Hp. destruct (validate e) as [[]|]; [|done]. done.
Qed.

Definition joined (ws : list string) : string := foldr (λ w s, w +:+ s) "" ws.

(** Frames in any order, lost or repeated: what is received is a prefix. *)
Lemma recv_prefix ws' fuel d es ws c c' :
  Forall env_typed es → Forall (λ e, env_text e = true) es →
  send_all es c = (Ok ws, c') → paired (enc c) (dec d) →
  (∀ w, w ∈ ws' → ∃ c1 p ct c1', WriteFrame ct = Ok w ∧ c_seal c1 p = Ok (ct, c1') ∧
     ∀ j : nat, c_nonce c1 = c_nonce (enc c) + Z.of_nat j → ws !! j = Some w) →
  recv_all fuel (joined ws') d `prefix_of` es.
Proof.
  revert ws' d es ws c. induction fuel as [|fuel IH]; intros ws' d es ws c He Ht Hs Hp Hg;
    [apply prefix_nil|]. destruct ws' as [|w ws']; [apply prefix_nil|].
  destruct (Hg w ltac:(by left)) as (c1 & p & ct & c1' & Hw & Hc1 & Hn). cbn [recv_all joined foldr].
  unfold Recv at 1. rewrite (frame_back ct w _ Hw). destruct (c_open (dec d) ct) as [[plain x]|] eqn:Ho;
    [|apply prefix_nil].
  specialize (Hn 0%nat). rewrite (open_nonce _ _ _ _ _ _ _ Hp Hc1 Ho) in Hn. specialize (Hn ltac:(lia)).
  destruct es as [|e es]; [by injection Hs as <- _|].
  apply send_all_cons in Hs as (w0 & c2 & ws0 & Hse & Hs & ->). injection Hn as <-.
  apply Forall_cons in He as [He Hes]. apply Forall_cons in Ht as [Ht Hts].
  destruct (Recv_due e c w0 c2 d (joined ws') He Ht Hse Hp) as (x' & Hr & Hp').
  unfold Recv in Hr. rewrite (frame_back ct w0 _ Hw), Ho in Hr. unfold joined in Hr at 1.
  injection Hr as Hr Hx. rewrite Hr, Hx. apply prefix_cons. apply (IH ws' (with_dec x' d) es ws0 c2); [done..|].
  intros w Hin. destruct (Hg w ltac:(by right)) as (c3 & p3 & ct3 & c3' & Hw3 & Hc3 & Hn3).
  exists c3, p3, ct3, c3'. split_and!; [done|done|]. intros j Hj. apply (Hn3 (S j)).
  apply Send_ok in Hse as (? & ? & x2 & _ & Hc2 & _ & ->). cbn [enc with_enc] in Hj.
  rewrite (seal_nonce _ _ _ _ Hc2) in Hj. lia.
Qed.

Lemma recv_everything es ws c c' d fuel :
  Forall env_typed es → Forall (λ e, env_text e = true) es →
  send_all es c = (Ok ws, c') → paired (enc c) (dec d) → (length es <= fuel)%nat →
  recv_all fuel (joined ws) d = es.
Proof.
  revert ws c d fuel. induction es as [|e es IH]; intros ws c d fuel He Ht Hs Hp Hf.
  { injection Hs as <- _. by destruct fuel. }
  destruct fuel as [|fuel]; [cbn in Hf; lia|].
  apply send_all_cons in Hs as (w0 & c2 & ws0 & Hse & Hs & ->).
  apply Forall_cons in He as [He Hes]. apply Forall_cons in Ht as [Ht Hts].
  destruct (Recv_due e c w0 c2 d (joined ws0) He Ht Hse Hp) as (x' & Hr & Hp').
  cbn [recv_all joined foldr]. unfold joined in Hr. rewrite Hr. f_equal.
  apply (IH ws0 c2); [done..|]. cbn in Hf. lia.
Qed.
End facts.

(** ** Properties *)

Section properties.
Context `{Noise} `{UnicodeTables}.

(** C21: a handshake agrees.  When two nodes with valid identities read
    what the other writes, whatever follows it on the wire, both sides
    finish: each knows the other's static key, name, version and
    capabilities, the cipher each sends with is the one the other receives
    with, and no byte of what follows is consumed. *)
Theorem handshake_agrees idi idr ephi ephr i0 r0 resti restr :
  identity_ok idi → identity_ok idr →
  noise_new true (id_Private idi, id_Public idi) prologue ephi = Ok i0 →
  noise_new false (id_Private idr, id_Public idr) prologue ephr = Ok r0 →
  ∃ w1 w2 w3 ci cr si sr,
    Initiator ephi (w2 +:+ resti) idi = (Ok ci, Some si) ∧ io_out si = [w1; w3] ∧ io_in si = resti ∧
    Responder ephr (w1 +:+ (w3 +:+ restr)) idr = (Ok cr, Some sr) ∧ io_out sr = [w2] ∧ io_in sr = restr ∧
    RemoteKey ci = id_Public idr ∧ RemoteName ci = id_Name idr ∧
    RemoteKey cr = id_Public idi ∧ RemoteName cr = id_Name idi ∧
    RemoteVer ci = Version ∧ RemoteVer cr = Version ∧
    RemoteCaps ci = LocalCaps ∧ RemoteCaps cr = LocalCaps ∧
    paired (enc ci) (dec cr) ∧ paired (enc cr) (dec ci).
Proof.
  intros Hi Hr Ei Er. pose proof (hello_len idi (proj1 (proj2 Hi))) as Li.
  pose proof (hello_len idr (proj1 (proj2 Hr))) as Lr.
  destruct (xx_complete _ _ _ _ prologue ephi ephr i0 r0 (hello_of idr) (hello_of idi)
    (proj1 Hi) (proj1 Hr) Ei Er)
    as (m1 & m2 & m3 & i1 & i2 & i3 & r1 & r2 & r3 & a & b & a' & b' &
        X1 & X2 & X3 & X4 & X5 & X6 & L1 & L2 & L3 & P1 & P2 & Q1 & Q2).
  unfold Initiator, Responder, handshake. rewrite Ei, Er. fold (hello_of idi) (hello_of idr).
  destruct (write_total (mkIO "" [] i0 None) "" m1 None i1 X1 ltac:(lia)) as (w1 & W1 & _).
  destruct (write_total (mkIO "" [] r1 None) (hello_of idr) m2 None r2 X3 ltac:(lia)) as (w2 & W2 & _).
  destruct (write_total (mkIO "" [] i2 None) (hello_of idi) m3 (Some (a, b)) i3 X5 ltac:(lia)) as (w3 & W3 & _).
  assert (Hw : ∀ inp out hs cs p m cs' hs' w, noise_write hs p = Ok (m, cs', hs') → WriteFrame m = Ok w →
    write p (mkIO inp out hs cs) = (Ok tt, mkIO inp (out ++ [w]) hs' cs')).
  { intros inp out hs cs p m cs' hs' w E1 E2. unfold write. cbn [io_hs io_in io_out]. by rewrite E1, E2. }
  assert (Hrd : ∀ rest out hs cs m cs' hs' w p, noise_read hs m = Ok (p, cs', hs') → WriteFrame m = Ok w →
    read (mkIO (w +:+ rest) out hs cs) = (Ok p, mkIO rest out hs' cs')).
  { intros rest out hs cs m cs' hs' w p E1 E2. exact (read_total (mkIO (w +:+ rest) out hs cs) m w rest p cs' hs' eq_refl E2 E1). }
  exists w1, w2, w3.
  exists (mkConn (id_Public idr) (id_Name idr) Version LocalCaps a b).
  exists (mkConn (id_Public idi) (id_Name idi) Version LocalCaps b' a').
  exists (mkIO resti ([] ++ [w1] ++ [w3]) i3 (Some (a, b))), (mkIO restr ([] ++ [w2]) r3 (Some (a', b'))).
  split_and!; try done.
  - unfold mbind, IO_bind, ciphers.
    rewrite (Hw _ _ _ _ _ _ _ _ _ X1 W1), (Hrd _ _ _ _ _ _ _ _ _ X4 W2), (Hw _ _ _ _ _ _ _ _ _ X5 W3).
    cbn [io_cs]. by rewrite (finish_ok idr).
  - unfold mbind, IO_bind, ciphers.
    rewrite (Hrd _ _ _ _ _ _ _ _ _ X2 W1), (Hw _ _ _ _ _ _ _ _ _ X3 W2), (Hrd _ _ _ _ _ _ _ _ _ X6 W3).
    cbn [io_cs fmap option_fmap option_map prod_swap]. by rewrite (finish_ok idi).
Qed.

(** C20: an envelope arrives unchanged and in its turn, or the session ends.
    Over a channel whose ends are paired: what the sender's frames, in
    whatever order, number and repetition the network delivers them, make
    the receiver return before its first error is a prefix of the envelopes
    sent; delivered as sent, it is all of them. *)
Theorem session_delivers_in_order es ws c c' d :
  Forall env_typed es → Forall (λ e, env_text e = true) es →
  paired (enc c) (dec d) → send_all es c = (Ok ws, c') →
  (∀ fuel ws', (∀ w, w ∈ ws' → w ∈ ws) → recv_all fuel (joined ws') d `prefix_of` es) ∧
  (∀ fuel, (length es <= fuel)%nat → recv_all fuel (joined ws) d = es).
Proof.
  intros He Ht Hp Hs. split.
  - intros fuel ws' Hin. apply (recv_prefix ws' fuel d es ws c c' He Ht Hs Hp).
    intros w [i Hi]%Hin%list_elem_of_lookup.
    destruct (send_all_sealed _ _ _ _ _ _ Hs Hi) as (c1 & p & ct & c1' & H1' & H2' & H3').
    exists c1, p, ct, c1'. split_and!; [done|done|]. intros j Hj. by replace j with i by lia.
  - intros fuel Hf. by apply (recv_everything es ws c c').
Qed.
End properties.

(** ** A stand-in for running the model

    The messages carry the keys in the clear, the ciphers put the counter in
    front of the text. *)

Section toy.
#[local] Existing Instance toy_curve.

Record toy_hs := mkToy {
  th_init : bool; th_step : nat; th_pub : string; th_pro : string; th_eph : string;
  th_reph : string; th_peer : string }.

Definition fix32 (s : string) : string := str_take 32 (s +:+ "................................").

Lemma fix32_len s : slen (fix32 s) = 32.
Proof.
  apply (slen_take 32). rewrite slen_app. change (slen "................................") with 32.
  pose proof (slen_nonneg s). lia.
Qed.

Definition toy_keys (h : toy_hs) : option ((string * Z) * (string * Z)) := Some ((th_pro h, 0), (th_pro h, 0)).

Definition toy_write (h : toy_hs) (p : string)
    : result (string * option ((string * Z) * (string * Z)) * toy_hs) :=
  let next := mkToy (th_init h) (S (th_step h)) (th_pub h) (th_pro h) (th_eph h) (th_reph h) (th_peer h) in
  match th_init h, th_step h with
  | true, 0%nat => Ok (fix32 (th_eph h), None, next)
  | false, 1%nat => Ok (fix32 (th_eph h) +:+ (th_pub h +:+ (fix32 (th_pro h) +:+ p)), None, next)
  | true, 2%nat => Ok (th_pub h +:+ (fix32 (th_pro h) +:+ p), toy_keys h, next)
  | _, _ => Err (Errorf "noise: unexpected call")
  end.

Definition toy_read (h : toy_hs) (m : string)
    : result (string * option ((string * Z) * (string * Z)) * toy_hs) :=
  let next reph peer := mkToy (th_init h) (S (th_step h)) (th_pub h) (th_pro h) (th_eph h) reph peer in
  let tagged s := str_take 32 s =s? fix32 (th_pro h) in
  match th_init h, th_step h with
  | false, 0%nat => Ok ("", None, next m "")
  | true, 1%nat =>
      let s := str_drop 32 (str_drop 32 m) in
      if tagged s then Ok (str_drop 32 s, None, next (str_take 32 m) (str_take 32 (str_drop 32 m)))
      else Err (Errorf "noise: message authentication failed")
  | false, 2%nat =>
      let s := str_drop 32 m in
      if tagged s then Ok (str_drop 32 s, toy_keys h, next (th_reph h) (str_take 32 m))
      else Err (Errorf "noise: message authentication failed")
  | _, _ => Err (Errorf "noise: unexpected call")
  end.

Definition toy_counter (n : Z) : bool := (0 <=? n) && (n <? 2 ^ 64 - 1).
Definition toy_seal (c : string * Z) (p : string) : result (string * (string * Z)) :=
  if toy_counter c.2 then Ok (be_put64 c.2 +:+ p, (c.1, c.2 + 1)) else Err (Errorf "noise: max nonce").
Definition toy_open (c : string * Z) (ct : string) : result (string * (string * Z)) :=
  if toy_counter c.2 && has_prefix ct (be_put64 c.2) then Ok (str_drop 8 ct, (c.1, c.2 + 1))
  else Err (Errorf "noise: message authentication failed").

Lemma take32 s t : slen s = 32 → str_take 32 (s +:+ t) = s ∧ str_drop 32 (s +:+ t) = t.
Proof. intros Hs. unfold slen in Hs. split; [apply str_take_app|apply str_drop_app]; lia. Qed.

Program Definition toy_noise : Noise := {|
  HS := toy_hs; Cipher := string * Z;
  noise_new init kp pro eph := Ok (mkToy init 0 kp.2 pro eph "" "");
  noise_write := toy_write; noise_read := toy_read; noise_peer := th_peer;
  c_seal := toy_seal; c_open := toy_open; c_nonce c := c.2;
  paired c d := c = d |}.
Next Obligation.
  intros priv pub priv' pub' pro eph eph' i0 r0 h h' Hk Hk' [= <-] [= <-].
  apply (dh_public_len (Curve := toy_curve)) in Hk. apply (dh_public_len (Curve := toy_curve)) in Hk'.
  do 13 eexists. split_and!; try reflexivity.
  - unfold toy_read. cbn [th_init th_step th_pro th_pub]. cbv zeta.
    rewrite (proj2 (take32 (fix32 eph') _ (fix32_len _))).
    rewrite (proj1 (take32 pub' _ Hk')), (proj2 (take32 pub' _ Hk')).
    rewrite (proj1 (take32 (fix32 pro) h (fix32_len _))), (proj2 (take32 (fix32 pro) h (fix32_len _))), eqs_refl.
    reflexivity.
  - reflexivity.
  - unfold toy_read. cbn [th_init th_step th_pro th_pub]. cbv zeta.
    rewrite (proj2 (take32 pub _ Hk)).
    rewrite (proj1 (take32 (fix32 pro) h' (fix32_len _))), (proj2 (take32 (fix32 pro) h' (fix32_len _))), eqs_refl.
    reflexivity.
  - apply fix32_len.
  - cbn [th_pub th_pro th_eph]. rewrite !slen_app, !fix32_len. lia.
  - cbn [th_pub th_pro th_eph]. rewrite !slen_app, fix32_len. lia.
  - reflexivity.
  - cbn [th_peer th_eph th_pub th_pro]. apply (take32 pub _ Hk).
Qed.
Next Obligation.
  intros [k n] d p ct c' <-. unfold toy_seal, toy_open. cbn [fst snd].
  destruct (toy_counter n); [|done]. intros [= <- <-].
  rewrite has_prefix_app, str_drop_app by reflexivity. by eexists.
Qed.
Next Obligation. intros [k n] p ct c'. unfold toy_seal. destruct (toy_counter _); [|done]. by intros [= _ <-]. Qed.
Next Obligation.
  intros [k n] d [k1 n1] p ct c1' r <-. unfold toy_seal, toy_open. cbn [fst snd].
  destruct (toy_counter n1) eqn:E1; [|done]. intros [= <- _].
  destruct (toy_counter n) eqn:E; [|done]. cbn [andb].
  destruct (has_prefix _ _) eqn:Hp; [|done]. intros _. apply has_prefix_spec in Hp as [t Ht].
  apply (f_equal (str_take 8)) in Ht. rewrite !str_take_app in Ht by reflexivity.
  unfold toy_counter in *. apply be_put64_inj in Ht; lia.
Qed.
End toy.

(** ** Examples *)

#[local] Existing Instance toy_curve.
#[local] Existing Instance toy_noise.
#[local] Existing Instance ascii_tables.

Definition ex_key (k : string) : string := Sum256 k.
Definition ex_person (name k : string) : Identity := mkIdentity name k (ex_key k).

Lemma ex_person_ok name k :
  ValidateName name = Ok name → ValidString name = true → identity_ok (ex_person name k).
Proof. done. Qed.

Lemma handshake_agrees_witness :
  ∃ w1 w2 w3 ci cr si sr,
    Initiator "ei" (w2 +:+ "") (ex_person "Alice" "a") = (Ok ci, Some si) ∧ io_out si = [w1; w3] ∧
    Responder "er" (w1 +:+ (w3 +:+ "x")) (ex_person "Bob" "b") = (Ok cr, Some sr) ∧
    RemoteName ci = "Bob" ∧ RemoteName cr = "Alice" ∧ paired (enc ci) (dec cr).
Proof.
  pose proof (handshake_agrees (ex_person "Alice" "a") (ex_person "Bob" "b") "ei" "er" _ _ "" "x"
    (ex_person_ok "Alice" "a" ltac:(by vm_compute) ltac:(by vm_compute))
    (ex_person_ok "Bob" "b" ltac:(by vm_compute) ltac:(by vm_compute)) eq_refl eq_refl)
    as (w1 & w2 & w3 & ci & cr & si & sr & X1 & X2 & _ & X3 & _ & _ & _ & X4 & _ & X5 & _ & _ & _ & _ & X6 & _).
  exists w1, w2, w3, ci, cr, si, sr. exact (conj X1 (conj X2 (conj X3 (conj X4 (conj X5 X6))))).
Defined.

(** Two envelopes; the network repeats the first and drops the second. *)
Definition ex_conn (n : Z) : Conn := mkConn "k" "Bob" 2 [] ("key", n) ("key", n).
Definition ex_two : list Envelope := [ex_msg; envelope TypePing].
Definition ex_frames : list string :=
  match (send_all ex_two (ex_conn 0)).1 with Ok ws => ws | Err _ => [] end.

Lemma ex_two_sent : send_all ex_two (ex_conn 0) = (Ok ex_frames, (send_all ex_two (ex_conn 0)).2).
Proof.
  assert (Hok : is_ok (send_all ex_two (ex_conn 0)).1 = true) by by vm_compute.
  unfold ex_frames. destruct (send_all ex_two (ex_conn 0)) as [[ws|err] c]; [reflexivity|done].
Qed.

Lemma session_delivers_in_order_witness :
  let w := default "" (head ex_frames) in
  recv_all 5 (joined [w; w]) (ex_conn 0) `prefix_of` ex_two ∧
  recv_all 5 (joined ex_frames) (ex_conn 0) = ex_two.
Proof.
  intros w. assert (Hw : w ∈ ex_frames) by (apply list_elem_of_In; vm_compute; tauto).
  assert (H1 : Forall env_typed ex_two) by by repeat constructor.
  assert (H2 : Forall (λ e, env_text e = true) ex_two).
  { by repeat (constructor; [by vm_compute|]). }
  pose proof (session_delivers_in_order ex_two ex_frames (ex_conn 0) _ (ex_conn 0) H1 H2 eq_refl ex_two_sent)
    as [H3 H4].
  split; [apply H3|apply H4; cbn; lia].
  intros w' Hin. apply elem_of_cons in Hin as [->|Hin]; [exact Hw|].
  apply list_elem_of_singleton in Hin as ->. exact Hw.
Defined.
