(* ===== verification/Crypto.v ===== *)
(** * Encryption at rest (internal/crypto/crypto.go)

    The on-disk envelope "CHIRPENC", version, nonce, ciphertext.  The ciphers
    and key-derivation functions of golang.org/x/crypto are the parameter
    [Primitives]: what is used of their documentation is its laws.  Each call
    of [rand.Read] is an argument, [None] standing for a failed read. *)

From S2P Require Import Prelude GoStrings Utf8 Proto.

Class Primitives := {
  (** [aead.Seal] and [aead.Open] of chacha20poly1305: key, nonce, text, additional data. *)
  seal : string → string → string → string → string;
  open : string → string → string → string → option string;
  (** [hkdf.New(sha256.New, secret, nil, info)] read for 32 bytes. *)
  hkdf_sha256 : string → string → string;
  (** [argon2.IDKey(password, salt, 3, 64*1024, 4, 32)]. *)
  argon2id : string → string → string;
  (** [scrypt.Key(password, salt, N, r, p, 32)]. *)
  scrypt_key : string → string → Z → Z → Z → result string;
  open_seal k n p a : slen k = 32 → slen n = 12 → open k n (seal k n p a) a = Some p;
  seal_len k n p a : slen k = 32 → slen n = 12 → slen (seal k n p a) = slen p + 16;
  hkdf_len s i : slen (hkdf_sha256 s i) = 32;
  argon2_len p s : slen (argon2id p s) = 32;
  scrypt_len p s N r q k : scrypt_key p s N r q = Ok k → slen k = 32;
}.

Definition magic := "CHIRPENC".
Definition version : Z := 1.
Definition keyLen : Z := 32.
Definition nonceLen : Z := 12.

Section crypto.
Context `{Primitives}.

Definition DeriveKeyFromIdentity (privKey : string) : string :=
  hkdf_sha256 privKey "chirp/at-rest/v1".

Definition DeriveKeyFromPassphraseSalt (passphrase salt : string) : string :=
  argon2id passphrase salt.

(** A failed [rand.Read] panics. *)
Definition DeriveKeyFromPassphrase (passphrase : string) (rnd : option string)
    : option (string * string) :=
  salt ← rnd; Some (argon2id passphrase salt, salt).

(** [a[i] ^ b[i]] for 32 bytes; an index out of range panics. *)
Definition CombineKeys (a b : string) : option string :=
  let la := take 32 (bytes_of a) in
  let lb := take 32 (bytes_of b) in
  if (length la =? 32)%nat && (length lb =? 32)%nat
  then Some (of_bytes (zip_with Z.lxor la lb)) else None.

(** [chacha20poly1305.New(key)]. *)
Definition aead_new (key : string) : result unit :=
  if slen key =? 32 then Ok tt else Err (Wrapf "crypto: aead" (Errorf "bad key length")).

Definition Encrypt (key plaintext : string) (rnd : option string) : result string :=
  _ ← aead_new key;
  nonce ← ok_or (Wrapf "crypto: rand" (Errorf "read")) rnd;
  Ok (magic +:+ (of_bytes [version] +:+ (nonce +:+ seal key nonce plaintext ""))).

Definition IsEncrypted (data : string) : bool := has_prefix data magic.

Definition Decrypt (key data : string) : result string :=
  if slen data =? 0 then Ok "" else
  if negb (has_prefix data magic) then Err (Errorf "crypto: not an encrypted envelope") else
  if slen data <? slen magic + 1 + nonceLen + 16 then Err (Errorf "crypto: envelope too short") else
  let d1 := str_drop 8 data in
  if negb (str_take 1 d1 =s? of_bytes [version]) then Err (Errorf "crypto: unknown version") else
  let d2 := str_drop 1 d1 in
  let nonce := str_take 12 d2 in
  let ct := str_drop 12 d2 in
  _ ← aead_new key;
  ok_or (Errorf "crypto: decryption failed") (open key nonce ct "").

(** ** Lemmas *)

Lemma aead_new_ok key : aead_new key = Ok tt ↔ slen key = 32.
Proof.
  unfold aead_new. destruct (Z.eqb_spec (slen key) 32); split; (done || naive_solver).
Qed.

Lemma Encrypt_ok key pt rnd ct :
  Encrypt key pt rnd = Ok ct ↔
  slen key = 32 ∧ ∃ nonce, rnd = Some nonce ∧
    ct = magic +:+ (of_bytes [version] +:+ (nonce +:+ seal key nonce pt "")).
Proof.
  unfold Encrypt. rewrite bind_ok. split.
  - intros [[] [Hk Hb]]. apply aead_new_ok in Hk. destruct rnd as [n|]; [|done].
    injection Hb as <-. eauto.
  - intros [Hk (nonce & -> & ->)]. exists tt. split; [by apply aead_new_ok|done].
Qed.

Lemma Encrypt_total key pt nonce :
  slen key = 32 → ∃ ct, Encrypt key pt (Some nonce) = Ok ct.
Proof. intros Hk. eexists. apply Encrypt_ok. eauto. Qed.

Lemma Encrypt_IsEncrypted key pt rnd ct :
  Encrypt key pt rnd = Ok ct → IsEncrypted ct = true.
Proof. intros (_ & n & _ & ->)%Encrypt_ok. apply has_prefix_app. Qed.

Lemma Decrypt_Encrypt key pt nonce ct :
  slen nonce = 12 → Encrypt key pt (Some nonce) = Ok ct → Decrypt key ct = Ok pt.
Proof.
  intros Hn (Hk & n & [= <-] & ->)%Encrypt_ok. unfold Decrypt. cbv zeta.
  assert (Hlen : slen (magic +:+ (of_bytes [version] +:+ (nonce +:+ seal key nonce pt "")))
                 = 8 + 1 + 12 + (slen pt + 16)).
  { rewrite !slen_app, seal_len, Hn by done. change (slen magic) with 8.
    change (slen (of_bytes [version])) with 1. lia. }
  rewrite Hlen. pose proof (slen_nonneg pt). rewrite has_prefix_app. cbn [negb].
  change (slen magic) with 8. unfold nonceLen.
  destruct (Z.eqb_spec (8 + 1 + 12 + (slen pt + 16)) 0); [lia|].
  destruct (Z.ltb_spec (8 + 1 + 12 + (slen pt + 16)) (8 + 1 + 12 + 16)); [lia|].
  rewrite (str_drop_app magic) by done. rewrite str_take_app by done.
  rewrite eqs_refl. cbn [negb].
  rewrite (str_drop_app (of_bytes [version])) by done.
  assert (12%nat = String.length nonce) by (unfold slen in Hn; lia).
  rewrite str_take_app, str_drop_app by done.
  rewrite (proj2 (aead_new_ok key)) by done. cbn. by rewrite open_seal.
Qed.

Lemma Decrypt_plain key data :
  IsEncrypted data = false → data ≠ "" →
  Decrypt key data = Err (Errorf "crypto: not an encrypted envelope").
Proof.
  intros Hd Hne. unfold Decrypt, IsEncrypted in *. rewrite Hd. cbn.
  destruct (Z.eqb_spec (slen data) 0) as [E|]; [|done]. by apply slen_zero in E.
Qed.

Lemma lxor_byte a b : is_byte a → is_byte b → is_byte (Z.lxor a b).
Proof.
  unfold is_byte. intros Ha Hb. split; [apply Z.lxor_nonneg; lia|].
  destruct (Z.eq_dec (Z.lxor a b) 0) as [->|]; [lia|].
  assert (0 <= Z.lxor a b) by (apply Z.lxor_nonneg; lia).
  apply (Z.log2_lt_pow2 _ 8); [lia|].
  eapply Z.le_lt_trans; [apply Z.log2_lxor; lia|].
  apply Z.max_lub_lt;
    (apply Z.le_lt_trans with (Z.log2 255); [apply Z.log2_le_mono; lia|done]).
Qed.
End crypto.

(** A transparent cipher for running the model: the text followed by the
    first half of the key as its tag. *)
Program Definition toy_primitives : Primitives := {|
  seal k n p a := p +:+ str_take 16 k;
  open k n c a :=
    let m := (String.length c - 16)%nat in
    if str_drop m c =s? str_take 16 k then Some (str_take m c) else None;
  hkdf_sha256 s i := str_take 32 (s +:+ "................................");
  argon2id p s := str_take 32 (p +:+ s +:+ "................................");
  scrypt_key p s n r q := Ok (str_take 32 (p +:+ s +:+ "................................"));
|}.
Next Obligation.
  intros k n p a Hk Hn. cbv beta zeta.
  assert (Ht : String.length (str_take 16 k) = 16%nat).
  { pose proof (slen_take 16 k). unfold slen in *. change (Z.to_nat 16) with 16%nat in *. lia. }
  assert (Hl : (String.length (p +:+ str_take 16 k) - 16)%nat = String.length p).
  { pose proof (slen_app p (str_take 16 k)). unfold slen in *. lia. }
  rewrite Hl, str_drop_app, str_take_app by done. by rewrite eqs_refl.
Qed.
Next Obligation.
  intros k n p a Hk Hn. cbv beta. rewrite slen_app.
  assert (slen (str_take 16 k) = 16) by (apply (slen_take 16); lia). lia.
Qed.
Next Obligation.
  intros s i. apply (slen_take 32). rewrite slen_app.
  change (slen "................................") with 32. pose proof (slen_nonneg s). lia.
Qed.
Next Obligation.
  intros p s. apply (slen_take 32). rewrite !slen_app.
  change (slen "................................") with 32.
  pose proof (slen_nonneg s). pose proof (slen_nonneg p). lia.
Qed.
Next Obligation.
  intros p s N r q k. cbv beta. intros [= <-]. apply (slen_take 32). rewrite !slen_app.
  change (slen "................................") with 32.
  pose proof (slen_nonneg s). pose proof (slen_nonneg p). lia.
Qed.
