(* ===== verification/Backup.v ===== *)
(** * Encrypted backups of an identity (internal/identity/backup.go)

    The backup file as indented JSON, its export and its import.  The key
    derivation and the cipher are [Crypto.Primitives], the curve
    [Identity.Curve].  Each [rand.Read] is an argument, [None] a failed one. *)

From S2P Require Import Prelude GoStrings Utf8 Proto Sha256 Identity Base64 Json Codec Crypto.

Definition backupVersion : Z := 1.
Definition scryptN : Z := Z.shiftl 1 15.
Definition scryptR : Z := 8.
Definition scryptP : Z := 1.

(** ** The structs and their tags *)

(** A [[]byte] field without [omitempty]; no caller has a nil slice there. *)
Definition required_bytes {R} (name : string) (get : R → string) (upd : string → R → R) : field R :=
  mkField name (λ r, Some (JStr (EncodeToString (get r)))) (set_bytes get upd).

Record backupFile := mkBackup {
  b_V : Z; b_KDF : string; b_N : Z; b_R : Z; b_P : Z; b_Salt : string; b_Non : string; b_Data : string }.
Definition set_bV (x : Z) (f : backupFile) : backupFile :=
  mkBackup x (b_KDF f) (b_N f) (b_R f) (b_P f) (b_Salt f) (b_Non f) (b_Data f).
Definition set_bKDF (x : string) (f : backupFile) : backupFile :=
  mkBackup (b_V f) x (b_N f) (b_R f) (b_P f) (b_Salt f) (b_Non f) (b_Data f).
Definition set_bN (x : Z) (f : backupFile) : backupFile :=
  mkBackup (b_V f) (b_KDF f) x (b_R f) (b_P f) (b_Salt f) (b_Non f) (b_Data f).
Definition set_bR (x : Z) (f : backupFile) : backupFile :=
  mkBackup (b_V f) (b_KDF f) (b_N f) x (b_P f) (b_Salt f) (b_Non f) (b_Data f).
Definition set_bP (x : Z) (f : backupFile) : backupFile :=
  mkBackup (b_V f) (b_KDF f) (b_N f) (b_R f) x (b_Salt f) (b_Non f) (b_Data f).
Definition set_bSalt (x : string) (f : backupFile) : backupFile :=
  mkBackup (b_V f) (b_KDF f) (b_N f) (b_R f) (b_P f) x (b_Non f) (b_Data f).
Definition set_bNon (x : string) (f : backupFile) : backupFile :=
  mkBackup (b_V f) (b_KDF f) (b_N f) (b_R f) (b_P f) (b_Salt f) x (b_Data f).
Definition set_bData (x : string) (f : backupFile) : backupFile :=
  mkBackup (b_V f) (b_KDF f) (b_N f) (b_R f) (b_P f) (b_Salt f) (b_Non f) x.

Definition header_fields : list (field backupFile) :=
  [ required_int "v" b_V set_bV; required_field "kdf" b_KDF set_bKDF; required_int "n" b_N set_bN;
    required_int "r" b_R set_bR; required_int "p" b_P set_bP; required_bytes "salt" b_Salt set_bSalt ].
Definition backup_fields : list (field backupFile) :=
  header_fields ++ [ required_bytes "nonce" b_Non set_bNon; required_bytes "data" b_Data set_bData ].

Record backupPlain := mkPlain { pl_Name : string; pl_Priv : string; pl_Pub : string }.
Definition set_plName (x : string) (p : backupPlain) : backupPlain := mkPlain x (pl_Priv p) (pl_Pub p).
Definition set_plPriv (x : string) (p : backupPlain) : backupPlain := mkPlain (pl_Name p) x (pl_Pub p).
Definition set_plPub (x : string) (p : backupPlain) : backupPlain := mkPlain (pl_Name p) (pl_Priv p) x.
Definition plain_fields : list (field backupPlain) :=
  [ required_field "name" pl_Name set_plName; required_bytes "priv" pl_Priv set_plPriv;
    required_bytes "pub" pl_Pub set_plPub ].

Definition Marshal {R} (fields : list (field R)) (r : R) : string := of_bytes (print (to_json fields r)).

(** [json.MarshalIndent(v, "", "  ")] of a struct with at least one field and
    none that is itself a struct or an array: a line per member. *)
Definition indent_member (kv : string * jvalue) : list Z :=
  [10; 32; 32] ++ print_str kv.1 ++ [58; 32] ++ print kv.2.
Definition members_of {R} (fields : list (field R)) (r : R) : list (string * jvalue) :=
  omap (λ f, pair (fl_name f) <$> fl_get f r) fields.
Definition MarshalIndent {R} (fields : list (field R)) (r : R) : string :=
  of_bytes ([123] ++ commas (map indent_member (members_of fields r)) ++ [10; 125]).

(** The additional data of the cipher: the header without nonce and data. *)
Definition header_ad (f : backupFile) : string := Marshal header_fields f.

(** ** Export and import *)

Section backup.
Context `{Primitives} `{Curve}.

Definition ExportBackup (id : Identity) (passphrase : string) (rnd_salt rnd_nonce : option string)
    : result string :=
  if RuneCountInString passphrase <? MinPassphraseLen
  then Err (Errorf "passphrase must be at least 12 characters") else
  salt ← ok_or (Errorf "rand") rnd_salt;
  key ← scrypt_key passphrase salt scryptN scryptR scryptP;
  _ ← aead_new key;
  nonce ← ok_or (Errorf "rand") rnd_nonce;
  let text := Marshal plain_fields (mkPlain (id_Name id) (id_Private id) (id_Public id)) in
  let hdr := mkBackup backupVersion "scrypt" scryptN scryptR scryptP salt nonce "" in
  let ad := header_ad hdr in
  Ok (MarshalIndent backup_fields (set_bData (seal key nonce text ad) hdr)).

Context `{UnicodeTables}.

(** The parameters a file may ask the key derivation for. *)
Definition bounded_kdf (f : backupFile) : bool :=
  negb ((b_N f <? Z.shiftl 1 14) || (Z.shiftl 1 20 <? b_N f) || negb (Z.land (b_N f) (b_N f - 1) =? 0)
        || negb (b_R f =? scryptR) || (b_P f <? 1) || (4 <? b_P f) || negb (slen (b_Salt f) =? 16)).

(** [ImportBackup] with the key derivation as an argument. *)
Definition import_with (scrypt : string → string → Z → Z → Z → result string) (data passphrase : string)
    : result Identity :=
  match Unmarshal backup_fields data (mkBackup 0 "" 0 0 0 "" "" "") with
  | None => Err (Errorf "not a chirp backup file")
  | Some f =>
      if negb (b_V f =? backupVersion) || negb (b_KDF f =s? "scrypt")
      then Err (Errorf "unsupported backup version") else
      if negb (bounded_kdf f) then Err (Errorf "unsupported backup parameters") else
      key ← scrypt passphrase (b_Salt f) (b_N f) (b_R f) (b_P f);
      _ ← aead_new key;
      if negb (slen (b_Non f) =? 12) then Err (Errorf "corrupted backup") else
      match open key (b_Non f) (b_Data f) (header_ad f) with
      | None => Err (Sentinel ErrBadPassphrase)
      | Some text =>
          match Unmarshal plain_fields text (mkPlain "" "" "") with
          | None => Err (Errorf "corrupted backup")
          | Some p =>
              if negb (slen (pl_Priv p) =? 32) || negb (slen (pl_Pub p) =? 32)
              then Err (Errorf "corrupted backup") else
              '(priv, pub) ← GenerateKeypair (Ok (pl_Priv p));
              if negb (pub =s? pl_Pub p) then Err (Errorf "backup key pair does not match") else
              name ← ValidateName (pl_Name p);
              Ok (mkIdentity name priv pub)
          end
      end
  end.

Definition ImportBackup (data passphrase : string) : result Identity :=
  import_with scrypt_key data passphrase.
End backup.

(** ** Indented JSON reads back *)

Lemma parse_value_space fuel depth l : parse_value fuel depth (32 :: l) = parse_value fuel depth l.
Proof. by destruct fuel. Qed.

Lemma indent_step k v fuel depth l :
  ends l → printable v → (height v + depth <= max_depth)%nat → (2 * length (print v) < fuel)%nat →
  parse_members (S fuel) depth (indent_member (k, v) ++ l) =
  match skip_ws l with
  | c :: r =>
      if c =? 44 then '(ms, r) ← parse_members fuel depth r; Some (valid_member (k, v) :: ms, r)
      else if c =? 125 then Some ([valid_member (k, v)], r) else None
  | [] => None
  end.
Proof.
  intros Hl Hp Hd Hf. unfold indent_member, print_str. cbn [fst snd]. rewrite <- !app_assoc. cbn [app parse_members skip_ws].
  change (is_ws 10) with true. change (is_ws 32) with true. change (is_ws 34) with false. cbv iota.
  change (negb (34 =? 34)) with false. cbv iota. rewrite parse_print_str.
  cbn [mbind option_bind]. change (skip_ws (58 :: ?x)) with (58 :: x). cbv iota beta.
  change (negb (58 =? 58)) with false. cbv iota. rewrite parse_value_space.
  rewrite (value_back v) by done. done.
Qed.

Lemma indented_back ms fuel depth l :
  ms ≠ [] → Forall (λ kv, printable kv.2 ∧ height kv.2 + depth <= max_depth)%nat ms →
  (2 * length (commas (map indent_member ms)) + 1 < fuel)%nat →
  parse_members fuel depth (commas (map indent_member ms) ++ 10 :: 125 :: l) = Some (map valid_member ms, l).
Proof.
  intros Hne Hms. revert fuel. induction Hms as [|[k v] ms [Hp Hd] Hms IH]; [done|].
  intros fuel Hf. destruct fuel as [|fuel]; [lia|]. cbn [snd] in *.
  assert (Hlen : (length (print v) <= length (indent_member (k, v)))%nat)
    by (unfold indent_member; cbn [snd]; rewrite !length_app; lia).
  destruct ms as [|kv2 ms].
  - cbn [map commas] in *. rewrite indent_step; [done|done|done|done|lia].
  - cbn [map commas] in *. rewrite !length_app in Hf. cbn [length] in Hf. rewrite <- !app_assoc.
    rewrite indent_step; [|done|done|done|lia].
    cbn [app]. change (skip_ws (44 :: ?x)) with (44 :: x). cbv iota.
    change (44 =? 44) with true. cbv iota. rewrite IH; [done|done|lia].
Qed.

Lemma members_range ms :
  Forall (λ kv, printable kv.2) ms → Forall is_byte (commas (map indent_member ms)).
Proof.
  intros Hms. apply commas_range. induction Hms as [|kv ms Hp _ IH]; cbn [map]; constructor; [|done].
  unfold indent_member. rewrite !Forall_app. split_and!; [by repeat constructor|apply print_str_range|
    by repeat constructor|by apply print_range].
Qed.

Lemma parse_indented {R} (fs : list (field R)) (r : R) :
  Forall field_ok fs → members_of fs r ≠ [] →
  parse (MarshalIndent fs r) = Some (valid_value (to_json fs r), []).
Proof.
  intros Hfs Hne. unfold MarshalIndent.
  assert (Hms : Forall (λ kv, printable kv.2 ∧ (height kv.2 <= 1)%nat) (members_of fs r)).
  { unfold members_of. clear Hne. induction Hfs as [|f fs Hf _ IH]; [constructor|]. cbn [omap list_omap].
    destruct (fl_get f r) as [v|] eqn:E; cbn [fmap option_fmap option_map]; [|done].
    constructor; [exact (Hf r v E)|done]. }
  unfold parse. rewrite bytes_of_of.
  2: { rewrite !Forall_app. split_and!; [by repeat constructor| |by repeat constructor].
       apply members_range. eapply Forall_impl; [exact Hms|]. naive_solver. }
  cbv zeta. rewrite !length_app. cbn [length app]. lazymatch goal with |- parse_value (S ?m) _ _ = _ => remember m as n eqn:En end.
  cbn [parse_value skip_ws]. change (is_ws 123) with false. cbv iota.
  change (123 =? 34) with false. change (123 =? 123) with true. cbv iota.
  destruct (Nat.leb_spec max_depth 0) as [Hd|_]; [by vm_compute in Hd; lia|].
  destruct (members_of fs r) as [|kv ms] eqn:Em; [done|].
  assert (Hh : ∃ t, skip_ws (commas (map indent_member (kv :: ms)) ++ [10; 125]) = 34 :: t).
  { cbn [map]. destruct (commas_head (indent_member kv) (map indent_member ms)) as [t ->].
    unfold indent_member, print_str. rewrite <- !app_assoc. cbn [app skip_ws].
    change (is_ws 10) with true. change (is_ws 32) with true. change (is_ws 34) with false. cbv iota.
    by eexists. }
  destruct Hh as [t Hh]. rewrite Hh. change (34 =? 125) with false. cbv iota.
  rewrite (indented_back (kv :: ms) n 1 []); [|done| |lia].
  - cbn [mbind option_bind]. do 2 f_equal. unfold to_json. change (omap _ fs) with (members_of fs r).
    by rewrite Em.
  - eapply Forall_impl; [exact Hms|]. intros kv' [Hp Hl]. split; [done|].
    assert (2 <= max_depth)%nat by (apply Nat.leb_le; by vm_compute). lia.
Qed.

(** ** The fields read back *)

Section fields.
Context `{UnicodeTables}.

Lemma required_bytes_ok {R} name get upd : field_ok (required_bytes (R := R) name get upd).
Proof. intros r v [= <-]. split; [done|cbn; lia]. Qed.
Lemma copy_required_bytes {R} name get upd (e r : R) :
  copy e (required_bytes name get upd) r = Some (upd (get e) r).
Proof.
  unfold copy. cbn. rewrite to_valid_ascii by apply EncodeToString_ascii. by rewrite DecodeString_Encode.
Qed.

#[local] Hint Resolve required_bytes_ok : codec.

Lemma backup_fields_ok : Forall field_ok backup_fields.
Proof. unfold backup_fields, header_fields. cbn [app]. repeat (constructor; [eauto with codec|]). constructor. Qed.
Lemma plain_fields_ok : Forall field_ok plain_fields.
Proof. unfold plain_fields. repeat (constructor; [eauto with codec|]). constructor. Qed.

Ltac copy_field :=
  lazymatch goal with
  | |- copies _ (required_bytes _ _ _ :: _) _ = _ => etrans; [apply copies_cons, copy_required_bytes|]
  | _ => copy_step
  end.

Lemma backup_back f :
  - 2 ^ 63 <= b_V f < 2 ^ 63 → - 2 ^ 63 <= b_N f < 2 ^ 63 → - 2 ^ 63 <= b_R f < 2 ^ 63 →
  - 2 ^ 63 <= b_P f < 2 ^ 63 →
  Unmarshal backup_fields (MarshalIndent backup_fields f) (mkBackup 0 "" 0 0 0 "" "" "")
  = Some (set_bKDF (to_valid (b_KDF f)) f).
Proof.
  intros H1 H2 H3 H4. unfold Unmarshal. rewrite parse_indented by (done || apply backup_fields_ok).
  cbn [mbind option_bind skip_ws]. rewrite of_json_copies by (repeat constructor; cbn; lia).
  unfold backup_fields, header_fields. cbn [app]. repeat copy_field. by destruct f.
Qed.

Lemma plain_back p :
  Unmarshal plain_fields (Marshal plain_fields p) (mkPlain "" "" "") = Some (set_plName (to_valid (pl_Name p)) p).
Proof.
  unfold Unmarshal, Marshal. rewrite parse_json by apply plain_fields_ok.
  cbn [mbind option_bind skip_ws]. rewrite of_json_copies by (repeat constructor; cbn; lia).
  unfold plain_fields. repeat copy_field. by destruct p.
Qed.
End fields.

(** ** What is asked of the key derivation *)

(** A positive number that shares no bit with its predecessor is a power of two. *)
Lemma land_pred_pow2 n : 0 < n → Z.land n (n - 1) = 0 → n = 2 ^ Z.log2 n.
Proof.
  intros Hn Hl. destruct (Z.log2_spec n Hn) as [Hlo Hhi].
  destruct (Z.eq_dec n (2 ^ Z.log2 n)) as [|Hne]; [done|].
  assert (El : Z.log2 (n - 1) = Z.log2 n).
  { apply Z.log2_unique; [apply Z.log2_nonneg|]. lia. }
  pose proof (Z.log2_nonneg n).
  assert (Hp : 0 < 2 ^ Z.log2 n) by (apply Z.pow_pos_nonneg; lia).
  assert (Hb : Z.testbit (Z.land n (n - 1)) (Z.log2 n) = true).
  { rewrite Z.land_spec, (Z.bit_log2 n) by done. rewrite <- El. apply Z.bit_log2. lia. }
  by rewrite Hl, Z.bits_0 in Hb.
Qed.

Lemma bounded_kdf_spec f :
  bounded_kdf f = true →
  ∃ k, 14 <= k <= 20 ∧ b_N f = 2 ^ k ∧ b_R f = 8 ∧ 1 <= b_P f <= 4 ∧ slen (b_Salt f) = 16.
Proof.
  unfold bounded_kdf, scryptR. change (Z.shiftl 1 14) with (2 ^ 14). change (Z.shiftl 1 20) with (2 ^ 20).
  rewrite negb_true_iff, !orb_false_iff, !negb_false_iff, !Z.ltb_ge, !Z.eqb_eq.
  intros ((((((Hlo & Hhi) & Hl) & Hr) & Hp) & Hp') & Hs).
  assert (Hn : b_N f = 2 ^ Z.log2 (b_N f)) by (apply land_pred_pow2; lia).
  exists (Z.log2 (b_N f)). split_and!; try done.
  - apply (Z.log2_le_mono (2 ^ 14) (b_N f)) in Hlo. by rewrite Z.log2_pow2 in Hlo.
  - apply (Z.log2_le_mono (b_N f) (2 ^ 20)) in Hhi. by rewrite Z.log2_pow2 in Hhi.
Qed.

Lemma default_kdf_bounded v s salt nonce data :
  slen salt = 16 → bounded_kdf (mkBackup v s scryptN scryptR scryptP salt nonce data) = true.
Proof. intros Hs. unfold bounded_kdf. cbn [b_N b_R b_P b_Salt]. by rewrite Hs. Qed.

(** ** Properties *)

Section properties.
Context `{Primitives} `{Curve} `{UnicodeTables}.

(** A backup restores the identity it was made from, whatever salt and nonce were drawn. *)
Lemma ImportBackup_ExportBackup id passphrase salt nonce key :
  identity_ok id → slen (id_Private id) = 32 → MinPassphraseLen <= RuneCountInString passphrase →
  slen salt = 16 → slen nonce = 12 → scrypt_key passphrase salt scryptN scryptR scryptP = Ok key →
  ∃ file, ExportBackup id passphrase (Some salt) (Some nonce) = Ok file ∧
          ImportBackup file passphrase = Ok id.
Proof.
  intros (Hpub & Hname & Htext) Hpriv Hpw Hs Hn Hk. pose proof (scrypt_len _ _ _ _ _ _ Hk) as Hkl.
  unfold ExportBackup. destruct (Z.ltb_spec (RuneCountInString passphrase) MinPassphraseLen); [lia|].
  cbn [ok_or mbind result_bind]. rewrite Hk. cbn [mbind result_bind]. rewrite (proj2 (aead_new_ok key)) by done.
  cbn [mbind result_bind]. eexists. split; [reflexivity|].
  unfold ImportBackup, import_with. rewrite backup_back by done.
  cbv beta iota delta [b_V b_KDF b_N b_R b_P b_Salt b_Non b_Data set_bData set_bKDF].
  change (negb (backupVersion =? backupVersion) || negb (to_valid "scrypt" =s? "scrypt")) with false. cbv iota.
  rewrite default_kdf_bounded by done. cbn [negb]. rewrite Hk. cbn [mbind result_bind]. rewrite (proj2 (aead_new_ok key)) by done.
  cbn [mbind result_bind]. rewrite Hn. change (negb (12 =? 12)) with false. cbv iota.
  match goal with |- context [open key nonce (seal key nonce ?t ?a) ?a'] => change a' with a end.
  rewrite open_seal by done. rewrite plain_back. cbn [pl_Name pl_Priv pl_Pub set_plName].
  rewrite Hpriv, (dh_public_len _ _ Hpub). change (negb (32 =? 32) || negb (32 =? 32)) with false. cbv iota.
  unfold GenerateKeypair. cbn [mbind result_bind]. rewrite Hpub. cbn [mbind result_bind].
  rewrite eqs_refl. cbn [negb]. rewrite to_valid_id, Hname by done. by destruct id.
Qed.

(** C25: a hostile backup file is contained.  Whatever the bytes, the import
    depends on the key derivation at no parameters but N a power of two
    between 2^14 and 2^20, r = 8, p at most 4 and a salt of sixteen bytes;
    and what it accepts is an identity whose public key is the one of its
    private key and whose name is a valid display name. *)
Theorem hostile_backup_contained scrypt data passphrase :
  (∀ salt k p, 14 <= k <= 20 → 1 <= p <= 4 → slen salt = 16 →
     scrypt passphrase salt (2 ^ k) 8 p = scrypt_key passphrase salt (2 ^ k) 8 p) →
  import_with scrypt data passphrase = ImportBackup data passphrase ∧
  (∀ id, ImportBackup data passphrase = Ok id →
     slen (id_Private id) = 32 ∧ dh_public (id_Private id) = Ok (id_Public id) ∧
     id_Name id ≠ "" ∧ RuneCountInString (id_Name id) <= 32 ∧
     Forall (λ r, 0x20 <= r ∧ r ≠ 0x7f) (runes (id_Name id))).
Proof.
  intros Hsc. split.
  - unfold ImportBackup, import_with. destruct (Unmarshal _ _ _) as [f|]; [|done].
    destruct (negb _ || _); [done|]. destruct (bounded_kdf f) eqn:Hb; [|done].
    apply bounded_kdf_spec in Hb as (k & Hk & En & Er & Hp & Hs).
    by rewrite En, Er, Hsc.
  - intros id. unfold ImportBackup, import_with. destruct (Unmarshal _ _ _) as [f|]; [|done].
    destruct (negb _ || _); [done|]. destruct (negb _); [done|].
    intros (key & _ & Hi)%bind_ok. apply bind_ok in Hi as ([] & _ & Hi).
    destruct (negb _) in Hi; [done|]. destruct (open _ _ _ _) as [text|]; [|done].
    destruct (Unmarshal _ _ _) as [p|]; [|done].
    destruct (negb (slen (pl_Priv p) =? 32) || _) eqn:Hl; [done|].
    apply orb_false_iff in Hl as [Hl _]. apply negb_false_iff, Z.eqb_eq in Hl.
    apply bind_ok in Hi as ([priv pub] & Hg & Hi). unfold GenerateKeypair in Hg.
    apply bind_ok in Hg as (priv' & [= <-] & Hg). apply bind_ok in Hg as (pub' & Hd & [= <- <-]).
    destruct (negb _) in Hi; [done|]. apply bind_ok in Hi as (name & (_ & Hn1 & Hn2 & Hn3)%ValidateName_ok & [= <-]).
    done.
Qed.
End properties.

(** ** Examples *)

#[local] Existing Instance toy_curve.
#[local] Existing Instance toy_primitives.
#[local] Existing Instance ascii_tables.

Definition ex_secret : string := "0123456789abcdef0123456789abcdef".
Definition ex_owner : Identity := mkIdentity "Alice" ex_secret (Sum256 ex_secret).
Definition ex_salt : string := "saltsaltsaltsalt".
Definition ex_pass : string := "correct horse battery".

(** A derivation that refuses large parameters serves every import. *)
Definition capped (p s : string) (n r q : Z) : result string :=
  if (n <=? 2 ^ 20) && (r =? 8) && (q <=? 4) then scrypt_key p s n r q else Err (Errorf "too much").

(** Alice's backup, and the same with a derivation of 2^40 rounds. *)
Definition ex_backup : string :=
  match ExportBackup ex_owner ex_pass (Some ex_salt) (Some "nonce nonce ") with Ok f => f | Err _ => "" end.
Definition ex_hostile : string :=
  match Unmarshal backup_fields ex_backup (mkBackup 0 "" 0 0 0 "" "" "") with
  | Some f => Marshal backup_fields
      (mkBackup (b_V f) (b_KDF f) (2 ^ 40) (b_R f) (b_P f) (b_Salt f) (b_Non f) (b_Data f))
  | None => ""
  end.

Lemma hostile_backup_contained_witness :
  import_with capped ex_backup ex_pass = Ok ex_owner ∧ dh_public ex_secret = Ok (id_Public ex_owner) ∧
  import_with capped ex_hostile ex_pass = Err (Errorf "unsupported backup parameters").
Proof.
  assert (Hc : ∀ salt k p, 14 <= k <= 20 → 1 <= p <= 4 → slen salt = 16 →
    capped ex_pass salt (2 ^ k) 8 p = scrypt_key ex_pass salt (2 ^ k) 8 p).
  { intros salt k p Hk Hp _. unfold capped.
    assert (2 ^ k <= 2 ^ 20) by (apply Z.pow_le_mono_r; lia).
    destruct (Z.leb_spec (2 ^ k) (2 ^ 20)); [|lia]. destruct (Z.leb_spec p 4); [reflexivity|lia]. }
  assert (E1 : ImportBackup ex_backup ex_pass = Ok ex_owner) by (vm_compute; reflexivity).
  assert (E2 : ImportBackup ex_hostile ex_pass = Err (Errorf "unsupported backup parameters")) by (vm_compute; reflexivity).
  destruct (hostile_backup_contained capped ex_backup ex_pass Hc) as [H1 H2].
  destruct (hostile_backup_contained capped ex_hostile ex_pass Hc) as [H3 _].
  rewrite H1, H3. split; [exact E1|]. split; [exact (proj1 (proj2 (H2 ex_owner E1)))|exact E2].
Defined.
