(* ===== verification/Bolt.v ===== *)
(** * The key-value store under internal/store (go.etcd.io/bbolt)

    bbolt is a library the program calls: a bucket is an abstract type with
    the operations the store uses and their documented behaviour as laws, and
    a serialisable read-write transaction is all-or-nothing.  [gmap_bolt] is a
    concrete bucket on which the model runs. *)

From stdpp Require Import sorting.
From S2P Require Import Prelude GoStrings.

Class Bolt (B : Type → Type) := {
  bempty {V} : B V;
  bget {V} : B V → string → option V;
  bset {V} : B V → string → V → B V;
  bdel {V} : B V → string → B V;
  (** Every pair, in the byte order of the keys ([ForEach], a [Cursor]). *)
  bitems {V} : B V → list (string * V);
  (** The bucket's counter and [NextSequence]. *)
  bseq {V} : B V → Z;
  bnext {V} : B V → B V;
  (** The error [Put] reports for a key. *)
  put_error : string → option error;

  bget_empty {V} k : bget (bempty (V := V)) k = None;
  bget_set {V} (b : B V) k v k' :
    bget (bset b k v) k' = if decide (k = k') then Some v else bget b k';
  bget_del {V} (b : B V) k k' :
    bget (bdel b k) k' = if decide (k = k') then None else bget b k';
  bget_next {V} (b : B V) k : bget (bnext b) k = bget b k;
  bseq_empty {V} : bseq (bempty (V := V)) = 0;
  bseq_set {V} (b : B V) k v : bseq (bset b k v) = bseq b;
  bseq_del {V} (b : B V) k : bseq (bdel b k) = bseq b;
  bseq_next {V} (b : B V) : bseq (bnext b) = uint64 (bseq b + 1);
  bitems_get {V} (b : B V) k v : (k, v) ∈ bitems b ↔ bget b k = Some v;
  bitems_sorted {V} (b : B V) : StronglySorted str_lt (bitems b).*1;
  (** [Put] refuses a blank key and one above bbolt's MaxKeySize. *)
  put_error_none k : put_error k = None ↔ 0 < slen k <= 32768;
}.

(** ** Derived facts *)

Section bolt.
Context {B : Type → Type} `{Bolt B} {V : Type}.
Implicit Types (b : B V) (k : string) (v : V).

Lemma bget_set_eq b k v : bget (bset b k v) k = Some v.
Proof. rewrite bget_set. by rewrite decide_True. Qed.

Lemma bget_set_ne b k v k' : k ≠ k' → bget (bset b k v) k' = bget b k'.
Proof. intros Hne. rewrite bget_set. by rewrite decide_False. Qed.

Lemma bget_del_eq b k : bget (bdel b k) k = None.
Proof. rewrite bget_del. by rewrite decide_True. Qed.

Lemma bget_del_ne b k k' : k ≠ k' → bget (bdel b k) k' = bget b k'.
Proof. intros Hne. rewrite bget_del. by rewrite decide_False. Qed.

Lemma bitems_NoDup_fst b : NoDup (bitems b).*1.
Proof.
  pose proof (bitems_sorted b) as Hs. revert Hs. generalize (bitems b).*1.
  induction 1 as [|x l Hl IH Hall]; constructor; [|done].
  intros Hx. rewrite Forall_forall in Hall. by apply (irreflexivity str_lt x), Hall.
Qed.

Lemma bitems_NoDup b : NoDup (bitems b).
Proof. eapply NoDup_fmap_1, bitems_NoDup_fst. Qed.

Lemma bitems_lookup b k v : (k, v) ∈ bitems b → bget b k = Some v.
Proof. apply bitems_get. Qed.
End bolt.

Create Rewrite HintDb bolt.
#[export] Hint Rewrite @bget_empty @bget_set_eq @bget_del_eq @bget_next @bseq_set
  @bseq_del @bseq_empty @bseq_next using done : bolt.
#[export] Hint Resolve bitems_sorted bitems_NoDup bitems_NoDup_fst : chirp.

(** ** Cursors

    A cursor walks [bitems].  [c_seek_prev] positions on the last pair below
    a key the way the store does ([Seek], then [Last] at the end of the bucket
    or [Prev]) and lists what repeated [Prev] visits; [c_prefix] lists what
    [Seek(prefix)] and [Next] visit while the prefix matches. *)

Section take_while.
Context {A : Type} (P : A → bool).

Fixpoint take_while (l : list A) : list A :=
  match l with [] => [] | x :: l' => if P x then x :: take_while l' else [] end.
Fixpoint drop_while (l : list A) : list A :=
  match l with [] => [] | x :: l' => if P x then drop_while l' else l end.
End take_while.

Definition c_seek_prev {V} (items : list (string * V)) (upper : string) : list (string * V) :=
  match drop_while (λ kv, str_ltb kv.1 upper) items with
  | [] => reverse items
  | _ => reverse (take_while (λ kv, str_ltb kv.1 upper) items)
  end.

Definition c_prefix {V} (items : list (string * V)) (prefix : string) : list (string * V) :=
  take_while (λ kv, has_prefix kv.1 prefix)
    (drop_while (λ kv, str_ltb kv.1 prefix) items).

(** ** What the walks visit *)

Lemma prefix_le p k : has_prefix k p = true → str_le p k.
Proof.
  rewrite has_prefix_spec. intros [r ->]. induction p as [|c p IH].
  - unfold str_le. apply str_lt_nil_r.
  - intros [?|[_ ?]]%str_lt_cons; [lia|done].
Qed.

Lemma between_prefix p k r : str_le p k → str_lt k (p +:+ r) → has_prefix k p = true.
Proof.
  rewrite has_prefix_spec, str_le_lt_eq. revert k. induction p as [|c p IH]; intros k Hle Hlt.
  - by exists k.
  - destruct k as [|d k]; [destruct Hle as [[=]|[]%str_lt_nil_r]|].
    rewrite str_app_cons in Hlt. apply str_lt_cons in Hlt.
    destruct Hle as [[= -> ->]|[Hcd|[-> Hle]]%str_lt_cons].
    + exists "". by rewrite str_app_nil_r.
    + destruct Hlt as [?|[-> _]]; lia.
    + destruct Hlt as [?|[_ Hlt]]; [lia|].
      destruct (IH k) as [r' ->]; auto. by exists r'.
Qed.

Section scans.
Context {V : Type}.
Implicit Types l : list (string * V).

Lemma sorted_cons kv l :
  StronglySorted str_lt (kv :: l).*1 →
  StronglySorted str_lt l.*1 ∧ ∀ kv', kv' ∈ l → str_lt kv.1 kv'.1.
Proof.
  intros Hs. cbn in Hs. inversion_clear Hs as [|? ? Hl Ha]. split; [done|].
  intros kv' Hin. rewrite Forall_forall in Ha. apply Ha. by apply list_elem_of_fmap_2.
Qed.

Lemma take_while_prefix l p :
  StronglySorted str_lt l.*1 → (∀ kv, kv ∈ l → str_le p kv.1) →
  take_while (λ kv, has_prefix kv.1 p) l = filter (λ kv, has_prefix kv.1 p = true) l.
Proof.
  induction l as [|kv l IH]; intros Hs Hge; [done|].
  apply sorted_cons in Hs as [Hs Hlt]. cbn [take_while].
  destruct (has_prefix kv.1 p) eqn:E.
  - rewrite filter_cons_True, IH by (done || (intros; apply Hge; by right)). done.
  - rewrite filter_cons_False by congruence. symmetry. apply filter_none, Forall_forall.
    intros kv' Hin [r Hr]%has_prefix_spec.
    rewrite (between_prefix p kv.1 r) in E; [done|apply Hge; by left|].
    rewrite <- Hr. by apply Hlt.
Qed.

Lemma c_prefix_filter l p :
  StronglySorted str_lt l.*1 → c_prefix l p = filter (λ kv, has_prefix kv.1 p = true) l.
Proof.
  unfold c_prefix. induction l as [|kv l IH]; intros Hs; [done|].
  pose proof Hs as [Hs' Hlt]%sorted_cons. cbn [drop_while].
  destruct (str_ltb kv.1 p) eqn:E.
  - rewrite filter_cons_False; [by apply IH|].
    intros Hp%prefix_le. by apply Hp.
  - apply take_while_prefix; [done|]. intros kv' [->|Hin]%elem_of_cons.
    + intros Hc. by rewrite Hc in E.
    + apply str_le_lt_eq. right.
      destruct (str_lt_trichotomy p kv.1) as [?|[->|Hc]].
      * trans kv.1; auto.
      * by apply Hlt.
      * by rewrite Hc in E.
Qed.

Lemma split_below l u :
  StronglySorted str_lt l.*1 →
  take_while (λ kv, str_ltb kv.1 u) l = filter (λ kv, str_ltb kv.1 u = true) l.
Proof.
  induction l as [|kv l IH]; intros Hs; [done|].
  apply sorted_cons in Hs as [Hs Hlt]. cbn [take_while].
  destruct (str_ltb kv.1 u) eqn:E.
  - by rewrite filter_cons_True, IH.
  - rewrite filter_cons_False by congruence. symmetry. apply filter_none, Forall_forall.
    intros kv' Hin Hc. assert (str_lt kv.1 u) as Hu by (trans kv'.1; auto).
    by rewrite Hu in E.
Qed.

Lemma drop_while_nil l u :
  drop_while (λ kv : string * V, str_ltb kv.1 u) l = [] →
  take_while (λ kv : string * V, str_ltb kv.1 u) l = l.
Proof.
  induction l as [|kv l IH]; [done|]. cbn. destruct (str_ltb kv.1 u); [|done].
  intros. f_equal. auto.
Qed.

Lemma c_seek_prev_filter l u :
  StronglySorted str_lt l.*1 →
  c_seek_prev l u = reverse (filter (λ kv, str_ltb kv.1 u = true) l).
Proof.
  intros Hs. rewrite <- split_below by done. unfold c_seek_prev.
  destruct (drop_while _ l) eqn:E; [|done]. by rewrite drop_while_nil.
Qed.

(** Walking back from [p ++ r] visits, latest first, exactly the pairs whose
    key has the prefix [p] and lies below [p ++ r]. *)
Lemma rev_scan l p r :
  StronglySorted str_lt l.*1 →
  take_while (λ kv, has_prefix kv.1 p) (c_seek_prev l (p +:+ r))
  = reverse (filter (λ kv, has_prefix kv.1 p = true ∧ str_ltb kv.1 (p +:+ r) = true) l).
Proof.
  intros Hs. rewrite c_seek_prev_filter by done.
  induction l as [|kv l IH] using rev_ind; [done|].
  rewrite fmap_app in Hs.
  assert (Hs' : StronglySorted str_lt l.*1) by (by eapply StronglySorted_app_1_l).
  rewrite !filter_app, !reverse_app.
  destruct (str_ltb kv.1 (p +:+ r)) eqn:Eu.
  2: { rewrite !filter_cons_False by naive_solver congruence.
       rewrite !filter_nil. by apply IH. }
  rewrite (filter_cons_True (λ kv, str_ltb kv.1 (p +:+ r) = true)) by done.
  rewrite !filter_nil. cbn [reverse rev_append app take_while].
  destruct (has_prefix kv.1 p) eqn:Ep.
  - rewrite filter_cons_True by done. rewrite filter_nil. cbn. f_equal. by apply IH.
  - rewrite filter_cons_False by naive_solver congruence. rewrite filter_nil. cbn.
    symmetry. rewrite filter_none; [done|]. apply Forall_forall. intros kv' Hin [Hp _].
    apply prefix_le in Hp. destruct (str_lt_trichotomy p kv.1) as [Hlt|[Heq|Hlt]].
    + rewrite (between_prefix p kv.1 r) in Ep; [done|apply str_le_lt_eq; auto|done].
    + subst. rewrite (between_prefix kv.1 kv.1 r) in Ep; [done|apply str_le_lt_eq; auto|done].
    + apply Hp. trans kv.1; [|done].
      apply (StronglySorted_app_1_elem_of str_lt _ [kv.1] _ _ Hs);
        [by apply list_elem_of_fmap_2|by left].
Qed.
End scans.

(** ** A concrete bucket *)

Record gbucket (V : Type) := { g_map : gmap string V; g_seq : Z }.
Arguments g_map {V}. Arguments g_seq {V}.

Definition key_le {V} (a b : string * V) : Prop := str_le a.1 b.1.

#[export] Instance key_le_dec {V} : RelDecision (@key_le V).
Proof. intros a b. unfold key_le, str_le. apply _. Defined.

#[export] Instance key_le_total {V} : Total (@key_le V).
Proof.
  intros a b. unfold key_le. rewrite !str_le_lt_eq.
  destruct (str_lt_trichotomy a.1 b.1) as [?|[?|?]]; auto.
Qed.

#[export] Instance key_le_trans {V} : Transitive (@key_le V).
Proof. intros a b c. unfold key_le. apply str_le_trans. Qed.

Definition g_items {V} (b : gbucket V) : list (string * V) :=
  merge_sort key_le (map_to_list (g_map b)).

Definition g_put_error (k : string) : option error :=
  if slen k =? 0 then Some (Errorf "key required")
  else if 32768 <? slen k then Some (Errorf "key too large") else None.

Lemma key_sorted_strict {V} (l : list (string * V)) :
  StronglySorted key_le l → NoDup l.*1 → StronglySorted str_lt l.*1.
Proof.
  induction 1 as [|kv l Hl IH Ha]; cbn; intros Hnd; [constructor|].
  apply NoDup_cons in Hnd as [Hni Hnd]. constructor; [by apply IH|].
  apply Forall_forall. intros k Hk. pose proof Hk as (kv' & -> & Hin)%list_elem_of_fmap_1.
  rewrite Forall_forall in Ha. specialize (Ha _ Hin). unfold key_le in Ha.
  apply str_le_lt_eq in Ha as [Ha|?]; [|done]. by rewrite Ha in Hni.
Qed.

Program Definition gmap_bolt : Bolt gbucket := {|
  bempty V := {| g_map := ∅; g_seq := 0 |};
  bget V b k := g_map b !! k;
  bset V b k v := {| g_map := <[k := v]> (g_map b); g_seq := g_seq b |};
  bdel V b k := {| g_map := delete k (g_map b); g_seq := g_seq b |};
  bitems V b := g_items b;
  bseq V b := g_seq b;
  bnext V b := {| g_map := g_map b; g_seq := uint64 (g_seq b + 1) |};
  put_error := g_put_error;
|}.
Next Obligation. intros V k. apply lookup_empty. Qed.
Next Obligation. intros V b k v k'. apply lookup_insert. Qed.
Next Obligation. intros V b k k'. apply lookup_delete. Qed.
Next Obligation. done. Qed.
Next Obligation. done. Qed.
Next Obligation. done. Qed.
Next Obligation. done. Qed.
Next Obligation. done. Qed.
Next Obligation.
  intros V b k v. unfold g_items. rewrite merge_sort_Permutation. apply elem_of_map_to_list.
Qed.
Next Obligation.
  intros V b. unfold g_items. apply key_sorted_strict; [apply (StronglySorted_merge_sort _)|].
  rewrite merge_sort_Permutation. apply NoDup_fst_map_to_list.
Qed.
Next Obligation.
  intros k. unfold g_put_error. pose proof (slen_nonneg k).
  destruct (Z.eqb_spec (slen k) 0); [split; [done|lia]|].
  destruct (Z.ltb_spec 32768 (slen k)); split; (done || lia).
Qed.
