(* ===== verification/StoreData.v ===== *)
(** * The database of internal/store: rows, buckets, transactions, files

    The records of store.go and files.go, the twelve bbolt buckets, and the
    two kinds of transaction.  A bucket value is JSON text: [row A] is such a
    text seen through [json.Unmarshal] into [A], which either succeeds
    ([json a]) or fails ([corrupt]).  Times are nanoseconds since the Unix
    epoch.  [json.Marshal] fails on a record with a time outside the years 0
    to 9999, and the store drops that error: [marshal] is what it then puts.
    Rooms and room messages take their times from peers and are written with
    it; the times of the other records are all [time.Now], and they are
    written as [json]. *)

From S2P Require Import Prelude GoStrings Utf8 Proto Bolt.

(** ** Records *)

Definition DirIn := "in".
Definition DirOut := "out".
Definition StatusQueued := "queued".
Definition StatusDelivered := "delivered".
Definition StatusReceived := "received".

(** Go's zero [time.Time]: the first of January of the year 1, UTC. *)
Definition zero_time : Z := -62135596800 * 1000000000.

(** [t.UnixMilli()] and [time.UnixMilli(ms)]. *)
Definition UnixMilli (t : Z) : Z := t / 1000000.
Definition ofUnixMilli (ms : Z) : Z := ms * 1000000.

(** [PendingKey] is a byte slice whose [nil] is the empty string: every
    writer stores either [nil] or a key, and [omitempty] reads both back as [nil]. *)
Record Peer := mkPeer {
  p_Name : string; p_Key : string; p_FP : string;
  p_FirstSeen : Z; p_LastSeen : Z; p_Verified : bool;
  p_PendingKey : string; p_PendingAt : Z }.

Record Message := mkMessage {
  m_ID : string; m_Peer : string; m_Dir : string; m_Body : string; m_TS : Z;
  m_Status : string; m_Attempts : Z; m_LastTry : Z; m_Seq : Z; m_ReplyTo : string }.

Record Settings := mkSettings {
  RetentionDays : Z; Notify : bool; Previews : bool; Typing : bool; Receipts : bool }.

Definition DefaultSettings : Settings := mkSettings 0 true false false false.

Record idRecord := mkIdRecord { ir_Name : string; ir_Priv : string; ir_Pub : string }.

Definition RoomJoined := "joined".
Definition RoomPending := "pending".

Record Room := mkRoom {
  r_ID : string; r_Name : string; r_Members : list string;
  r_CreatedBy : string; r_CreatedAt : Z; r_State : string }.

(** [r.Pending()]. *)
Definition Room_Pending (r : Room) : bool := r_State r =s? RoomPending.

Record RoomReaction := mkReaction { rr_Sender : string; rr_Emoji : string }.

Record RoomMessage := mkRoomMessage {
  rm_ID : string; rm_Room : string; rm_Sender : string; rm_Dir : string;
  rm_Body : string; rm_TS : Z; rm_Status : string; rm_Attempts : Z; rm_LastTry : Z;
  rm_Seq : Z; rm_ReplyTo : string; rm_SenderSeq : Z; rm_Reactions : list RoomReaction }.

Definition FileQueued := "queued".
Definition FileSending := "sending".
Definition FileSent := "sent".
Definition FileReceiving := "receiving".
Definition FileComplete := "complete".
Definition FileFailed := "failed".

Record File := mkFile {
  f_ID : string; f_Peer : string; f_Dir : string; f_Name : string; f_Size : Z;
  f_Hash : string; f_Status : string; f_Received : Z; f_Sent : Z; f_TS : Z }.

#[export] Instance Peer_eq_dec : EqDecision Peer.
Proof. solve_decision. Defined.
#[export] Instance Message_eq_dec : EqDecision Message.
Proof. solve_decision. Defined.
#[export] Instance Room_eq_dec : EqDecision Room.
Proof. solve_decision. Defined.
#[export] Instance RoomReaction_eq_dec : EqDecision RoomReaction.
Proof. solve_decision. Defined.
#[export] Instance RoomMessage_eq_dec : EqDecision RoomMessage.
Proof. solve_decision. Defined.
#[export] Instance File_eq_dec : EqDecision File.
Proof. solve_decision. Defined.

(** ** Bucket values *)

Inductive row (A : Type) :=
| json (a : A)
| corrupt.
Arguments json {A} a.
Arguments corrupt {A}.

(** [Time.MarshalJSON] takes the years 0 to 9999 (read here as UTC). *)
Definition json_time (t : Z) : bool :=
  (-62167219200 * 1000000000 <=? t) && (t <? 253402300800 * 1000000000).

(** Whether [json.Marshal] takes the record. *)
Class Jsonable (A : Type) := jsonable : A → bool.
#[export] Instance room_jsonable : Jsonable Room := λ r, json_time (r_CreatedAt r).
#[export] Instance room_message_jsonable : Jsonable RoomMessage :=
  λ m, json_time (rm_TS m) && json_time (rm_LastTry m).

(** [v, _ := json.Marshal(a)] as a bucket value: after an error [v] is [nil],
    which is stored as the empty value, and that does not decode. *)
Definition marshal {A} `{Jsonable A} (a : A) : row A := if jsonable a then json a else corrupt.

Lemma marshal_ok {A} `{Jsonable A} (a : A) : jsonable a = true → marshal a = json a.
Proof. unfold marshal. by intros ->. Qed.
Lemma marshal_json {A} `{Jsonable A} (a b : A) : marshal a = json b ↔ a = b ∧ jsonable a = true.
Proof. unfold marshal. destruct (jsonable a); naive_solver. Qed.

Definition ErrJSON : error := Errorf "invalid JSON".

Definition unmarshal {A} (r : row A) : result A :=
  match r with json a => Ok a | corrupt => Err ErrJSON end.

Lemma unmarshal_ok {A} (r : row A) a : unmarshal r = Ok a ↔ r = json a.
Proof. destruct r; cbn; naive_solver. Qed.

(** The meta bucket keeps four kinds of value under four fixed keys. *)
Inductive MetaVal :=
| MBytes (b : string)
| MIdentity (r : row idRecord)
| MSettings (r : row Settings).

(** ** The database *)

Section db.
Context {B : Type → Type} `{Bolt B}.

Record DB := mkDB {
  d_meta : B MetaVal;
  d_peers : B (row Peer);
  d_msgs : B (row Message);
  d_idx : B string;
  d_outbox : B string;
  d_rooms : B (row Room);
  d_roommsgs : B (row RoomMessage);
  d_roomidx : B string;
  d_roomoutbox : B string;
  d_roomseq : B string;
  d_files : B (row File);
  d_fileoutbox : B string }.

(** What [openStore] creates in a fresh file. *)
Definition empty_db : DB :=
  mkDB bempty bempty bempty bempty bempty bempty bempty bempty bempty bempty bempty bempty.

(** A bucket name: how to read and replace that bucket. *)
Record bucket (V : Type) := mkBucket { bsel : DB → B V; bupd : B V → DB → DB }.
Arguments bsel {V}. Arguments bupd {V}.

Definition bMeta : bucket MetaVal := mkBucket _ d_meta (λ x d,
  mkDB x (d_peers d) (d_msgs d) (d_idx d) (d_outbox d) (d_rooms d) (d_roommsgs d)
    (d_roomidx d) (d_roomoutbox d) (d_roomseq d) (d_files d) (d_fileoutbox d)).
Definition bPeers : bucket (row Peer) := mkBucket _ d_peers (λ x d,
  mkDB (d_meta d) x (d_msgs d) (d_idx d) (d_outbox d) (d_rooms d) (d_roommsgs d)
    (d_roomidx d) (d_roomoutbox d) (d_roomseq d) (d_files d) (d_fileoutbox d)).
Definition bMsgs : bucket (row Message) := mkBucket _ d_msgs (λ x d,
  mkDB (d_meta d) (d_peers d) x (d_idx d) (d_outbox d) (d_rooms d) (d_roommsgs d)
    (d_roomidx d) (d_roomoutbox d) (d_roomseq d) (d_files d) (d_fileoutbox d)).
Definition bIdx : bucket string := mkBucket _ d_idx (λ x d,
  mkDB (d_meta d) (d_peers d) (d_msgs d) x (d_outbox d) (d_rooms d) (d_roommsgs d)
    (d_roomidx d) (d_roomoutbox d) (d_roomseq d) (d_files d) (d_fileoutbox d)).
Definition bOutbox : bucket string := mkBucket _ d_outbox (λ x d,
  mkDB (d_meta d) (d_peers d) (d_msgs d) (d_idx d) x (d_rooms d) (d_roommsgs d)
    (d_roomidx d) (d_roomoutbox d) (d_roomseq d) (d_files d) (d_fileoutbox d)).
Definition bRooms : bucket (row Room) := mkBucket _ d_rooms (λ x d,
  mkDB (d_meta d) (d_peers d) (d_msgs d) (d_idx d) (d_outbox d) x (d_roommsgs d)
    (d_roomidx d) (d_roomoutbox d) (d_roomseq d) (d_files d) (d_fileoutbox d)).
Definition bRoomMsgs : bucket (row RoomMessage) := mkBucket _ d_roommsgs (λ x d,
  mkDB (d_meta d) (d_peers d) (d_msgs d) (d_idx d) (d_outbox d) (d_rooms d) x
    (d_roomidx d) (d_roomoutbox d) (d_roomseq d) (d_files d) (d_fileoutbox d)).
Definition bRoomIdx : bucket string := mkBucket _ d_roomidx (λ x d,
  mkDB (d_meta d) (d_peers d) (d_msgs d) (d_idx d) (d_outbox d) (d_rooms d) (d_roommsgs d)
    x (d_roomoutbox d) (d_roomseq d) (d_files d) (d_fileoutbox d)).
Definition bRoomOutbox : bucket string := mkBucket _ d_roomoutbox (λ x d,
  mkDB (d_meta d) (d_peers d) (d_msgs d) (d_idx d) (d_outbox d) (d_rooms d) (d_roommsgs d)
    (d_roomidx d) x (d_roomseq d) (d_files d) (d_fileoutbox d)).
Definition bRoomSeq : bucket string := mkBucket _ d_roomseq (λ x d,
  mkDB (d_meta d) (d_peers d) (d_msgs d) (d_idx d) (d_outbox d) (d_rooms d) (d_roommsgs d)
    (d_roomidx d) (d_roomoutbox d) x (d_files d) (d_fileoutbox d)).
Definition bFiles : bucket (row File) := mkBucket _ d_files (λ x d,
  mkDB (d_meta d) (d_peers d) (d_msgs d) (d_idx d) (d_outbox d) (d_rooms d) (d_roommsgs d)
    (d_roomidx d) (d_roomoutbox d) (d_roomseq d) x (d_fileoutbox d)).
Definition bFileOutbox : bucket string := mkBucket _ d_fileoutbox (λ x d,
  mkDB (d_meta d) (d_peers d) (d_msgs d) (d_idx d) (d_outbox d) (d_rooms d) (d_roommsgs d)
    (d_roomidx d) (d_roomoutbox d) (d_roomseq d) (d_files d) x).

(** ** Transactions

    A transaction body is a function of the database; an error leaves no
    trace ([Update] rolls back), a success replaces the database at once. *)

Definition Tx (A : Type) : Type := DB → result (A * DB).

#[export] Instance tx_ret : MRet Tx := λ A a d, Ok (a, d).
#[export] Instance tx_bind : MBind Tx := λ A A' f m d,
  match m d with Ok (a, d') => f a d' | Err e => Err e end.

Definition fail {A} (e : error) : Tx A := λ d, Err e.
Definition lift {A} (r : result A) : Tx A := λ d,
  match r with Ok a => Ok (a, d) | Err e => Err e end.

(** [tx.Bucket(b).Get(k)], [None] being a nil slice. *)
Definition Get {V} (b : bucket V) (k : string) : Tx (option V) := λ d,
  Ok (bget (bsel b d) k, d).
Definition Put {V} (b : bucket V) (k : string) (v : V) : Tx unit := λ d,
  match put_error k with
  | Some e => Err e
  | None => Ok (tt, bupd b (bset (bsel b d) k v) d)
  end.
Definition Delete {V} (b : bucket V) (k : string) : Tx unit := λ d,
  Ok (tt, bupd b (bdel (bsel b d) k) d).
Definition Items {V} (b : bucket V) : Tx (list (string * V)) := λ d,
  Ok (bitems (bsel b d), d).
Definition NextSequence {V} (b : bucket V) : Tx Z := λ d,
  Ok (bseq (bnext (bsel b d)), bupd b (bnext (bsel b d)) d).

Definition run_update {A} (f : Tx A) (d : DB) : result A * DB :=
  match f d with Ok (a, d') => (Ok a, d') | Err e => (Err e, d) end.
Definition run_view {A} (f : Tx A) (d : DB) : result A :=
  match f d with Ok (a, _) => Ok a | Err e => Err e end.
End db.

Arguments DB B : clear implicits.
Arguments bucket B V : clear implicits.
Arguments Tx B A : clear implicits.
Arguments bsel {B V}. Arguments bupd {B V}.

(** Reduce a transaction to the buckets it reads and writes. *)
Ltac tx_unfold :=
  cbv [mbind mret tx_bind tx_ret Get Put Delete Items NextSequence fail lift
       run_update run_view result_bind result_ret] in *;
  cbn [bsel bupd bMeta bPeers bMsgs bIdx bOutbox bRooms bRoomMsgs bRoomIdx bRoomOutbox
       bRoomSeq bFiles bFileOutbox d_meta d_peers d_msgs d_idx d_outbox d_rooms d_roommsgs
       d_roomidx d_roomoutbox d_roomseq d_files d_fileoutbox] in *.

(** ** The file system the store writes received files to *)

(** A path is the list of its components from the root. *)
Abbreviation path := (list string).

(** [filepath.Clean] on rooted paths. *)
Fixpoint clean_onto (acc : path) (p : path) : path :=
  match p with
  | [] => reverse acc
  | c :: p' =>
      if (c =s? "") || (c =s? ".") then clean_onto acc p'
      else if c =s? ".." then clean_onto (tail acc) p'
      else clean_onto (c :: acc) p'
  end.

Fixpoint split_slash_onto (cur : list Z) (l : list Z) : path :=
  match l with
  | [] => [of_bytes (reverse cur)]
  | b :: l' => if b =? 47 then of_bytes (reverse cur) :: split_slash_onto [] l'
               else split_slash_onto (b :: cur) l'
  end.

Definition split_slash (s : string) : path := split_slash_onto [] (bytes_of s).

(** [filepath.Join(dir, name)]. *)
Definition filepath_Join (dir : path) (name : string) : path :=
  clean_onto [] (dir ++ split_slash name).

(** The disk: file contents by path, and an oracle for the errors the
    operating system may report for an operation on a path. *)
Abbreviation FS := (gmap (list string) string).

Class DiskFaults := { disk_fault : string → path → option error }.

(** A disk that never fails. *)
Definition no_faults : DiskFaults := {| disk_fault _ _ := None |}.

(** The path is [dir] or lies below it. *)
Fixpoint below (dir p : path) : bool :=
  match dir, p with
  | [], _ => true
  | a :: dir', b :: p' => (a =s? b) && below dir' p'
  | _ :: _, [] => false
  end.

Section os.
Context `{DiskFaults}.

Definition fault (op : string) (p : path) : result unit :=
  match disk_fault op p with Some e => Err e | None => Ok tt end.

Definition os_MkdirAll (p : path) : result unit := fault "mkdir" p.

Definition os_WriteFile (fs : FS) (p : path) (data : string) : result FS :=
  _ ← fault "write" p; Ok (<[p := data]> fs).

Definition os_ReadFile (fs : FS) (p : path) : result string :=
  _ ← fault "read" p; ok_or (Sentinel ErrNotExist) (fs !! p).

(** [os.Stat(p).Size()]. *)
Definition os_Stat (fs : FS) (p : path) : result Z :=
  _ ← fault "stat" p; ok_or (Sentinel ErrNotExist) (slen <$> fs !! p).

Definition os_Remove (fs : FS) (p : path) : FS := delete p fs.

Definition os_RemoveAll (fs : FS) (p : path) : FS :=
  filter (λ kv, below p kv.1 = false) fs.

(** [f.WriteAt(data, off)] on a file opened without truncation: the bytes
    before stay, a gap beyond the end is filled with zeros. *)
Definition write_at (old : string) (off : Z) (data : string) : string :=
  let o := bytes_of old in
  let n := Z.to_nat off in
  of_bytes (take n (o ++ replicate (n - length o) 0) ++ bytes_of data
            ++ drop (n + String.length data) o).

(** [os.OpenFile(p, O_WRONLY|O_CREATE)]: a missing file is created. *)
Definition os_OpenCreate (fs : FS) (p : path) : result FS :=
  _ ← fault "open" p; Ok (<[p := default "" (fs !! p)]> fs).

(** [f.WriteAt(data, off)]: a negative offset is an error, no data writes nothing. *)
Definition os_WriteAt (fs : FS) (p : path) (off : Z) (data : string) : result FS :=
  if off <? 0 then Err (Errorf "negative offset")
  else _ ← fault "writeat" p;
       if slen data =? 0 then Ok fs
       else Ok (<[p := write_at (default "" (fs !! p)) off data]> fs).
End os.

(** ** The store object *)

Section store.
Context {B : Type → Type} `{Bolt B}.

(** [Store]: the database, the two keys it may hold and the file directory. *)
Record Store := mkStore {
  s_db : DB B;
  s_encKey : option string;
  s_idKey : option string;
  s_filesDir : path;
  s_disk : FS }.

Definition with_db (s : Store) (d : DB B) : Store :=
  mkStore d (s_encKey s) (s_idKey s) (s_filesDir s) (s_disk s).
Definition with_disk (s : Store) (fs : FS) : Store :=
  mkStore (s_db s) (s_encKey s) (s_idKey s) (s_filesDir s) fs.

(** [s.db.Update(f)] and [s.db.View(f)]. *)
Definition Update {A} (s : Store) (f : Tx B A) : result A * Store :=
  let (r, d) := run_update f (s_db s) in (r, with_db s d).
Definition View {A} (s : Store) (f : Tx B A) : result A := run_view f (s_db s).

(** An error rolls the transaction back. *)
Lemma Update_err {A} (s : Store) (f : Tx B A) e s' :
  Update s f = (Err e, s') → s' = s.
Proof.
  unfold Update, run_update. destruct (f (s_db s)) as [[a d]|]; [done|].
  intros [= _ <-]. by destruct s.
Qed.

Lemma Update_ok {A} (s : Store) (f : Tx B A) a s' :
  Update s f = (Ok a, s') ↔ ∃ d, f (s_db s) = Ok (a, d) ∧ s' = with_db s d.
Proof.
  unfold Update, run_update. destruct (f (s_db s)) as [[a' d]|]; naive_solver.
Qed.
End store.

Arguments Store B : clear implicits.

(** ** Facts about paths *)

Definition plain (name : string) : Prop :=
  name ≠ "" ∧ name ≠ "." ∧ name ≠ ".." ∧ 47 ∉ bytes_of name.

Lemma split_slash_plain name : 47 ∉ bytes_of name → split_slash name = [name].
Proof.
  unfold split_slash. rewrite <- (of_bytes_of name) at 3.
  change (bytes_of name) with (reverse [] ++ bytes_of name) at 3.
  generalize (bytes_of name). generalize (@nil Z) as cur. intros cur l.
  revert cur. induction l as [|b l IH]; intros cur Hn; cbn; [by rewrite app_nil_r|].
  destruct (Z.eqb_spec b 47) as [->|_]; [destruct Hn; by left|].
  rewrite IH by set_solver. by rewrite reverse_cons, <- (assoc_L (++)).
Qed.

Lemma below_app dir p : below dir (dir ++ p) = true.
Proof. induction dir as [|c dir IH]; cbn; [done|]. by rewrite eqs_refl, IH. Qed.

Lemma below_spec dir p : below dir p = true ↔ ∃ r, p = dir ++ r.
Proof.
  split; [|intros [r ->]; apply below_app]. revert p.
  induction dir as [|c dir IH]; intros p; cbn; [by exists p|].
  destruct p as [|c' p]; [done|].
  intros [->%eqs_true [r ->]%IH]%andb_true_iff. by exists r.
Qed.

Definition clean_path (p : path) : Prop := Forall (λ c, c ≠ "" ∧ c ≠ "." ∧ c ≠ "..") p.

Lemma clean_onto_clean acc p : clean_path p → clean_onto acc p = reverse acc ++ p.
Proof.
  revert acc. induction p as [|c p IH]; intros acc Hp; cbn; [by rewrite app_nil_r|].
  apply Forall_cons in Hp as [(H1 & H2 & H3) Hp].
  apply eqs_false in H1, H2, H3. rewrite H1, H2, H3. cbn.
  rewrite IH by done. by rewrite reverse_cons, <- (assoc_L (++)).
Qed.

Lemma clean_onto_app acc p q : clean_path p → clean_onto acc (p ++ q) = clean_onto (reverse p ++ acc) q.
Proof.
  revert acc. induction p as [|c p IH]; intros acc Hp; [done|].
  apply Forall_cons in Hp as [(H1 & H2 & H3) Hp]. rewrite reverse_cons, <- (assoc_L (++)). cbn [clean_onto app].
  apply eqs_false in H1, H2, H3. rewrite H1, H2, H3. cbn [orb]. by apply IH.
Qed.

(** Joining the parent to a clean directory leads out of it. *)
Lemma filepath_Join_parent dir name :
  clean_path (dir ++ [name]) → filepath_Join (dir ++ [name]) ".." = dir.
Proof.
  intros Hd. unfold filepath_Join. change (split_slash "..") with [".."].
  rewrite clean_onto_app by done. rewrite app_nil_r, reverse_app.
  change (reverse (reverse dir) = dir). by rewrite reverse_involutive.
Qed.

(** Joining a plain name to a clean directory just appends it. *)
Lemma filepath_Join_plain dir name :
  clean_path dir → plain name → filepath_Join dir name = dir ++ [name].
Proof.
  intros Hd (H1 & H2 & H3 & H4). unfold filepath_Join. rewrite split_slash_plain by done.
  rewrite clean_onto_clean; [done|]. apply Forall_app. by repeat constructor.
Qed.

(** [WriteAt] at or before the end of the file keeps what came before and
    ends where the data ends, or where the file already ended. *)
Lemma write_at_length old off data :
  0 <= off → slen (write_at old off data) = Z.max (slen old) (off + slen data).
Proof.
  intros Hoff. unfold write_at. rewrite slen_of_bytes, !length_app, length_take, length_app,
    length_replicate, length_drop, !bytes_of_length. unfold slen. lia.
Qed.

(** The bytes after a write at or before the end of the file. *)
Lemma write_at_lookup old off data (i : nat) :
  0 <= off <= slen old →
  bytes_of (write_at old off data) !! i
  = if decide (Z.of_nat i < off) then bytes_of old !! i
    else if decide (Z.of_nat i < off + slen data) then bytes_of data !! (i - Z.to_nat off)%nat
    else bytes_of old !! i.
Proof.
  intros Hoff. unfold write_at, slen in *. pose proof (bytes_of_length old) as Hl.
  replace (Z.to_nat off - length (bytes_of old))%nat with 0%nat by lia. cbn [replicate].
  rewrite app_nil_r, bytes_of_of.
  2: { rewrite !Forall_app. split_and!; [apply Forall_take|..|apply Forall_drop]; auto with chirp. }
  rewrite <- (bytes_of_length data).
  assert (Ht : length (take (Z.to_nat off) (bytes_of old)) = Z.to_nat off)
    by (rewrite length_take; lia).
  case_decide; [rewrite lookup_app_l by lia; by rewrite lookup_take_lt by lia|].
  rewrite lookup_app_r by lia. rewrite Ht.
  case_decide; [by rewrite lookup_app_l by lia|].
  rewrite lookup_app_r by lia. rewrite lookup_drop. f_equal. lia.
Qed.
