(* ===== verification/StoreCore.v ===== *)
(** * Keys, identity and settings of the store (internal/store/store.go)

    Encryption of values under the store's keys, opening a database with or
    without its passphrase, and the three records of the meta bucket.  A
    random read is an argument, [None] standing for a failed one. *)

From S2P Require Import Prelude GoStrings Utf8 Proto Sha256 Identity Base64 Crypto Bolt.
From S2P Require Import StoreData.

(** [strings.Index], [None] for -1, and [strings.Contains]. *)
Definition Index (s substr : string) : option nat := String.index 0 substr s.
Definition Contains (s substr : string) : bool :=
  match Index s substr with Some _ => true | None => false end.

Section encryption.
Context {B : Type → Type} `{Bolt B} `{Primitives}.
Implicit Types s : Store B.

Definition encryptWith (key : option string) (plaintext : string) (rnd : option string)
    : result string :=
  match key with
  | None => Ok plaintext
  | Some k => if slen plaintext =? 0 then Ok plaintext else Encrypt k plaintext rnd
  end.

Definition encrypt s (plaintext : string) (rnd : option string) : result string :=
  encryptWith (s_encKey s) plaintext rnd.

(** [crypto.Decrypt(s.encKey, data)] with a key that may be nil. *)
Definition Decrypt_key (key : option string) (data : string) : result string :=
  Decrypt (default "" key) data.

(** The keys [decrypt] tries, in order. *)
Fixpoint try_keys (keys : list (option string)) (data : string) : option string :=
  match keys with
  | [] => None
  | None :: keys => try_keys keys data
  | Some key :: keys =>
      match Decrypt key data with Ok pt => Some pt | Err _ => try_keys keys data end
  end.

Definition decrypt s (data : string) : result string :=
  if negb (IsEncrypted data) then Ok data else
  match try_keys [s_encKey s; s_idKey s] data with
  | Some pt => Ok pt
  | None =>
      match s_encKey s, s_idKey s with
      | None, None => Err (Errorf "store: encrypted data but no key")
      | _, _ => Decrypt_key (s_encKey s) data
      end
  end.

Definition encryptString s (s2 : string) (rnd : option string) : result string :=
  match s_encKey s with
  | None => Ok s2
  | Some k =>
      if s2 =s? "" then Ok s2
      else ct ← Encrypt k s2 rnd; Ok (EncodeToString ct)
  end.

Definition decryptString s (s2 : string) : result string :=
  if s2 =s? "" then Ok s2 else
  match s_encKey s, s_idKey s with
  | None, None => Ok s2
  | _, _ =>
      match DecodeString s2 with
      | Err e => Err (Wrapf "store: base64 decode" e)
      | Ok raw => if negb (IsEncrypted raw) then Ok s2 else decrypt s raw
      end
  end.
End encryption.

Section identity.
Context {B : Type → Type} `{Bolt B} `{Primitives} `{UnicodeTables}.
Implicit Types s : Store B.

Definition peerKey (name : string) : string := ToLower (TrimSpace name).

(** [LoadIdentity] returns [nil, nil] when there is none. *)
Definition LoadIdentity s : result (option Identity) :=
  match View s (v ← Get bMeta "identity";
                match v with
                | None => fail (Sentinel ErrNotFound)
                | Some (MIdentity r) => lift (unmarshal r)
                | Some _ => fail ErrJSON
                end) with
  | Err e => if errors_is e ErrNotFound then Ok None else Err e
  | Ok rec =>
      match decrypt s (ir_Priv rec) with
      | Err e => Err (Wrapf "store: decrypt identity key" e)
      | Ok priv => Ok (Some (mkIdentity (ir_Name rec) priv (ir_Pub rec)))
      end
  end.

Definition SaveIdentity s (id : Identity) (rnd : option string) : result unit * Store B :=
  match encryptWith (s_idKey s) (id_Private id) rnd with
  | Err e => (Err (Wrapf "store: encrypt identity key" e), s)
  | Ok priv =>
      Update s (v ← Get bMeta "identity";
                match v with
                | Some _ => fail (Errorf "store: identity already exists")
                | None => Put bMeta "identity"
                            (MIdentity (json (mkIdRecord (id_Name id) priv (id_Public id))))
                end)
  end.

Definition RenameIdentity s (name : string) : result unit * Store B :=
  Update s (v ← Get bMeta "identity";
            match v with
            | None => fail (Sentinel ErrNotFound)
            | Some (MIdentity r) =>
                rec ← lift (unmarshal r);
                Put bMeta "identity" (MIdentity (json (mkIdRecord name (ir_Priv rec) (ir_Pub rec))))
            | Some _ => fail ErrJSON
            end).

Definition Settings_ s : result Settings :=
  View s (v ← Get bMeta "settings";
          match v with
          | None => mret DefaultSettings
          | Some (MSettings r) => lift (unmarshal r)
          | Some _ => fail ErrJSON
          end).

Definition SaveSettings s (st : Settings) : result unit * Store B :=
  if (RetentionDays st <? 0) || (3650 <? RetentionDays st)
  then (Err (Errorf "store: retention out of range"), s)
  else Update s (Put bMeta "settings" (MSettings (json st))).

(** The bytes under a key of the meta bucket that holds bytes. *)
Definition meta_bytes (v : option MetaVal) : string :=
  match v with Some (MBytes b) => b | _ => "" end.

(** The mode and the salt; reading them cannot fail. *)
Definition loadKDF s : string * string :=
  let d := s_db s in
  (meta_bytes (bget (d_meta d) "kdf"), meta_bytes (bget (d_meta d) "kdSalt")).

Definition PassphraseSet s : bool := (loadKDF s).1 =s? "argon2id".

(** [openStore]: [opened] is what [bolt.Open] gave for the path, with the
    buckets created. *)
Definition openStore (opened : result (DB B)) (encKey idKey : option string)
    (filesDir : path) (disk : FS) : result (Store B) :=
  match opened with
  | Err e => Err (Wrapf "store: open" e)
  | Ok d => Ok (mkStore d encKey idKey filesDir disk)
  end.

Definition Open opened filesDir disk : result (Store B) :=
  s ← openStore opened None None filesDir disk;
  if PassphraseSet s then Err (Sentinel ErrPassphraseRequired) else Ok s.

Definition OpenWithKey opened (key : string) filesDir disk : result (Store B) :=
  if negb (slen key =? 32) then Err (Errorf "store: encryption key must be 32 bytes") else
  s ← openStore opened (Some key) None filesDir disk;
  if PassphraseSet s then Err (Sentinel ErrPassphraseRequired) else Ok s.

Definition with_keys s (encKey idKey : option string) : Store B :=
  mkStore (s_db s) encKey idKey (s_filesDir s) (s_disk s).

Definition SetKey s (key : option string) : Store B := with_keys s key (s_idKey s).

Definition OpenWithPassphrase opened (passphrase : string) filesDir disk : result (Store B) :=
  s ← openStore opened None None filesDir disk;
  let '(mode, salt) := loadKDF s in
  if negb (mode =s? "argon2id") then Ok s else
  if passphrase =s? "" then Err (Sentinel ErrPassphraseRequired) else
  let s := with_keys s (s_encKey s) (Some (DeriveKeyFromPassphraseSalt passphrase salt)) in
  match LoadIdentity s with
  | Err e =>
      if Contains (ToLower (error_text e)) "decrypt"
      then Err (Errorf "store: wrong database passphrase") else Err e
  | Ok None => Ok s
  | Ok (Some id) => Ok (with_keys s (Some (DeriveKeyFromIdentity (id_Private id))) (s_idKey s))
  end.

(** The transaction of [EnablePassphrase]. *)
Definition enable_tx (idKey salt : string) (rnd : option string) : Tx B unit :=
  _ ← Put bMeta "kdf" (MBytes "argon2id");
  _ ← Put bMeta "kdSalt" (MBytes salt);
  v ← Get bMeta "identity";
  match v with
  | None => fail (Sentinel ErrNotFound)
  | Some (MIdentity r) =>
      rec ← lift (unmarshal r);
      enc ← lift (encryptWith (Some idKey) (ir_Priv rec) rnd);
      Put bMeta "identity" (MIdentity (json (mkIdRecord (ir_Name rec) enc (ir_Pub rec))))
  | Some _ => fail ErrJSON
  end.

(** [EnablePassphrase]; [salt_rnd] and [rnd] are its two random reads, and
    the outer [None] is the panic of a failed first one. *)
Definition EnablePassphrase s (passphrase : string) (salt_rnd rnd : option string)
    : option (result unit * Store B) :=
  if RuneCountInString passphrase <? 12
  then Some (Err (Errorf "store: passphrase must be at least 12 characters"), s) else
  if PassphraseSet s then Some (Err (Errorf "store: a passphrase is already set"), s) else
  match LoadIdentity s with
  | Err e => Some (Err (Wrapf "store: enable passphrase" e), s)
  | Ok None => Some (Err (Errorf "store: no identity to protect"), s)
  | Ok (Some id) =>
      '(_, salt) ← DeriveKeyFromPassphrase passphrase salt_rnd;
      let idKey := DeriveKeyFromPassphraseSalt passphrase salt in
      let (r, s') := Update (with_keys s (s_encKey s) (Some idKey)) (enable_tx idKey salt rnd) in
      match r with
      | Err e => Some (Err e, with_keys s' (s_encKey s') None)
      | Ok _ =>
          let encKey := match s_encKey s' with
                        | None => Some (DeriveKeyFromIdentity (id_Private id))
                        | k => k
                        end in
          Some (Ok tt, with_keys s' encKey (s_idKey s'))
      end
  end.
End identity.

(** ** Reading back what was written *)

Section facts.
Context {B : Type → Type} `{Bolt B} `{Primitives} `{UnicodeTables}.
Implicit Types s : Store B.

(** The keys of an open store: 32 bytes each, and the passphrase key only
    together with the key of the other rows. *)
Definition keys_ok s : Prop :=
  (∀ k, s_encKey s = Some k → slen k = 32) ∧ (∀ k, s_idKey s = Some k → slen k = 32)
  ∧ (s_encKey s = None → s_idKey s = None).

Lemma keys_ok_db s d : keys_ok (with_db s d) ↔ keys_ok s.
Proof. done. Qed.

Lemma decrypt_plain s data : IsEncrypted data = false → decrypt s data = Ok data.
Proof. intros Hd. unfold decrypt. by rewrite Hd. Qed.

Lemma Encrypt_not_err s key pt nonce ct :
  s_encKey s = Some key → slen nonce = 12 → Encrypt key pt (Some nonce) = Ok ct →
  decrypt s ct = Ok pt.
Proof.
  intros Hk Hn He. unfold decrypt. rewrite (Encrypt_IsEncrypted _ _ _ _ He). cbn.
  rewrite Hk. by rewrite (Decrypt_Encrypt _ _ _ _ Hn He).
Qed.

Lemma Encrypt_idKey s key pt nonce ct :
  s_encKey s = None → s_idKey s = Some key → slen nonce = 12 →
  Encrypt key pt (Some nonce) = Ok ct → decrypt s ct = Ok pt.
Proof.
  intros Hk Hi Hn He. unfold decrypt. rewrite (Encrypt_IsEncrypted _ _ _ _ He). cbn.
  rewrite Hk, Hi. by rewrite (Decrypt_Encrypt _ _ _ _ Hn He).
Qed.

Lemma encrypt_Some_total s nonce pt : keys_ok s → ∃ ct, encrypt s pt (Some nonce) = Ok ct.
Proof.
  intros (Hk & _). unfold encrypt, encryptWith. destruct (s_encKey s) as [k|]; [|by eexists].
  destruct (slen pt =? 0); [by eexists|]. by apply Encrypt_total, Hk.
Qed.

(** Whether a plain value can be told from an encrypted one. *)
Definition storable s (pt : string) : Prop := s_encKey s = None → IsEncrypted pt = false.

Lemma decrypt_encrypt_roundtrip s pt nonce ct :
  slen nonce = 12 → storable s pt → encrypt s pt (Some nonce) = Ok ct → decrypt s ct = Ok pt.
Proof.
  unfold encrypt, encryptWith, storable. intros Hn Hs. destruct (s_encKey s) as [k|] eqn:Hk.
  - destruct (Z.eqb_spec (slen pt) 0) as [E|_].
    + intros [= <-]. apply slen_zero in E as ->. by apply decrypt_plain.
    + by apply Encrypt_not_err.
  - intros [= <-]. by apply decrypt_plain, Hs.
Qed.

Lemma encryptString_total s nonce pt :
  keys_ok s → ∃ ct, encryptString s pt (Some nonce) = Ok ct.
Proof.
  intros (Hk & _). unfold encryptString. destruct (s_encKey s) as [k|]; [|by eexists].
  destruct (pt =s? ""); [by eexists|].
  destruct (Encrypt_total k pt nonce (Hk k eq_refl)) as [ct ->]. by eexists.
Qed.

Lemma decryptString_encryptString s pt nonce ct :
  keys_ok s → slen nonce = 12 → encryptString s pt (Some nonce) = Ok ct →
  decryptString s ct = Ok pt.
Proof.
  intros (_ & _ & Hno) Hn. unfold encryptString, decryptString.
  destruct (s_encKey s) as [k|] eqn:Hk.
  - destruct (pt =s? "") eqn:Ep.
    { intros [= <-]. rewrite Ep. by apply eqs_true in Ep as ->. }
    intros (raw & He & [= <-])%bind_ok.
    destruct (EncodeToString raw =s? "") eqn:Ee.
    { apply eqs_true in Ee. pose proof (DecodeString_Encode raw) as Hd. rewrite Ee in Hd.
      injection Hd as <-. by apply Encrypt_IsEncrypted in He. }
    rewrite DecodeString_Encode, (Encrypt_IsEncrypted _ _ _ _ He). cbn.
    by rewrite (Encrypt_not_err s k pt nonce raw).
  - intros [= <-]. rewrite (Hno eq_refl). by destruct (pt =s? "").
Qed.

(** *** The passphrase *)

Definition enabled_db (d : DB B) (salt : string) (rec : idRecord) : DB B :=
  bupd bMeta (bset (bset (bset (d_meta d) "kdf" (MBytes "argon2id")) "kdSalt" (MBytes salt))
                   "identity" (MIdentity (json rec))) d.

Lemma put_meta k : k = "kdf" ∨ k = "kdSalt" ∨ k = "identity" ∨ k = "settings" →
  put_error k = None.
Proof. intros Hk. apply put_error_none. destruct Hk as [->|[->|[->| ->]]]; done. Qed.

Lemma enable_tx_ok d idKey salt nonce rec enc :
  bget (d_meta d) "identity" = Some (MIdentity (json rec)) →
  encryptWith (Some idKey) (ir_Priv rec) (Some nonce) = Ok enc →
  enable_tx idKey salt (Some nonce) d
  = Ok (tt, enabled_db d salt (mkIdRecord (ir_Name rec) enc (ir_Pub rec))).
Proof.
  intros Hg He. unfold enable_tx. tx_unfold.
  rewrite !put_meta by auto. tx_unfold.
  rewrite !bget_set_ne by done. rewrite Hg. cbn [unmarshal].
  by rewrite He.
Qed.

Lemma LoadIdentity_row s rec priv :
  bget (d_meta (s_db s)) "identity" = Some (MIdentity (json rec)) →
  decrypt s (ir_Priv rec) = Ok priv →
  LoadIdentity s = Ok (Some (mkIdentity (ir_Name rec) priv (ir_Pub rec))).
Proof.
  intros Hg Hd. unfold LoadIdentity, View. tx_unfold. rewrite Hg. cbn [unmarshal].
  by rewrite Hd.
Qed.

Lemma loadKDF_enabled fd dk ek ik d salt rec :
  loadKDF (mkStore (enabled_db d salt rec) ek ik fd dk) = ("argon2id", salt).
Proof.
  unfold loadKDF, enabled_db. cbn.
  rewrite (bget_set_ne _ "identity"), (bget_set_ne _ "kdSalt") by done.
  rewrite bget_set_eq, bget_set_ne, bget_set_eq by done. done.
Qed.

Lemma EnablePassphrase_ok s pass salt nonce rec :
  12 <= RuneCountInString pass → PassphraseSet s = false →
  bget (d_meta (s_db s)) "identity" = Some (MIdentity (json rec)) →
  IsEncrypted (ir_Priv rec) = false → slen nonce = 12 →
  ∃ enc,
    encryptWith (Some (argon2id pass salt)) (ir_Priv rec) (Some nonce) = Ok enc ∧
    EnablePassphrase s pass (Some salt) (Some nonce)
    = Some (Ok tt, mkStore (enabled_db (s_db s) salt (mkIdRecord (ir_Name rec) enc (ir_Pub rec)))
              (Some (default (DeriveKeyFromIdentity (ir_Priv rec)) (s_encKey s)))
              (Some (argon2id pass salt)) (s_filesDir s) (s_disk s)).
Proof.
  intros Hp Hs Hg Hplain Hn.
  assert (∃ enc, encryptWith (Some (argon2id pass salt)) (ir_Priv rec) (Some nonce) = Ok enc)
    as [enc He].
  { cbn. destruct (slen (ir_Priv rec) =? 0); [by eexists|].
    apply Encrypt_total, argon2_len. }
  exists enc. split; [done|]. unfold EnablePassphrase.
  destruct (Z.ltb_spec (RuneCountInString pass) 12); [lia|]. rewrite Hs.
  rewrite (LoadIdentity_row s rec (ir_Priv rec)) by (done || by apply decrypt_plain).
  cbn [DeriveKeyFromPassphrase mbind option_bind]. unfold Update, run_update.
  unfold DeriveKeyFromPassphraseSalt. cbn [with_keys s_db id_Private].
  rewrite (enable_tx_ok _ _ _ _ _ _ Hg He). by destruct (s_encKey s).
Qed.

Lemma OpenWithPassphrase_enabled d pass salt nonce rec enc fd dk :
  pass ≠ "" → slen nonce = 12 → ir_Priv rec ≠ "" →
  encryptWith (Some (argon2id pass salt)) (ir_Priv rec) (Some nonce) = Ok enc →
  let d' := enabled_db d salt (mkIdRecord (ir_Name rec) enc (ir_Pub rec)) in
  OpenWithPassphrase (Ok d') pass fd dk
  = Ok (mkStore d' (Some (DeriveKeyFromIdentity (ir_Priv rec))) (Some (argon2id pass salt)) fd dk).
Proof.
  intros Hp Hn Hne He d'. unfold OpenWithPassphrase, openStore.
  cbn [mbind result_bind]. subst d'. rewrite loadKDF_enabled. rewrite eqs_refl. cbn [negb].
  rewrite (proj2 (eqs_false pass "")) by done.
  erewrite LoadIdentity_row; [|apply bget_set_eq|].
  2: { cbn [ir_Priv]. cbn [encryptWith] in He.
       destruct (Z.eqb_spec (slen (ir_Priv rec)) 0) as [E|_]; [by apply slen_zero in E|].
       by apply (Encrypt_idKey _ (argon2id pass salt) _ nonce). }
  done.
Qed.

Lemma Open_enabled d salt rec fd dk :
  Open (Ok (enabled_db d salt rec)) fd dk = Err (Sentinel ErrPassphraseRequired).
Proof.
  unfold Open, openStore, PassphraseSet. cbn [mbind result_bind]. by rewrite loadKDF_enabled.
Qed.

(** A ciphertext without a key to try. *)
Lemma Decrypt_no_key key pt nonce ct :
  slen nonce = 12 → Encrypt key pt (Some nonce) = Ok ct →
  Decrypt "" ct = Err (Wrapf "crypto: aead" (Errorf "bad key length")).
Proof.
  intros Hn (Hk & n & [= <-] & ->)%Encrypt_ok. unfold Decrypt. cbv zeta.
  rewrite !slen_app, seal_len, Hn, has_prefix_app by done.
  change (slen magic) with 8. change (slen (of_bytes [version])) with 1. unfold nonceLen.
  pose proof (slen_nonneg pt).
  destruct (Z.eqb_spec (8 + (1 + (12 + (slen pt + 16)))) 0); [lia|]. cbn [negb].
  destruct (Z.ltb_spec (8 + (1 + (12 + (slen pt + 16)))) (8 + 1 + 12 + 16)); [lia|].
  rewrite (str_drop_app magic) by done. rewrite str_take_app by done.
  by rewrite eqs_refl.
Qed.

Lemma OpenWithPassphrase_wrong d pass salt nonce rec enc wrong fd dk :
  wrong ≠ "" → slen nonce = 12 → ir_Priv rec ≠ "" →
  encryptWith (Some (argon2id pass salt)) (ir_Priv rec) (Some nonce) = Ok enc →
  is_ok (Decrypt (argon2id wrong salt) enc) = false →
  OpenWithPassphrase (Ok (enabled_db d salt (mkIdRecord (ir_Name rec) enc (ir_Pub rec)))) wrong fd dk
  = Err (Errorf "store: wrong database passphrase").
Proof.
  intros Hw Hn Hne He Hbad. unfold OpenWithPassphrase, openStore. cbn [mbind result_bind].
  rewrite loadKDF_enabled, eqs_refl. cbn [negb]. rewrite (proj2 (eqs_false wrong "")) by done.
  unfold encryptWith in He.
  destruct (Z.eqb_spec (slen (ir_Priv rec)) 0) as [E|_]; [by apply slen_zero in E|].
  unfold LoadIdentity, View. tx_unfold.
  cbn [enabled_db s_db with_keys]. tx_unfold. unfold enabled_db. tx_unfold.
  rewrite bget_set_eq. cbn [unmarshal ir_Priv].
  unfold decrypt. rewrite (Encrypt_IsEncrypted _ _ _ _ He).
  cbn [negb try_keys with_keys s_encKey s_idKey]. unfold DeriveKeyFromPassphraseSalt.
  destruct (Decrypt (argon2id wrong salt) enc); [done|].
  unfold Decrypt_key. cbn [default]. rewrite (Decrypt_no_key _ _ _ _ Hn He).
  rewrite ToLower_ascii by (apply (bool_decide_unpack _); vm_compute; done).
  by vm_compute.
Qed.

Lemma LoadIdentity_enabled d pass salt nonce rec enc fd dk key :
  slen nonce = 12 → ir_Priv rec ≠ "" →
  encryptWith (Some (argon2id pass salt)) (ir_Priv rec) (Some nonce) = Ok enc →
  is_ok (Decrypt key enc) = false →
  LoadIdentity (mkStore (enabled_db d salt (mkIdRecord (ir_Name rec) enc (ir_Pub rec)))
                  (Some key) (Some (argon2id pass salt)) fd dk)
  = Ok (Some (mkIdentity (ir_Name rec) (ir_Priv rec) (ir_Pub rec))).
Proof.
  intros Hn Hne He Hbad. rewrite (LoadIdentity_row _ (mkIdRecord (ir_Name rec) enc (ir_Pub rec)) (ir_Priv rec));
    [done|apply bget_set_eq|].
  cbn [ir_Priv]. unfold encryptWith in He.
  destruct (Z.eqb_spec (slen (ir_Priv rec)) 0) as [E|_]; [by apply slen_zero in E|].
  unfold decrypt. rewrite (Encrypt_IsEncrypted _ _ _ _ He).
  cbn [negb try_keys s_encKey s_idKey].
  destruct (Decrypt key enc); [done|]. by rewrite (Decrypt_Encrypt _ _ _ _ Hn He).
Qed.
End facts.

(** ** Properties *)

Section properties.
Context {B : Type → Type} `{Bolt B} `{Primitives} `{UnicodeTables}.
Implicit Types s : Store B.

(** Encryption at rest is transparent.  On a store whose keys are well
    formed, [encryptString] of any text succeeds once its nonce is read, and
    [decryptString] gives the text back; and so do [encrypt] and [decrypt]
    on every value, except that a store without a key cannot hold a value
    that itself starts with the magic of an encrypted one. *)
Lemma encryption_at_rest_transparent s pt nonce :
  keys_ok s → slen nonce = 12 →
  (∃ ct, encryptString s pt (Some nonce) = Ok ct ∧ decryptString s ct = Ok pt) ∧
  (∃ ct, encrypt s pt (Some nonce) = Ok ct ∧
         (decrypt s ct = Ok pt ∨ (s_encKey s = None ∧ IsEncrypted pt = true))).
Proof.
  intros Hk Hn. split.
  - destruct (encryptString_total s nonce pt Hk) as [ct Hct]. exists ct. split; [done|].
    by eapply decryptString_encryptString.
  - destruct (encrypt_Some_total s nonce pt Hk) as [ct Hct]. exists ct. split; [done|].
    destruct (s_encKey s) as [k|] eqn:Ek, (IsEncrypted pt) eqn:Ep; auto; left;
      eapply decrypt_encrypt_roundtrip; try done; unfold storable; congruence.
Qed.

(** The life of a passphrase.  On a database whose identity lies in
    plain text and that has no passphrase, [EnablePassphrase] succeeds for
    any passphrase of at least twelve characters; the database it leaves is
    refused by [Open] and [OpenWithKey]; [OpenWithPassphrase] with the same
    passphrase gives the key derived from the same private key and, as the
    identity key does not open what the passphrase key sealed, the same
    identity; a passphrase under which the private key does not decrypt is
    reported as wrong; and no bucket but meta has changed. *)
Lemma passphrase_lifecycle s pass salt nonce rec fd dk :
  12 <= RuneCountInString pass → PassphraseSet s = false → slen nonce = 12 →
  bget (d_meta (s_db s)) "identity" = Some (MIdentity (json rec)) →
  IsEncrypted (ir_Priv rec) = false → ir_Priv rec ≠ "" →
  ∃ s' enc,
    EnablePassphrase s pass (Some salt) (Some nonce) = Some (Ok tt, s') ∧
    (∃ m, s_db s' = bupd bMeta m (s_db s)) ∧
    Open (Ok (s_db s')) fd dk = Err (Sentinel ErrPassphraseRequired) ∧
    (∀ key, slen key = 32 →
      OpenWithKey (Ok (s_db s')) key fd dk = Err (Sentinel ErrPassphraseRequired)) ∧
    (∃ s'', OpenWithPassphrase (Ok (s_db s')) pass fd dk = Ok s'' ∧
      s_encKey s'' = Some (DeriveKeyFromIdentity (ir_Priv rec)) ∧
      (is_ok (Decrypt (DeriveKeyFromIdentity (ir_Priv rec)) enc) = false →
       LoadIdentity s'' = Ok (Some (mkIdentity (ir_Name rec) (ir_Priv rec) (ir_Pub rec))))) ∧
    encryptWith (Some (argon2id pass salt)) (ir_Priv rec) (Some nonce) = Ok enc ∧
    ∀ wrong, wrong ≠ "" → is_ok (Decrypt (argon2id wrong salt) enc) = false →
      OpenWithPassphrase (Ok (s_db s')) wrong fd dk
      = Err (Errorf "store: wrong database passphrase").
Proof.
  intros Hp Hs Hn Hg Hplain Hne.
  destruct (EnablePassphrase_ok s pass salt nonce rec) as (enc & He & Hok); [done..|].
  assert (Hpe : pass ≠ "") by (intros ->; by apply Hp).
  eexists _, enc. split; [done|]. cbn [s_db]. split_and!.
  - by eexists.
  - apply Open_enabled.
  - intros key Hkey. unfold OpenWithKey. rewrite Hkey. cbn [Z.eqb Pos.eqb negb].
    unfold openStore, PassphraseSet. cbn [mbind result_bind]. by rewrite loadKDF_enabled.
  - eexists. split_and!; [by eapply (OpenWithPassphrase_enabled _ pass salt nonce)|done|].
    intros Hno. by eapply LoadIdentity_enabled.
  - done.
  - intros wrong Hw Hbad. by eapply (OpenWithPassphrase_wrong _ pass salt nonce).
Qed.
End properties.

(** ** Witnesses *)

#[local] Existing Instance gmap_bolt.
#[local] Existing Instance toy_primitives.
#[local] Existing Instance ascii_tables.

Definition ex_rec : idRecord :=
  mkIdRecord "alice" "0123456789abcdef0123456789abcdef" "fedcba9876543210fedcba9876543210".

Definition ex_store : Store gbucket :=
  mkStore (bupd bMeta (bset bempty "identity" (MIdentity (json ex_rec))) empty_db)
    None None ["home"; "files"] ∅.

Lemma encryption_at_rest_transparent_example :
  keys_ok (SetKey ex_store (Some (ir_Priv ex_rec))) ∧ slen "nonce nonce " = 12 ∧
  ∃ ct, encryptString (SetKey ex_store (Some (ir_Priv ex_rec))) "hello" (Some "nonce nonce ") = Ok ct.
Proof.
  assert (keys_ok (SetKey ex_store (Some (ir_Priv ex_rec)))) as Hk.
  { split_and!; [by intros k [= <-]|done|done]. }
  split_and!; [done|done|].
  destruct (encryption_at_rest_transparent (SetKey ex_store (Some (ir_Priv ex_rec))) "hello"
    "nonce nonce " Hk eq_refl) as [(ct & Hct & _) _]. by exists ct.
Defined.

Lemma passphrase_lifecycle_example :
  ∃ s', EnablePassphrase ex_store "correct horse battery" (Some "salt") (Some "nonce nonce ")
        = Some (Ok tt, s') ∧
        Open (Ok (s_db s')) ["home"] ∅ = Err (Sentinel ErrPassphraseRequired).
Proof.
  destruct (passphrase_lifecycle ex_store "correct horse battery" "salt" "nonce nonce " ex_rec
    ["home"] ∅) as (s' & enc & Hs & _ & Ho & _);
    [vm_compute; done|reflexivity|reflexivity|reflexivity|reflexivity|done|].
  exists s'. by split.
Defined.
