(* ===== verification/StoreMessages.v ===== *)
(** * One-to-one messages of the store (internal/store/store.go)

    The message log, its index by identifier and the outbox: adding with
    deduplication, delivery marks, listing, searching and deleting.  A
    transaction body is a [Tx]; an operation is a function from the store to
    its result and the store after it. *)

From S2P Require Import Prelude GoStrings Utf8 Proto Identity Base64 Crypto Bolt StoreData.
From S2P Require Import StoreCore.

(** Field updates of a message. *)
Definition set_Body (b : string) (m : Message) : Message :=
  mkMessage (m_ID m) (m_Peer m) (m_Dir m) b (m_TS m) (m_Status m) (m_Attempts m) (m_LastTry m)
    (m_Seq m) (m_ReplyTo m).
Definition set_Seq (q : Z) (m : Message) : Message :=
  mkMessage (m_ID m) (m_Peer m) (m_Dir m) (m_Body m) (m_TS m) (m_Status m) (m_Attempts m)
    (m_LastTry m) q (m_ReplyTo m).
Definition set_Status (st : string) (m : Message) : Message :=
  mkMessage (m_ID m) (m_Peer m) (m_Dir m) (m_Body m) (m_TS m) st (m_Attempts m) (m_LastTry m)
    (m_Seq m) (m_ReplyTo m).
Definition bump_attempt (now : Z) (m : Message) : Message :=
  mkMessage (m_ID m) (m_Peer m) (m_Dir m) (m_Body m) (m_TS m) (m_Status m)
    (int64 (m_Attempts m + 1)) now (m_Seq m) (m_ReplyTo m).

(** [Message{}]. *)
Definition zero_message : Message := mkMessage "" "" "" "" zero_time "" 0 zero_time 0 "".

(** An outbound message nobody has acknowledged. *)
Definition undelivered (m : Message) : bool :=
  (m_Dir m =s? DirOut) && negb (m_Status m =s? StatusDelivered).

Section operations.
Context {B : Type → Type} `{Bolt B} `{Primitives} `{UnicodeTables}.
Implicit Types s : Store B.

Definition msgKey (peer : string) (seq : Z) : string :=
  peerKey peer +:+ (of_bytes [0] +:+ be_put64 seq).

Definition decryptMessage s (m : Message) : result Message :=
  match decryptString s (m_Body m) with
  | Err e => Err (Wrapf "store: decrypt body" e)
  | Ok body => Ok (set_Body body m)
  end.

(** The transaction of [AddMessage]: the stored message, or [None] for a duplicate. *)
Definition add_tx (m : Message) : Tx B (option Message) :=
  i ← Get bIdx (m_ID m);
  match i with
  | Some _ => mret None
  | None =>
      seq ← NextSequence bMsgs;
      let m := set_Seq seq m in
      let k := msgKey (m_Peer m) seq in
      _ ← Put bMsgs k (json m);
      _ ← Put bIdx (m_ID m) k;
      _ ← (if undelivered m then Put bOutbox (m_ID m) k else mret tt);
      mret (Some m)
  end.

Definition AddMessage s (m : Message) (rnd : option string)
    : result (Message * bool) * Store B :=
  match encryptString s (m_Body m) rnd with
  | Err e => (Err (Wrapf "store: encrypt body" e), s)
  | Ok encBody =>
      let (r, s') := Update s (add_tx (set_Body encBody m)) in
      match r with
      | Err e => (Err e, s')
      | Ok stored =>
          (m' ← decryptMessage s' (default zero_message stored);
           Ok (m', match stored with None => true | Some _ => false end), s')
      end
  end.

(** [loadByID]: the message and its key. *)
Definition loadByID (id : string) : Tx B (Message * string) :=
  k ← Get bIdx id;
  match k with
  | None => fail (Sentinel ErrNotFound)
  | Some k =>
      v ← Get bMsgs k;
      match v with
      | None => fail (Sentinel ErrNotFound)
      | Some r => m ← lift (unmarshal r); mret (m, k)
      end
  end.

Definition mark_tx (peer id : string) : Tx B (Message * bool) :=
  '(m, k) ← loadByID id;
  if negb (m_Dir m =s? DirOut) || negb (EqualFold (m_Peer m) peer)
  then fail (Sentinel ErrNotFound) else
  if m_Status m =s? StatusDelivered then mret (m, false) else
  let m := set_Status StatusDelivered m in
  _ ← Put bMsgs k (json m);
  _ ← Delete bOutbox id;
  mret (m, true).

Definition MarkDelivered s (peer id : string) : result (Message * bool) * Store B :=
  let (r, s') := Update s (mark_tx peer id) in
  ('(out, changed) ← r; out ← decryptMessage s' out; Ok (out, changed), s').

Definition attempt_tx (id : string) (now : Z) : Tx B Message :=
  '(m, k) ← loadByID id;
  let m := bump_attempt now m in
  _ ← Put bMsgs k (json m);
  mret m.

Definition RecordAttempt s (id : string) (now : Z) : result Message * Store B :=
  let (r, s') := Update s (attempt_tx id now) in
  (out ← r; decryptMessage s' out, s').

(** The cursor loop of [Messages], over what [Prev] visits. *)
Fixpoint collect s (prefix : string) (limit : nat) (visited : list (string * row Message))
    : result (list Message) :=
  match visited, limit with
  | (k, v) :: visited, S limit =>
      if has_prefix k prefix then
        m ← unmarshal v; m ← decryptMessage s m;
        out ← collect s prefix limit visited; Ok (m :: out)
      else Ok []
  | _, _ => Ok []
  end.

Definition page_limit (limit : Z) : nat :=
  Z.to_nat (if (limit <=? 0) || (1000 <? limit) then 200 else limit).

(** The eight bytes 0xff that end the upper bound of a peer's keys. *)
Definition ff8 : string := of_bytes (replicate 8 255).

Definition Messages s (peer : string) (limit : Z) : result (list Message) :=
  View s (
    items ← Items bMsgs;
    let prefix := peerKey peer +:+ of_bytes [0] in
    out ← lift (collect s prefix (page_limit limit) (c_seek_prev items (prefix +:+ ff8)));
    mret (reverse out)).

Definition sortBySeq (m : list Message) : list Message :=
  sort_loop (λ a b, m_Seq a <? m_Seq b) m.

(** The callback of [Pending] on one entry of the outbox. *)
Definition pending_entry s (peer : string) (d : DB B) (k : string) : result (list Message) :=
  match bget (d_msgs d) k with
  | None => Ok []
  | Some v =>
      m ← unmarshal v; m ← decryptMessage s m;
      Ok (if (peer =s? "") || EqualFold (m_Peer m) peer then [m] else [])
  end.

Definition Pending s (peer : string) : result (list Message) :=
  out ← mapM (pending_entry s peer (s_db s)) (bitems (d_outbox (s_db s))).*2;
  Ok (sortBySeq (concat out)).

Definition DeleteFromOutbox s (id : string) : result unit * Store B :=
  Update s (
    '(m, k) ← loadByID id;
    if negb (m_Dir m =s? DirOut) || (m_Status m =s? StatusDelivered)
    then fail (Sentinel ErrNotFound) else
    _ ← Delete bOutbox id; _ ← Delete bIdx id; Delete bMsgs k).

(** The second loop of [deleteMessages]. *)
Fixpoint delete_keys (keys : list (string * string)) : Tx B unit :=
  match keys with
  | [] => mret tt
  | (k, id) :: keys =>
      _ ← Delete bMsgs k; _ ← Delete bIdx id; _ ← Delete bOutbox id; delete_keys keys
  end.

Definition selected (pred : Message → bool) (rows : list (string * Message))
    : list (string * Message) :=
  filter (λ km, pred km.2 = true) rows.

Definition all_rows (items : list (string * row Message)) : result (list (string * Message)) :=
  mapM (λ kv, m ← unmarshal kv.2; Ok (kv.1, m)) items.

(** [deleteMessages]; it gives the messages [pred] accepted. *)
Definition deleteMessages (pred : Message → bool) : Tx B (list Message) :=
  items ← Items bMsgs;
  rows ← lift (all_rows items);
  _ ← delete_keys ((λ km, (km.1, m_ID km.2)) <$> selected pred rows);
  mret (selected pred rows).*2.

Definition DeleteAllMessages s : result unit * Store B :=
  Update s (_ ← deleteMessages (λ _, true); mret tt).

Definition prune_pred (cutoff : Z) (m : Message) : bool :=
  if undelivered m then false else m_TS m <? cutoff.

Definition Prune s (cutoff : Z) : result Z * Store B :=
  Update s (ms ← deleteMessages (prune_pred cutoff); mret (Z.of_nat (length ms))).

Definition DeleteMessage s (id : string) : result unit * Store B :=
  Update s (
    '(m, k) ← loadByID id;
    _ ← Delete bIdx (m_ID m); _ ← Delete bOutbox (m_ID m); Delete bMsgs k).

(** [snippet[start:end]]; [None] is the panic of a bad range. *)
Definition slice (s : string) (start stop : Z) : option string :=
  if (0 <=? start) && (start <=? stop) && (stop <=? slen s)
  then Some (str_take (Z.to_nat (stop - start)) (str_drop (Z.to_nat start) s)) else None.

Definition make_snippet (body query : string) : option string :=
  match Index (ToLower body) query with
  | None => Some body
  | Some idx =>
      let idx := Z.of_nat idx in
      let start := if idx - 20 <? 0 then 0 else idx - 20 in
      let stop := if slen body <? idx + slen query + 40 then slen body
                  else idx + slen query + 40 in
      snippet ← slice body start stop;
      let snippet := if 0 <? start then "..." +:+ snippet else snippet in
      Some (if stop <? slen body then snippet +:+ "..." else snippet)
  end.

(** The callback of [Search] over the bucket; the outer [None] is a panic. *)
Fixpoint search_rows s (query : string) (limit : nat) (rows : list (row Message))
    : option (result (list (Message * string))) :=
  match rows, limit with
  | v :: rows, S limit' =>
      match (m ← unmarshal v; decryptMessage s m) with
      | Err e => Some (Err e)
      | Ok m =>
          if Contains (ToLower (m_Body m)) query then
            snippet ← make_snippet (m_Body m) query;
            out ← search_rows s query limit' rows;
            Some (out ← out; Ok ((m, snippet) :: out))
          else search_rows s query limit rows
      end
  | _, _ => Some (Ok [])
  end.

Definition Search s (query : string) (limit : Z) : option (result (list (Message * string))) :=
  let limit := if (limit <=? 0) || (100 <? limit) then 20 else limit in
  let query := ToLower query in
  if query =s? "" then Some (Ok [])
  else search_rows s query (Z.to_nat limit) (bitems (d_msgs (s_db s))).*2.
End operations.

(** ** The invariant of the message buckets *)

Section invariant.
Context {B : Type → Type} `{Bolt B} `{Primitives} `{UnicodeTables}.
Implicit Types (s : Store B) (d : DB B) (m : Message).

(** Every row lies under the key of its peer (whose name ends at the NUL) and sequence number and is
    indexed by its identifier; the index names rows; the outbox names
    exactly the outbound messages nobody acknowledged; sequence numbers are
    distinct and were drawn from the bucket's counter. *)
Record msgs_wf d : Prop := {
  wf_row k r : bget (d_msgs d) k = Some r →
    ∃ m, r = json m ∧ k = msgKey (m_Peer m) (m_Seq m)
         ∧ bget (d_idx d) (m_ID m) = Some k ∧ 1 <= m_Seq m <= bseq (d_msgs d)
         ∧ no_nul (m_Peer m) ∧ put_error k = None;
  wf_idx id k : bget (d_idx d) id = Some k →
    ∃ m, bget (d_msgs d) k = Some (json m) ∧ m_ID m = id;
  wf_outbox id k : bget (d_outbox d) id = Some k ↔
    ∃ m, bget (d_msgs d) k = Some (json m) ∧ m_ID m = id ∧ undelivered m = true;
  wf_uniq k1 k2 m1 m2 : bget (d_msgs d) k1 = Some (json m1) →
    bget (d_msgs d) k2 = Some (json m2) → m_Seq m1 = m_Seq m2 → k1 = k2;
  wf_seq : 0 <= bseq (d_msgs d) < 2 ^ 64 - 1 }.

(** Every body decrypts under the store's keys. *)
Definition msgs_readable s : Prop :=
  ∀ k m, bget (d_msgs (s_db s)) k = Some (json m) → is_ok (decryptString s (m_Body m)) = true.

Lemma msgs_wf_empty : msgs_wf empty_db.
Proof.
  split; cbn; intros *; autorewrite with bolt; try done.
  split; naive_solver.
Qed.

Lemma msgKey_seq p q p' q' :
  0 <= q < 2 ^ 64 → 0 <= q' < 2 ^ 64 → msgKey p q = msgKey p' q' → q = q' ∧ peerKey p = peerKey p'.
Proof.
  intros Hq Hq' He. unfold msgKey in He. apply str_app_suffix_inj in He as [Hp He].
  2: { rewrite <- !bytes_of_length, !bytes_of_app, !length_app, !bytes_of_length.
       by rewrite !be_put64_length. }
  apply str_app_suffix_inj in He as [_ He]; [|by rewrite !be_put64_length].
  split; [by apply be_put64_inj|done].
Qed.

Lemma wf_get d k m :
  msgs_wf d → bget (d_msgs d) k = Some (json m) →
  k = msgKey (m_Peer m) (m_Seq m) ∧ bget (d_idx d) (m_ID m) = Some k
  ∧ 1 <= m_Seq m <= bseq (d_msgs d) ∧ no_nul (m_Peer m) ∧ put_error k = None.
Proof. intros Hwf Hg. by apply wf_row in Hg as (? & [= <-] & ?). Qed.

(** A key with a sequence number above the counter is free. *)
Lemma wf_fresh d p q :
  msgs_wf d → bseq (d_msgs d) < q < 2 ^ 64 → bget (d_msgs d) (msgKey p q) = None.
Proof.
  intros Hwf Hq. destruct (bget _ _) as [r|] eqn:Hg; [|done].
  apply wf_row in Hg as (m & -> & Hk & _ & Hs & _); [|done].
  apply msgKey_seq in Hk; [|lia|lia]. lia.
Qed.

Lemma wf_add d d' m k :
  msgs_wf d → no_nul (m_Peer m) → put_error k = None → bget (d_idx d) (m_ID m) = None →
  m_Seq m = bseq (d_msgs d) + 1 → m_Seq m < 2 ^ 64 - 1 → k = msgKey (m_Peer m) (m_Seq m) →
  d_msgs d' = bset (bnext (d_msgs d)) k (json m) →
  d_idx d' = bset (d_idx d) (m_ID m) k →
  d_outbox d' = (if undelivered m then bset (d_outbox d) (m_ID m) k else d_outbox d) →
  msgs_wf d'.
Proof.
  intros Hwf Hnn Hpe Hi Hq Hlt Hk Em Ei Eo. pose proof (wf_seq _ Hwf).
  assert (Hfr : bget (d_msgs d) k = None) by (subst k; apply wf_fresh; [done|lia]).
  assert (Hns : bseq (d_msgs d') = bseq (d_msgs d) + 1).
  { rewrite Em, bseq_set, bseq_next, uint64_id; lia. }
  assert (Hget : ∀ k', bget (d_msgs d') k' = if decide (k = k') then Some (json m) else bget (d_msgs d) k').
  { intros k'. by rewrite Em, bget_set, bget_next. }
  split.
  - intros k' r. rewrite Hget, Hns, Ei. case_decide as Hd.
    + intros [= <-]. exists m. subst k'. rewrite bget_set_eq. split_and!; auto; lia.
    + intros (m' & -> & Hk' & Hi' & Hs' & Hn' & Hp')%wf_row; [|done]. exists m'.
      rewrite bget_set_ne by congruence. split_and!; auto; lia.
  - intros id k'. rewrite Hget, Ei, bget_set. case_decide as Hd.
    + intros [= <-]. exists m. by rewrite decide_True.
    + intros (m' & Hm' & <-)%wf_idx; [|done]. exists m'. by rewrite decide_False by congruence.
  - intros id k'. rewrite Hget, Eo.
    assert (Hold : ∀ id', bget (d_outbox d) id' = Some k' ↔
      k ≠ k' ∧ ∃ m0, bget (d_msgs d) k' = Some (json m0) ∧ m_ID m0 = id' ∧ undelivered m0 = true).
    { intros id'. rewrite wf_outbox by done. split; [|by intros [_ ?]].
      intros (m0 & Hm0 & ?). split; [congruence|by exists m0]. }
    assert (Hno : bget (d_outbox d) (m_ID m) = None).
    { destruct (bget (d_outbox d) (m_ID m)) as [k0|] eqn:E; [|done].
      apply wf_outbox in E as (m0 & Hm0 & Hid & _); [|done].
      apply wf_get in Hm0 as (_ & Hi0 & _); [|done]. congruence. }
    destruct (undelivered m) eqn:Hu; [rewrite bget_set; case_decide as Hd|].
    + subst id. case_decide as Hkk; [subst k'; split; [by exists m|done]|].
      split; [congruence|]. intros (m0 & Hm0 & Hid & _).
      apply wf_get in Hm0 as (_ & Hi0 & _); [|done]. congruence.
    + rewrite Hold. case_decide as Hkk; [|by split; [intros [_ ?]|]].
      split; [by intros [? _]|]. intros (m0 & [= <-] & ? & _). done.
    + rewrite Hold. case_decide as Hkk; [|by split; [intros [_ ?]|]].
      split; [by intros [? _]|]. intros (m0 & [= <-] & _ & ?). congruence.
  - intros k1 k2 m1 m2. rewrite !Hget.
    assert (Hle : ∀ k0 m0, bget (d_msgs d) k0 = Some (json m0) → m_Seq m0 <= bseq (d_msgs d)).
    { intros k0 m0 Hm0%wf_get; [naive_solver lia|done]. }
    do 2 case_decide; intros Ha Hb Hs; simplify_eq; auto.
    + apply Hle in Hb. lia.
    + apply Hle in Ha. lia.
    + by eapply wf_uniq.
  - lia.
Qed.

(** Replacing a row by one with the same identity. *)
Lemma wf_put d d' m m' k :
  msgs_wf d → bget (d_msgs d) k = Some (json m) →
  m_ID m' = m_ID m → m_Peer m' = m_Peer m → m_Seq m' = m_Seq m →
  d_msgs d' = bset (d_msgs d) k (json m') → d_idx d' = d_idx d →
  (d_outbox d' = d_outbox d ∧ undelivered m' = undelivered m
   ∨ d_outbox d' = bdel (d_outbox d) (m_ID m) ∧ undelivered m' = false) →
  msgs_wf d'.
Proof.
  intros Hwf Hg Hid Hp Hs Em Ei Eo. pose proof (wf_get _ _ _ Hwf Hg) as (Hk & Hi & Hq & Hnn & Hpe).
  assert (Hns : bseq (d_msgs d') = bseq (d_msgs d)) by by rewrite Em, bseq_set.
  assert (Hget : ∀ k', bget (d_msgs d') k' = if decide (k = k') then Some (json m') else bget (d_msgs d) k').
  { intros k'. by rewrite Em, bget_set. }
  split.
  - intros k' r. rewrite Hget, Hns, Ei. case_decide as Hd.
    + intros [= <-]. exists m'. rewrite Hid, Hp, Hs, <- Hd. auto 7.
    + intros (m0 & -> & ?)%wf_row; eauto.
  - intros id k'. rewrite Hget, Ei. intros (m0 & Hm0 & <-)%wf_idx; [|done].
    case_decide as Hd; [|by exists m0]. exists m'. split; [done|]. congruence.
  - intros id k'. rewrite Hget. destruct Eo as [[-> Hu]|[-> Hu]].
    + rewrite wf_outbox by done. case_decide as Hd; [|done]. subst k'. rewrite Hg.
      by split; intros (m0 & [= <-] & ? & ?); eexists; (split; [done|split; congruence]).
    + rewrite bget_del. case_decide as Hd.
      * split; [done|]. intros (m0 & Hm0 & Hid0 & Hu0). case_decide as Hkk; [congruence|].
        apply wf_get in Hm0 as (_ & Hi0 & _); [|done]. congruence.
      * rewrite wf_outbox by done. case_decide as Hkk; [|done]. subst k'. rewrite Hg.
        split; intros (m0 & [= <-] & ? & ?); congruence.
  - intros k1 k2 m1 m2. rewrite !Hget.
    do 2 case_decide; intros Ha Hb Hss; simplify_eq; auto; eapply wf_uniq; eauto; congruence.
  - rewrite Hns. by eapply wf_seq.
Qed.

(** Removing a row from the three buckets. *)
Lemma wf_del d d' m k :
  msgs_wf d → bget (d_msgs d) k = Some (json m) →
  d_msgs d' = bdel (d_msgs d) k → d_idx d' = bdel (d_idx d) (m_ID m) →
  d_outbox d' = bdel (d_outbox d) (m_ID m) → msgs_wf d'.
Proof.
  intros Hwf Hg Em Ei Eo. pose proof (wf_get _ _ _ Hwf Hg) as (Hk & Hi & Hq & Hnn & Hpe).
  assert (Hns : bseq (d_msgs d') = bseq (d_msgs d)) by by rewrite Em, bseq_del.
  split; [| | | |rewrite Hns; by eapply wf_seq]; rewrite ?Hns, ?Em, ?Ei, ?Eo.
  - intros k' r. rewrite bget_del. case_decide as Hd; [done|].
    intros (m0 & -> & Hk0 & Hi0 & Hs0 & Hn0 & Hp0)%wf_row; [|done]. exists m0.
    rewrite bget_del_ne by congruence. auto 7.
  - intros id k'. rewrite !bget_del. case_decide as Hd; [done|].
    intros (m0 & Hm0 & <-)%wf_idx; [|done].
    case_decide as Hkk; [congruence|]. by exists m0.
  - intros id k'. rewrite !bget_del. destruct (decide (m_ID m = id)) as [<-|Hd].
    + split; [done|]. intros (m0 & Hm0 & Hid0 & _). case_decide as Hkk; [done|].
      apply wf_get in Hm0 as (_ & Hi0 & _); [|done]. congruence.
    + rewrite wf_outbox by done. case_decide as Hkk; [|done]. subst k'.
      split; [|by intros (m0 & ? & _)]. intros (m0 & Hm0 & Hid0 & _). congruence.
  - intros k1 k2 m1 m2. rewrite !bget_del. do 2 case_decide; try done. by eapply wf_uniq.
Qed.
End invariant.
