(* ===== verification/MessageLog.v ===== *)
(** * The message store refines a list (specification of StoreMessages.v)

    What the three message buckets promise the rest of the program: a list of
    messages in sequence order with distinct identifiers.  [msg_log] reads the
    list off a store; [spec_op] says what each operation does to it and what
    it returns; the theorems show that the transactions over buckets do that. *)

From stdpp Require Import sorting.
From S2P Require Import Prelude GoStrings Utf8 Proto Identity Base64 Crypto Bolt StoreData.
From S2P Require Import StoreCore StoreMessages.

(** ** The specification *)

Definition find_id (id : string) (l : list Message) : option Message :=
  head (filter (λ m, m_ID m = id) l).

Definition update_id (id : string) (f : Message → Message) (l : list Message) : list Message :=
  (λ m, if decide (m_ID m = id) then f m else m) <$> l.

Definition remove_id (id : string) (l : list Message) : list Message :=
  filter (λ m, m_ID m ≠ id) l.

(** The operations that change the log, with their random reads. *)
Inductive msg_op :=
| OpAdd (m : Message) (rnd : option string)
| OpMark (peer id : string)
| OpAttempt (id : string) (now : Z)
| OpDeleteFromOutbox (id : string)
| OpDelete (id : string)
| OpDeleteAll
| OpPrune (cutoff : Z).

(** What they return. *)
Inductive msg_res :=
| RMsg (r : result (Message * bool))
| RUnit (r : result unit)
| RCount (r : result Z).

Section spec.
Context `{UnicodeTables}.

Definition not_found : error := Sentinel ErrNotFound.

(** The log and the last sequence number drawn. *)
Definition spec_op (op : msg_op) (st : list Message * Z) : msg_res * (list Message * Z) :=
  let '(l, n) := st in
  match op with
  | OpAdd m _ =>
      match find_id (m_ID m) l with
      | Some _ => (RMsg (Ok (zero_message, true)), st)
      | None => let m := set_Seq (n + 1) m in (RMsg (Ok (m, false)), (l ++ [m], n + 1))
      end
  | OpMark peer id =>
      match find_id id l with
      | None => (RMsg (Err not_found), st)
      | Some m =>
          if negb (m_Dir m =s? DirOut) || negb (EqualFold (m_Peer m) peer)
          then (RMsg (Err not_found), st) else
          if m_Status m =s? StatusDelivered then (RMsg (Ok (m, false)), st) else
          (RMsg (Ok (set_Status StatusDelivered m, true)),
           (update_id id (set_Status StatusDelivered) l, n))
      end
  | OpAttempt id now =>
      match find_id id l with
      | None => (RMsg (Err not_found), st)
      | Some m => (RMsg (Ok (bump_attempt now m, true)), (update_id id (bump_attempt now) l, n))
      end
  | OpDeleteFromOutbox id =>
      match find_id id l with
      | Some m => if undelivered m then (RUnit (Ok tt), (remove_id id l, n))
                  else (RUnit (Err not_found), st)
      | None => (RUnit (Err not_found), st)
      end
  | OpDelete id =>
      match find_id id l with
      | Some m => (RUnit (Ok tt), (remove_id id l, n))
      | None => (RUnit (Err not_found), st)
      end
  | OpDeleteAll => (RUnit (Ok tt), ([], n))
  | OpPrune cutoff =>
      (RCount (Ok (Z.of_nat (length (filter (λ m, prune_pred cutoff m = true) l)))),
       (filter (λ m, prune_pred cutoff m = false) l, n))
  end.
End spec.

(** ** The store's log *)

Section log.
Context {B : Type → Type} `{Bolt B} `{Primitives} `{UnicodeTables}.
Implicit Types (s : Store B) (d : DB B) (m : Message).

Definition run_op (op : msg_op) s : msg_res * Store B :=
  match op with
  | OpAdd m rnd => let (r, s') := AddMessage s m rnd in (RMsg r, s')
  | OpMark peer id => let (r, s') := MarkDelivered s peer id in (RMsg r, s')
  | OpAttempt id now =>
      let (r, s') := RecordAttempt s id now in (RMsg (m ← r; Ok (m, true)), s')
  | OpDeleteFromOutbox id => let (r, s') := DeleteFromOutbox s id in (RUnit r, s')
  | OpDelete id => let (r, s') := DeleteMessage s id in (RUnit r, s')
  | OpDeleteAll => let (r, s') := DeleteAllMessages s in (RUnit r, s')
  | OpPrune cutoff => let (r, s') := Prune s cutoff in (RCount r, s')
  end.

Definition decoded s (kv : string * row Message) : option Message :=
  match kv.2 with
  | json m => match decryptMessage s m with Ok m => Some m | Err _ => None end
  | corrupt => None
  end.

Definition msg_log s : list Message :=
  sortBySeq (omap (decoded s) (bitems (d_msgs (s_db s)))).

Definition msg_state s : list Message * Z := (msg_log s, bseq (d_msgs (s_db s))).

Record msgs_inv s : Prop := {
  inv_keys : keys_ok s;
  inv_wf : msgs_wf (s_db s);
  inv_readable : msgs_readable s }.

(** What an operation's arguments must satisfy: an added message has a peer
    name without NUL, an identifier and a peer name that fit in a key, and a
    nonce was read. *)
Definition args_ok (op : msg_op) : Prop :=
  match op with
  | OpAdd m rnd =>
      no_nul (m_Peer m) ∧ 0 < slen (m_ID m) <= 32768 ∧ slen (peerKey (m_Peer m)) <= 32000
      ∧ (∃ nonce, rnd = Some nonce ∧ slen nonce = 12)
  | _ => True
  end.

Definition seq_lt (a b : Message) : Prop := m_Seq a < m_Seq b.

#[export] Instance seq_lt_irrefl : Irreflexive seq_lt.
Proof. unfold seq_lt. intros a. unfold complement. lia. Qed.
#[export] Instance seq_lt_trans : Transitive seq_lt.
Proof. unfold seq_lt. intros a b c. lia. Qed.

(** *** Rows and their decryption *)

Lemma decryptMessage_ok s m m' :
  decryptMessage s m = Ok m' ↔ ∃ body, decryptString s (m_Body m) = Ok body ∧ m' = set_Body body m.
Proof. unfold decryptMessage. destruct (decryptString s (m_Body m)); naive_solver. Qed.

Lemma decryptMessage_fields s m m' :
  decryptMessage s m = Ok m' →
  m_ID m' = m_ID m ∧ m_Seq m' = m_Seq m ∧ m_Peer m' = m_Peer m ∧ m_Dir m' = m_Dir m
  ∧ m_Status m' = m_Status m ∧ m_TS m' = m_TS m.
Proof. by intros (b & _ & ->)%decryptMessage_ok. Qed.

Lemma decryptMessage_undelivered s m m' :
  decryptMessage s m = Ok m' → undelivered m' = undelivered m.
Proof. by intros (b & _ & ->)%decryptMessage_ok. Qed.

Lemma readable_row s k m :
  msgs_inv s → bget (d_msgs (s_db s)) k = Some (json m) → ∃ m', decryptMessage s m = Ok m'.
Proof.
  intros [_ _ Hr] Hg. apply Hr in Hg. destruct (decryptString s (m_Body m)) as [b|] eqn:E; [|done].
  exists (set_Body b m). apply decryptMessage_ok. eauto.
Qed.

Lemma decoded_items s m :
  m ∈ omap (decoded s) (bitems (d_msgs (s_db s))) ↔
  ∃ k m0, bget (d_msgs (s_db s)) k = Some (json m0) ∧ decryptMessage s m0 = Ok m.
Proof.
  rewrite list_elem_of_omap. split.
  - intros ([k r] & Hin & Hd). apply bitems_get in Hin. unfold decoded in Hd. cbn in Hd.
    destruct r as [m0|]; [|done]. destruct (decryptMessage s m0) eqn:E; [|done].
    injection Hd as <-. eauto.
  - intros (k & m0 & Hg & Hd). exists (k, json m0). rewrite bitems_get. split; [done|].
    unfold decoded. cbn. by rewrite Hd.
Qed.

Lemma msg_log_elem s m :
  m ∈ msg_log s ↔
  ∃ k m0, bget (d_msgs (s_db s)) k = Some (json m0) ∧ decryptMessage s m0 = Ok m.
Proof. unfold msg_log, sortBySeq. by rewrite sort_loop_Permutation, decoded_items. Qed.

Lemma decoded_seq_NoDup s l :
  msgs_wf (s_db s) → NoDup l.*1 → l ⊆ bitems (d_msgs (s_db s)) →
  NoDup (m_Seq <$> omap (decoded s) l).
Proof.
  intros Hwf. induction l as [|[k r] l IH]; intros Hnd Hsub; [constructor|].
  apply NoDup_cons in Hnd as [Hk Hnd].
  assert (Hl : NoDup (m_Seq <$> omap (decoded s) l)) by (apply IH; [done|set_solver]).
  cbn [omap list_omap]. unfold decoded at 1. cbn.
  destruct r as [m0|]; [|done]. destruct (decryptMessage s m0) as [m|] eqn:Hd; [|done].
  cbn. constructor; [|done]. intros (m' & Hs & Hin)%list_elem_of_fmap_1.
  apply list_elem_of_omap in Hin as ([k' r'] & Hin & Hd'). unfold decoded in Hd'. cbn in Hd'.
  destruct r' as [m0'|]; [|done]. destruct (decryptMessage s m0') as [m1|] eqn:Hd1; [|done].
  injection Hd' as ->. apply Hk. apply decryptMessage_fields in Hd as (_ & Hd & _), Hd1 as (_ & Hd1 & _).
  assert (k = k') as ->; [|by apply (list_elem_of_fmap_2 fst _ (k', json m0'))].
  eapply (wf_uniq _ Hwf); [apply bitems_get, Hsub; by left|apply bitems_get, Hsub; by right|congruence].
Qed.

Lemma sorted_strict l :
  StronglySorted (not_less (λ a b, m_Seq a <? m_Seq b)) l → NoDup (m_Seq <$> l) →
  StronglySorted seq_lt l.
Proof.
  induction 1 as [|m l Hl IH Ha]; intros Hnd; [constructor|].
  apply NoDup_cons in Hnd as [Hn Hnd]. constructor; [by apply IH|].
  rewrite Forall_forall in *. intros m' Hin. specialize (Ha _ Hin).
  unfold not_less in Ha. unfold seq_lt.
  assert (m_Seq m ≠ m_Seq m') by (intros He; apply Hn; rewrite He; by apply list_elem_of_fmap_2).
  lia.
Qed.

Lemma msg_log_sorted s : msgs_wf (s_db s) → StronglySorted seq_lt (msg_log s).
Proof.
  intros Hwf. apply sorted_strict.
  - apply sort_loop_sorted; unfold not_less; intros; lia.
  - unfold msg_log, sortBySeq. rewrite sort_loop_Permutation.
    apply decoded_seq_NoDup; auto with chirp.
Qed.

(** The log is the only list in sequence order with the store's messages. *)
Lemma msg_log_unique s l :
  msgs_wf (s_db s) → StronglySorted seq_lt l → (∀ m, m ∈ l ↔ m ∈ msg_log s) → msg_log s = l.
Proof.
  intros Hwf Hl He. symmetry. eapply StronglySorted_ext; try done; try apply _.
  by apply msg_log_sorted.
Qed.
End log.

(** ** How the log changes with the rows *)

Section changes.
Context {B : Type → Type} `{Bolt B} `{Primitives} `{UnicodeTables}.
Implicit Types (s : Store B) (d : DB B) (m : Message).

Lemma log_id_inj s m1 m2 :
  msgs_inv s → m1 ∈ msg_log s → m2 ∈ msg_log s → m_ID m1 = m_ID m2 → m1 = m2.
Proof.
  intros [_ Hwf _] (k1 & r1 & Hg1 & Hd1)%msg_log_elem (k2 & r2 & Hg2 & Hd2)%msg_log_elem Hid.
  pose proof (decryptMessage_fields _ _ _ Hd1) as (Hi1 & _).
  pose proof (decryptMessage_fields _ _ _ Hd2) as (Hi2 & _).
  pose proof (wf_get _ _ _ Hwf Hg1) as (_ & Hx1 & _).
  pose proof (wf_get _ _ _ Hwf Hg2) as (_ & Hx2 & _).
  assert (k1 = k2) as -> by congruence. congruence.
Qed.

Lemma log_seq_inj s m1 m2 :
  msgs_inv s → m1 ∈ msg_log s → m2 ∈ msg_log s → m_Seq m1 = m_Seq m2 → m1 = m2.
Proof.
  intros [_ Hwf _] (k1 & r1 & Hg1 & Hd1)%msg_log_elem (k2 & r2 & Hg2 & Hd2)%msg_log_elem Hq.
  pose proof (decryptMessage_fields _ _ _ Hd1) as (_ & Hi1 & _).
  pose proof (decryptMessage_fields _ _ _ Hd2) as (_ & Hi2 & _).
  assert (k1 = k2) as -> by (eapply (wf_uniq _ Hwf); [done|done|congruence]). congruence.
Qed.

Lemma find_id_Some s id m :
  msgs_inv s → find_id id (msg_log s) = Some m ↔ m ∈ msg_log s ∧ m_ID m = id.
Proof.
  intros Hs. unfold find_id. split.
  - intros Hh%head_Some_elem_of. apply list_elem_of_filter in Hh. by destruct Hh.
  - intros [Hm Hid]. assert (Hf : m ∈ filter (λ m, m_ID m = id) (msg_log s))
      by by apply list_elem_of_filter.
    destruct (filter _ _) as [|m' l] eqn:E; [by apply not_elem_of_nil in Hf|]. cbn. f_equal.
    assert (m' ∈ filter (λ m, m_ID m = id) (msg_log s)) as [Hi' Hm']%list_elem_of_filter
      by (rewrite E; by left).
    eapply log_id_inj; try done. congruence.
Qed.

Lemma find_id_None s id :
  msgs_inv s → find_id id (msg_log s) = None ↔ bget (d_idx (s_db s)) id = None.
Proof.
  intros Hs. pose proof Hs as [_ Hwf _]. split.
  - intros Hn. destruct (bget _ id) as [k|] eqn:E; [|done].
    apply wf_idx in E as (m0 & Hg & Hid); [|done].
    destruct (readable_row _ _ _ Hs Hg) as [m Hd].
    enough (find_id id (msg_log s) = Some m) by congruence.
    apply find_id_Some; [done|]. split; [apply msg_log_elem; eauto|].
    apply decryptMessage_fields in Hd. naive_solver.
  - intros Hn. destruct (find_id id (msg_log s)) as [m|] eqn:E; [|done].
    apply find_id_Some in E as [(k & m0 & Hg & Hd)%msg_log_elem Hid]; [|done].
    apply wf_get in Hg as (_ & Hi & _); [|done].
    apply decryptMessage_fields in Hd as (Hd & _). congruence.
Qed.

(** [loadByID] finds the row of the message with that identifier. *)
Lemma loadByID_log s id :
  msgs_inv s →
  find_id id (msg_log s) = None ∧ loadByID id (s_db s) = Err not_found ∨
  ∃ k m0 m, find_id id (msg_log s) = Some m ∧ decryptMessage s m0 = Ok m ∧ m_ID m0 = id
    ∧ bget (d_msgs (s_db s)) k = Some (json m0) ∧ put_error k = None
    ∧ loadByID id (s_db s) = Ok (m0, k, s_db s).
Proof.
  intros Hs. pose proof Hs as [_ Hwf _]. unfold loadByID. tx_unfold.
  destruct (bget (d_idx (s_db s)) id) as [k|] eqn:E; [right|left].
  - apply wf_idx in E as (m0 & Hg & Hid); [|done]. rewrite Hg. cbn [unmarshal].
    destruct (readable_row _ _ _ Hs Hg) as [m Hd]. exists k, m0, m.
    pose proof (wf_get _ _ _ Hwf Hg) as (_ & _ & _ & _ & ?).
    split_and!; try done. apply find_id_Some; [done|]. split; [apply msg_log_elem; eauto|].
    apply decryptMessage_fields in Hd. naive_solver.
  - split; [by apply find_id_None|done].
Qed.

Lemma msg_log_ext s d l :
  msgs_wf d → StronglySorted seq_lt l →
  (∀ m, m ∈ l ↔ ∃ k m0, bget (d_msgs d) k = Some (json m0) ∧ decryptMessage s m0 = Ok m) →
  msg_log (with_db s d) = l.
Proof. intros Hwf Hl He. apply msg_log_unique; [done|done|]. intros m. by rewrite msg_log_elem. Qed.

(** A row replaced by [f] of it, where [f] neither reads nor writes the
    fields that locate the message nor its body. *)
Definition row_update (f : Message → Message) : Prop :=
  (∀ m, m_ID (f m) = m_ID m ∧ m_Peer (f m) = m_Peer m ∧ m_Seq (f m) = m_Seq m
        ∧ m_Body (f m) = m_Body m) ∧ (∀ b m, f (set_Body b m) = set_Body b (f m)).

Lemma decrypt_update s f m0 m :
  row_update f → decryptMessage s m0 = Ok m → decryptMessage s (f m0) = Ok (f m).
Proof.
  intros [Hf Hb] (b & Hd & ->)%decryptMessage_ok. apply decryptMessage_ok.
  exists b. destruct (Hf m0) as (_ & _ & _ & ->). by rewrite Hb.
Qed.

Lemma log_put s d' k m0 id f :
  msgs_inv s → row_update f → bget (d_msgs (s_db s)) k = Some (json m0) → m_ID m0 = id →
  d_msgs d' = bset (d_msgs (s_db s)) k (json (f m0)) → msgs_wf d' →
  msg_log (with_db s d') = update_id id f (msg_log s) ∧ msgs_inv (with_db s d').
Proof.
  intros Hs Hf Hg <- Em Hwf'. pose proof Hs as [Hkeys Hwf Hread].
  assert (Hget : ∀ k', bget (d_msgs d') k' = if decide (k = k') then Some (json (f m0))
    else bget (d_msgs (s_db s)) k') by (intros; by rewrite Em, bget_set).
  destruct (readable_row _ _ _ Hs Hg) as [m Hd].
  split; [apply msg_log_ext; [done| |]|].
  - unfold update_id. eapply StronglySorted_fmap; [|by apply msg_log_sorted].
    intros x y _ _ Hxy. unfold seq_lt in *. destruct Hf as [Hf _].
    pose proof (Hf x). pose proof (Hf y). do 2 case_decide; naive_solver congruence.
  - intros m'. unfold update_id. rewrite list_elem_of_fmap. split.
    + intros (x & -> & Hx). pose proof Hx as (kx & x0 & Hgx & Hdx)%msg_log_elem.
      case_decide as Hid.
      * exists k, (f m0). rewrite Hget, decide_True by done. split; [done|].
        apply decrypt_update; [done|]. rewrite Hd. f_equal.
        eapply log_id_inj; [done|apply msg_log_elem; eauto|done|].
        apply decryptMessage_fields in Hd as (Hd & _). congruence.
      * exists kx, x0. rewrite Hget, decide_False; [done|]. intros ->.
        apply decryptMessage_fields in Hdx as (Hdx & _). congruence.
    + intros (kx & x0 & Hgx & Hdx). rewrite Hget in Hgx. case_decide as Hk.
      * injection Hgx as <-. exists m. rewrite (decrypt_update _ _ _ _ Hf Hd) in Hdx.
        injection Hdx as <-. rewrite decide_True by (by apply decryptMessage_fields in Hd as (? & _)).
        split; [done|]. apply msg_log_elem; eauto.
      * exists m'. rewrite decide_False; [split; [done|apply msg_log_elem; eauto]|].
        intros Hid. apply decryptMessage_fields in Hdx as (Hdx & _).
        apply wf_get in Hg as (_ & Hi1 & _), Hgx as (_ & Hi2 & _); [|done..]. congruence.
  - split; [done|done|]. intros k' m1. cbn. rewrite Hget. case_decide.
    + intros [= <-]. apply decrypt_update with (f := f) in Hd; [|done].
      apply decryptMessage_ok in Hd as (b & Hb & _). change (decryptString (with_db s d')) with (decryptString s).
      by rewrite Hb.
    + apply Hread.
Qed.

(** Rows removed. *)
Lemma log_remove s d' P `{!∀ m, Decision (P m)} :
  msgs_inv s → msgs_wf d' →
  (∀ k m0 m, bget (d_msgs (s_db s)) k = Some (json m0) → decryptMessage s m0 = Ok m →
    bget (d_msgs d') k = if decide (P m) then Some (json m0) else None) →
  (∀ k, bget (d_msgs (s_db s)) k = None → bget (d_msgs d') k = None) →
  msg_log (with_db s d') = filter P (msg_log s) ∧ msgs_inv (with_db s d').
Proof.
  intros Hs Hwf' Hget Hnone. pose proof Hs as [Hkeys Hwf Hread].
  assert (Hback : ∀ k m0, bget (d_msgs d') k = Some (json m0) →
    ∃ m, bget (d_msgs (s_db s)) k = Some (json m0) ∧ decryptMessage s m0 = Ok m ∧ P m).
  { intros k m0 Hg. destruct (bget (d_msgs (s_db s)) k) as [r|] eqn:E.
    2: { apply Hnone in E. congruence. }
    pose proof (wf_row _ Hwf _ _ E) as (m1 & -> & _).
    destruct (readable_row _ _ _ Hs E) as [m Hd]. rewrite (Hget _ _ _ E Hd) in Hg.
    case_decide; naive_solver. }
  split; [apply msg_log_ext; [done| |]|].
  - by apply StronglySorted_filter, msg_log_sorted.
  - intros m. rewrite list_elem_of_filter, msg_log_elem. split.
    + intros [HP (k & m0 & Hg & Hd)]. exists k, m0. rewrite (Hget _ _ _ Hg Hd).
      by rewrite decide_True.
    + intros (k & m0 & Hg & Hd). apply Hback in Hg as (m' & Hg & Hd' & HP).
      assert (m' = m) as -> by congruence. eauto.
  - split; [done|done|]. intros k m0 (m & Hg & _)%Hback. by apply Hread in Hg.
Qed.
End changes.

(** ** Every operation does what the specification says *)

Section refinement.
Context {B : Type → Type} `{Bolt B} `{Primitives} `{UnicodeTables}.
Implicit Types (s : Store B) (d : DB B) (m : Message).

(** The operation [op] run on [s] does what [spec_op] does to the log. *)
Definition implements (op : msg_op) s : Prop :=
  let '(r, s') := run_op op s in
  r = (spec_op op (msg_state s)).1 ∧ msg_state s' = (spec_op op (msg_state s)).2 ∧ msgs_inv s'.

Lemma msg_state_db s d l n :
  msg_log (with_db s d) = l → bseq (d_msgs d) = n → msg_state (with_db s d) = (l, n).
Proof. by intros <- <-. Qed.

Lemma with_db_self s : with_db s (s_db s) = s.
Proof. by destruct s. Qed.

Lemma Update_fail {A} s (f : Tx B A) e : f (s_db s) = Err e → Update s f = (Err e, s).
Proof. intros Hf. unfold Update, run_update. rewrite Hf. by rewrite with_db_self. Qed.

Lemma Update_done {A} s (f : Tx B A) a d :
  f (s_db s) = Ok (a, d) → Update s f = (Ok a, with_db s d).
Proof. intros Hf. unfold Update, run_update. by rewrite Hf. Qed.

Lemma msg_log_bound s m : msgs_inv s → m ∈ msg_log s → 1 <= m_Seq m <= bseq (d_msgs (s_db s)).
Proof.
  intros [_ Hwf _] (k & m0 & Hg & Hd)%msg_log_elem.
  apply decryptMessage_fields in Hd as (_ & -> & _).
  by apply wf_get in Hg as (_ & _ & ? & _).
Qed.

Lemma log_add s d' m m0 :
  msgs_inv s → msgs_wf d' → m_Seq m = bseq (d_msgs (s_db s)) + 1 →
  m_Seq m < 2 ^ 64 → decryptMessage s m0 = Ok m →
  d_msgs d' = bset (bnext (d_msgs (s_db s))) (msgKey (m_Peer m0) (m_Seq m0)) (json m0) →
  msg_log (with_db s d') = msg_log s ++ [m] ∧ msgs_inv (with_db s d').
Proof.
  intros Hs Hwf' Hq Hlt Hd Em. pose proof Hs as [Hkeys Hwf Hread].
  set (k := msgKey (m_Peer m0) (m_Seq m0)) in *.
  assert (Hget : ∀ k', bget (d_msgs d') k' = if decide (k = k') then Some (json m0)
    else bget (d_msgs (s_db s)) k') by (intros; by rewrite Em, bget_set, bget_next).
  assert (Hfr : bget (d_msgs (s_db s)) k = None).
  { apply wf_fresh; [done|]. apply decryptMessage_fields in Hd. naive_solver lia. }
  split; [apply msg_log_ext; [done| |]|].
  - apply StronglySorted_app_2; [|by apply msg_log_sorted|repeat constructor].
    intros x y Hx ->%list_elem_of_singleton. apply msg_log_bound in Hx; [|done].
    unfold seq_lt. lia.
  - intros m'. rewrite elem_of_app, list_elem_of_singleton, msg_log_elem. split.
    + intros [(k' & m1 & Hg & Hd1)| ->].
      * exists k', m1. rewrite Hget, decide_False by congruence. done.
      * exists k, m0. by rewrite Hget, decide_True.
    + intros (k' & m1 & Hg & Hd1). rewrite Hget in Hg. case_decide; [|left; eauto].
      right. congruence.
  - split; [done|done|]. intros k' m1. cbn. rewrite Hget. case_decide; [|by apply Hread].
    intros [= <-]. apply decryptMessage_ok in Hd as (b & Hb & _).
    change (decryptString (with_db s d')) with (decryptString s). by rewrite Hb.
Qed.

Lemma key_fits p q : slen (peerKey p) <= 32000 → put_error (msgKey p q) = None.
Proof.
  intros Hp. apply put_error_none. unfold msgKey. rewrite !slen_app.
  pose proof (slen_nonneg (peerKey p)).
  change (slen (of_bytes [0])) with 1. unfold slen at 2 4. rewrite be_put64_length. lia.
Qed.

(** The three buckets of the messages, replaced. *)
Definition msgs_db d (ms : B (row Message)) (ix ob : B string) : DB B :=
  bupd bOutbox ob (bupd bIdx ix (bupd bMsgs ms d)).

Lemma add_tx_fresh d m :
  put_error (m_ID m) = None → put_error (msgKey (m_Peer m) (bseq (bnext (d_msgs d)))) = None →
  bget (d_idx d) (m_ID m) = None →
  let q := bseq (bnext (d_msgs d)) in
  let k := msgKey (m_Peer m) q in
  add_tx m d = Ok (Some (set_Seq q m),
    msgs_db d (bset (bnext (d_msgs d)) k (json (set_Seq q m))) (bset (d_idx d) (m_ID m) k)
      (if undelivered m then bset (d_outbox d) (m_ID m) k else d_outbox d)).
Proof.
  intros Hid Hk Hi. unfold add_tx. tx_unfold. rewrite Hi. cbv zeta. cbn [m_Peer m_ID set_Seq].
  rewrite Hk, Hid.
  change (undelivered (set_Seq (bseq (bnext (d_msgs d))) m)) with (undelivered m).
  by destruct (undelivered m).
Qed.

Lemma add_implements m rnd s :
  msgs_inv s → args_ok (OpAdd m rnd) → bseq (d_msgs (s_db s)) + 1 < 2 ^ 64 - 1 →
  implements (OpAdd m rnd) s.
Proof.
  intros Hs (Hnn & Hid & Hp & (nonce & -> & Hn)) Hq. pose proof Hs as [Hkeys Hwf Hread].
  unfold implements, run_op, AddMessage.
  destruct (encryptString_total s nonce (m_Body m) Hkeys) as [enc Henc]. rewrite Henc.
  pose proof (decryptString_encryptString _ _ _ _ Hkeys Hn Henc) as Hdec.
  cbn [spec_op msg_state]. destruct (find_id (m_ID m) (msg_log s)) as [m1|] eqn:Hf.
  - rewrite (Update_done s _ None (s_db s)).
    2: { unfold add_tx. tx_unfold. cbn [m_ID set_Body].
         destruct (bget (d_idx (s_db s)) (m_ID m)) eqn:E; [done|].
         apply find_id_None in E; [|done]. congruence. }
    rewrite with_db_self. cbn. done.
  - apply find_id_None in Hf; [|done].
    pose proof (wf_seq _ Hwf) as Hb.
    assert (Hnext : bseq (bnext (d_msgs (s_db s))) = bseq (d_msgs (s_db s)) + 1)
      by (rewrite bseq_next, uint64_id; lia).
    rewrite (Update_done s _ _ _ (add_tx_fresh (s_db s) (set_Body enc m)
      (proj2 (put_error_none _) Hid) (key_fits _ _ Hp) Hf)).
    rewrite Hnext. cbn [default from_option m_ID m_Peer set_Body].
    set (q := bseq (d_msgs (s_db s)) + 1) in *.
    set (m' := set_Seq q (set_Body enc m)).
    assert (Hdm : decryptMessage s m' = Ok (set_Seq q m)).
    { apply decryptMessage_ok. exists (m_Body m). split; [done|]. by destruct m. }
    set (d' := msgs_db _ _ _ _).
    assert (Hwf' : msgs_wf d').
    { eapply (wf_add (s_db s) d' m' (msgKey (m_Peer m) q)); try done.
      by apply key_fits. }
    destruct (log_add s d' (set_Seq q m) m') as [Hlog Hinv]; try done; [cbn; lia|].
    change (decryptMessage (with_db s d')) with (decryptMessage s).
    unfold id. rewrite Hdm. split_and!; [done| |done]. apply msg_state_db; [done|].
    cbn. by rewrite bseq_set.
Qed.

Lemma status_update st : row_update (set_Status st).
Proof. by split. Qed.

Lemma attempt_update now : row_update (bump_attempt now).
Proof. by split. Qed.

Lemma mark_implements peer id s : msgs_inv s → implements (OpMark peer id) s.
Proof.
  intros Hs. pose proof Hs as [Hkeys Hwf Hread]. unfold implements, run_op, MarkDelivered.
  cbn [spec_op msg_state].
  destruct (loadByID_log s id Hs) as [[-> Hl]|(k & m0 & m & -> & Hd & Hid & Hg & Hp & Hl)].
  { rewrite (Update_fail s _ not_found); [done|]. unfold mark_tx. tx_unfold. by rewrite Hl. }
  pose proof (decryptMessage_fields _ _ _ Hd) as (_ & _ & -> & -> & -> & _).
  destruct (negb (m_Dir m0 =s? DirOut) || negb (EqualFold (m_Peer m0) peer)) eqn:E1.
  { rewrite (Update_fail s _ not_found); [done|]. unfold mark_tx. tx_unfold. by rewrite Hl, E1. }
  destruct (m_Status m0 =s? StatusDelivered) eqn:E2.
  { rewrite (Update_done s _ (m0, false) (s_db s)).
    - rewrite with_db_self. cbn. by rewrite Hd.
    - unfold mark_tx. tx_unfold. by rewrite Hl, E1, E2. }
  set (f := set_Status StatusDelivered) in *.
  set (d' := msgs_db (s_db s) (bset (d_msgs (s_db s)) k (json (f m0))) (d_idx (s_db s))
               (bdel (d_outbox (s_db s)) id)).
  rewrite (Update_done s _ (f m0, true) d').
  2: { unfold mark_tx. tx_unfold. rewrite Hl, E1, E2. by rewrite Hp. }
  destruct (log_put s d' k m0 id f) as [Hlog Hinv]; try done.
  { eapply (wf_put (s_db s) d' m0 (f m0)); try done. right.
    split; [by rewrite Hid|]. unfold undelivered, f. cbn. by rewrite andb_false_r. }
  change (decryptMessage (with_db s d')) with (decryptMessage s). cbn [mbind result_bind].
  rewrite (decrypt_update s f m0 m (status_update _) Hd).
  split_and!; [done| |done]. apply msg_state_db; [done|]. cbn. by rewrite bseq_set.
Qed.

Lemma attempt_implements id now s : msgs_inv s → implements (OpAttempt id now) s.
Proof.
  intros Hs. pose proof Hs as [Hkeys Hwf Hread]. unfold implements, run_op, RecordAttempt.
  cbn [spec_op msg_state].
  destruct (loadByID_log s id Hs) as [[-> Hl]|(k & m0 & m & -> & Hd & Hid & Hg & Hp & Hl)].
  { rewrite (Update_fail s _ not_found); [done|]. unfold attempt_tx. tx_unfold. by rewrite Hl. }
  set (f := bump_attempt now) in *.
  set (d' := bupd bMsgs (bset (d_msgs (s_db s)) k (json (f m0))) (s_db s)).
  rewrite (Update_done s _ (f m0) d').
  2: { unfold attempt_tx. tx_unfold. rewrite Hl. by rewrite Hp. }
  destruct (log_put s d' k m0 id f) as [Hlog Hinv]; try done.
  { eapply (wf_put (s_db s) d' m0 (f m0)); try done. by left. }
  change (decryptMessage (with_db s d')) with (decryptMessage s). cbn [mbind result_bind].
  rewrite (decrypt_update s f m0 m (attempt_update _) Hd).
  split_and!; [done| |done]. apply msg_state_db; [done|]. cbn. by rewrite bseq_set.
Qed.

(** *** Deletions *)

Lemma log_del s d' k m0 :
  msgs_inv s → bget (d_msgs (s_db s)) k = Some (json m0) →
  d_msgs d' = bdel (d_msgs (s_db s)) k → d_idx d' = bdel (d_idx (s_db s)) (m_ID m0) →
  d_outbox d' = bdel (d_outbox (s_db s)) (m_ID m0) →
  msg_log (with_db s d') = remove_id (m_ID m0) (msg_log s) ∧ msgs_inv (with_db s d').
Proof.
  intros Hs Hg Em Ei Eo. pose proof Hs as [Hkeys Hwf Hread].
  apply log_remove; [done|by eapply wf_del| |].
  - intros k' m1 m Hg' Hd. rewrite Em, bget_del.
    apply decryptMessage_fields in Hd as (Hid & _).
    pose proof (wf_get _ _ _ Hwf Hg) as (_ & Hi & _).
    pose proof (wf_get _ _ _ Hwf Hg') as (_ & Hi' & _).
    do 2 case_decide; subst; congruence.
  - intros k' Hn. rewrite Em, bget_del. by case_decide.
Qed.

Lemma delete_outbox_implements id s : msgs_inv s → implements (OpDeleteFromOutbox id) s.
Proof.
  intros Hs. unfold implements, run_op, DeleteFromOutbox. cbn [spec_op msg_state].
  destruct (loadByID_log s id Hs) as [[-> Hl]|(k & m0 & m & -> & Hd & Hid & Hg & Hp & Hl)].
  { rewrite (Update_fail s _ not_found); [done|]. tx_unfold. by rewrite Hl. }
  rewrite (decryptMessage_undelivered _ _ _ Hd).
  assert (negb (m_Dir m0 =s? DirOut) || (m_Status m0 =s? StatusDelivered)
          = negb (undelivered m0)) as Hu.
  { unfold undelivered. by rewrite negb_andb, negb_involutive. }
  destruct (undelivered m0) eqn:Eu.
  - set (d' := msgs_db (s_db s) (bdel (d_msgs (s_db s)) k) (bdel (d_idx (s_db s)) id)
                 (bdel (d_outbox (s_db s)) id)).
    rewrite (Update_done s _ tt d') by (tx_unfold; by rewrite Hl, Hu).
    destruct (log_del s d' k m0) as [Hlog Hinv]; try (done || by rewrite Hid).
    rewrite Hid in Hlog. split_and!; [done| |done].
    apply msg_state_db; [done|]. cbn. by rewrite bseq_del.
  - rewrite (Update_fail s _ not_found); [done|]. tx_unfold. by rewrite Hl, Hu.
Qed.

Lemma delete_implements id s : msgs_inv s → implements (OpDelete id) s.
Proof.
  intros Hs. unfold implements, run_op, DeleteMessage. cbn [spec_op msg_state].
  destruct (loadByID_log s id Hs) as [[-> Hl]|(k & m0 & m & -> & Hd & Hid & Hg & Hp & Hl)].
  { rewrite (Update_fail s _ not_found); [done|]. tx_unfold. by rewrite Hl. }
  set (d' := msgs_db (s_db s) (bdel (d_msgs (s_db s)) k) (bdel (d_idx (s_db s)) (m_ID m0))
               (bdel (d_outbox (s_db s)) (m_ID m0))).
  rewrite (Update_done s _ tt d') by (tx_unfold; by rewrite Hl).
  destruct (log_del s d' k m0) as [Hlog Hinv]; try done.
  rewrite Hid in Hlog. split_and!; [done| |done].
  apply msg_state_db; [done|]. cbn. by rewrite bseq_del.
Qed.

(** The rows of the bucket, which all parse. *)
Definition rows_of d : list (string * Message) :=
  omap (λ kv, match kv.2 with json m => Some (kv.1, m) | corrupt => None end) (bitems (d_msgs d)).

Lemma rows_of_elem d k m : (k, m) ∈ rows_of d ↔ bget (d_msgs d) k = Some (json m).
Proof.
  unfold rows_of. rewrite list_elem_of_omap. split.
  - intros ([k' [m'|]] & Hin & Hr); cbn in Hr; simplify_eq. by apply bitems_get.
  - intros Hg. exists (k, json m). by rewrite bitems_get.
Qed.

Lemma all_rows_wf d : msgs_wf d → all_rows (bitems (d_msgs d)) = Ok (rows_of d).
Proof.
  intros Hwf. apply mapM_all_ok. intros [k r] Hin. apply bitems_get in Hin.
  apply wf_row in Hin as (m & -> & _); [|done]. by exists (k, m).
Qed.

Lemma rows_of_keys d : msgs_wf d → NoDup (rows_of d).*1.
Proof.
  intros Hwf. assert (He : (rows_of d).*1 = (bitems (d_msgs d)).*1); [|rewrite He; auto with chirp].
  unfold rows_of.
  assert (Hall : Forall (λ kv, ∃ m, kv.2 = json m) (bitems (d_msgs d))).
  { apply Forall_forall. intros [k r] Hin. apply bitems_get in Hin.
    apply wf_row in Hin as (m & -> & _); [|done]. by exists m. }
  induction Hall as [|[k r] l [m Hr] _ IH]; [done|]. cbn in *. subst r. cbn. by f_equal.
Qed.

Lemma delete_keys_wf L d :
  msgs_wf d → NoDup L.*1 →
  (∀ k id, (k, id) ∈ L → ∃ m, bget (d_msgs d) k = Some (json m) ∧ m_ID m = id) →
  ∃ d', delete_keys L d = Ok (tt, d') ∧ msgs_wf d' ∧ bseq (d_msgs d') = bseq (d_msgs d)
    ∧ (∀ k, bget (d_msgs d') k = if decide (k ∈ L.*1) then None else bget (d_msgs d) k)
    ∧ ∃ ms ix ob, d' = msgs_db d ms ix ob.
Proof.
  revert d. induction L as [|[k id] L IH]; intros d Hwf Hnd HL.
  { exists d. split_and!; try done. exists (d_msgs d), (d_idx d), (d_outbox d). by destruct d. }
  apply NoDup_cons in Hnd as [Hk Hnd]. cbn [fst] in Hk.
  destruct (HL k id) as (m & Hg & Hid); [by left|].
  set (d1 := msgs_db d (bdel (d_msgs d) k) (bdel (d_idx d) id) (bdel (d_outbox d) id)).
  assert (Hwf1 : msgs_wf d1) by (eapply (wf_del d d1 m k); try done; by rewrite Hid).
  destruct (IH d1 Hwf1 Hnd) as (d' & Hd' & Hwf' & Hs & Hget & ms & ix & ob & Hfr).
  { intros k' id' Hin. destruct (HL k' id') as (m' & Hg' & Hid'); [by right|].
    exists m'. split; [|done]. cbn. rewrite bget_del_ne; [done|]. intros ->.
    by apply Hk, (list_elem_of_fmap_2 fst _ (k', id')). }
  exists d'. split_and!.
  - cbn [delete_keys]. tx_unfold. exact Hd'.
  - done.
  - rewrite Hs. cbn. by rewrite bseq_del.
  - intros k'. rewrite Hget. change (d_msgs d1) with (bdel (d_msgs d) k).
    change (((k, id) :: L).*1) with (k :: L.*1). rewrite bget_del. pose proof (elem_of_cons L.*1 k' k). repeat case_decide; naive_solver.
  - exists ms, ix, ob. by rewrite Hfr.
Qed.

Lemma rows_count s (pred : Message → bool) :
  msgs_inv s → (∀ b m, pred (set_Body b m) = pred m) →
  length (filter (λ km, pred km.2 = true) (rows_of (s_db s)))
  = length (filter (λ m, pred m = true) (msg_log s)).
Proof.
  intros Hs Hp. pose proof Hs as [_ Hwf _].
  unfold msg_log, sortBySeq. rewrite sort_loop_Permutation. unfold rows_of.
  assert (Hall : Forall (λ kv, ∃ m m', kv.2 = json m ∧ decryptMessage s m = Ok m')
    (bitems (d_msgs (s_db s)))).
  { apply Forall_forall. intros [k r] Hin. apply bitems_get in Hin.
    pose proof (wf_row _ Hwf _ _ Hin) as (m & -> & _).
    destruct (readable_row _ _ _ Hs Hin) as [m' Hd]. eauto. }
  induction Hall as [|[k r] l (m & m' & Hr & Hd) _ IH]; [done|]. cbn in Hr. subst r.
  cbn [omap list_omap]. unfold decoded at 1. cbn [fst snd]. rewrite Hd.
  assert (pred m' = pred m) by by (apply decryptMessage_ok in Hd as (b & _ & ->)).
  destruct (pred m) eqn:E; [rewrite !filter_cons_True by (cbn; congruence)
    |rewrite !filter_cons_False by (cbn; congruence)]; cbn; by rewrite IH.
Qed.

(** [deleteMessages] removes from the log what the predicate accepts. *)
Lemma deleteMessages_log s (pred : Message → bool) :
  msgs_inv s → (∀ b m, pred (set_Body b m) = pred m) →
  ∃ ms d', deleteMessages pred (s_db s) = Ok (ms, d')
    ∧ msg_log (with_db s d') = filter (λ m, pred m = false) (msg_log s)
    ∧ msgs_inv (with_db s d') ∧ bseq (d_msgs d') = bseq (d_msgs (s_db s))
    ∧ length ms = length (filter (λ m, pred m = true) (msg_log s))
    ∧ ∃ ms ix ob, d' = msgs_db (s_db s) ms ix ob.
Proof.
  intros Hs Hp. pose proof Hs as [_ Hwf _].
  set (sel := selected pred (rows_of (s_db s))).
  set (L := (λ km, (km.1, m_ID km.2)) <$> sel).
  assert (HLk : L.*1 = sel.*1) by (unfold L; by rewrite <- list_fmap_compose).
  assert (Hsel : ∀ k, k ∈ L.*1 ↔ ∃ m, bget (d_msgs (s_db s)) k = Some (json m) ∧ pred m = true).
  { intros k. rewrite HLk, list_elem_of_fmap. split.
    - intros ([k' m] & -> & [Hpm Hin]%list_elem_of_filter). exists m. by rewrite <- rows_of_elem.
    - intros (m & Hg & Hpm). exists (k, m). split; [done|]. apply list_elem_of_filter.
      by rewrite rows_of_elem. }
  destruct (delete_keys_wf L (s_db s) Hwf) as (d' & Hd' & Hwf' & Hb & Hget & Hfr).
  { rewrite HLk. unfold sel, selected. eapply (sublist_NoDup _ (rows_of (s_db s)).*1).
    - by apply rows_of_keys.
    - apply fmap_sublist, sublist_filter. }
  { intros k id ([k' m] & [= -> ->] & [_ Hin]%list_elem_of_filter)%list_elem_of_fmap.
    exists m. by apply rows_of_elem in Hin. }
  destruct (log_remove s d' (λ m, pred m = false)) as [Hlog Hinv]; [done|done| | |].
  - intros k m0 m Hg Hd. rewrite Hget.
    assert (pred m = pred m0) as -> by by (apply decryptMessage_ok in Hd as (b & _ & ->)).
    destruct (decide (k ∈ L.*1)) as [Hx|Hx]; case_decide as Hpm; try done.
    + apply Hsel in Hx as (m1 & Hg1 & Hm1). congruence.
    + destruct (pred m0) eqn:E; [|done]. destruct Hx. apply Hsel. eauto.
  - intros k Hn. rewrite Hget, Hn. by case_decide.
  - exists sel.*2, d'. split_and!; try done.
    + unfold deleteMessages. tx_unfold. rewrite all_rows_wf by done. cbv zeta.
      fold sel. fold L. by rewrite Hd'.
    + rewrite length_fmap. by apply rows_count.
Qed.

Lemma delete_all_implements s : msgs_inv s → implements OpDeleteAll s.
Proof.
  intros Hs. unfold implements, run_op, DeleteAllMessages. cbn [spec_op msg_state].
  destruct (deleteMessages_log s (λ _, true) Hs) as (ms & d' & Hd & Hlog & Hinv & Hb & _); [done|].
  rewrite (Update_done s _ tt d') by (tx_unfold; by rewrite Hd).
  split_and!; [done| |done]. apply msg_state_db; [|done]. rewrite Hlog.
  apply filter_none. by apply Forall_forall.
Qed.

Lemma prune_implements cutoff s : msgs_inv s → implements (OpPrune cutoff) s.
Proof.
  intros Hs. unfold implements, run_op, Prune. cbn [spec_op msg_state].
  destruct (deleteMessages_log s (prune_pred cutoff) Hs)
    as (ms & d' & Hd & Hlog & Hinv & Hb & Hlen & _); [done|].
  rewrite (Update_done s _ (Z.of_nat (length ms)) d') by (tx_unfold; by rewrite Hd).
  rewrite Hlen. split_and!; [done| |done]. by apply msg_state_db.
Qed.
End refinement.

(** ** Queries *)

Section queries.
Context {B : Type → Type} `{Bolt B} `{Primitives} `{UnicodeTables}.
Implicit Types (s : Store B) (d : DB B) (m : Message).

Lemma op_implements op s :
  msgs_inv s → args_ok op → bseq (d_msgs (s_db s)) + 1 < 2 ^ 64 - 1 → implements op s.
Proof.
  intros Hs Ha Hb. destruct op; auto using add_implements, mark_implements, attempt_implements,
    delete_outbox_implements, delete_implements, delete_all_implements, prune_implements.
Qed.

(** Runs of operations, with what each returned. *)
Fixpoint run_ops (ops : list msg_op) s : list msg_res * Store B :=
  match ops with
  | [] => ([], s)
  | op :: ops =>
      let (r, s') := run_op op s in let (rs, s'') := run_ops ops s' in (r :: rs, s'')
  end.

Fixpoint spec_ops (ops : list msg_op) (st : list Message * Z)
    : list msg_res * (list Message * Z) :=
  match ops with
  | [] => ([], st)
  | op :: ops =>
      let (r, st') := spec_op op st in let (rs, st'') := spec_ops ops st' in (r :: rs, st'')
  end.

Lemma spec_op_seq op st : st.2 <= (spec_op op st).2.2 <= st.2 + 1.
Proof. destruct st as [l n], op; cbn; repeat case_match; cbn; lia. Qed.

Lemma peer_prefix p q p' :
  no_nul p → no_nul p' →
  has_prefix (msgKey p' q) (peerKey p +:+ of_bytes [0]) = true ↔ peerKey p' = peerKey p.
Proof.
  intros Hp Hp'. unfold msgKey, peerKey.
  apply TrimSpace_no_nul, ToLower_no_nul in Hp. apply TrimSpace_no_nul, ToLower_no_nul in Hp'.
  rewrite has_prefix_spec. split.
  - intros [r He]. apply (f_equal bytes_of) in He.
    rewrite !bytes_of_app, <- (assoc_L (++)) in He.
    apply nul_split in He as [He _]; [by apply bytes_of_inj|done|done].
  - intros ->. exists (be_put64 q). by rewrite str_app_assoc.
Qed.

Lemma ff8_seq : ff8 = be_put64 (2 ^ 64 - 1).
Proof. by vm_compute. Qed.

(** The decrypted messages of one peer, in key order. *)
Definition conversation s (peer : string) : list Message :=
  omap (decoded s) (filter (λ kv, has_prefix kv.1 (peerKey peer +:+ of_bytes [0]) = true
    ∧ str_ltb kv.1 ((peerKey peer +:+ of_bytes [0]) +:+ ff8) = true) (bitems (d_msgs (s_db s)))).

Lemma in_range s peer k m :
  msgs_inv s → no_nul peer → bget (d_msgs (s_db s)) k = Some (json m) →
  (has_prefix k (peerKey peer +:+ of_bytes [0]) = true
   ∧ str_ltb k ((peerKey peer +:+ of_bytes [0]) +:+ ff8) = true) ↔ peerKey (m_Peer m) = peerKey peer.
Proof.
  intros Hs Hp Hg. pose proof Hs as [_ Hwf _].
  pose proof (wf_seq _ Hwf). pose proof (wf_get _ _ _ Hwf Hg) as (-> & _ & Hq & Hn & _).
  rewrite peer_prefix by done. split; [by intros [? _]|]. intros He. split; [done|].
  unfold msgKey. rewrite He, <- str_app_assoc. apply str_lt_app_l, str_lt_app_l.
  rewrite ff8_seq. apply be_put64_lt; lia.
Qed.

Lemma conversation_log s peer :
  msgs_inv s → no_nul peer →
  conversation s peer = filter (λ m, peerKey (m_Peer m) = peerKey peer) (msg_log s).
Proof.
  intros Hs Hp. pose proof Hs as [_ Hwf _]. eapply (StronglySorted_ext seq_lt).
  - unfold conversation. pose proof (bitems_sorted (d_msgs (s_db s))) as Hb.
    assert (Hsub : bitems (d_msgs (s_db s)) ⊆ bitems (d_msgs (s_db s))) by done. revert Hb Hsub.
    generalize (bitems (d_msgs (s_db s))) at 1 2 4. intros l.
    induction l as [|[k r] l IH]; intros Hb Hsub; [constructor|].
    apply sorted_cons in Hb as [Hb Hlt].
    assert (Hl : l ⊆ bitems (d_msgs (s_db s))) by set_solver.
    specialize (IH Hb Hl).
    assert (Hk : bget (d_msgs (s_db s)) k = Some r) by (apply bitems_get, Hsub; by left).
    pose proof (wf_row _ Hwf _ _ Hk) as (m0 & -> & _).
    rewrite filter_cons. case_decide as Hc; [|done]. cbn [omap list_omap].
    unfold decoded at 1. cbn [snd]. destruct (decryptMessage s m0) as [m|] eqn:Hd; [|done].
    constructor; [done|]. apply Forall_forall. intros m' Hin.
    apply list_elem_of_omap in Hin as ([k' r'] & [Hc' Hin]%list_elem_of_filter & Hd').
    assert (Hk' : bget (d_msgs (s_db s)) k' = Some r') by (by apply bitems_get, Hl).
    pose proof (wf_row _ Hwf _ _ Hk') as (m0' & -> & _).
    unfold decoded in Hd'. cbn in Hd'. destruct (decryptMessage s m0') eqn:E; [|done].
    injection Hd' as ->. specialize (Hlt _ Hin). cbn in Hlt.
    cbn [fst] in Hc, Hc'. apply (in_range s peer k m0) in Hc; [|done..].
    apply (in_range s peer k' m0') in Hc'; [|done..].
    apply wf_get in Hk as (-> & _ & Hq & _); [|done].
    apply wf_get in Hk' as (-> & _ & Hq' & _); [|done].
    unfold msgKey in Hlt. rewrite Hc, Hc' in Hlt.
    apply str_lt_app_l in Hlt. apply str_lt_app_l in Hlt.
    apply decryptMessage_fields in Hd as (_ & Hd & _), E as (_ & E & _).
    unfold seq_lt. rewrite Hd, E. pose proof (wf_seq _ Hwf).
    destruct (Z.lt_trichotomy (m_Seq m0) (m_Seq m0')) as [?|[Heq|Hgt]]; [done| |].
    + rewrite Heq in Hlt. by apply (irreflexivity str_lt) in Hlt.
    + apply be_put64_lt in Hgt; [|lia|lia].
      destruct (irreflexivity str_lt (be_put64 (m_Seq m0))). by etrans.
  - by apply StronglySorted_filter, msg_log_sorted.
  - intros m. unfold conversation. rewrite list_elem_of_omap, list_elem_of_filter, msg_log_elem.
    split.
    + intros ([k r] & [Hc Hin]%list_elem_of_filter & Hd). apply bitems_get in Hin.
      pose proof (wf_row _ Hwf _ _ Hin) as (m0 & -> & _). cbn [fst] in Hc.
      apply (in_range s peer k m0) in Hc; [|done..].
      unfold decoded in Hd. cbn in Hd. destruct (decryptMessage s m0) eqn:E; [|done].
      injection Hd as ->. split; [|eauto].
      by apply decryptMessage_fields in E as (_ & _ & -> & _).
    + intros [Hpk (k & m0 & Hg & Hd)]. exists (k, json m0). unfold decoded. cbn. rewrite Hd.
      split; [|done]. apply list_elem_of_filter. rewrite bitems_get. split; [|done].
      apply (in_range s peer k m0); [done..|]. apply decryptMessage_fields in Hd. naive_solver congruence.
Qed.

Lemma collect_take s prefix n visited :
  Forall (λ kv, ∃ m m', kv.2 = json m ∧ decryptMessage s m = Ok m') visited →
  collect s prefix n visited
  = Ok (take n (omap (decoded s) (take_while (λ kv, has_prefix kv.1 prefix) visited))).
Proof.
  intros Hall. revert n. induction Hall as [|[k r] l (m & m' & Hr & Hd) _ IH]; intros [|n];
    try done; cbn in Hr; subst r; cbn [collect take_while]; cbn [fst].
  - destruct (has_prefix k prefix); [|done]. cbn [omap list_omap unmarshal].
    unfold decoded at 1. cbn [snd]. cbn. rewrite Hd. cbn. by rewrite IH.
Qed.

Lemma items_readable s :
  msgs_inv s →
  Forall (λ kv, ∃ m m', kv.2 = json m ∧ decryptMessage s m = Ok m') (bitems (d_msgs (s_db s))).
Proof.
  intros Hs. pose proof Hs as [_ Hwf _]. apply Forall_forall. intros [k r] Hin.
  apply bitems_get in Hin. pose proof (wf_row _ Hwf _ _ Hin) as (m & -> & _).
  destruct (readable_row _ _ _ Hs Hin) as [m' Hd]. eauto.
Qed.

Lemma omap_reverse {A A'} (f : A → option A') l : omap f (reverse l) = reverse (omap f l).
Proof.
  induction l as [|x l IH]; [done|]. rewrite reverse_cons, omap_app, IH.
  cbn [omap list_omap]. destruct (f x); [by rewrite reverse_cons|by rewrite app_nil_r].
Qed.

(** What [pending_entry] gives for an entry of the outbox. *)
Definition pending_msgs s (peer : string) (k : string) : list Message :=
  match bget (d_msgs (s_db s)) k with
  | Some r =>
      match decoded s (k, r) with
      | Some m => if (peer =s? "") || EqualFold (m_Peer m) peer then [m] else []
      | None => []
      end
  | None => []
  end.

Lemma outbox_row s id k :
  msgs_inv s → bget (d_outbox (s_db s)) id = Some k →
  ∃ m0 m, bget (d_msgs (s_db s)) k = Some (json m0) ∧ decryptMessage s m0 = Ok m
    ∧ m_ID m = id ∧ undelivered m = true.
Proof.
  intros Hs Ho. pose proof Hs as [_ Hwf _].
  apply wf_outbox in Ho as (m0 & Hg & Hid & Hu); [|done].
  destruct (readable_row _ _ _ Hs Hg) as [m Hd]. exists m0, m. split_and!; try done.
  - apply decryptMessage_fields in Hd. naive_solver.
  - by rewrite (decryptMessage_undelivered _ _ _ Hd).
Qed.

Lemma pending_out s peer :
  msgs_inv s →
  mapM (pending_entry s peer (s_db s)) (bitems (d_outbox (s_db s))).*2
  = Ok (pending_msgs s peer <$> (bitems (d_outbox (s_db s))).*2).
Proof.
  intros Hs. rewrite (mapM_all_ok _ (λ k, Some (pending_msgs s peer k))).
  - done.
  - intros k ([id k'] & -> & Hin)%list_elem_of_fmap. apply bitems_get in Hin. cbn [snd].
    destruct (outbox_row s id k' Hs Hin) as (m0 & m & Hg & Hd & _).
    exists (pending_msgs s peer k'). split; [|done].
    unfold pending_entry, pending_msgs, decoded. rewrite Hg. cbn. by rewrite Hd.
Qed.

Lemma pending_ids s peer l :
  msgs_inv s → l ⊆ bitems (d_outbox (s_db s)) →
  m_ID <$> concat (pending_msgs s peer <$> l.*2) `sublist_of` l.*1.
Proof.
  intros Hs. induction l as [|[id k] l IH]; intros Hsub; [done|].
  cbn [fmap list_fmap concat fst snd].
  assert (Ho : bget (d_outbox (s_db s)) id = Some k) by (apply bitems_get, Hsub; by left).
  destruct (outbox_row s id k Hs Ho) as (m0 & m & Hg & Hd & Hid & _).
  unfold pending_msgs at 1. rewrite Hg. unfold decoded. cbn [snd]. rewrite Hd.
  assert (Hl : l ⊆ bitems (d_outbox (s_db s))) by set_solver.
  destruct (_ || _); cbn; rewrite ?Hid; constructor; by apply IH.
Qed.

Lemma pending_elem s peer m :
  msgs_inv s →
  m ∈ concat (pending_msgs s peer <$> (bitems (d_outbox (s_db s))).*2) ↔
  m ∈ msg_log s ∧ undelivered m && ((peer =s? "") || EqualFold (m_Peer m) peer) = true.
Proof.
  intros Hs. pose proof Hs as [_ Hwf _]. rewrite list_elem_of_concat. split.
  - intros (? & (k & -> & ([id k'] & -> & Ho)%list_elem_of_fmap)%list_elem_of_fmap & Hin).
    apply bitems_get in Ho. cbn [snd] in Hin.
    destruct (outbox_row s id k' Hs Ho) as (m0 & m1 & Hg & Hd & _ & Hu).
    unfold pending_msgs in Hin. rewrite Hg in Hin. unfold decoded in Hin. cbn [snd] in Hin.
    rewrite Hd in Hin. destruct (_ || _) eqn:E; [|by apply not_elem_of_nil in Hin].
    apply list_elem_of_singleton in Hin as ->. rewrite Hu, E. split; [|done].
    apply msg_log_elem. eauto.
  - intros [(k & m0 & Hg & Hd)%msg_log_elem [Hu E]%andb_true_iff].
    exists (pending_msgs s peer k). split.
    + apply list_elem_of_fmap. exists k. split; [done|]. apply list_elem_of_fmap.
      exists (m_ID m0, k). split; [done|]. apply bitems_get, (wf_outbox _ Hwf).
      exists m0. split_and!; try done. by rewrite <- (decryptMessage_undelivered _ _ _ Hd).
    + unfold pending_msgs. rewrite Hg. unfold decoded. cbn [snd]. rewrite Hd, E. by left.
Qed.

Lemma pending_log s peer :
  msgs_inv s →
  Pending s peer
  = Ok (filter (λ m, undelivered m && ((peer =s? "") || EqualFold (m_Peer m) peer) = true)
          (msg_log s)).
Proof.
  intros Hs. pose proof Hs as [_ Hwf _]. unfold Pending. rewrite pending_out by done.
  cbn [mbind result_bind]. f_equal. apply (StronglySorted_ext seq_lt).
  - apply sorted_strict.
    + apply sort_loop_sorted; unfold not_less; intros; lia.
    + unfold sortBySeq. rewrite sort_loop_Permutation. apply NoDup_fmap_2_strong.
      * intros x y [Hx _]%pending_elem [Hy _]%pending_elem Hxy; [|done..].
        by eapply log_seq_inj.
      * apply (NoDup_fmap_1 m_ID). eapply sublist_NoDup; [|by apply pending_ids].
        auto with chirp.
  - by apply StronglySorted_filter, msg_log_sorted.
  - intros m. unfold sortBySeq. rewrite sort_loop_Permutation, pending_elem by done.
    rewrite list_elem_of_filter. naive_solver.
Qed.

Lemma run_ops_inv (ops : list msg_op) s :
  msgs_inv s → Forall args_ok ops →
  bseq (d_msgs (s_db s)) + Z.of_nat (length ops) < 2 ^ 64 - 1 → msgs_inv (run_ops ops s).2.
Proof.
  revert s. induction ops as [|op ops IH]; intros s Hs Ha Hb; [done|].
  apply Forall_cons in Ha as [Hop Ha]. cbn [length] in Hb.
  pose proof (op_implements op s Hs Hop ltac:(lia)) as Hi. unfold implements in Hi.
  cbn [run_ops]. destruct (run_op op s) as [r s'].
  pose proof (spec_op_seq op (msg_state s)) as Hq.
  destruct Hi as (_ & Hst & Hs'). rewrite <- Hst in Hq. cbn in Hq.
  specialize (IH s' Hs' Ha ltac:(lia)). by destruct (run_ops ops s').
Qed.

Lemma msgs_inv_empty ek ik fd dk :
  keys_ok (mkStore empty_db ek ik fd dk) → msgs_inv (mkStore empty_db ek ik fd dk).
Proof.
  intros Hk. split; [done|apply msgs_wf_empty|]. intros k m. cbn. by rewrite bget_empty.
Qed.

(** *** Search *)

Lemma substring_length n k t : (String.length (String.substring n k t) <= String.length t - n)%nat.
Proof.
  revert n k. induction t as [|c t IH]; intros [|n] [|k]; cbn; try lia.
  - pose proof (IH 0%nat k). lia.
  - apply IH.
  - apply IH.
Qed.

Lemma Index_bound t q i :
  Index t q = Some i → q ≠ "" → (i + String.length q <= String.length t)%nat.
Proof.
  intros Hi Hq. pose proof (String.index_correct1 0 i q t Hi) as Hs.
  pose proof (substring_length i (String.length q) t) as Hl. rewrite Hs in Hl.
  destruct q; [done|]. cbn in *. lia.
Qed.

Lemma make_snippet_total body q :
  slen (ToLower body) = slen body → q ≠ "" → ∃ t, make_snippet body q = Some t.
Proof.
  intros Hl Hq. unfold make_snippet. destruct (Index (ToLower body) q) as [i|] eqn:E; [|by eexists].
  apply Index_bound in E; [|done]. cbv zeta. unfold slice.
  assert (Z.of_nat i + slen q <= slen body) by (rewrite <- Hl; unfold slen; lia).
  pose proof (slen_nonneg q).
  destruct (Z.ltb_spec (Z.of_nat i - 20) 0), (Z.ltb_spec (slen body) (Z.of_nat i + slen q + 40));
    match goal with |- context [(0 <=? ?a) && (?a <=? ?b) && (?b <=? ?c)] =>
      replace ((0 <=? a) && (a <=? b) && (b <=? c)) with true by lia end;
    cbn [mbind option_bind]; eexists; done.
Qed.

Lemma search_rows_ok s q n rows :
  q ≠ "" →
  Forall (λ r, ∃ m m', r = json m ∧ decryptMessage s m = Ok m'
                       ∧ slen (ToLower (m_Body m')) = slen (m_Body m')) rows.*2 →
  ∃ out, search_rows s q n rows.*2 = Some (Ok out) ∧
    out.*1 = take n (filter (λ m, Contains (ToLower (m_Body m)) q = true)
                      (omap (decoded s) rows)).
Proof.
  intros Hq. revert n. induction rows as [|[k r] rows IH]; intros n Hall; [exists []; by destruct n|].
  cbn [fmap list_fmap snd] in *. apply Forall_cons in Hall as [(m & m' & -> & Hd & Hl) Hall].
  destruct n as [|n]; [by exists []|]. cbn [search_rows unmarshal mbind result_bind].
  rewrite Hd. cbn [omap list_omap]. unfold decoded at 1. cbn [snd]. rewrite Hd.
  destruct (Contains (ToLower (m_Body m')) q) eqn:Ec.
  - destruct (make_snippet_total (m_Body m') q Hl Hq) as [t ->]. cbn [mbind option_bind].
    destruct (IH n Hall) as (out & Ho & Hm). change (list_fmap _ _ snd rows) with (rows.*2).
    rewrite Ho. exists ((m', t) :: out). split; [done|].
    rewrite filter_cons_True by done. cbn. by f_equal.
  - destruct (IH (S n) Hall) as (out & Ho & Hm). exists out. split; [exact Ho|].
    by rewrite filter_cons_False by congruence.
Qed.
End queries.


(** ** Properties *)

Section properties.
Context {B : Type → Type} `{Bolt B} `{Primitives} `{UnicodeTables}.
Implicit Types (s : Store B) (m : Message).

(** C3: the message store refines a list.  From a store that satisfies the
    invariant, whatever sequence of additions, delivery marks, attempts,
    deletions and prunings is run (as long as the 64-bit counter has room),
    every operation returns exactly what the same operation on a plain list
    of messages returns, errors included; the log read off the final store
    is the final list, in sequence order; and the invariant of the buckets,
    the index and the outbox still holds. *)
Theorem message_store_refines_list (ops : list msg_op) s :
  msgs_inv s → Forall args_ok ops →
  bseq (d_msgs (s_db s)) + Z.of_nat (length ops) < 2 ^ 64 - 1 →
  let '(rs, s') := run_ops ops s in
  rs = (spec_ops ops (msg_state s)).1 ∧ msg_state s' = (spec_ops ops (msg_state s)).2
  ∧ msgs_inv s'.
Proof.
  revert s. induction ops as [|op ops IH]; intros s Hs Ha Hb; [done|].
  apply Forall_cons in Ha as [Hop Ha]. cbn [length] in Hb.
  pose proof (op_implements op s Hs Hop ltac:(lia)) as Hi. unfold implements in Hi.
  cbn [run_ops spec_ops]. destruct (run_op op s) as [r s'].
  pose proof (spec_op_seq op (msg_state s)) as Hq.
  destruct (spec_op op (msg_state s)) as [r1 st1]. cbn in Hi, Hq.
  destruct Hi as (-> & Hst & Hs').
  assert (Hn : bseq (d_msgs (s_db s')) = st1.2) by by rewrite <- Hst.
  specialize (IH s' Hs' Ha ltac:(lia)).
  destruct (run_ops ops s') as [rs s'']. rewrite Hst in IH.
  destruct (spec_ops ops st1) as [rs1 st2]. cbn in *. destruct IH as (-> & -> & ?). done.
Qed.

(** [Messages] returns the latest page of a conversation.  The cursor
    walk over the composite keys (seek past the prefix, step back while the
    prefix matches, reverse at the end) gives the last [limit] messages
    exchanged with that peer, and no other peer's, oldest first, decrypted;
    a limit out of range counts as 200. *)
Lemma Messages_latest_page s peer limit :
  msgs_inv s → no_nul peer →
  Messages s peer limit
  = Ok (lastn (page_limit limit)
          (filter (λ m, peerKey (m_Peer m) = peerKey peer) (msg_log s))).
Proof.
  intros Hs Hp. rewrite <- conversation_log by done. unfold Messages, View. tx_unfold.
  rewrite collect_take.
  2: { rewrite c_seek_prev_filter by auto with chirp. rewrite Forall_reverse.
       eapply incl_Forall, items_readable; [|done].
       intros kv Hin%list_elem_of_In. apply list_elem_of_In.
       by apply list_elem_of_filter in Hin as [_ ?]. }
  rewrite rev_scan by auto with chirp. unfold lastn, conversation. by rewrite <- omap_reverse.
Qed.

(** [Pending] returns the undelivered outbound messages of a peer (or
    of all peers), oldest first, and nothing else. *)
Lemma Pending_undelivered s peer :
  msgs_inv s →
  Pending s peer
  = Ok (filter (λ m, undelivered m && ((peer =s? "") || EqualFold (m_Peer m) peer) = true)
          (msg_log s)).
Proof. apply pending_log. Qed.

(** [Search] over bodies that lower-casing keeps in length (ASCII
    text, for one) never panics on a slice, and finds the first [limit]
    messages, in key order, whose lower-cased body contains the lower-cased
    query. *)
Lemma Search_finds s query limit :
  msgs_inv s →
  (∀ m, m ∈ msg_log s → slen (ToLower (m_Body m)) = slen (m_Body m)) →
  ToLower query ≠ "" →
  ∃ out, Search s query limit = Some (Ok out) ∧
    out.*1 = take (Z.to_nat (if (limit <=? 0) || (100 <? limit) then 20 else limit))
      (filter (λ m, Contains (ToLower (m_Body m)) (ToLower query) = true)
        (omap (decoded s) (bitems (d_msgs (s_db s))))).
Proof.
  intros Hs Hl Hq. unfold Search. rewrite (proj2 (eqs_false _ _) Hq).
  apply search_rows_ok; [done|]. apply Forall_fmap, Forall_forall. intros [k r] Hin. cbn [snd].
  pose proof (items_readable s Hs) as Hr. rewrite Forall_forall in Hr.
  destruct (Hr _ Hin) as (m & m' & Hj & Hd). cbn in Hj. subst r.
  exists m, m'. split_and!; [done..|]. apply Hl, msg_log_elem. exists k, m.
  split; [by apply bitems_get|done].
Qed.

(** C38: what the three readers return, as functions of the log.  The cursor walk
    of [Messages] over the composite keys (seek past the prefix, step back
    while the prefix matches, reverse at the end) is the last page of that
    peer's messages, oldest first; the walk of [Pending] over the outbox and
    the index is the undelivered outbound messages of a peer, or of all, in
    order; [Search] over bodies that lower-casing keeps in length does not
    panic and is the first matches in key order. *)
Theorem message_reads_agree s :
  msgs_inv s →
  (∀ peer limit, no_nul peer →
     Messages s peer limit
     = Ok (lastn (page_limit limit)
             (filter (λ m, peerKey (m_Peer m) = peerKey peer) (msg_log s)))) ∧
  (∀ peer,
     Pending s peer
     = Ok (filter (λ m, undelivered m && ((peer =s? "") || EqualFold (m_Peer m) peer) = true)
             (msg_log s))) ∧
  (∀ query limit,
     (∀ m, m ∈ msg_log s → slen (ToLower (m_Body m)) = slen (m_Body m)) → ToLower query ≠ "" →
     ∃ out, Search s query limit = Some (Ok out) ∧
       out.*1 = take (Z.to_nat (if (limit <=? 0) || (100 <? limit) then 20 else limit))
         (filter (λ m, Contains (ToLower (m_Body m)) (ToLower query) = true)
           (omap (decoded s) (bitems (d_msgs (s_db s)))))).
Proof.
  intros Hs. split_and!; [intros|intros|intros; by apply Search_finds].
  - by apply Messages_latest_page.
  - by apply Pending_undelivered.
Qed.
End properties.

(** ** Lower-casing that lengthens a text

    U+023A lower-cases to U+2C65, from two bytes to three. *)

Program Definition long_lower_tables : UnicodeTables := {|
  to_lower_rune r := if r =? 0x23A then 0x2C65 else ascii_lower r;
  fold_rune r := if r =? 0x23A then 0x2C65 else ascii_lower r |}.
Next Obligation.
  intros r Hr. cbv beta. destruct (Z.eqb_spec r 0x23A); [done|].
  by apply (@to_lower_valid ascii_tables).
Qed.
Next Obligation.
  intros r. cbv beta. destruct (Z.eqb_spec r 0x23A); [done|].
  destruct (Z.eqb_spec (ascii_lower r) 0x23A) as [E|_]; [|apply (@to_lower_idem ascii_tables)].
  unfold ascii_lower in E. destruct ((65 <=? r) && (r <=? 90)) eqn:?; lia.
Qed.
Next Obligation.
  intros r Hr. cbv beta. destruct (Z.eqb_spec r 0x23A); [lia|]. done.
Qed.
Next Obligation.
  intros r Hr. cbv beta. destruct (Z.eqb_spec r 0x23A); [done|].
  by apply (@to_lower_nonzero ascii_tables).
Qed.

(** ** Witnesses *)

#[local] Existing Instance gmap_bolt.
#[local] Existing Instance toy_primitives.

Definition ex_message (id peer dir body status : string) : Message :=
  mkMessage id peer dir body 1000 status 0 zero_time 0 "".

Definition ex_empty : Store gbucket :=
  mkStore empty_db (Some "0123456789abcdef0123456789abcdef") None ["home"; "files"] ∅.

Definition ex_ops : list msg_op :=
  [ OpAdd (ex_message "01" "Alice" DirOut "hi" StatusQueued) (Some "nonce nonce ");
    OpAdd (ex_message "02" "bob" DirIn "yo" StatusReceived) (Some "nonce nonce ");
    OpAdd (ex_message "01" "Alice" DirOut "hi" StatusQueued) (Some "nonce nonce ");
    OpAdd (ex_message "03" "alice" DirOut "there" StatusQueued) (Some "nonce nonce ");
    OpMark "ALICE" "01"; OpAttempt "03" 2000 ].

Section witnesses.
Local Existing Instance ascii_tables.

Lemma ex_keys : keys_ok ex_empty.
Proof. by split_and!; [intros k [= <-]| |]. Qed.

Lemma ex_args : Forall args_ok ex_ops.
Proof.
  repeat constructor; try (by vm_compute); try (by exists "nonce nonce ").
  all: intros Hn; vm_compute in Hn; set_solver.
Qed.

Definition ex_log : Store gbucket := (run_ops ex_ops ex_empty).2.

Lemma ex_log_inv : msgs_inv ex_log.
Proof. apply run_ops_inv; [apply msgs_inv_empty, ex_keys|apply ex_args|done]. Qed.

Lemma message_store_refines_list_witness :
  msgs_inv ex_empty ∧ Forall args_ok ex_ops ∧
  (spec_ops ex_ops (msg_state ex_empty)).1 = (run_ops ex_ops ex_empty).1.
Proof.
  split_and!; [apply msgs_inv_empty, ex_keys|apply ex_args|].
  pose proof (message_store_refines_list ex_ops ex_empty (msgs_inv_empty _ _ _ _ ex_keys)
    ex_args eq_refl) as Hr.
  destruct (run_ops ex_ops ex_empty) as [rs s']. by destruct Hr as [-> _].
Defined.

Lemma message_reads_agree_witness :
  match Messages ex_log "ALICE" 1 with Ok r => m_ID <$> r | Err _ => [] end = ["03"] ∧
  match Pending ex_log "" with Ok r => m_ID <$> r | Err _ => [] end = ["03"] ∧
  ∃ out, Search ex_log "TH" 0 = Some (Ok out) ∧ m_ID <$> out.*1 = ["03"].
Proof.
  assert (Hn : no_nul "ALICE") by (intros Hn; vm_compute in Hn; set_solver).
  destruct (message_reads_agree ex_log ex_log_inv) as (Hm & Hp & Hs).
  split; [rewrite (Hm "ALICE" 1 Hn); by vm_compute|].
  split; [rewrite Hp; by vm_compute|].
  destruct (Hs "TH" 0) as (out & Ho & Hf).
  - intros m Hin. apply list_elem_of_In in Hin. vm_compute in Hin.
    by repeat destruct Hin as [<-|Hin].
  - by vm_compute.
  - exists out. split; [done|]. rewrite Hf. by vm_compute.
Defined.
End witnesses.

(** Fifty U+023A followed by "x". *)
Definition ex_long_body : string :=
  of_bytes (concat (replicate 50 [0xC8; 0xBA]) ++ [120]).

(** [Search] can panic.  The snippet slices the original text at offsets
    computed in the lower-cased one: with a stored body of fifty U+023A (two
    bytes each, three in lower case) followed by "x", a search for "x" runs
    out of range. *)
Lemma Search_slice_panics :
  let s := (@run_op gbucket gmap_bolt toy_primitives long_lower_tables
    (OpAdd (ex_message "01" "alice" DirIn ex_long_body StatusReceived) (Some "nonce nonce "))
    ex_empty).2 in
  @Search gbucket gmap_bolt toy_primitives long_lower_tables s "x" 20 = None.
Proof. by vm_compute. Qed.
