(* ===== verification/StorePeers.v ===== *)
(** * Pinned peers of the store (internal/store/store.go)

    Trust on first use: a name is pinned to the first key that completes a
    handshake under it; another key is flagged, never adopted.  The peers
    bucket is keyed by the folded name; keys are encrypted at rest. *)

From S2P Require Import Prelude GoStrings Utf8 Proto Sha256 Identity Base64 Crypto Bolt.
From S2P Require Import StoreData StoreCore StoreMessages.

Section operations.
Context {B : Type → Type} `{Bolt B} `{Primitives} `{UnicodeTables}.
Implicit Types s : Store B.

Definition getPeer (name : string) : Tx B Peer :=
  v ← Get bPeers (peerKey name);
  match v with
  | None => fail (Sentinel ErrNotFound)
  | Some r => lift (unmarshal r)
  end.

Definition putPeer (p : Peer) : Tx B unit := Put bPeers (peerKey (p_Name p)) (json p).

Definition set_Key (k : string) (p : Peer) : Peer :=
  mkPeer (p_Name p) k (p_FP p) (p_FirstSeen p) (p_LastSeen p) (p_Verified p)
    (p_PendingKey p) (p_PendingAt p).
Definition set_Pending (k : string) (at_ : Z) (p : Peer) : Peer :=
  mkPeer (p_Name p) (p_Key p) (p_FP p) (p_FirstSeen p) (p_LastSeen p) (p_Verified p) k at_.
Definition set_LastSeen (t : Z) (p : Peer) : Peer :=
  mkPeer (p_Name p) (p_Key p) (p_FP p) (p_FirstSeen p) t (p_Verified p)
    (p_PendingKey p) (p_PendingAt p).
Definition set_Verified (v : bool) (p : Peer) : Peer :=
  mkPeer (p_Name p) (p_Key p) (p_FP p) (p_FirstSeen p) (p_LastSeen p) v
    (p_PendingKey p) (p_PendingAt p).

(** [GetPeer]: the Key field decrypted, PendingKey as it is stored. *)
Definition GetPeer s (name : string) : result Peer :=
  p ← View s (getPeer name);
  match decrypt s (p_Key p) with
  | Err e => Err (Wrapf "store: decrypt peer key" e)
  | Ok plain => Ok (set_Key plain p)
  end.

(** The callback of [ListPeers] on one row. *)
Definition list_row s (r : row Peer) : result Peer :=
  p ← unmarshal r;
  match decrypt s (p_Key p) with
  | Err e => Err (Wrapf "store: decrypt peer key" e)
  | Ok plain =>
      let p := set_Key plain p in
      if 0 <? slen (p_PendingKey p) then
        match decrypt s (p_PendingKey p) with
        | Err e => Err (Wrapf "store: decrypt pending key" e)
        | Ok pk => Ok (set_Pending pk (p_PendingAt p) p)
        end
      else Ok p
  end.

Definition ListPeers s : result (list Peer) :=
  mapM (list_row s) (bitems (d_peers (s_db s))).*2.

(** The transaction of [Observe]: the peer as stored, and whether the key
    matches the pin. *)
Definition observe_tx s (name key encKey : string) (now : Z) : Tx B (Peer * bool) := λ d,
  match getPeer name d with
  | Err e =>
      if errors_is e ErrNotFound then
        (let p := mkPeer name encKey (Fingerprint key) now now false "" zero_time in
         _ ← putPeer p; mret (p, true)) d
      else Err e
  | Ok (p, d) =>
      match decrypt s (p_Key p) with
      | Err e => Err (Wrapf "store: decrypt peer key" e)
      | Ok storedKey =>
          if storedKey =s? key then
            (let p := set_Pending "" zero_time (set_LastSeen now p) in
             _ ← putPeer p; mret (p, true)) d
          else
            (let p := set_Pending encKey now p in
             _ ← putPeer p; mret (p, false)) d
      end
  end.

Definition Observe s (name key : string) (now : Z) (rnd : option string)
    : result (Peer * bool) * Store B :=
  match encrypt s key rnd with
  | Err e => (Err (Wrapf "store: encrypt peer key" e), s)
  | Ok encKey => Update s (observe_tx s name key encKey now)
  end.

Definition SetVerified s (name : string) (v : bool) : result unit * Store B :=
  Update s (p ← getPeer name; putPeer (set_Verified v p)).

Definition accept_tx s (name : string) : Tx B unit :=
  p ← getPeer name;
  if p_PendingKey p =s? "" then fail (Errorf "store: no pending key") else
  match decrypt s (p_PendingKey p) with
  | Err e => fail (Wrapf "store: decrypt pending key" e)
  | Ok plainKey =>
      putPeer (mkPeer (p_Name p) (p_PendingKey p) (Fingerprint plainKey) (p_FirstSeen p)
                 (p_LastSeen p) false "" zero_time)
  end.

Definition AcceptPendingKey s (name : string) : result unit * Store B :=
  Update s (accept_tx s name).

Definition ForgetPeer s (name : string) : result unit * Store B :=
  Update s (
    _ ← getPeer name;
    _ ← deleteMessages (λ m, EqualFold (m_Peer m) name);
    Delete bPeers (peerKey name)).
End operations.
