(* ===== verification/PeerPins.v ===== *)
(** * The peer table refines a table of pins (specification of StorePeers.v)

    What trust on first use promises: a folded name maps to a key, a pending
    key and a verified mark.  [spec_peer] is the state machine; the theorems
    show that the encrypted rows implement it, and that no sequence of
    handshakes can replace a pinned key. *)

From S2P Require Import Prelude GoStrings Utf8 Proto Sha256 Identity Base64 Crypto Bolt.
From S2P Require Import StoreData StoreCore StoreMessages MessageLog StorePeers.

(** ** The specification *)

(** A pin; no pending key is the empty text. *)
Record Pin := mkPin { pin_key : string; pin_pending : string; pin_verified : bool }.

Inductive peer_op :=
| PObserve (name key : string) (now : Z) (rnd : option string)
| PVerify (name : string) (v : bool)
| PAccept (name : string)
| PForget (name : string).

Inductive peer_res := RObserve (matches : result bool) | RPeer (r : result unit).

Definition pins : Type := string → option Pin.

Definition set_pin (k : string) (p : option Pin) (t : pins) : pins :=
  λ k', if decide (k = k') then p else t k'.

Section spec.
Context `{UnicodeTables}.

Definition spec_peer (op : peer_op) (t : pins) : peer_res * pins :=
  match op with
  | PObserve name key _ _ =>
      let k := peerKey name in
      match t k with
      | None => (RObserve (Ok true), set_pin k (Some (mkPin key "" false)) t)
      | Some p =>
          if pin_key p =s? key
          then (RObserve (Ok true), set_pin k (Some (mkPin (pin_key p) "" (pin_verified p))) t)
          else (RObserve (Ok false), set_pin k (Some (mkPin (pin_key p) key (pin_verified p))) t)
      end
  | PVerify name v =>
      let k := peerKey name in
      match t k with
      | None => (RPeer (Err not_found), t)
      | Some p => (RPeer (Ok tt), set_pin k (Some (mkPin (pin_key p) (pin_pending p) v)) t)
      end
  | PAccept name =>
      let k := peerKey name in
      match t k with
      | None => (RPeer (Err not_found), t)
      | Some p =>
          if pin_pending p =s? "" then (RPeer (Err (Errorf "store: no pending key")), t)
          else (RPeer (Ok tt), set_pin k (Some (mkPin (pin_pending p) "" false)) t)
      end
  | PForget name =>
      let k := peerKey name in
      match t k with
      | None => (RPeer (Err not_found), t)
      | Some _ => (RPeer (Ok tt), set_pin k None t)
      end
  end.

Fixpoint spec_peers (ops : list peer_op) (t : pins) : list peer_res * pins :=
  match ops with
  | [] => ([], t)
  | op :: ops =>
      let (r, t') := spec_peer op t in let (rs, t'') := spec_peers ops t' in (r :: rs, t'')
  end.
End spec.

Section pins.
Context {B : Type → Type} `{Bolt B} `{Primitives} `{UnicodeTables}.
Implicit Types s : Store B.

Definition run_peer (op : peer_op) s : peer_res * Store B :=
  match op with
  | PObserve name key now rnd =>
      let (r, s') := Observe s name key now rnd in (RObserve (pk ← r; Ok (snd pk)), s')
  | PVerify name v => let (r, s') := SetVerified s name v in (RPeer r, s')
  | PAccept name => let (r, s') := AcceptPendingKey s name in (RPeer r, s')
  | PForget name => let (r, s') := ForgetPeer s name in (RPeer r, s')
  end.

Fixpoint run_peers (ops : list peer_op) s : list peer_res * Store B :=
  match ops with
  | [] => ([], s)
  | op :: ops =>
      let (r, s') := run_peer op s in let (rs, s'') := run_peers ops s' in (r :: rs, s'')
  end.

(** The pin under a folded name: the row with its keys decrypted. *)
Definition row_pin s (r : row Peer) : option Pin :=
  match r with
  | json p =>
      match decrypt s (p_Key p), decrypt s (p_PendingKey p) with
      | Ok key, Ok pend => Some (mkPin key pend (p_Verified p))
      | _, _ => None
      end
  | corrupt => None
  end.

Definition pin_table s : pins := λ k, r ← bget (d_peers (s_db s)) k; row_pin s r.

(** A row under [k]: its keys decrypt, its fingerprint is that of the pinned
    key, and a stored pending key is one that decrypts to something. *)
Definition peer_row_ok s (k : string) (r : row Peer) : Prop :=
  ∃ p key pend, r = json p ∧ peerKey (p_Name p) = k ∧ put_error k = None
    ∧ decrypt s (p_Key p) = Ok key ∧ decrypt s (p_PendingKey p) = Ok pend
    ∧ p_FP p = Fingerprint key ∧ (p_PendingKey p = "" ↔ pend = "").

Record rows_ok s : Prop := {
  ro_keys : keys_ok s;
  ro_row k r : bget (d_peers (s_db s)) k = Some r → peer_row_ok s k r }.

(** With the invariant of the message buckets, which forgetting a peer needs. *)
Record peers_inv s : Prop := {
  pinv_msgs : msgs_inv s;
  pinv_row k r : bget (d_peers (s_db s)) k = Some r → peer_row_ok s k r }.

Lemma peers_rows s : peers_inv s → rows_ok s.
Proof. intros [Hm Hr]. split; [by apply inv_keys|done]. Qed.
Lemma rows_peers s : rows_ok s → msgs_inv s → peers_inv s.
Proof. intros [_ Hr] Hm. by split. Qed.

(** A handshake gives a 32-byte key under a name that fits in a key. *)
Definition peer_args_ok (op : peer_op) s : Prop :=
  match op with
  | PObserve name key _ rnd =>
      0 < slen (peerKey name) <= 32768 ∧ slen key = 32 ∧ storable s key
      ∧ ∃ nonce, rnd = Some nonce ∧ slen nonce = 12
  | _ => True
  end.

Definition peer_implements (op : peer_op) s : Prop :=
  let '(r, s') := run_peer op s in
  r = (spec_peer op (pin_table s)).1
  ∧ (∀ k, pin_table s' k = (spec_peer op (pin_table s)).2 k)
  ∧ rows_ok s' ∧ (msgs_inv s → msgs_inv s') ∧ s_encKey s' = s_encKey s.

(** Only the three message buckets and the keys matter to the message invariant. *)
Lemma msgs_inv_frame s d :
  d_msgs d = d_msgs (s_db s) → d_idx d = d_idx (s_db s) → d_outbox d = d_outbox (s_db s) →
  msgs_inv s → msgs_inv (with_db s d).
Proof.
  intros Em Ei Eo [Hk Hwf Hr]. split; [done| |].
  - destruct Hwf. split; cbn; rewrite ?Em, ?Ei, ?Eo; auto.
  - intros k m. cbn. rewrite Em. apply Hr.
Qed.

Lemma pins_db s d k :
  (r ← bget (d_peers (s_db (with_db s d))) k; row_pin (with_db s d) r)
  = (r ← bget (d_peers d) k; row_pin s r).
Proof. done. Qed.

(** Rewriting one row of the peers bucket. *)
Lemma put_row s k p key pend :
  rows_ok s → peerKey (p_Name p) = k → put_error k = None →
  decrypt s (p_Key p) = Ok key → decrypt s (p_PendingKey p) = Ok pend →
  p_FP p = Fingerprint key → (p_PendingKey p = "" ↔ pend = "") →
  let d' := bupd bPeers (bset (d_peers (s_db s)) (peerKey (p_Name p)) (json p)) (s_db s) in
  (∀ k', pin_table (with_db s d') k'
        = set_pin k (Some (mkPin key pend (p_Verified p))) (pin_table s) k')
  ∧ rows_ok (with_db s d') ∧ (msgs_inv s → msgs_inv (with_db s d')).
Proof.
  intros Hs <- Hp Hk Hpd Hfp Hiff d'. split; [|split].
  - intros k. unfold pin_table, set_pin. rewrite pins_db. case_decide as Hd.
    + subst k. unfold d'. cbn [bupd bPeers d_peers]. rewrite bget_set_eq. cbn [mbind option_bind row_pin].
      by rewrite Hk, Hpd.
    + unfold d'. cbn [bupd bPeers d_peers]. by rewrite bget_set_ne.
  - split; [exact (ro_keys _ Hs)|].
    intros k r. cbn. rewrite bget_set.
    case_decide as Hd; [|exact (ro_row _ Hs k r)]. intros [= <-]. subst k.
    exists p, key, pend. by split_and!.
  - by apply msgs_inv_frame.
Qed.

Lemma getPeer_spec s name :
  rows_ok s →
  pin_table s (peerKey name) = None ∧ getPeer name (s_db s) = Err not_found ∨
  ∃ p key pend, getPeer name (s_db s) = Ok (p, s_db s) ∧ peerKey (p_Name p) = peerKey name
    ∧ pin_table s (peerKey name) = Some (mkPin key pend (p_Verified p))
    ∧ put_error (peerKey name) = None
    ∧ decrypt s (p_Key p) = Ok key ∧ decrypt s (p_PendingKey p) = Ok pend
    ∧ p_FP p = Fingerprint key ∧ (p_PendingKey p = "" ↔ pend = "").
Proof.
  intros Hs. unfold getPeer, pin_table. tx_unfold.
  destruct (bget (d_peers (s_db s)) (peerKey name)) as [r|] eqn:E; [right|by left].
  apply (ro_row _ Hs) in E as (p & key & pend & -> & Hn & Hp & Hk & Hpd & Hfp & Hiff).
  exists p, key, pend. cbn. rewrite Hk, Hpd. auto 10.
Qed.

Lemma putPeer_ok p d :
  put_error (peerKey (p_Name p)) = None →
  putPeer p d = Ok (tt, bupd bPeers (bset (d_peers d) (peerKey (p_Name p)) (json p)) d).
Proof. intros Hp. unfold putPeer. tx_unfold. by rewrite Hp. Qed.

Lemma encrypt_nonempty s key nonce ct :
  keys_ok s → slen key = 32 → slen nonce = 12 → storable s key →
  encrypt s key (Some nonce) = Ok ct → (ct = "" ↔ key = "").
Proof.
  intros Hk Hlen Hn Hst He. pose proof (decrypt_encrypt_roundtrip _ _ _ _ Hn Hst He) as Hd.
  split; [|by intros ->]. intros ->. unfold decrypt in Hd. cbn in Hd. congruence.
Qed.

Lemma observe_implements name key now rnd s :
  rows_ok s → peer_args_ok (PObserve name key now rnd) s →
  peer_implements (PObserve name key now rnd) s.
Proof.
  intros Hs (Hname & Hkey & Hst & nonce & -> & Hn). pose proof (ro_keys _ Hs) as Hko.
  apply put_error_none in Hname.
  destruct (encrypt_Some_total s nonce key Hko) as [ct He].
  pose proof (decrypt_encrypt_roundtrip _ _ _ _ Hn Hst He) as Hd.
  pose proof (encrypt_nonempty _ _ _ _ Hko Hkey Hn Hst He) as Hne.
  unfold peer_implements, run_peer, Observe. rewrite He. cbn [spec_peer].
  assert (Hempty : decrypt s "" = Ok "") by by apply decrypt_plain.
  destruct (getPeer_spec s name Hs)
    as [[-> Hg]|(p & k0 & pend & Hg & Hpn & -> & Hp & Hk & Hpd & Hfp & Hiff)].
  - set (p := mkPeer name ct (Fingerprint key) now now false "" zero_time).
    destruct (put_row s (peerKey name) p key "" Hs) as (Ht & Hinv & Hms); try done.
    erewrite Update_done.
    2: { unfold observe_tx. rewrite Hg. cbn [errors_is not_found]. rewrite bool_decide_true by done.
         tx_unfold. rewrite putPeer_ok by done. reflexivity. }
    cbn [mbind result_bind snd]. done.
  - destruct (k0 =s? key) eqn:Ek.
    + set (p' := set_Pending "" zero_time (set_LastSeen now p)).
      destruct (put_row s (peerKey name) p' k0 "" Hs) as (Ht & Hinv & Hms); try done.
      erewrite Update_done.
      2: { unfold observe_tx. rewrite Hg, Hk, Ek. tx_unfold.
           rewrite putPeer_ok by (by rewrite <- Hpn in Hp). reflexivity. }
      cbn [mbind result_bind snd fst pin_key pin_verified]. by rewrite Ek.
    + set (p' := set_Pending ct now p).
      destruct (put_row s (peerKey name) p' k0 key Hs) as (Ht & Hinv & Hms); try done.
      erewrite Update_done.
      2: { unfold observe_tx. rewrite Hg, Hk, Ek. tx_unfold.
           rewrite putPeer_ok by (by rewrite <- Hpn in Hp). reflexivity. }
      cbn [mbind result_bind snd fst pin_key pin_verified]. by rewrite Ek.
Qed.

Lemma verify_implements name v s : rows_ok s → peer_implements (PVerify name v) s.
Proof.
  intros Hs. unfold peer_implements, run_peer, SetVerified. cbn [spec_peer].
  destruct (getPeer_spec s name Hs)
    as [[-> Hg]|(p & k0 & pend & Hg & Hpn & -> & Hp & Hk & Hpd & Hfp & Hiff)].
  { rewrite (Update_fail s _ not_found); [done|]. tx_unfold. by rewrite Hg. }
  destruct (put_row s (peerKey name) (set_Verified v p) k0 pend Hs) as (Ht & Hinv & Hms); try done.
  erewrite Update_done.
  2: { tx_unfold. rewrite Hg. apply putPeer_ok. by rewrite <- Hpn in Hp. }
      done.
Qed.

Lemma accept_implements name s : rows_ok s → peer_implements (PAccept name) s.
Proof.
  intros Hs. unfold peer_implements, run_peer, AcceptPendingKey. cbn [spec_peer].
  destruct (getPeer_spec s name Hs)
    as [[-> Hg]|(p & k0 & pend & Hg & Hpn & -> & Hp & Hk & Hpd & Hfp & Hiff)].
  { rewrite (Update_fail s _ not_found); [done|]. unfold accept_tx. tx_unfold. by rewrite Hg. }
  cbn [pin_pending]. assert (Hpe : (p_PendingKey p =s? "") = (pend =s? "")).
  { apply eq_bool_prop_intro. rewrite !Is_true_true, !eqs_true. done. }
  destruct (pend =s? "") eqn:Ep.
  { rewrite (Update_fail s _ (Errorf "store: no pending key")); [done|].
    unfold accept_tx. tx_unfold. by rewrite Hg, Hpe. }
  set (p' := mkPeer (p_Name p) (p_PendingKey p) (Fingerprint pend) (p_FirstSeen p)
               (p_LastSeen p) false "" zero_time).
  destruct (put_row s (peerKey name) p' pend "" Hs) as (Ht & Hinv & Hms); try done.
  erewrite Update_done.
  2: { unfold accept_tx. tx_unfold. rewrite Hg, Hpe, Hpd.
       apply (putPeer_ok p'). by rewrite <- Hpn in Hp. }
      done.
Qed.

(** What [ForgetPeer] leaves behind. *)
Lemma forget_db s name p :
  peers_inv s → getPeer name (s_db s) = Ok (p, s_db s) →
  ∃ d', ForgetPeer s name = (Ok tt, with_db s d') ∧ peers_inv (with_db s d')
    ∧ d_peers d' = bdel (d_peers (s_db s)) (peerKey name)
    ∧ msg_log (with_db s d') = filter (λ m, EqualFold (m_Peer m) name = false) (msg_log s).
Proof.
  intros Hs Hg. destruct (deleteMessages_log s (λ m, EqualFold (m_Peer m) name) (pinv_msgs _ Hs))
    as (ms & d1 & Hd & Hlog & Hinv & _ & _ & ms' & ix & ob & Hfr); [done|].
  set (d' := bupd bPeers (bdel (d_peers (s_db s)) (peerKey name)) d1).
  exists d'. split_and!; try done.
  - apply Update_done. tx_unfold. rewrite Hg, Hd. subst d' d1. done.
  - split; [by apply (msgs_inv_frame (with_db s d1))|].
    intros k r. cbn. rewrite bget_del. case_decide; [done|]. exact (pinv_row _ Hs k r).
Qed.

Lemma forget_implements name s : peers_inv s → peer_implements (PForget name) s.
Proof.
  intros Hs. unfold peer_implements, run_peer. cbn [spec_peer].
  destruct (getPeer_spec s name (peers_rows _ Hs))
    as [[-> Hg]|(p & k0 & pend & Hg & Hpn & -> & Hp & Hk & Hpd & Hfp & Hiff)].
  { pose proof (peers_rows _ Hs). unfold ForgetPeer. rewrite (Update_fail s _ not_found); [done|]. tx_unfold. by rewrite Hg. }
  destruct (forget_db s name p Hs Hg) as (d' & -> & Hinv & Hd & _).
  split_and!; try done; [|by apply peers_rows|by intros _; apply pinv_msgs].
  intros k. unfold pin_table, set_pin. rewrite pins_db, Hd, bget_del.
  cbn [snd]. by destruct (decide (peerKey name = k)).
Qed.

Lemma peer_op_implements op s : peers_inv s → peer_args_ok op s → peer_implements op s.
Proof.
  intros Hs Ha. pose proof (peers_rows _ Hs).
  destruct op; auto using observe_implements, verify_implements, accept_implements, forget_implements.
Qed.

Lemma peer_implements_inv op s :
  peers_inv s → peer_implements op s → peers_inv (run_peer op s).2.
Proof.
  unfold peer_implements. intros Hs. destruct (run_peer op s) as [r s']. intros (_ & _ & Hr & Hm & _).
  apply rows_peers; [done|by apply Hm, pinv_msgs].
Qed.
End pins.

(** ** Runs *)

Section runs.
Context {B : Type → Type} `{Bolt B} `{Primitives} `{UnicodeTables}.
Implicit Types s : Store B.

Lemma spec_peer_ext op t t' :
  (∀ k, t k = t' k) →
  (spec_peer op t).1 = (spec_peer op t').1 ∧ ∀ k, (spec_peer op t).2 k = (spec_peer op t').2 k.
Proof.
  intros He. destruct op; cbn; rewrite He; repeat case_match; cbn; (split; [done|]); intros k;
    try apply He; unfold set_pin; by rewrite He.
Qed.

Lemma spec_peers_ext ops t t' :
  (∀ k, t k = t' k) →
  (spec_peers ops t).1 = (spec_peers ops t').1 ∧ ∀ k, (spec_peers ops t).2 k = (spec_peers ops t').2 k.
Proof.
  revert t t'. induction ops as [|op ops IH]; intros t t' He; [done|].
  cbn [spec_peers]. destruct (spec_peer_ext op t t' He) as [Hr Ht].
  destruct (spec_peer op t) as [r1 t1], (spec_peer op t') as [r2 t2]. cbn in Hr, Ht.
  destruct (IH _ _ Ht) as [Hrs Hts].
  destruct (spec_peers ops t1), (spec_peers ops t2). cbn in *. split; [congruence|done].
Qed.

Lemma peer_args_ok_key op s s' :
  s_encKey s' = s_encKey s → peer_args_ok op s → peer_args_ok op s'.
Proof. intros He. destruct op; [|done..]. unfold peer_args_ok, storable. by rewrite He. Qed.

(** The run, as the specification sees it. *)
Lemma run_peers_spec ops s :
  peers_inv s → Forall (λ op, peer_args_ok op s) ops →
  (run_peers ops s).1 = (spec_peers ops (pin_table s)).1
  ∧ (∀ k, pin_table (run_peers ops s).2 k = (spec_peers ops (pin_table s)).2 k)
  ∧ peers_inv (run_peers ops s).2.
Proof.
  revert s. induction ops as [|op ops IH]; intros s Hs Ha; [done|].
  apply Forall_cons in Ha as [Hop Ha]. cbn [run_peers spec_peers].
  pose proof (peer_op_implements op s Hs Hop) as Hi. pose proof (peer_implements_inv op s Hs Hi) as Hs'.
  unfold peer_implements in Hi.
  destruct (run_peer op s) as [r s']. destruct (spec_peer op (pin_table s)) as [r1 t1].
  cbn in Hi, Hs'. destruct Hi as (-> & Ht & _ & _ & Hk).
  assert (Ha' : Forall (λ op, peer_args_ok op s') ops).
  { eapply Forall_impl; [done|]. intros op'. by apply peer_args_ok_key. }
  destruct (IH s' Hs' Ha') as (Hr & Hp & Hinv).
  destruct (spec_peers_ext ops _ _ Ht) as [Hr1 Hp1].
  destruct (run_peers ops s') as [rs s'']. destruct (spec_peers ops t1) as [rs1 t2]. cbn in *.
  split_and!; [congruence| |done]. intros k. by rewrite Hp, Hp1.
Qed.

(** The folded name an operation of the user addresses. *)
Definition replaces (k : string) (op : peer_op) : Prop :=
  match op with PAccept n | PForget n => peerKey n = k | _ => False end.
Definition verifies (k : string) (op : peer_op) : Prop :=
  match op with PVerify n true => peerKey n = k | _ => False end.

Lemma spec_pin_kept op t k p :
  ¬ replaces k op → t k = Some p →
  ∃ p', (spec_peer op t).2 k = Some p' ∧ pin_key p' = pin_key p.
Proof.
  intros Hn Ht. destruct op as [name key now rnd|name v|name|name]; cbn in *;
    destruct (t (peerKey name)) as [q|] eqn:Hq; cbn;
    repeat (case_match; cbn); unfold set_pin; try case_decide; simplify_eq; eauto; done.
Qed.

Lemma spec_pins_kept ops t k p :
  Forall (λ op, ¬ replaces k op) ops → t k = Some p →
  ∃ p', (spec_peers ops t).2 k = Some p' ∧ pin_key p' = pin_key p.
Proof.
  intros Hn. revert t p. induction Hn as [|op ops Hop _ IH]; intros t p Ht; [by exists p|].
  cbn [spec_peers]. destruct (spec_pin_kept op t k p Hop Ht) as (p1 & Hp1 & Hk).
  destruct (spec_peer op t) as [r t1]. cbn in Hp1. destruct (IH t1 p1 Hp1) as (p2 & Hp2 & Hk2).
  destruct (spec_peers ops t1). exists p2. cbn in *. split; [done|congruence].
Qed.

Lemma spec_verified_back op t k p' :
  ¬ verifies k op → (spec_peer op t).2 k = Some p' → pin_verified p' = true →
  ∃ p, t k = Some p ∧ pin_verified p = true ∧ pin_key p = pin_key p'.
Proof.
  intros Hn Hp' Hv. destruct op as [name key now rnd|name v|name|name]; cbn in *;
    destruct (t (peerKey name)) as [q|] eqn:Hq; cbn in *;
    repeat (case_match; cbn in *; simplify_eq); unfold set_pin in *;
    try case_decide; simplify_eq/=; eauto; try done.
Qed.

Lemma spec_verified_back_run ops t k p' :
  Forall (λ op, ¬ verifies k op) ops → (spec_peers ops t).2 k = Some p' →
  pin_verified p' = true →
  ∃ p, t k = Some p ∧ pin_verified p = true ∧ pin_key p = pin_key p'.
Proof.
  intros Hn. revert t. induction Hn as [|op ops Hop _ IH]; intros t Hp' Hv; [by exists p'|].
  cbn [spec_peers] in Hp'. destruct (spec_peer op t) as [r t1] eqn:E.
  destruct (spec_peers ops t1) as [rs t2] eqn:E2. cbn in Hp'.
  destruct (IH t1) as (p1 & Hp1 & Hv1 & Hk1); [by rewrite E2|done|].
  destruct (spec_verified_back op t k p1 Hop) as (p & ? & ? & ?); [by rewrite E|done|].
  exists p. split_and!; [done|done|congruence].
Qed.
End runs.

(** ** The names in the table

    What holds of every name under which a peer was ever seen holds of every
    stored name: the operations keep the name of a row. *)

Section names.
Context {B : Type → Type} `{Bolt B} `{Primitives} `{UnicodeTables} (P : string → Prop).
Implicit Types s : Store B.

Definition names_are (d : DB B) : Prop :=
  ∀ k p, bget (d_peers d) k = Some (json p) → P (p_Name p).

Lemma getPeer_named d name p d' :
  names_are d → getPeer name d = Ok (p, d') → P (p_Name p) ∧ d' = d.
Proof.
  intros Hn. unfold getPeer. tx_unfold. destruct (bget (d_peers d) (peerKey name)) as [r|] eqn:E; [|done].
  destruct r as [p'|]; cbn; [|done]. intros [= <- <-]. split; [by eapply Hn|done].
Qed.

Lemma GetPeer_named s name p :
  names_are (s_db s) → GetPeer s name = Ok p → P (p_Name p).
Proof.
  intros Hn. unfold GetPeer, View, run_view. intros (p0 & Hg & Hd)%bind_ok.
  destruct (getPeer name (s_db s)) as [[p1 d']|] eqn:E; [|done]. injection Hg as <-.
  apply getPeer_named in E as [Hp _]; [|done].
  destruct (decrypt _ _); [|done]. by injection Hd as <-.
Qed.

Lemma put_named d p u d' :
  names_are d → P (p_Name p) → putPeer p d = Ok (u, d') → names_are d'.
Proof.
  intros Hd Hp. unfold putPeer, Put. destruct (put_error _); [done|]. intros [= _ <-].
  intros k p'. cbn. rewrite bget_set. case_decide; [by intros [= <-]|]. apply Hd.
Qed.

Lemma Update_named {A} s (f : Tx B A) :
  (∀ a d', names_are (s_db s) → f (s_db s) = Ok (a, d') → names_are d') →
  names_are (s_db s) → names_are (s_db (Update s f).2).
Proof.
  intros Hf Hn. unfold Update, run_update. destruct (f (s_db s)) as [[a d]|] eqn:E; [|done].
  by eapply Hf.
Qed.

Lemma observe_tx_named s name key enc now p b d d' :
  names_are d → P name → observe_tx s name key enc now d = Ok (p, b, d') →
  names_are d' ∧ P (p_Name p).
Proof.
  intros Hd Hn. unfold observe_tx. destruct (getPeer name d) as [[p0 d0]|e] eqn:Eg.
  - apply getPeer_named in Eg as [Hp ->]; [|done]. destruct (decrypt s (p_Key p0)); [|done].
    unfold mbind, tx_bind. case_match; cbv zeta;
      match goal with |- context [putPeer ?q d] => destruct (putPeer q d) as [[[] d1]|] eqn:E end;
      try done; intros [= <- _ <-]; (split; [eapply put_named; [exact Hd| |exact E]|]; done).
  - case_match; [|done]. unfold mbind, tx_bind. cbv zeta.
    match goal with |- context [putPeer ?q d] => destruct (putPeer q d) as [[[] d1]|] eqn:E end;
      [|done]. intros [= <- _ <-]. split; [eapply put_named; [exact Hd| |exact E]|]; done.
Qed.

Lemma Observe_named s name key now rnd :
  names_are (s_db s) → P name →
  names_are (s_db (Observe s name key now rnd).2) ∧
  ∀ p b, (Observe s name key now rnd).1 = Ok (p, b) → P (p_Name p).
Proof.
  intros Hd Hn. unfold Observe. destruct (encrypt s key rnd) as [enc|]; [|done].
  unfold Update, run_update.
  destruct (observe_tx s name key enc now (s_db s)) as [[[p b] d']|] eqn:E; [|done].
  apply observe_tx_named in E as [? ?]; [|done..]. split; [done|]. by intros p' b' [= <- _].
Qed.


Lemma SetVerified_named s name v : names_are (s_db s) → names_are (s_db (SetVerified s name v).2).
Proof.
  apply Update_named. intros [] d' Hs. unfold mbind, tx_bind.
  destruct (getPeer name (s_db s)) as [[p d]|] eqn:E; [|done].
  apply getPeer_named in E as [Hp ->]; [|done]. by apply put_named.
Qed.

Lemma AcceptPendingKey_named s name : names_are (s_db s) → names_are (s_db (AcceptPendingKey s name).2).
Proof.
  apply Update_named. intros [] d' Hs. unfold accept_tx, mbind, tx_bind.
  destruct (getPeer name (s_db s)) as [[p d]|] eqn:E; [|done].
  apply getPeer_named in E as [Hp ->]; [|done]. case_match; [done|].
  destruct (decrypt s (p_PendingKey p)); [|done]. by apply put_named.
Qed.
End names.

(** ** Properties *)

Section properties.
Context {B : Type → Type} `{Bolt B} `{Primitives} `{UnicodeTables}.
Implicit Types s : Store B.

(** C10: the encrypted peer rows implement trust on first use.  For every
    sequence of handshakes, verifications, acceptances and deletions, each
    operation reports what the table of pins reports (whether the key
    matched, or the error), the pins read off the final store are those of
    the final table, and the rows stay well formed: every fingerprint is
    that of the pinned key. *)
Theorem peers_refine_pins ops s :
  peers_inv s → Forall (λ op, peer_args_ok op s) ops →
  (run_peers ops s).1 = (spec_peers ops (pin_table s)).1
  ∧ (∀ k, pin_table (run_peers ops s).2 k = (spec_peers ops (pin_table s)).2 k)
  ∧ peers_inv (run_peers ops s).2.
Proof. apply run_peers_spec. Qed.

(** C11: a pin is never replaced by a handshake.  Once a name is pinned, no
    sequence of handshakes under any names and keys, and of verifications,
    changes the pinned key: only [AcceptPendingKey] or [ForgetPeer] on that
    very name can. *)
Theorem pin_never_replaced ops s name p :
  peers_inv s → Forall (λ op, peer_args_ok op s) ops →
  Forall (λ op, ¬ replaces (peerKey name) op) ops →
  pin_table s (peerKey name) = Some p →
  ∃ p', pin_table (run_peers ops s).2 (peerKey name) = Some p' ∧ pin_key p' = pin_key p.
Proof.
  intros Hs Ha Hn Hp. destruct (run_peers_spec ops s Hs Ha) as (_ & Ht & _).
  rewrite Ht. by apply spec_pins_kept.
Qed.

(** C12: a verified mark vouches for the key it was set on.  If a run holds
    no [SetVerified(name, true)], a name that is verified at the end was
    verified at the start under the same key: accepting a new key, or
    forgetting a peer and pinning it again, clears the mark. *)
Theorem verified_vouches_for_key ops s name p' :
  peers_inv s → Forall (λ op, peer_args_ok op s) ops →
  Forall (λ op, ¬ verifies (peerKey name) op) ops →
  pin_table (run_peers ops s).2 (peerKey name) = Some p' → pin_verified p' = true →
  ∃ p, pin_table s (peerKey name) = Some p ∧ pin_verified p = true ∧ pin_key p = pin_key p'.
Proof.
  intros Hs Ha Hn Hp' Hv. destruct (run_peers_spec ops s Hs Ha) as (_ & Ht & _).
  rewrite Ht in Hp'. by eapply spec_verified_back_run.
Qed.

(** [ForgetPeer] on a pinned name succeeds and deletes that pin and the
    messages whose peer folds to that name, leaving every other pin and
    every other message as it was. *)
Lemma ForgetPeer_deletes s name p :
  peers_inv s → pin_table s (peerKey name) = Some p →
  ∃ s', ForgetPeer s name = (Ok tt, s') ∧ peers_inv s'
    ∧ pin_table s' (peerKey name) = None
    ∧ (∀ k, k ≠ peerKey name → pin_table s' k = pin_table s k)
    ∧ msg_log s' = filter (λ m, EqualFold (m_Peer m) name = false) (msg_log s).
Proof.
  intros Hs Hp. destruct (getPeer_spec s name (peers_rows _ Hs)) as [[Hn _]|(q & k0 & pend & Hg & _)];
    [congruence|].
  destruct (forget_db s name q Hs Hg) as (d' & Hf & Hinv & Hd & Hlog).
  exists (with_db s d'). split_and!; [done|done| | |done]; unfold pin_table.
  - by rewrite pins_db, Hd, bget_del_eq.
  - intros k Hk. by rewrite pins_db, Hd, bget_del_ne by congruence.
Qed.
End properties.

(** ** Witnesses *)

#[local] Existing Instance gmap_bolt.
#[local] Existing Instance toy_primitives.
#[local] Existing Instance ascii_tables.

Definition ex_key1 : string := "abcdefghijklmnopqrstuvwxyz012345".
Definition ex_key2 : string := "543210zyxwvutsrqponmlkjihgfedcba".

Definition ex_peer_ops : list peer_op :=
  [ PObserve "Alice" ex_key1 1000 (Some "nonce nonce "); PVerify "alice" true;
    PObserve "ALICE" ex_key2 2000 (Some "nonce nonce "); PObserve "bob" ex_key2 3000 (Some "nonce nonce ") ].

Lemma ex_peers_inv : peers_inv ex_empty.
Proof.
  split; [apply msgs_inv_empty, ex_keys|]. intros k r. cbn. by rewrite lookup_empty.
Qed.

Lemma ex_peer_args : Forall (λ op, peer_args_ok op ex_empty) ex_peer_ops.
Proof. repeat constructor; try (by vm_compute); try done; by exists "nonce nonce ". Qed.

Lemma peers_refine_pins_witness :
  peers_inv ex_empty ∧ Forall (λ op, peer_args_ok op ex_empty) ex_peer_ops ∧
  pin_table (run_peers ex_peer_ops ex_empty).2 "alice" = Some (mkPin ex_key1 ex_key2 true).
Proof.
  split_and!; [apply ex_peers_inv|apply ex_peer_args|].
  destruct (peers_refine_pins ex_peer_ops ex_empty ex_peers_inv ex_peer_args) as (_ & Ht & _).
  rewrite Ht. by vm_compute.
Defined.

Definition ex_pinned : Store gbucket := (run_peers ex_peer_ops ex_empty).2.

Lemma ex_pinned_inv : peers_inv ex_pinned.
Proof. apply run_peers_spec; [apply ex_peers_inv|apply ex_peer_args]. Qed.

Lemma ex_pinned_args : Forall (λ op, peer_args_ok op ex_pinned) ex_peer_ops.
Proof.
  eapply Forall_impl; [apply ex_peer_args|]. intros op. by apply peer_args_ok_key.
Qed.

Lemma pin_never_replaced_witness :
  ∃ p', pin_table (run_peers ex_peer_ops ex_pinned).2 (peerKey "Alice") = Some p'
        ∧ pin_key p' = ex_key1.
Proof.
  apply (pin_never_replaced ex_peer_ops ex_pinned "Alice" (mkPin ex_key1 ex_key2 true)
    ex_pinned_inv ex_pinned_args).
  - repeat apply Forall_cons_2; try (by intros []); apply Forall_nil_2.
  - by vm_compute.
Defined.

Lemma verified_vouches_for_key_witness :
  ∃ p, pin_table ex_pinned (peerKey "alice") = Some p ∧ pin_verified p = true ∧ pin_key p = ex_key1.
Proof.
  apply (verified_vouches_for_key [PObserve "alice" ex_key2 9 (Some "nonce nonce ")] ex_pinned "alice"
    (mkPin ex_key1 ex_key2 true) ex_pinned_inv).
  - repeat constructor; try (by vm_compute); try done; by exists "nonce nonce ".
  - repeat apply Forall_cons_2; try (by intros []); apply Forall_nil_2.
  - by vm_compute.
  - done.
Defined.

Lemma ForgetPeer_deletes_example :
  ∃ s', ForgetPeer ex_pinned "aLiCe" = (Ok tt, s') ∧ pin_table s' "bob" = Some (mkPin ex_key2 "" false).
Proof.
  destruct (ForgetPeer_deletes ex_pinned "aLiCe" (mkPin ex_key1 ex_key2 true) ex_pinned_inv)
    as (s' & Hf & _ & _ & Ho & _); [by vm_compute|].
  exists s'. split; [done|]. rewrite Ho; by vm_compute.
Defined.
