(* ===== verification/StoreFiles.v ===== *)
(** * File transfers of the store (internal/store/files.go)

    Metadata in the files bucket, bytes on disk under the file directory:
    outgoing files, resumable reception with a contiguous high-water mark, and
    completion only after the hash has been checked.  [now] is [time.Now()],
    [rnd] the random read of an encryption. *)

From S2P Require Import Prelude GoStrings Utf8 Proto Sha256 Identity Base64 Crypto Bolt.
From S2P Require Import StoreData StoreCore.

Definition set_FStatus (st : string) (f : File) : File :=
  mkFile (f_ID f) (f_Peer f) (f_Dir f) (f_Name f) (f_Size f) (f_Hash f) st (f_Received f)
    (f_Sent f) (f_TS f).
Definition set_Received (n : Z) (f : File) : File :=
  mkFile (f_ID f) (f_Peer f) (f_Dir f) (f_Name f) (f_Size f) (f_Hash f) (f_Status f) n
    (f_Sent f) (f_TS f).
Definition set_Sent (n : Z) (f : File) : File :=
  mkFile (f_ID f) (f_Peer f) (f_Dir f) (f_Name f) (f_Size f) (f_Hash f) (f_Status f)
    (f_Received f) n (f_TS f).

Section operations.
Context {B : Type → Type} `{Bolt B} `{Primitives} `{DiskFaults}.
Implicit Types s : Store B.

Definition fileDir (filesDir : path) (id : string) : path := filepath_Join filesDir id.
Definition tmp_path s (id : string) : path := filepath_Join (fileDir (s_filesDir s) id) "data.tmp".
Definition enc_path s (id : string) : path := filepath_Join (fileDir (s_filesDir s) id) "data.enc".

Definition writeFileData s (p : path) (data : string) (rnd : option string) : result FS :=
  match s_encKey s with
  | None => os_WriteFile (s_disk s) p data
  | Some key => ct ← Encrypt key data rnd; os_WriteFile (s_disk s) p ct
  end.

Definition readFileData s (p : path) : result string :=
  match s_encKey s with
  | None => os_ReadFile (s_disk s) p
  | Some key => data ← os_ReadFile (s_disk s) p; Decrypt key data
  end.

(** The row of a file inside a transaction. *)
Definition get_file (id : string) : Tx B File :=
  v ← Get bFiles id;
  match v with
  | None => fail (Sentinel ErrFileNotFound)
  | Some r => lift (unmarshal r)
  end.

Definition AddOutboundFile s (id peer name hash data : string) (now : Z) (rnd : option string)
    : result unit * Store B :=
  match os_MkdirAll (fileDir (s_filesDir s) id) with
  | Err e => (Err (Wrapf "store: create file dir" e), s)
  | Ok _ =>
      match writeFileData s (enc_path s id) data rnd with
      | Err e => (Err (Wrapf "store: write file data" e), s)
      | Ok fs =>
          let f := mkFile id peer DirOut name (slen data) hash FileQueued 0 0 now in
          Update (with_disk s fs) (_ ← Put bFiles id (json f); Put bFileOutbox id id)
      end
  end.

Definition GetFile s (id : string) : result File := View s (get_file id).

(** How many bytes of an earlier partial can be kept. *)
Definition resume_at s (id hash : string) (size : Z) : Z :=
  match GetFile s id with
  | Ok prev =>
      if (f_Status prev =s? FileReceiving) && (f_Hash prev =s? hash) && (f_Size prev =? size) then
        match os_Stat (s_disk s) (tmp_path s id) with
        | Ok n =>
            let resume := if n <? f_Received prev then n else f_Received prev in
            if (resume <? 0) || (size <? resume) then 0 else resume
        | Err _ => 0
        end
      else 0
  | Err _ => 0
  end.

Definition BeginReceive s (id peer name hash : string) (size now : Z) : result Z * Store B :=
  match os_MkdirAll (fileDir (s_filesDir s) id) with
  | Err e => (Err (Wrapf "store: create receive dir" e), s)
  | Ok _ =>
      let resume := resume_at s id hash size in
      match (if resume =? 0 then os_WriteFile (s_disk s) (tmp_path s id) "" else Ok (s_disk s)) with
      | Err e => (Err (Wrapf "store: init temp file" e), s)
      | Ok fs =>
          let f := mkFile id peer DirIn name size hash FileReceiving resume 0 now in
          let (r, s') := Update (with_disk s fs) (Put bFiles id (json f)) in
          (_ ← r; Ok resume, s')
      end
  end.

(** The transaction of [WriteChunk]. *)
Definition chunk_tx (id : string) (offset len : Z) : Tx B File :=
  file ← get_file id;
  if f_Received file <? offset then fail (Errorf "store: chunk leaves a gap") else
  let end_ := int64 (offset + len) in
  let file := if f_Received file <? end_ then set_Received end_ file else file in
  let file := if f_Size file <? f_Received file then set_Received (f_Size file) file else file in
  _ ← Put bFiles id (json file);
  mret file.

Definition WriteChunk s (id : string) (offset : Z) (data : string) : result File * Store B :=
  match os_OpenCreate (s_disk s) (tmp_path s id) with
  | Err e => (Err (Wrapf "store: open temp file" e), s)
  | Ok fs =>
      match os_WriteAt fs (tmp_path s id) offset data with
      | Err e => (Err (Wrapf "store: write chunk" e), with_disk s fs)
      | Ok fs => Update (with_disk s fs) (chunk_tx id offset (slen data))
      end
  end.

Definition setFileStatus s (id status : string) : result unit * Store B :=
  Update s (f ← get_file id; Put bFiles id (json (set_FStatus status f))).

Definition markFileFailed s (id : string) : Store B := (setFileStatus s id FileFailed).2.

(** The checks of [CompleteFile] before it reads the bytes. *)
Definition complete_view (id : string) : Tx B File :=
  file ← get_file id;
  if negb (f_Status file =s? FileReceiving) then fail (Errorf "store: file not in receiving state") else
  if negb (f_Received file =? f_Size file) then fail (Errorf "store: file truncated") else
  mret file.

(** [CompleteFile] is not one step: it reads the row and the bytes, and then
    verifies them, writes the file and updates the row, which another
    session may have changed in between. *)
Definition complete_read s (id : string) : result (File * string) :=
  file ← View s (complete_view id);
  data ← os_ReadFile (s_disk s) (tmp_path s id);
  Ok (file, data).

Definition complete_finish s (id : string) (file : File) (data : string) (rnd : option string)
    : result unit * Store B :=
  if negb (hex_encode (Sum256 data) =s? f_Hash file) then
    let s := markFileFailed s id in
    (Err (Sentinel ErrFileHashMismatch), with_disk s (os_Remove (s_disk s) (tmp_path s id)))
  else
    match writeFileData s (enc_path s id) data rnd with
    | Err e => (Err e, s)
    | Ok fs =>
        let (r, s') := setFileStatus (with_disk s fs) id FileComplete in
        match r with
        | Err e => (Err e, s')
        | Ok _ => (Ok tt, with_disk s' (os_Remove (s_disk s') (tmp_path s' id)))
        end
    end.

Definition CompleteFile s (id : string) (rnd : option string) : result unit * Store B :=
  match complete_read s id with
  | Err e => (Err e, s)
  | Ok (file, data) => complete_finish s id file data rnd
  end.

Definition CancelReceive s (id : string) : result unit * Store B :=
  let (r, s') := Update s (
    v ← Get bFiles id;
    match v with
    | None => fail (Sentinel ErrFileNotFound)
    | Some r =>
        let status := match r with json f => f_Status f | corrupt => "" end in
        if negb (status =s? FileReceiving) then fail (Errorf "store: file not in receiving state")
        else Delete bFiles id
    end) in
  match r with
  | Err e => (Err e, s')
  | Ok _ => (Ok tt, with_disk s' (os_RemoveAll (s_disk s') (fileDir (s_filesDir s') id)))
  end.

(** The callback of [FileOutbox] on a key of the outbox. *)
Definition outbox_file (d : DB B) (k : string) : result (list File) :=
  match bget (d_files d) k with
  | None => Ok []
  | Some r => f ← unmarshal r; Ok [f]
  end.

Definition FileOutbox s : result (list File) :=
  out ← mapM (outbox_file (s_db s)) (bitems (d_fileoutbox (s_db s))).*1; Ok (concat out).

(** [MarkFileSent] and [DeleteFileOutbox] leave the outbox and rewrite the row. *)
Definition leave_outbox (id : string) (f : File → File) : Tx B unit :=
  _ ← Delete bFileOutbox id;
  v ← Get bFiles id;
  match v with
  | None => mret tt
  | Some r => file ← lift (unmarshal r); Put bFiles id (json (f file))
  end.

Definition MarkFileSent s (id : string) : result unit * Store B :=
  Update s (leave_outbox id (λ f, set_Sent (f_Size f) (set_FStatus FileSent f))).

Definition DeleteFileOutbox s (id : string) : result unit * Store B :=
  Update s (leave_outbox id (set_FStatus FileQueued)).

Definition ListFiles s : result (list File) :=
  mapM unmarshal (reverse (bitems (d_files (s_db s))).*2).

Definition FileBlob s (id : string) : result string := readFileData s (enc_path s id).

Definition FileData s (id : string) : result string :=
  f ← GetFile s id;
  if negb (f_Status f =s? FileComplete) then Err (Errorf "store: file not complete")
  else FileBlob s id.

Definition MarkFileSending s (id : string) : result unit * Store B :=
  Update s (
    f ← get_file id;
    let f := if f_Status f =s? FileQueued then set_FStatus FileSending f else f in
    Put bFiles id (json (set_Sent 0 f))).

Definition DeleteFile s (id : string) : result unit * Store B :=
  let (r, s') := Update s (_ ← Delete bFileOutbox id; Delete bFiles id) in
  match r with
  | Err e => (Err e, s')
  | Ok _ => (Ok tt, with_disk s' (os_RemoveAll (s_disk s') (fileDir (s_filesDir s') id)))
  end.
End operations.
