(* ===== verification/FileTransfer.v ===== *)
(** * Resumable, hash-verified reception (properties of StoreFiles.v)

    Two invariants of the file store.  [recv_ok]: while the bytes of one
    source text arrive in slices, in any order and any number of times, the
    temporary file agrees with the source up to the high-water mark.
    [files_inv]: whatever bytes a sender supplies, a file in the complete
    state reads back as bytes with the advertised hash. *)

From S2P Require Import Prelude GoStrings Utf8 Proto Sha256 Identity Base64 Crypto Bolt.
From S2P Require Import StoreData StoreCore MessageLog StoreFiles.

(** ** Writing a slice of the source *)

(** The slice of [src] of length [len] at [off]. *)
Definition slice_of (src : string) (off len : Z) : string :=
  str_take (Z.to_nat len) (str_drop (Z.to_nat off) src).

(** [t] agrees with [src] on the first [r] bytes. *)
Definition agrees (r : Z) (t src : string) : Prop :=
  ∀ i : nat, Z.of_nat i < r → bytes_of t !! i = bytes_of src !! i.

Lemma bytes_of_take n s : bytes_of (str_take n s) = take n (bytes_of s).
Proof. unfold str_take. apply bytes_of_of, Forall_take; auto with chirp. Qed.

Lemma bytes_of_drop n s : bytes_of (str_drop n s) = drop n (bytes_of s).
Proof. unfold str_drop. apply bytes_of_of, Forall_drop; auto with chirp. Qed.

Lemma slice_len src off len :
  0 <= off → 0 <= len → off + len <= slen src → slen (slice_of src off len) = len.
Proof.
  intros Ho Hl He. unfold slice_of, slen. rewrite <- bytes_of_length, bytes_of_take, bytes_of_drop.
  rewrite length_take, length_drop, bytes_of_length. unfold slen in He. lia.
Qed.

Lemma slice_lookup src off len (i : nat) :
  0 <= off → Z.of_nat i < len →
  bytes_of (slice_of src off len) !! i = bytes_of src !! (Z.to_nat off + i)%nat.
Proof.
  intros Ho Hi. unfold slice_of. rewrite bytes_of_take, bytes_of_drop.
  rewrite lookup_take_lt by lia. by rewrite lookup_drop.
Qed.

(** Writing a true slice that starts at or before the mark moves the mark to
    the end of the slice, and never back. *)
Lemma agrees_write r t src off len :
  agrees r t src → r <= slen t → 0 <= off → 0 <= len → off + len <= slen src → off <= r →
  agrees (Z.max r (off + len)) (write_at t off (slice_of src off len)) src.
Proof.
  intros Ha Hr Ho Hl He Hor i Hi. rewrite write_at_lookup by lia.
  rewrite slice_len by done. case_decide; [apply Ha; lia|]. case_decide.
  - rewrite slice_lookup by lia. f_equal. lia.
  - apply Ha. lia.
Qed.

(** Writing beyond the mark leaves the bytes below it. *)
Lemma agrees_beyond r t src off data :
  agrees r t src → r <= slen t → 0 <= off → r <= off → agrees r (write_at t off data) src.
Proof.
  intros Ha Hr Ho Hor i Hi. rewrite <- Ha by done. unfold write_at. unfold slen in Hr.
  pose proof (bytes_of_length t).
  rewrite bytes_of_of.
  2: { rewrite !Forall_app. split_and!; [apply Forall_take, Forall_app; split|..|apply Forall_drop];
       auto with chirp. apply Forall_replicate. unfold is_byte. lia. }
  rewrite lookup_app_l by (rewrite length_take, length_app, length_replicate; lia).
  rewrite lookup_take_lt by lia. by rewrite lookup_app_l by lia.
Qed.

Lemma agrees_full t src : agrees (slen src) t src → slen t = slen src → t = src.
Proof.
  intros Ha Hl. apply bytes_of_inj, list_eq. intros i. unfold slen in *.
  destruct (decide (i < String.length src)%nat); [apply Ha; lia|].
  rewrite !lookup_ge_None_2; rewrite ?bytes_of_length; [done|lia|lia].
Qed.

(** ** Paths of one file *)

Definition file_id_ok (id : string) : Prop := plain id ∧ 0 < slen id <= 32768.

Section paths.
Context {B : Type → Type} `{Bolt B}.
Implicit Types s : Store B.

Lemma plain_names : plain "data.tmp" ∧ plain "data.enc".
Proof. split; split_and!; try done; apply (bool_decide_unpack _); by vm_compute. Qed.

Lemma fileDir_eq dir id : clean_path dir → plain id → fileDir dir id = dir ++ [id].
Proof. apply filepath_Join_plain. Qed.

Lemma file_paths s id name :
  clean_path (s_filesDir s) → plain id → plain name →
  filepath_Join (fileDir (s_filesDir s) id) name = s_filesDir s ++ [id; name].
Proof.
  intros Hd Hi Hn. rewrite (fileDir_eq (s_filesDir s) id) by done.
  rewrite filepath_Join_plain; [by rewrite <- (assoc_L (++))| |done].
  apply Forall_app. split; [done|]. destruct Hi as (? & ? & ? & _). by repeat constructor.
Qed.

Lemma tmp_path_eq s id :
  clean_path (s_filesDir s) → plain id → tmp_path s id = s_filesDir s ++ [id; "data.tmp"].
Proof. intros. apply file_paths; [done..|apply plain_names]. Qed.

Lemma enc_path_eq s id :
  clean_path (s_filesDir s) → plain id → enc_path s id = s_filesDir s ++ [id; "data.enc"].
Proof. intros. apply file_paths; [done..|apply plain_names]. Qed.

Lemma enc_tmp_ne s id id' :
  clean_path (s_filesDir s) → plain id → plain id' → enc_path s id ≠ tmp_path s id'.
Proof. intros Hd Hi Hi'. rewrite enc_path_eq, tmp_path_eq by done. by intros [=]%app_inv_head. Qed.

Lemma enc_path_inj s id id' :
  clean_path (s_filesDir s) → plain id → plain id' → enc_path s id = enc_path s id' → id = id'.
Proof. intros Hd Hi Hi'. rewrite !enc_path_eq by done. by intros [=]%app_inv_head. Qed.

(** Removing the directory of one file leaves the bytes of the others. *)
Lemma removeall_other s id id' :
  clean_path (s_filesDir s) → plain id → plain id' → id ≠ id' →
  os_RemoveAll (s_disk s) (fileDir (s_filesDir s) id) !! enc_path s id'
  = s_disk s !! enc_path s id'.
Proof.
  intros Hd Hi Hi' Hne. unfold os_RemoveAll. rewrite fileDir_eq, enc_path_eq by done.
  destruct (s_disk s !! _) as [v|] eqn:E.
  - apply map_lookup_filter_Some. split; [done|]. cbn.
    destruct (below _ _) eqn:Eb; [|done]. apply below_spec in Eb as [r Hr].
    rewrite <- (assoc_L (++)) in Hr. apply app_inv_head in Hr. by injection Hr.
  - apply map_lookup_filter_None. by left.
Qed.
End paths.

(** ** Operations as data *)

Inductive file_op :=
| FAdd (id peer name hash data : string) (now : Z) (rnd : option string)
| FBegin (id peer name hash : string) (size now : Z)
| FChunk (id : string) (offset : Z) (data : string)
| FComplete (id : string) (rnd : option string)
| FCancel (id : string)
| FSent (id : string)
| FUnqueue (id : string)
| FSending (id : string)
| FDelete (id : string).

Definition op_file (op : file_op) : string :=
  match op with
  | FAdd id _ _ _ _ _ _ | FBegin id _ _ _ _ _ | FChunk id _ _ | FComplete id _ | FCancel id
  | FSent id | FUnqueue id | FSending id | FDelete id => id
  end.

(** Identifiers come from [NewID] or passed [checkID]; nonces are 12 bytes. *)
Definition file_args_ok (op : file_op) : Prop :=
  file_id_ok (op_file op) ∧
  match op with FComplete _ (Some nonce) => slen nonce = 12 | _ => True end.

Section integrity.
Context {B : Type → Type} `{Bolt B} `{Primitives} `{DiskFaults}.
Implicit Types (s : Store B) (f : File).

Definition run_file (op : file_op) s : Store B :=
  match op with
  | FAdd id peer name hash data now rnd => (AddOutboundFile s id peer name hash data now rnd).2
  | FBegin id peer name hash size now => (BeginReceive s id peer name hash size now).2
  | FChunk id offset data => (WriteChunk s id offset data).2
  | FComplete id rnd => (CompleteFile s id rnd).2
  | FCancel id => (CancelReceive s id).2
  | FSent id => (MarkFileSent s id).2
  | FUnqueue id => (DeleteFileOutbox s id).2
  | FSending id => (MarkFileSending s id).2
  | FDelete id => (DeleteFile s id).2
  end.

Definition run_files (ops : list file_op) s : Store B := foldl (λ s op, run_file op s) s ops.

Definition hash_ok s (id hash : string) : Prop :=
  ∀ data, FileBlob s id = Ok data → hex_encode (Sum256 data) = hash.

Record files_inv s : Prop := {
  finv_dir : clean_path (s_filesDir s);
  finv_key k : s_encKey s = Some k → slen k = 32;
  finv_id id r : bget (d_files (s_db s)) id = Some r → file_id_ok id;
  finv_complete id f : bget (d_files (s_db s)) id = Some (json f) →
    f_Status f = FileComplete → hash_ok s id (f_Hash f) }.

(** Two stores with the same keys and directory. *)
Definition same_keys s s' : Prop := s_encKey s' = s_encKey s ∧ s_filesDir s' = s_filesDir s.

Lemma blob_eq s s' id :
  same_keys s s' → s_disk s' !! enc_path s id = s_disk s !! enc_path s id →
  FileBlob s' id = FileBlob s id.
Proof.
  intros [Hk Hd] He. unfold FileBlob, readFileData, enc_path, os_ReadFile in *.
  rewrite Hk, Hd. by rewrite He.
Qed.

Lemma inv_put s s' id f :
  files_inv s → same_keys s s' → file_id_ok id →
  d_files (s_db s') = bset (d_files (s_db s)) id (json f) →
  (∀ id', file_id_ok id' → id' ≠ id → s_disk s' !! enc_path s id' = s_disk s !! enc_path s id') →
  (f_Status f = FileComplete → hash_ok s' id (f_Hash f)) → files_inv s'.
Proof.
  intros Hs Hk Hid Ef Hdisk Hc. pose proof Hk as [Hek Hfd].
  split; [by rewrite Hfd; apply Hs|rewrite Hek; apply Hs|..]; intros id'.
  - intros r. rewrite Ef, bget_set. case_decide; [by subst|]. apply (finv_id _ Hs).
  - intros f'. rewrite Ef, bget_set. case_decide as Hd; [intros [= <-]; by subst|].
    intros Hg Hst data Hb. rewrite (blob_eq s s') in Hb; [|done|].
    + by apply (finv_complete _ Hs _ _ Hg Hst).
    + apply Hdisk; [by apply (finv_id _ Hs) in Hg|congruence].
Qed.

Lemma inv_same s s' :
  files_inv s → same_keys s s' → d_files (s_db s') = d_files (s_db s) →
  (∀ id', file_id_ok id' → s_disk s' !! enc_path s id' = s_disk s !! enc_path s id') →
  files_inv s'.
Proof.
  intros Hs Hk Ef Hdisk. pose proof Hk as [Hek Hfd].
  split; [by rewrite Hfd; apply Hs|rewrite Hek; apply Hs|..]; intros id'; rewrite Ef.
  - apply (finv_id _ Hs).
  - intros f' Hg Hst data Hb. rewrite (blob_eq s s') in Hb; [|done|].
    + by apply (finv_complete _ Hs _ _ Hg Hst).
    + apply Hdisk. by apply (finv_id _ Hs) in Hg.
Qed.

Lemma inv_del s s' id :
  files_inv s → same_keys s s' → d_files (s_db s') = bdel (d_files (s_db s)) id →
  (∀ id', file_id_ok id' → id' ≠ id → s_disk s' !! enc_path s id' = s_disk s !! enc_path s id') →
  files_inv s'.
Proof.
  intros Hs Hk Ef Hdisk. pose proof Hk as [Hek Hfd].
  split; [by rewrite Hfd; apply Hs|rewrite Hek; apply Hs|..]; intros id' r;
    rewrite Ef, bget_del; case_decide as Hd; try done.
  - apply (finv_id _ Hs).
  - intros Hg Hst data Hb. rewrite (blob_eq s s') in Hb; [|done|].
    + by apply (finv_complete _ Hs _ _ Hg Hst).
    + apply Hdisk; [by apply (finv_id _ Hs) in Hg|congruence].
Qed.

Lemma id_put id : file_id_ok id → put_error id = None.
Proof. intros [_ ?]. by apply put_error_none. Qed.

Lemma get_file_ok id d f d' :
  get_file id d = Ok (f, d') ↔ d' = d ∧ bget (d_files d) id = Some (json f).
Proof.
  unfold get_file. tx_unfold. destruct (bget (d_files d) id) as [[f0|]|]; cbn; naive_solver.
Qed.

(** A transaction that reads the row of [id] and rewrites it with [g]. *)
Lemma rewrite_row s id (g : File → File) :
  file_id_ok id →
  (∃ e, Update s (f ← get_file id; Put bFiles id (json (g f))) = (Err e, s))
  ∨ ∃ f, bget (d_files (s_db s)) id = Some (json f) ∧
      Update s (f ← get_file id; Put bFiles id (json (g f)))
      = (Ok tt, with_db s (bupd bFiles (bset (d_files (s_db s)) id (json (g f))) (s_db s))).
Proof.
  intros Hid. destruct (get_file id (s_db s)) as [[f d]|e] eqn:E.
  - apply get_file_ok in E as E'. destruct E' as [-> Hg]. right. exists f. split; [done|].
    apply Update_done. unfold mbind, tx_bind. rewrite E. unfold Put. by rewrite (id_put id Hid).
  - left. exists e. apply Update_fail. unfold mbind, tx_bind. by rewrite E.
Qed.

Lemma rewrite_inv s id g :
  files_inv s → file_id_ok id →
  (∀ f, f_Status (g f) = FileComplete → f_Status f = FileComplete ∧ f_Hash (g f) = f_Hash f) →
  files_inv (Update s (f ← get_file id; Put bFiles id (json (g f)))).2.
Proof.
  intros Hs Hid Hg. destruct (rewrite_row s id g Hid) as [[e ->]|(f & Hf & ->)]; [done|].
  apply (inv_put s _ id (g f)); try done. cbn. intros [Hst ->]%Hg.
  by apply (finv_complete _ Hs _ _ Hf).
Qed.

Lemma disk_insert_tmp s id v id' :
  clean_path (s_filesDir s) → file_id_ok id → file_id_ok id' →
  (<[tmp_path s id := v]> (s_disk s)) !! enc_path s id' = s_disk s !! enc_path s id'.
Proof.
  intros Hd [Hi _] [Hi' _]. apply lookup_insert_ne. intros He. by apply (enc_tmp_ne s id' id Hd Hi' Hi).
Qed.

Lemma disk_insert_enc s id v id' :
  clean_path (s_filesDir s) → file_id_ok id → file_id_ok id' → id' ≠ id →
  (<[enc_path s id := v]> (s_disk s)) !! enc_path s id' = s_disk s !! enc_path s id'.
Proof.
  intros Hd [Hi _] [Hi' _] Hne. apply lookup_insert_ne. intros He.
  apply Hne. symmetry. by eapply enc_path_inj.
Qed.
End integrity.

(** ** Every operation keeps the integrity invariant *)

Section preservation.
Context {B : Type → Type} `{Bolt B} `{Primitives} `{DiskFaults}.
Implicit Types (s : Store B) (f : File).

Lemma writeFileData_ok s p data rnd fs :
  writeFileData s p data rnd = Ok fs → ∃ ct, fs = <[p := ct]> (s_disk s) ∧
    match s_encKey s with
    | None => ct = data
    | Some key => Encrypt key data rnd = Ok ct
    end.
Proof.
  unfold writeFileData, os_WriteFile. destruct (s_encKey s) as [k|].
  - intros (ct & He & ([] & _ & [= <-])%bind_ok)%bind_ok. eauto.
  - intros ([] & _ & [= <-])%bind_ok. eauto.
Qed.

Lemma add_inv id peer name hash data now rnd s :
  files_inv s → file_id_ok id → files_inv (AddOutboundFile s id peer name hash data now rnd).2.
Proof.
  intros Hs Hid. unfold AddOutboundFile. destruct (os_MkdirAll _) as [[]|]; [|done].
  destruct (writeFileData _ _ _ _) as [fs|] eqn:Ew; [|done].
  apply writeFileData_ok in Ew as (ct & -> & _).
  set (f := mkFile _ _ _ _ _ _ _ _ _ _).
  erewrite Update_done; [|tx_unfold; rewrite (id_put id Hid); reflexivity].
  apply (inv_put s _ id f); try done. cbn [snd s_disk with_db with_disk].
  intros id' Hid' Hne. apply disk_insert_enc; try done. by apply Hs.
Qed.

Lemma begin_inv id peer name hash size now s :
  files_inv s → file_id_ok id → files_inv (BeginReceive s id peer name hash size now).2.
Proof.
  intros Hs Hid. unfold BeginReceive. destruct (os_MkdirAll _) as [[]|]; [|done].
  cbv zeta. set (f := mkFile _ _ _ _ _ _ _ _ _ _).
  destruct (if resume_at s id hash size =? 0 then _ else _) as [fs|] eqn:Ew; [|done].
  erewrite Update_done; [|tx_unfold; rewrite (id_put id Hid); reflexivity].
  apply (inv_put s _ id f); try done. cbn [snd s_disk with_db with_disk].
  intros id' Hid' Hne. destruct (_ =? 0); [|by injection Ew as <-].
  apply bind_ok in Ew as ([] & _ & [= <-]). apply disk_insert_tmp; try done. by apply Hs.
Qed.

Lemma chunk_tx_ok id off len d f d' :
  file_id_ok id → chunk_tx id off len d = Ok (f, d') →
  ∃ f0 n, bget (d_files d) id = Some (json f0) ∧ f = set_Received n f0
    ∧ d' = bupd bFiles (bset (d_files d) id (json f)) d.
Proof.
  intros Hid. unfold chunk_tx, mbind, tx_bind.
  destruct (get_file id d) as [[f0 d0]|] eqn:E; [|done]. apply get_file_ok in E as [-> Hg].
  destruct (f_Received f0 <? off); [done|]. cbv zeta.
  unfold Put, mret, tx_ret. rewrite (id_put id Hid). intros [= <- <-].
  exists f0. destruct (f_Received f0 <? _).
  - cbn [set_Received f_Size f_Received]. destruct (f_Size f0 <? _); by eexists.
  - destruct (f_Size f0 <? _); [by eexists|]. exists (f_Received f0). by destruct f0.
Qed.

Lemma chunk_inv id off data s :
  files_inv s → file_id_ok id → files_inv (WriteChunk s id off data).2.
Proof.
  intros Hs Hid. pose proof (finv_dir _ Hs) as Hdir. unfold WriteChunk.
  destruct (os_OpenCreate _ _) as [fs|] eqn:Eo; [|done].
  apply bind_ok in Eo as ([] & _ & [= <-]).
  assert (Hfs : ∀ fs', os_WriteAt (<[tmp_path s id := default "" (s_disk s !! tmp_path s id)]> (s_disk s))
      (tmp_path s id) off data = Ok fs' → ∃ v, fs' = <[tmp_path s id := v]> (s_disk s)).
  { intros fs'. unfold os_WriteAt. destruct (off <? 0); [done|].
    intros ([] & _ & Hb)%bind_ok. destruct (_ =? 0); injection Hb as <-; [by eexists|].
    eexists. by rewrite insert_insert_eq. }
  destruct (os_WriteAt _ _ _ _) as [fs'|] eqn:Ew.
  2: { apply (inv_same s); try done. intros id' Hid'. by apply disk_insert_tmp. }
  destruct (Hfs fs' eq_refl) as [v ->]. unfold Update, run_update.
  destruct (chunk_tx id off (slen data) _) as [[f d]|] eqn:Ec.
  - apply chunk_tx_ok in Ec as (f0 & n & Hg & -> & ->); [|done].
    apply (inv_put s _ id (set_Received n f0)); try done.
    + intros id' Hid' _. by apply disk_insert_tmp.
    + cbn. intros Hst dd Hb. rewrite (blob_eq s) in Hb; [|done|by apply disk_insert_tmp].
      by apply (finv_complete _ Hs _ _ Hg Hst).
  - apply (inv_same s); try done. intros id' Hid'. by apply disk_insert_tmp.
Qed.

Lemma status_inv id st s :
  files_inv s → file_id_ok id → st ≠ FileComplete → files_inv (setFileStatus s id st).2.
Proof. intros Hs Hid Hst. by apply rewrite_inv. Qed.

Lemma complete_view_ok id s f :
  View s (complete_view id) = Ok f →
  bget (d_files (s_db s)) id = Some (json f) ∧ f_Status f = FileReceiving
  ∧ f_Received f = f_Size f.
Proof.
  unfold View, run_view, complete_view, mbind, tx_bind.
  destruct (get_file id (s_db s)) as [[f0 d0]|] eqn:E; [|done]. apply get_file_ok in E as [-> Hg].
  destruct (f_Status f0 =s? FileReceiving) eqn:E1; [|done].
  destruct (Z.eqb_spec (f_Received f0) (f_Size f0)); [|done].
  intros [= <-]. by apply eqs_true in E1.
Qed.

(** What was just written is what is read back. *)
Lemma blob_written s id data rnd fs :
  (∀ k, s_encKey s = Some k → slen k = 32) → (∀ nonce, rnd = Some nonce → slen nonce = 12) →
  writeFileData s (enc_path s id) data rnd = Ok fs →
  ∃ ct, fs = <[enc_path s id := ct]> (s_disk s) ∧
    ∀ s', same_keys s s' → s_disk s' !! enc_path s id = Some ct →
      FileBlob s' id = (_ ← fault "read" (enc_path s id); Ok data).
Proof.
  intros Hk Hn (ct & -> & Hct)%writeFileData_ok. exists ct. split; [done|].
  intros s' [Hek Hfd] Hd. unfold FileBlob, readFileData, enc_path, os_ReadFile in *.
  rewrite Hek, Hfd, Hd. destruct (s_encKey s) as [k|].
  - destruct (fault _ _); [|done]. cbn.
    pose proof Hct as (_ & n & -> & _)%Encrypt_ok.
    by apply (Decrypt_Encrypt k data n ct); [apply Hn|].
  - subst ct. by destruct (fault _ _).
Qed.

Lemma remove_tmp_enc s fs id id' :
  clean_path (s_filesDir s) → file_id_ok id → file_id_ok id' →
  os_Remove fs (tmp_path s id) !! enc_path s id' = fs !! enc_path s id'.
Proof.
  intros Hd [Hi _] [Hi' _]. apply lookup_delete_ne. intros He.
  by apply (enc_tmp_ne s id' id Hd Hi' Hi).
Qed.

Lemma complete_inv id rnd s :
  files_inv s → file_args_ok (FComplete id rnd) → files_inv (CompleteFile s id rnd).2.
Proof.
  intros Hs [Hid Hn]. pose proof (finv_dir _ Hs) as Hdir. cbn in Hid. unfold CompleteFile.
  destruct (complete_read s id) as [[f data]|] eqn:Ev; [|done]. cbn [snd].
  apply bind_ok in Ev as (f' & (Hg & _)%complete_view_ok & (data' & _ & [= -> ->])%bind_ok).
  unfold complete_finish.
  destruct (hex_encode (Sum256 data) =s? f_Hash f) eqn:Eh; cbn [negb].
  - apply eqs_true in Eh. destruct (writeFileData _ _ _ _) as [fs|] eqn:Ew; [|done].
    apply blob_written in Ew as (ct & -> & Hb); [|apply Hs|by destruct rnd; intros ? [= <-]].
    destruct (rewrite_row (with_disk s (<[enc_path s id := ct]> (s_disk s))) id
      (set_FStatus FileComplete) Hid) as [[e He]|(f0 & Hf0 & He)]; unfold setFileStatus; rewrite He.
    { exfalso. revert He. unfold Update, run_update, mbind, tx_bind, get_file. tx_unfold.
      cbn. rewrite Hg. cbn. by rewrite (id_put id Hid). }
    assert (f0 = f) as -> by (cbn in Hf0; congruence).
    apply (inv_put s _ id (set_FStatus FileComplete f)); try done; cbn [snd s_disk with_db with_disk].
    + intros id' Hid' Hne. match goal with |- context [tmp_path ?x id] =>
        change (tmp_path x id) with (tmp_path s id) end.
      rewrite remove_tmp_enc by done. by apply disk_insert_enc.
    + intros _ dd Hdd. rewrite Hb in Hdd; [|done|].
      * by apply bind_ok in Hdd as ([] & _ & [= <-]).
      * cbn [snd s_disk with_db with_disk].
        match goal with |- context [tmp_path ?x id] =>
        change (tmp_path x id) with (tmp_path s id) end.
        rewrite remove_tmp_enc by done. by rewrite lookup_insert_eq.
  - unfold markFileFailed. cbn [snd].
    pose proof (status_inv id FileFailed s Hs Hid ltac:(done)) as Hs'.
    assert (Hsame : same_keys s (setFileStatus s id FileFailed).2).
    { unfold setFileStatus, Update. by destruct (run_update _ _). }
    apply (inv_same (setFileStatus s id FileFailed).2); try done.
    intros id' Hid'. cbn [with_disk s_disk]. apply remove_tmp_enc; try done. apply Hs'.
Qed.

Lemma removeall_inv s s1 id :
  files_inv s → file_id_ok id → same_keys s s1 → s_disk s1 = s_disk s →
  d_files (s_db s1) = bdel (d_files (s_db s)) id →
  files_inv (with_disk s1 (os_RemoveAll (s_disk s1) (fileDir (s_filesDir s1) id))).
Proof.
  intros Hs Hid [Hk Hd] Hdisk Hf. apply (inv_del s _ id); try done.
  intros id' Hid' Hne. cbn [with_disk s_disk]. rewrite Hdisk, Hd.
  apply removeall_other; [apply Hs|apply Hid|apply Hid'|congruence].
Qed.

Lemma cancel_inv id s : files_inv s → file_id_ok id → files_inv (CancelReceive s id).2.
Proof.
  intros Hs Hid. unfold CancelReceive, Update, run_update. tx_unfold.
  destruct (bget (d_files (s_db s)) id) as [r|]; [|by destruct s].
  destruct (negb _); [by destruct s|]. by apply (removeall_inv s).
Qed.

Lemma delete_inv id s : files_inv s → file_id_ok id → files_inv (DeleteFile s id).2.
Proof. intros Hs Hid. unfold DeleteFile, Update, run_update. tx_unfold. by apply (removeall_inv s). Qed.

Lemma leave_inv id g s :
  files_inv s → file_id_ok id → (∀ f, f_Status (g f) ≠ FileComplete) →
  files_inv (Update s (leave_outbox id g)).2.
Proof.
  intros Hs Hid Hg. unfold Update, run_update, leave_outbox. tx_unfold.
  destruct (bget (d_files (s_db s)) id) as [[f|]|] eqn:E; cbn [unmarshal].
  - rewrite (id_put id Hid). apply (inv_put s _ id (g f)); try done.
    intros Hst. by apply Hg in Hst.
  - by destruct s.
  - by apply (inv_same s).
Qed.

Lemma sending_inv id s : files_inv s → file_id_ok id → files_inv (MarkFileSending s id).2.
Proof.
  intros Hs Hid. unfold MarkFileSending.
  apply (rewrite_inv s id (λ f, set_Sent 0
    (if f_Status f =s? FileQueued then set_FStatus FileSending f else f))); try done.
  intros f. by destruct (f_Status f =s? FileQueued).
Qed.

Lemma file_op_inv op s : files_inv s → file_args_ok op → files_inv (run_file op s).
Proof.
  intros Hs Ha. pose proof Ha as [Hid _].
  destruct op; cbn [op_file run_file] in *;
    eauto using add_inv, begin_inv, chunk_inv, cancel_inv, delete_inv, sending_inv;
    [by apply complete_inv|by apply leave_inv|by apply leave_inv].
Qed.

Lemma file_ops_inv ops s : files_inv s → Forall file_args_ok ops → files_inv (run_files ops s).
Proof.
  intros Hs Ha. revert s Hs. induction Ha as [|op ops Hop _ IH]; intros s Hs; [done|].
  apply IH. by apply file_op_inv.
Qed.
End preservation.

(** ** Receiving one source text *)

(** What reaches the receiver: a header again (a reconnect), or a slice of
    the source at some offset. *)
Inductive recv_ev :=
| RHeader (peer name : string) (now : Z)
| RSlice (off len : Z).

Definition ev_ok (src : string) (e : recv_ev) : Prop :=
  match e with RSlice off len => 0 <= off ∧ 0 < len ∧ off + len <= slen src | _ => True end.

(** The high-water mark after an event. *)
Definition mark_step (r : Z) (e : recv_ev) : Z :=
  match e with RSlice off len => if off <=? r then Z.max r (off + len) else r | _ => r end.

Definition mark (evs : list recv_ev) (r : Z) : Z := foldl mark_step r evs.

Section reception.
Context {B : Type → Type} `{Bolt B} `{Primitives} `{DiskFaults}.
Context (no_fault : ∀ op p, disk_fault op p = None).
Implicit Types (s : Store B) (f : File).

Definition recv_step (id src : string) s (e : recv_ev) : Store B :=
  match e with
  | RHeader peer name now =>
      (BeginReceive s id peer name (hex_encode (Sum256 src)) (slen src) now).2
  | RSlice off len => (WriteChunk s id off (slice_of src off len)).2
  end.

Definition recv_run (id src : string) (evs : list recv_ev) s : Store B :=
  foldl (recv_step id src) s evs.

Record recv_ok s (id src : string) (r : Z) : Prop := {
  ro_inv : files_inv s;
  ro_row : ∃ f, bget (d_files (s_db s)) id = Some (json f) ∧ f_Status f = FileReceiving
    ∧ f_Hash f = hex_encode (Sum256 src) ∧ f_Size f = slen src ∧ f_Received f = r;
  ro_bytes : ∃ t, s_disk s !! tmp_path s id = Some t ∧ agrees r t src
    ∧ 0 <= r <= slen t ∧ slen t <= slen src }.

Lemma fault_none op p : fault op p = Ok tt.
Proof. unfold fault. by rewrite no_fault. Qed.

Lemma GetFile_row s id f : bget (d_files (s_db s)) id = Some (json f) → GetFile s id = Ok f.
Proof.
  intros Hg. unfold GetFile, View, run_view.
  by rewrite (proj2 (get_file_ok id (s_db s) f (s_db s)) (conj eq_refl Hg)).
Qed.

Lemma tmp_same s s' id : same_keys s s' → tmp_path s' id = tmp_path s id.
Proof. intros [_ Hd]. unfold tmp_path. by rewrite Hd. Qed.

(** A header with nothing to resume starts from zero. *)
Lemma begin_fresh s id src peer name now :
  files_inv s → file_id_ok id → resume_at s id (hex_encode (Sum256 src)) (slen src) = 0 →
  ∃ s', BeginReceive s id peer name (hex_encode (Sum256 src)) (slen src) now = (Ok 0, s')
    ∧ recv_ok s' id src 0.
Proof.
  intros Hs Hid Hr. pose proof (begin_inv id peer name (hex_encode (Sum256 src)) (slen src) now s Hs Hid)
    as Hinv. revert Hinv. unfold BeginReceive, os_MkdirAll. rewrite fault_none, Hr.
  cbn [Z.eqb]. unfold os_WriteFile. rewrite fault_none. cbn [mbind result_bind].
  set (f := mkFile _ _ _ _ _ _ _ _ _ _).
  erewrite Update_done; [|tx_unfold; rewrite (id_put id Hid); reflexivity].
  intros Hinv. eexists. split; [reflexivity|]. split; [done| |].
  - exists f. cbn. by rewrite bget_set_eq.
  - exists "". cbn [s_disk with_db with_disk]. rewrite (tmp_same s) by done.
    rewrite lookup_insert_eq. split_and!; [done| |done|done|apply slen_nonneg].
    intros i Hi. lia.
Qed.

(** A header that matches the partial resumes at the mark. *)
Lemma begin_resume s id src r peer name now :
  recv_ok s id src r → file_id_ok id →
  ∃ s', BeginReceive s id peer name (hex_encode (Sum256 src)) (slen src) now = (Ok r, s')
    ∧ recv_ok s' id src r.
Proof.
  intros [Hs (f & Hg & Hst & Hh & Hsz & Hrc) (t & Ht & Ha & Hr & Hl)] Hid.
  assert (Hres : resume_at s id (hex_encode (Sum256 src)) (slen src) = r).
  { unfold resume_at. rewrite (GetFile_row _ _ _ Hg), Hst, Hh, Hsz, !eqs_refl, Z.eqb_refl.
    cbn [andb]. unfold os_Stat. rewrite fault_none, Ht. cbn. rewrite Hrc.
    destruct (Z.ltb_spec (slen t) r); [lia|]. destruct (Z.ltb_spec r 0); [lia|].
    by destruct (Z.ltb_spec (slen src) r); [lia|]. }
  destruct (Z.eq_dec r 0) as [->|Hne].
  { destruct (begin_fresh s id src peer name now Hs Hid Hres) as (s' & Hb & Hok). eauto. }
  pose proof (begin_inv id peer name (hex_encode (Sum256 src)) (slen src) now s Hs Hid) as Hinv.
  revert Hinv. unfold BeginReceive, os_MkdirAll. rewrite fault_none, Hres.
  rewrite (proj2 (Z.eqb_neq r 0) Hne). set (f' := mkFile _ _ _ _ _ _ _ _ _ _).
  erewrite Update_done; [|tx_unfold; rewrite (id_put id Hid); reflexivity].
  intros Hinv. eexists. split; [reflexivity|]. split; [done| |].
  - exists f'. cbn. by rewrite bget_set_eq.
  - exists t. cbn [s_disk with_db with_disk]. by rewrite (tmp_same s) by done.
Qed.

(** A slice moves the mark when it starts at or below it, and is refused
    without harm when it would leave a gap. *)
Lemma chunk_step s id src r off len :
  recv_ok s id src r → file_id_ok id → slen src < 2 ^ 62 → ev_ok src (RSlice off len) →
  ∃ res s', WriteChunk s id off (slice_of src off len) = (res, s')
    ∧ is_ok res = (off <=? r) ∧ recv_ok s' id src (mark_step r (RSlice off len)).
Proof.
  intros [Hs (f & Hg & Hst & Hh & Hsz & Hrc) (t & Ht & Ha & Hr & Hl)] Hid Hbig (Ho & Hlen & He).
  pose proof (chunk_inv id off (slice_of src off len) s Hs Hid) as Hinv.
  pose proof (slice_len src off len Ho ltac:(lia) He) as Hsl.
  revert Hinv. unfold WriteChunk, os_OpenCreate, os_WriteAt.
  rewrite !fault_none. cbn [mbind result_bind].
  destruct (Z.ltb_spec off 0); [lia|]. rewrite Hsl.
  destruct (Z.eqb_spec len 0); [lia|]. rewrite Ht. cbn [from_option Datatypes.id].
  rewrite lookup_insert_eq, insert_insert_eq. cbn [from_option Datatypes.id].
  unfold Update, run_update. set (fs := <[tmp_path s id := _]> (s_disk s)).
  unfold chunk_tx, mbind, tx_bind. cbn [with_disk s_db].
  rewrite (proj2 (get_file_ok id (s_db s) f (s_db s)) (conj eq_refl Hg)).
  unfold mark_step. rewrite Hrc.
  assert (Hwl : slen (write_at t off (slice_of src off len)) = Z.max (slen t) (off + len)).
  { by rewrite write_at_length, Hsl. }
  destruct (Z.leb_spec off r) as [Hor|Hor].
  - destruct (Z.ltb_spec r off); [lia|]. rewrite int64_id by lia. cbv zeta.
    set (f' := set_Received (Z.max r (off + len)) f).
    replace (if f_Size _ <? f_Received _ then _ else _) with f'.
    2: { destruct (Z.ltb_spec r (off + len)); cbn [set_Received f_Size f_Received];
           rewrite Hsz, ?Hrc.
         - destruct (Z.ltb_spec (slen src) (off + len)); [lia|]. unfold f'.
           by rewrite Z.max_r by lia.
         - destruct (Z.ltb_spec (slen src) r); [lia|]. unfold f'. rewrite Z.max_l by lia.
           rewrite <- Hrc. by destruct f. }
    unfold Put, mret, tx_ret. rewrite (id_put id Hid).
    intros Hinv. eexists _, _. split; [reflexivity|]. split; [done|]. split; [done| |].
    + exists f'. cbn. by rewrite bget_set_eq.
    + eexists. cbn [s_disk with_db with_disk snd]. rewrite (tmp_same s) by done. unfold fs.
      rewrite lookup_insert_eq. split; [reflexivity|].
      split; [apply agrees_write; (done || lia)|]. rewrite Hwl. lia.
  - destruct (Z.ltb_spec r off); [|lia]. intros Hinv. eexists _, _. split; [reflexivity|].
    split; [done|]. split; [done| |].
    + exists f. auto.
    + eexists. cbn [s_disk with_db with_disk snd]. rewrite (tmp_same s) by done. unfold fs.
      rewrite lookup_insert_eq. split; [reflexivity|].
      split; [apply agrees_beyond; (done || lia)|]. rewrite Hwl. lia.
Qed.

Lemma recv_run_ok id src evs s r :
  recv_ok s id src r → file_id_ok id → slen src < 2 ^ 62 → Forall (ev_ok src) evs →
  recv_ok (recv_run id src evs s) id src (mark evs r).
Proof.
  intros Hs Hid Hbig Ha. revert s r Hs. induction Ha as [|e evs He _ IH]; intros s r Hs; [done|].
  cbn [recv_run mark foldl]. apply IH. destruct e as [peer name now|off len]; cbn [recv_step].
  - destruct (begin_resume s id src r peer name now Hs Hid) as (s' & -> & Hok). done.
  - destruct (chunk_step s id src r off len Hs Hid Hbig He) as (res & s' & -> & _ & Hok). done.
Qed.

(** A full partial completes and reads back as the source. *)
Lemma complete_full s id src nonce :
  recv_ok s id src (slen src) → file_id_ok id → slen nonce = 12 →
  ∃ s', CompleteFile s id (Some nonce) = (Ok tt, s') ∧ FileData s' id = Ok src.
Proof.
  intros [Hs (f & Hg & Hst & Hh & Hsz & Hrc) (t & Ht & Ha & Hr & Hl)] Hid Hn.
  assert (t = src) as -> by (apply agrees_full; [done|lia]).
  unfold CompleteFile, complete_read.
  assert (View s (complete_view id) = Ok f) as ->.
  { unfold View, run_view, complete_view, mbind, tx_bind.
    rewrite (proj2 (get_file_ok id (s_db s) f (s_db s)) (conj eq_refl Hg)), Hst, eqs_refl, Hrc, Hsz.
    by rewrite Z.eqb_refl. }
  unfold os_ReadFile. rewrite fault_none, Ht. cbn [mbind result_bind ok_or]. unfold complete_finish.
  rewrite Hh, eqs_refl. cbn [negb].
  assert (∃ fs, writeFileData s (enc_path s id) src (Some nonce) = Ok fs) as [fs Hw].
  { unfold writeFileData, os_WriteFile. rewrite fault_none. destruct (s_encKey s) as [k|] eqn:Ek.
    - destruct (Encrypt_total k src nonce) as [ct ->]; [by apply (finv_key _ Hs)|]. by eexists.
    - by eexists. }
  rewrite Hw. apply blob_written in Hw as (ct & -> & Hb); [|apply Hs|by intros ? [= <-]].
  unfold setFileStatus. destruct (rewrite_row (with_disk s (<[enc_path s id := ct]> (s_disk s))) id
    (set_FStatus FileComplete) Hid) as [[e He]|(f0 & Hf0 & ->)].
  { exfalso. revert He. unfold Update, run_update, mbind, tx_bind, get_file. tx_unfold.
    cbn. rewrite Hg. cbn. by rewrite (id_put id Hid). }
  eexists. split; [reflexivity|]. unfold FileData.
  rewrite (GetFile_row _ id (set_FStatus FileComplete f0)); [|cbn; by rewrite bget_set_eq].
  cbn [mbind result_bind set_FStatus f_Status]. rewrite eqs_refl. cbn [negb].
  rewrite Hb; [by rewrite fault_none|done|]. cbn [s_disk with_db with_disk].
  rewrite (tmp_same s) by done. rewrite remove_tmp_enc; [|apply Hs|done..].
  by rewrite lookup_insert_eq.
Qed.

Lemma complete_short s id src r rnd :
  recv_ok s id src r → r ≠ slen src →
  CompleteFile s id rnd = (Err (Errorf "store: file truncated"), s).
Proof.
  intros [Hs (f & Hg & Hst & Hh & Hsz & Hrc) _] Hne. unfold CompleteFile, complete_read, View, run_view, complete_view.
  unfold mbind, tx_bind.
  rewrite (proj2 (get_file_ok id (s_db s) f (s_db s)) (conj eq_refl Hg)), Hst, eqs_refl, Hrc, Hsz.
  by rewrite (proj2 (Z.eqb_neq _ _) Hne).
Qed.
End reception.

(** ** Properties *)

Section properties.
Context {B : Type → Type} `{Bolt B} `{Primitives} `{DiskFaults}.
Implicit Types s : Store B.

(** C8: a received file is what was advertised, or it cannot be read.
    After any sequence of file operations with any headers, chunks and
    bytes a sender cares to supply, in any order, and with any disk or
    random-read failure in between, whatever [FileData] returns for an
    identifier hashes to the SHA-256 recorded for it.  An operation runs to
    its end before the next begins; a header that comes between the two steps
    of [CompleteFile] is below ([header_within_CompleteFile]). *)
Theorem completed_files_match_their_hash ops s id data :
  files_inv s → Forall file_args_ok ops → FileData (run_files ops s) id = Ok data →
  ∃ f, GetFile (run_files ops s) id = Ok f ∧ hex_encode (Sum256 data) = f_Hash f.
Proof.
  intros Hs Ha. pose proof (file_ops_inv ops s Hs Ha) as Hinv. unfold FileData.
  intros (f & Hg & Hd)%bind_ok. exists f. split; [done|].
  destruct (f_Status f =s? FileComplete) eqn:E; [|done]. apply eqs_true in E.
  unfold GetFile, View, run_view in Hg.
  destruct (get_file id (s_db (run_files ops s))) as [[f' d]|] eqn:Eg; [|done].
  injection Hg as ->. apply get_file_ok in Eg as [_ Eg].
  by apply (finv_complete _ Hinv _ _ Eg E).
Qed.

(** C7: an interrupted transfer resumes and completes.  On a disk that does
    not fail, let a fresh reception of [src] be announced and then let true
    slices of it arrive in any order, overlapping, repeated or ahead of the
    mark, with reconnects in between.  The recorded mark is then exactly
    [mark]: slices at or below it extend it, slices beyond it are refused;
    the next header is answered with that offset; before the mark reaches
    the size completion is refused as truncated, and when it does
    [CompleteFile] succeeds and [FileData] is [src]. *)
Theorem reception_reconstructs_source s id src peer name now evs nonce :
  (∀ op p, disk_fault op p = None) → files_inv s → file_id_ok id → slen nonce = 12 →
  slen src < 2 ^ 62 → resume_at s id (hex_encode (Sum256 src)) (slen src) = 0 →
  Forall (ev_ok src) evs →
  let s' := recv_run id src (RHeader peer name now :: evs) s in
  let r := mark evs 0 in
  (∃ f, GetFile s' id = Ok f ∧ f_Received f = r ∧ f_Status f = FileReceiving) ∧
  (BeginReceive s' id peer name (hex_encode (Sum256 src)) (slen src) now).1 = Ok r ∧
  (r ≠ slen src → (CompleteFile s' id (Some nonce)).1 = Err (Errorf "store: file truncated")) ∧
  (r = slen src → ∃ s'', CompleteFile s' id (Some nonce) = (Ok tt, s'') ∧ FileData s'' id = Ok src).
Proof.
  intros Hnf Hs Hid Hn Hbig Hres Hev s' r.
  destruct (begin_fresh Hnf s id src peer name now Hs Hid Hres) as (s0 & Hb & Hok0).
  assert (Hok : recv_ok s' id src r).
  { subst s' r. unfold recv_run. cbn [foldl recv_step]. rewrite Hb. by apply recv_run_ok. }
  split_and!.
  - pose proof Hok as [_ (f & Hg & Hst & _ & _ & Hr) _]. exists f. split; [|done].
    by apply GetFile_row.
  - by destruct (begin_resume Hnf s' id src r peer name now Hok Hid) as (? & -> & _).
  - intros Hne. by rewrite (complete_short s' id src r _ Hok Hne).
  - intros Hr. rewrite Hr in Hok. by apply complete_full.
Qed.
End properties.

(** ** Witnesses *)

#[local] Existing Instance gmap_bolt.
#[local] Existing Instance toy_primitives.
#[local] Existing Instance no_faults.

Definition ex_id : string := "00112233445566778899aabbccddeeff".
Definition ex_src : string := "a small file".

Lemma ex_id_ok : file_id_ok ex_id.
Proof. split; [split_and!; try done; apply (bool_decide_unpack _); by vm_compute|by vm_compute]. Qed.

Lemma ex_files_inv : files_inv ex_empty.
Proof.
  split; [by repeat constructor|by intros k [= <-]|..]; intros id r; cbn; by rewrite lookup_empty.
Qed.

Definition ex_file_ops : list file_op :=
  [ FBegin ex_id "bob" "f.txt" (hex_encode (Sum256 ex_src)) 12 5;
    FChunk ex_id 0 ex_src; FComplete ex_id (Some "nonce nonce ") ].

Lemma completed_files_match_their_hash_witness :
  ∃ f, GetFile (run_files ex_file_ops ex_empty) ex_id = Ok f
       ∧ hex_encode (Sum256 ex_src) = f_Hash f.
Proof.
  apply (completed_files_match_their_hash ex_file_ops ex_empty ex_id ex_src ex_files_inv).
  - pose proof ex_id_ok. by repeat (constructor; [by split|]).
  - by vm_compute.
Defined.

Definition ex_evs : list recv_ev :=
  [ RSlice 8 4; RSlice 0 6; RSlice 0 3; RHeader "bob" "f.txt" 9; RSlice 6 2; RSlice 5 7 ].

Lemma reception_reconstructs_source_witness :
  ∃ s'', CompleteFile (recv_run ex_id ex_src (RHeader "bob" "f.txt" 5 :: ex_evs) ex_empty) ex_id
           (Some "nonce nonce ") = (Ok tt, s'') ∧ FileData s'' ex_id = Ok ex_src.
Proof.
  assert (Hnf : ∀ op p, @disk_fault no_faults op p = None) by done.
  destruct (reception_reconstructs_source ex_empty ex_id ex_src "bob" "f.txt" 5 ex_evs "nonce nonce "
    Hnf ex_files_inv ex_id_ok eq_refl) as (_ & _ & _ & Hc); [by vm_compute|by vm_compute| |].
  - by repeat (constructor; [by vm_compute|]).
  - by apply Hc.
Defined.

(** The header of another session on the same identifier, between the two
    steps of [CompleteFile]: the verified bytes are complete under the hash
    and the sender of the other. *)
Lemma header_within_CompleteFile :
  let s1 := run_files (take 2 ex_file_ops) ex_empty in
  let s2 := run_files [FBegin ex_id "eve" "g.txt" (hex_encode (Sum256 "another file")) 12 6] s1 in
  match complete_read s1 ex_id with
  | Ok (file, data) =>
      let (r, s3) := complete_finish s2 ex_id file data (Some "nonce nonce ") in
      r = Ok tt ∧ FileData s3 ex_id = Ok ex_src ∧
      match GetFile s3 ex_id with
      | Ok f => f_Peer f = "eve" ∧ f_Status f = FileComplete ∧ (hex_encode (Sum256 ex_src) =s? f_Hash f) = false
      | Err _ => False
      end
  | Err _ => False
  end.
Proof. by vm_compute. Qed.
