(* ===== verification/StoreRooms.v ===== *)
(** * Rooms of the store (internal/store/store.go)

    Room records, the room message log with its index, the per-member outbox,
    reactions and the durable per-sender counter.  A transaction body is a
    [Tx]; an operation is a function from the store to its result and the
    store after it. *)

From S2P Require Import Prelude GoStrings Utf8 Proto Identity Base64 Crypto Bolt StoreData.
From S2P Require Import StoreCore StoreMessages.

Definition MaxRoomMembers : Z := 32.
Definition MaxRoomReactions : Z := 128.

(** Field updates. *)
Definition set_RName (n : string) (r : Room) : Room :=
  mkRoom (r_ID r) n (r_Members r) (r_CreatedBy r) (r_CreatedAt r) (r_State r).
Definition set_RState (st : string) (r : Room) : Room :=
  mkRoom (r_ID r) (r_Name r) (r_Members r) (r_CreatedBy r) (r_CreatedAt r) st.
Definition rset_Body (b : string) (m : RoomMessage) : RoomMessage :=
  mkRoomMessage (rm_ID m) (rm_Room m) (rm_Sender m) (rm_Dir m) b (rm_TS m) (rm_Status m)
    (rm_Attempts m) (rm_LastTry m) (rm_Seq m) (rm_ReplyTo m) (rm_SenderSeq m) (rm_Reactions m).
Definition rset_Seq (q : Z) (m : RoomMessage) : RoomMessage :=
  mkRoomMessage (rm_ID m) (rm_Room m) (rm_Sender m) (rm_Dir m) (rm_Body m) (rm_TS m) (rm_Status m)
    (rm_Attempts m) (rm_LastTry m) q (rm_ReplyTo m) (rm_SenderSeq m) (rm_Reactions m).
Definition rset_Status (st : string) (m : RoomMessage) : RoomMessage :=
  mkRoomMessage (rm_ID m) (rm_Room m) (rm_Sender m) (rm_Dir m) (rm_Body m) (rm_TS m) st
    (rm_Attempts m) (rm_LastTry m) (rm_Seq m) (rm_ReplyTo m) (rm_SenderSeq m) (rm_Reactions m).
Definition rbump_attempt (now : Z) (m : RoomMessage) : RoomMessage :=
  mkRoomMessage (rm_ID m) (rm_Room m) (rm_Sender m) (rm_Dir m) (rm_Body m) (rm_TS m) (rm_Status m)
    (int64 (rm_Attempts m + 1)) now (rm_Seq m) (rm_ReplyTo m) (rm_SenderSeq m) (rm_Reactions m).
Definition rset_Reactions (l : list RoomReaction) (m : RoomMessage) : RoomMessage :=
  mkRoomMessage (rm_ID m) (rm_Room m) (rm_Sender m) (rm_Dir m) (rm_Body m) (rm_TS m) (rm_Status m)
    (rm_Attempts m) (rm_LastTry m) (rm_Seq m) (rm_ReplyTo m) (rm_SenderSeq m) l.

(** [RoomMessage{}]. *)
Definition zero_room_message : RoomMessage :=
  mkRoomMessage "" "" "" "" "" zero_time "" 0 zero_time 0 "" 0 [].

Section operations.
Context {B : Type → Type} `{Bolt B} `{Primitives} `{UnicodeTables}.
Implicit Types s : Store B.

Definition roomMsgKey (roomID : string) (seq : Z) : string :=
  ToLower roomID +:+ (of_bytes [0] +:+ be_put64 seq).

Definition roomOutboxKey (roomID member msgID : string) : string :=
  ToLower roomID +:+ (":" +:+ (ToLower member +:+ (":" +:+ ToLower msgID))).

Definition roomSeqKey (roomID sender : string) : string :=
  ToLower roomID +:+ (of_bytes [0] +:+ ToLower sender).

Definition encryptRoom s (r : Room) (rnd : option string) : result Room :=
  name ← encryptString s (r_Name r) rnd; Ok (set_RName name r).

Definition decryptRoom s (r : Room) : result Room :=
  let r := if r_State r =s? "" then set_RState RoomJoined r else r in
  name ← decryptString s (r_Name r); Ok (set_RName name r).

Definition decryptRoomMessage s (m : RoomMessage) : result RoomMessage :=
  body ← decryptString s (rm_Body m); Ok (rset_Body body m).

Definition put_room (enc : Room) : Tx B unit := Put bRooms (r_ID enc) (marshal enc).

Definition CreateRoom s (r : Room) (rnd : option string) : result unit * Store B :=
  if MaxRoomMembers <? Z.of_nat (length (r_Members r))
  then (Err (Errorf "store: room has too many members"), s) else
  match encryptRoom s r rnd with
  | Err e => (Err e, s)
  | Ok enc => Update s (put_room enc)
  end.

(** [getRoom] inside a transaction, and the same read by [GetRoom]. *)
Definition getRoom (id : string) : Tx B Room :=
  v ← Get bRooms id;
  match v with
  | None => fail (Sentinel ErrNotFound)
  | Some r => lift (unmarshal r)
  end.

Definition GetRoom s (id : string) : result Room := r ← View s (getRoom id); decryptRoom s r.

Definition ListRooms s : result (list Room) :=
  mapM (λ r, r ← unmarshal r; decryptRoom s r) (bitems (d_rooms (s_db s))).*2.

Definition UpdateRoom s (r : Room) (rnd : option string) : result unit * Store B :=
  match encryptRoom s r rnd with
  | Err e => (Err e, s)
  | Ok enc => Update s (put_room enc)
  end.

(** The cursor loops of [DeleteRoom]: every key with the prefix. *)
Fixpoint delete_room_msgs (l : list (string * row RoomMessage)) : Tx B unit :=
  match l with
  | [] => mret tt
  | (k, v) :: l =>
      _ ← (match v with json m => Delete bRoomIdx (rm_ID m) | corrupt => mret tt end);
      _ ← Delete bRoomMsgs k;
      delete_room_msgs l
  end.

Fixpoint delete_outbox_keys (l : list (string * string)) : Tx B unit :=
  match l with
  | [] => mret tt
  | (k, _) :: l => _ ← Delete bRoomOutbox k; delete_outbox_keys l
  end.

Definition DeleteRoom s (id : string) : result unit * Store B :=
  Update s (
    items ← Items bRoomMsgs;
    _ ← delete_room_msgs (c_prefix items (ToLower id +:+ of_bytes [0]));
    oitems ← Items bRoomOutbox;
    _ ← delete_outbox_keys (c_prefix oitems (ToLower id +:+ ":"));
    Delete bRooms id).

Definition add_room_tx (m : RoomMessage) : Tx B (option RoomMessage) :=
  i ← Get bRoomIdx (rm_ID m);
  match i with
  | Some _ => mret None
  | None =>
      seq ← NextSequence bRoomMsgs;
      let m := rset_Seq seq m in
      let k := roomMsgKey (rm_Room m) seq in
      _ ← Put bRoomMsgs k (marshal m);
      _ ← Put bRoomIdx (rm_ID m) k;
      mret (Some m)
  end.

Definition AddRoomMessage s (m : RoomMessage) (rnd : option string)
    : result (RoomMessage * bool) * Store B :=
  match encryptString s (rm_Body m) rnd with
  | Err e => (Err (Wrapf "store: encrypt body" e), s)
  | Ok encBody =>
      let (r, s') := Update s (add_room_tx (rset_Body encBody m)) in
      match r with
      | Err e => (Err e, s')
      | Ok stored =>
          (m' ← decryptRoomMessage s' (default zero_room_message stored);
           Ok (m', match stored with None => true | Some _ => false end), s')
      end
  end.

(** The cursor loop of [RoomMessages]. *)
Fixpoint collect_room s (prefix : string) (limit : nat) (visited : list (string * row RoomMessage))
    : result (list RoomMessage) :=
  match visited, limit with
  | (k, v) :: visited, S limit =>
      if has_prefix k prefix then
        m ← unmarshal v; m ← decryptRoomMessage s m;
        out ← collect_room s prefix limit visited; Ok (m :: out)
      else Ok []
  | _, _ => Ok []
  end.

Definition RoomMessages s (roomID : string) (limit : Z) : result (list RoomMessage) :=
  View s (
    items ← Items bRoomMsgs;
    let prefix := ToLower roomID +:+ of_bytes [0] in
    out ← lift (collect_room s prefix (page_limit limit) (c_seek_prev items (prefix +:+ ff8)));
    mret (reverse out)).

Definition sortByRoomSeq (m : list RoomMessage) : list RoomMessage :=
  sort_loop (λ a b, rm_Seq a <? rm_Seq b) m.

(** The prefix of a member's outbox entries in a room. *)
Definition member_prefix (roomID member : string) : string :=
  ToLower roomID +:+ (":" +:+ (ToLower member +:+ ":")).

(** The callback of [RoomPending] on one entry of the outbox. *)
Definition room_pending_entry s (prefix : string) (d : DB B) (kv : string * string)
    : result (list RoomMessage) :=
  if negb (has_prefix kv.1 prefix) then Ok [] else
  match bget (d_roomidx d) kv.2 with
  | None => Ok []
  | Some idxKey =>
      match bget (d_roommsgs d) idxKey with
      | None => Ok []
      | Some mv => m ← unmarshal mv; m ← decryptRoomMessage s m; Ok [m]
      end
  end.

Definition RoomPending_ s (roomID member : string) : result (list RoomMessage) :=
  out ← mapM (room_pending_entry s (member_prefix roomID member) (s_db s))
          (bitems (d_roomoutbox (s_db s)));
  Ok (sortByRoomSeq (concat out)).

(** The row of a room message, by identifier. *)
Definition load_room_msg (msgID : string) : Tx B (RoomMessage * string) :=
  k ← Get bRoomIdx msgID;
  match k with
  | None => fail (Sentinel ErrNotFound)
  | Some k =>
      v ← Get bRoomMsgs k;
      match v with
      | None => fail (Sentinel ErrNotFound)
      | Some r => m ← lift (unmarshal r); mret (m, k)
      end
  end.

(** Whether the outbox still holds an entry of some member but the sender. *)
Definition someone_waits (roomID sender : string) (members : list string)
    (oitems : list (string * string)) : bool :=
  existsb (λ mb, negb (mb =s? sender) &&
    match c_prefix oitems (member_prefix roomID mb) with [] => false | _ => true end) members.

Definition mark_room_tx (roomID member msgID : string) : Tx B (RoomMessage * bool) :=
  '(m, k) ← load_room_msg msgID;
  if rm_Status m =s? StatusDelivered then mret (m, false) else
  _ ← Delete bRoomOutbox (roomOutboxKey roomID member msgID);
  r ← getRoom roomID;
  oitems ← Items bRoomOutbox;
  if someone_waits roomID (rm_Sender m) (r_Members r) oitems then mret (m, false) else
  let m := rset_Status StatusDelivered m in
  _ ← Put bRoomMsgs k (marshal m);
  mret (m, true).

Definition MarkRoomDelivered s (roomID member msgID : string)
    : result (RoomMessage * bool) * Store B :=
  let (r, s') := Update s (mark_room_tx roomID member msgID) in
  ('(out, changed) ← r; out ← decryptRoomMessage s' out; Ok (out, changed), s').

Definition RoomRecordAttempt s (msgID : string) (now : Z) : result unit * Store B :=
  Update s ('(m, k) ← load_room_msg msgID; Put bRoomMsgs k (marshal (rbump_attempt now m))).

(** [append(l[:i], l[i+1:]...)] at the first reaction that matches. *)
Fixpoint drop_reaction (sender emoji : string) (l : list RoomReaction)
    : option (list RoomReaction) :=
  match l with
  | [] => None
  | r :: l =>
      if EqualFold (rr_Sender r) sender && (rr_Emoji r =s? emoji) then Some l
      else l' ← drop_reaction sender emoji l; Some (r :: l')
  end.

Definition toggle_tx (roomID msgID sender emoji : string) : Tx B RoomMessage :=
  '(m, k) ← load_room_msg msgID;
  if negb (EqualFold (rm_Room m) roomID) then fail (Sentinel ErrNotFound) else
  match drop_reaction sender emoji (rm_Reactions m) with
  | Some l =>
      let m := rset_Reactions l m in _ ← Put bRoomMsgs k (marshal m); mret m
  | None =>
      if MaxRoomReactions <=? Z.of_nat (length (rm_Reactions m))
      then fail (Errorf "store: too many reactions on this message") else
      let m := rset_Reactions (rm_Reactions m ++ [mkReaction sender emoji]) m in
      _ ← Put bRoomMsgs k (marshal m); mret m
  end.

Definition ToggleRoomReaction s (roomID msgID sender emoji : string)
    : result (RoomMessage * bool) * Store B :=
  let (r, s') := Update s (toggle_tx roomID msgID sender emoji) in
  (out ← r; out ← decryptRoomMessage s' out; Ok (out, true), s').

Definition next_seq_tx (roomID sender : string) : Tx B Z :=
  let k := roomSeqKey roomID sender in
  v ← Get bRoomSeq k;
  let last := match v with
              | Some b => if slen b =? 8 then be_get64 b else 0
              | None => 0
              end in
  let next := uint64 (last + 1) in
  _ ← Put bRoomSeq k (be_put64 next);
  mret next.

Definition NextRoomSenderSeq s (roomID sender : string) : result Z * Store B :=
  Update s (next_seq_tx roomID sender).

Definition AddRoomMemberToOutbox s (roomID member msgID : string) : result unit * Store B :=
  Update s (Put bRoomOutbox (roomOutboxKey roomID member msgID) msgID).
End operations.
