(* ===== verification/StoreFrame.v ===== *)
(** * What an operation of the store leaves alone

    A projection of the database that no bucket an operation writes shows in
    is the same after the operation, as are the keys of the store: one lemma
    per operation, for every such projection. *)

From S2P Require Import Prelude GoStrings Utf8 Proto Identity Base64 Crypto Bolt StoreData.
From S2P Require Import StoreCore StoreMessages StorePeers StoreFiles StoreRooms.

Create HintDb frame.

Section frame.
Context {B : Type → Type} `{Bolt B} {X : Type} (π : DB B → X).

(** Replacing the bucket does not show in the projection. *)
Class Untouched {V} (b : bucket B V) : Prop := untouched x d : π (bupd b x d) = π d.

Definition keeps {A} (f : Tx B A) : Prop := ∀ d a d', f d = Ok (a, d') → π d' = π d.

Lemma keeps_ret {A} (a : A) : keeps (mret a).
Proof. by intros d a' d' [= _ <-]. Qed.
Lemma keeps_fail {A} e : keeps (fail (A := A) e).
Proof. done. Qed.
Lemma keeps_lift {A} (r : result A) : keeps (lift r).
Proof. intros d a d'. unfold lift. destruct r; [|done]. by intros [= _ <-]. Qed.
Lemma keeps_bind {A A'} (f : Tx B A) (g : A → Tx B A') :
  keeps f → (∀ a, keeps (g a)) → keeps (mbind g f).
Proof.
  intros Hf Hg d a d'. unfold mbind, tx_bind. destruct (f d) as [[x d1]|] eqn:E; [|done].
  intros Hk. by rewrite (Hg x d1 a d' Hk), (Hf _ _ _ E).
Qed.
Lemma keeps_Get {V} (b : bucket B V) k : keeps (Get b k).
Proof. by intros d a d' [= _ <-]. Qed.
Lemma keeps_Items {V} (b : bucket B V) : keeps (Items b).
Proof. by intros d a d' [= _ <-]. Qed.
Lemma keeps_Put {V} (b : bucket B V) `{!Untouched b} k v : keeps (Put b k v).
Proof.
  intros d a d'. unfold Put. destruct (put_error k); [done|]. intros [= _ <-]. apply untouched.
Qed.
Lemma keeps_Delete {V} (b : bucket B V) `{!Untouched b} k : keeps (Delete b k).
Proof. intros d a d' [= _ <-]. apply untouched. Qed.
Lemma keeps_NextSequence {V} (b : bucket B V) `{!Untouched b} : keeps (NextSequence b).
Proof. intros d a d' [= _ <-]. apply untouched. Qed.

(** The same keys and the same projection. *)
Definition same_part (s s' : Store B) : Prop :=
  s_encKey s' = s_encKey s ∧ s_idKey s' = s_idKey s ∧ π (s_db s') = π (s_db s).

#[export] Instance same_part_preorder : PreOrder same_part.
Proof. split; [done|]. intros s1 s2 s3 (H1 & H2 & H3) (H4 & H5 & H6). split_and!; etrans; eauto. Qed.

Lemma same_disk s fs : same_part s (with_disk s fs).
Proof. done. Qed.

Lemma same_Update {A} s (f : Tx B A) : keeps f → same_part s (Update s f).2.
Proof.
  intros Hf. unfold Update, run_update. destruct (f (s_db s)) as [[a d]|] eqn:E; [|done].
  split_and!; [done..|]. by apply (Hf _ _ _ E).
Qed.

Lemma same_Update_eq {A} s (f : Tx B A) r s' :
  Update s f = (r, s') → keeps f → same_part s s'.
Proof. intros E Hf. change s' with (r, s').2. rewrite <- E. by apply same_Update. Qed.
End frame.

#[export] Hint Resolve keeps_ret keeps_fail keeps_lift keeps_bind keeps_Get keeps_Items keeps_Put
  keeps_Delete keeps_NextSequence same_disk same_Update : frame.
#[export] Hint Extern 5 (Untouched _ _) => (intros ? ?; reflexivity) : typeclass_instances.

(** A transaction built from the primitives. *)
Ltac keeps_tac :=
  cbv zeta; repeat first
    [ apply keeps_bind; [|intros ?]
    | progress (eauto with frame typeclass_instances)
    | case_match ].

(** An operation that is an [Update] after some reads. *)
Ltac same_tac :=
  repeat case_match; simplify_eq/=; try done;
  repeat match goal with
  | Hu : Update ?s ?f = (_, ?s') |- same_part ?π _ ?s' =>
      transitivity s; [|apply (same_Update_eq π _ _ _ _ Hu)]; clear Hu
  end; try done; eauto with frame.

Section ops.
Context {B : Type → Type} `{Bolt B} `{Primitives} `{UnicodeTables} `{DiskFaults}.
Context {X : Type} (π : DB B → X).
Implicit Types s : Store B.
Abbreviation same := (same_part π).

(** ** Deleting messages *)

Lemma delete_keys_keeps `{!Untouched π bMsgs} `{!Untouched π bIdx} `{!Untouched π bOutbox} l :
  keeps π (delete_keys l).
Proof. induction l as [|[k v] l IH]; cbn [delete_keys]; keeps_tac. Qed.
Lemma deleteMessages_keeps `{!Untouched π bMsgs} `{!Untouched π bIdx} `{!Untouched π bOutbox} pred :
  keeps π (deleteMessages pred).
Proof. pose proof delete_keys_keeps. unfold deleteMessages. keeps_tac. Qed.

(** ** Rooms *)

Lemma CreateRoom_frame `{!Untouched π bRooms} s r rnd : same s (CreateRoom s r rnd).2.
Proof. unfold CreateRoom. same_tac. Qed.
Lemma UpdateRoom_frame `{!Untouched π bRooms} s r rnd : same s (UpdateRoom s r rnd).2.
Proof. unfold UpdateRoom. same_tac. Qed.

Lemma delete_room_msgs_keeps `{!Untouched π bRoomMsgs} `{!Untouched π bRoomIdx} l :
  keeps π (delete_room_msgs l).
Proof. induction l as [|[k v] l IH]; cbn [delete_room_msgs]; keeps_tac. Qed.
Lemma delete_outbox_keys_keeps `{!Untouched π bRoomOutbox} l : keeps π (delete_outbox_keys l).
Proof. induction l as [|[k v] l IH]; cbn [delete_outbox_keys]; keeps_tac. Qed.

Lemma DeleteRoom_frame `{!Untouched π bRooms} `{!Untouched π bRoomMsgs} `{!Untouched π bRoomIdx}
    `{!Untouched π bRoomOutbox} s id : same s (DeleteRoom s id).2.
Proof.
  apply same_Update. repeat (apply keeps_bind; [|intros ?]);
    eauto using delete_room_msgs_keeps, delete_outbox_keys_keeps with frame.
Qed.

Lemma AddRoomMessage_frame `{!Untouched π bRoomMsgs} `{!Untouched π bRoomIdx} s m rnd :
  same s (AddRoomMessage s m rnd).2.
Proof. unfold AddRoomMessage. same_tac; unfold add_room_tx; keeps_tac.
Qed.

Lemma MarkRoomDelivered_frame `{!Untouched π bRoomMsgs} `{!Untouched π bRoomOutbox} s r m id :
  same s (MarkRoomDelivered s r m id).2.
Proof.
  unfold MarkRoomDelivered. same_tac; unfold mark_room_tx, load_room_msg, getRoom; keeps_tac.
Qed.

Lemma RoomRecordAttempt_frame `{!Untouched π bRoomMsgs} s id now :
  same s (RoomRecordAttempt s id now).2.
Proof. apply same_Update. unfold load_room_msg. keeps_tac. Qed.

Lemma ToggleRoomReaction_frame `{!Untouched π bRoomMsgs} s r id sender emoji :
  same s (ToggleRoomReaction s r id sender emoji).2.
Proof. unfold ToggleRoomReaction. same_tac; unfold toggle_tx, load_room_msg; keeps_tac. Qed.

Lemma NextRoomSenderSeq_frame `{!Untouched π bRoomSeq} s r sender :
  same s (NextRoomSenderSeq s r sender).2.
Proof. apply same_Update. unfold next_seq_tx. keeps_tac. Qed.

Lemma AddRoomMemberToOutbox_frame `{!Untouched π bRoomOutbox} s r m id :
  same s (AddRoomMemberToOutbox s r m id).2.
Proof. apply same_Update. keeps_tac. Qed.

(** ** Files *)

Lemma AddOutboundFile_frame `{!Untouched π bFiles} `{!Untouched π bFileOutbox}
    s id peer name hash data now rnd :
  same s (AddOutboundFile s id peer name hash data now rnd).2.
Proof. unfold AddOutboundFile. same_tac. etrans; [|apply same_Update; keeps_tac]. done. Qed.

Lemma BeginReceive_frame `{!Untouched π bFiles} s id peer name hash size now :
  same s (BeginReceive s id peer name hash size now).2.
Proof. unfold BeginReceive. same_tac. Qed.

Lemma WriteChunk_frame `{!Untouched π bFiles} s id off data : same s (WriteChunk s id off data).2.
Proof.
  unfold WriteChunk. same_tac. etrans; [|apply same_Update]; [done|].
  unfold chunk_tx, get_file. keeps_tac.
Qed.

Lemma setFileStatus_frame `{!Untouched π bFiles} s id st : same s (setFileStatus s id st).2.
Proof. apply same_Update. unfold get_file. keeps_tac. Qed.

Lemma CompleteFile_frame `{!Untouched π bFiles} s id rnd : same s (CompleteFile s id rnd).2.
Proof.
  unfold CompleteFile, complete_finish, markFileFailed. repeat case_match; simplify_eq/=; try done.
  - etrans; [|apply same_disk]. apply setFileStatus_frame.
  - match goal with Hs : setFileStatus ?s0 _ _ = _ |- _ =>
      pose proof (setFileStatus_frame s0 id FileComplete) as Hf; rewrite Hs in Hf end. done.
  - match goal with Hs : setFileStatus ?s0 _ _ = _ |- _ =>
      pose proof (setFileStatus_frame s0 id FileComplete) as Hf; rewrite Hs in Hf end. done.
Qed.

Lemma leave_outbox_keeps `{!Untouched π bFiles} `{!Untouched π bFileOutbox} id f :
  keeps π (leave_outbox id f).
Proof. unfold leave_outbox. keeps_tac. Qed.

Lemma MarkFileSent_frame `{!Untouched π bFiles} `{!Untouched π bFileOutbox} s id :
  same s (MarkFileSent s id).2.
Proof. apply same_Update, leave_outbox_keeps. Qed.

Lemma MarkFileSending_frame `{!Untouched π bFiles} s id : same s (MarkFileSending s id).2.
Proof. apply same_Update. unfold get_file. keeps_tac. Qed.

Lemma DeleteFile_frame `{!Untouched π bFiles} `{!Untouched π bFileOutbox} s id :
  same s (DeleteFile s id).2.
Proof.
  unfold DeleteFile. same_tac. unfold same_part. cbn. 
  match goal with Hu : Update ?s ?f = (_, ?s') |- _ =>
    apply (same_Update_eq π _ _ _ _ Hu) end. keeps_tac.
Qed.

(** ** Peers and the identity *)

Lemma Observe_frame `{!Untouched π bPeers} s name key now rnd : same s (Observe s name key now rnd).2.
Proof.
  unfold Observe. same_tac. apply same_Update. intros d x d'. unfold observe_tx.
  destruct (getPeer name d) as [[p d1]|e] eqn:Eg.
  - assert (d1 = d) as ->. { revert Eg. unfold getPeer. tx_unfold. repeat case_match; naive_solver. }
    destruct (decrypt s (p_Key p)); [|done].
    case_match; intros Hk; revert Hk; apply keeps_bind; eauto with frame; unfold putPeer; keeps_tac.
  - case_match; [|done]. intros Hk; revert Hk; apply keeps_bind; eauto with frame;
      unfold putPeer; keeps_tac.
Qed.

Lemma SetVerified_frame `{!Untouched π bPeers} s name v : same s (SetVerified s name v).2.
Proof. apply same_Update. unfold getPeer, putPeer. keeps_tac. Qed.

Lemma AcceptPendingKey_frame `{!Untouched π bPeers} s name : same s (AcceptPendingKey s name).2.
Proof. apply same_Update. unfold accept_tx, getPeer, putPeer. keeps_tac. Qed.

Lemma RenameIdentity_frame `{!Untouched π bMeta} s name : same s (RenameIdentity s name).2.
Proof. apply same_Update. keeps_tac. Qed.

(** ** Messages *)

Lemma AddMessage_frame `{!Untouched π bMsgs} `{!Untouched π bIdx} `{!Untouched π bOutbox} s m rnd :
  same s (AddMessage s m rnd).2.
Proof. unfold AddMessage. same_tac; unfold add_tx; keeps_tac. Qed.

Lemma MarkDelivered_frame `{!Untouched π bMsgs} `{!Untouched π bOutbox} s peer id :
  same s (MarkDelivered s peer id).2.
Proof. unfold MarkDelivered. same_tac; unfold mark_tx, loadByID; keeps_tac. Qed.

Lemma RecordAttempt_frame `{!Untouched π bMsgs} s id now : same s (RecordAttempt s id now).2.
Proof. unfold RecordAttempt. same_tac; unfold attempt_tx, loadByID; keeps_tac. Qed.

Lemma DeleteMessage_frame `{!Untouched π bMsgs} `{!Untouched π bIdx} `{!Untouched π bOutbox} s id :
  same s (DeleteMessage s id).2.
Proof. apply same_Update. unfold loadByID. keeps_tac. Qed.
End ops.

#[export] Hint Resolve CreateRoom_frame UpdateRoom_frame DeleteRoom_frame AddRoomMessage_frame
  MarkRoomDelivered_frame RoomRecordAttempt_frame ToggleRoomReaction_frame NextRoomSenderSeq_frame
  AddRoomMemberToOutbox_frame AddOutboundFile_frame BeginReceive_frame WriteChunk_frame
  CompleteFile_frame MarkFileSent_frame MarkFileSending_frame DeleteFile_frame Observe_frame
  SetVerified_frame AcceptPendingKey_frame RenameIdentity_frame AddMessage_frame
  MarkDelivered_frame RecordAttempt_frame DeleteMessage_frame : frame.
