(* ===== verification/RowLog.v ===== *)
(** * A log kept in a bucket (shared by the proofs about rooms)

    The store keeps a log of rows the same way wherever it keeps one: a bucket
    whose keys are a group, a zero byte and the row's sequence number in eight
    bytes, and an index from identifiers to keys; the body of a row is
    encrypted.  [LogRow] says what a type of rows has to offer, [rows_wf] when
    the two buckets are consistent, and [row_log] reads the list they hold.
    The lemmas say how the list changes with the buckets and what the cursor
    walk over one group visits. *)

From stdpp Require Import sorting.
From S2P Require Import Prelude GoStrings Utf8 Proto Bolt StoreData.

Class LogRow (X : Type) := {
  row_id : X → string;
  row_seq : X → Z;
  row_group : X → string;
  row_body : X → string;
  row_with_body : string → X → X;
  row_id_body b x : row_id (row_with_body b x) = row_id x;
  row_seq_body b x : row_seq (row_with_body b x) = row_seq x;
  row_group_body b x : row_group (row_with_body b x) = row_group x }.

Lemma be64_max : be_put64 (2 ^ 64 - 1) = of_bytes (replicate 8 255).
Proof. by vm_compute. Qed.

Section rows.
Context {B : Type → Type} `{Bolt B} {X : Type} `{!LogRow X}.
(** The decryption of a body. *)
Context (dec : string → result string).
Implicit Types (x : X) (rows : B (row X)) (idx : B string).

Definition row_key (group : string) (seq : Z) : string := group +:+ (of_bytes [0] +:+ be_put64 seq).

Definition decode (r : row X) : option X :=
  match r with
  | json x => match dec (row_body x) with Ok b => Some (row_with_body b x) | Err _ => None end
  | corrupt => None
  end.

(** The rows in sequence order, decrypted. *)
Definition row_log rows : list X :=
  sort_loop (λ a b, row_seq a <? row_seq b) (omap (λ kv, decode kv.2) (bitems rows)).

Record rows_wf rows idx : Prop := {
  rw_row k r : bget rows k = Some r →
    ∃ x, r = json x ∧ k = row_key (row_group x) (row_seq x) ∧ bget idx (row_id x) = Some k
      ∧ 1 <= row_seq x <= bseq rows ∧ no_nul (row_group x) ∧ put_error k = None
      ∧ is_ok (dec (row_body x)) = true;
  rw_idx id k : bget idx id = Some k → ∃ x, bget rows k = Some (json x) ∧ row_id x = id;
  rw_uniq k1 k2 x1 x2 : bget rows k1 = Some (json x1) → bget rows k2 = Some (json x2) →
    row_seq x1 = row_seq x2 → k1 = k2;
  rw_bound : 0 <= bseq rows < 2 ^ 64 - 1 }.

Definition find_row (id : string) (l : list X) : option X := head (filter (λ x, row_id x = id) l).
Definition update_row (id : string) (f : X → X) (l : list X) : list X :=
  (λ x, if decide (row_id x = id) then f x else x) <$> l.

Definition row_lt (a b : X) : Prop := row_seq a < row_seq b.
#[export] Instance row_lt_irrefl : Irreflexive row_lt.
Proof. unfold row_lt. intros a. unfold complement. lia. Qed.
#[export] Instance row_lt_trans : Transitive row_lt.
Proof. unfold row_lt. intros a b c. lia. Qed.

(** ** Reading *)

Lemma decode_ok x y :
  decode (json x) = Some y ↔ ∃ b, dec (row_body x) = Ok b ∧ y = row_with_body b x.
Proof. cbn. destruct (dec (row_body x)); naive_solver. Qed.

Lemma decode_fields x y :
  decode (json x) = Some y →
  row_id y = row_id x ∧ row_seq y = row_seq x ∧ row_group y = row_group x.
Proof.
  intros (b & _ & ->)%decode_ok. by rewrite row_id_body, row_seq_body, row_group_body.
Qed.

Lemma rw_get rows idx k x :
  rows_wf rows idx → bget rows k = Some (json x) →
  k = row_key (row_group x) (row_seq x) ∧ bget idx (row_id x) = Some k
  ∧ 1 <= row_seq x <= bseq rows ∧ no_nul (row_group x) ∧ put_error k = None
  ∧ ∃ y, decode (json x) = Some y.
Proof.
  intros Hwf Hg. apply (rw_row _ _ Hwf) in Hg as (? & [= <-] & ? & ? & ? & ? & ? & Hd).
  split_and!; try done; [lia..|]. cbn. destruct (dec (row_body x)); [by eexists|done].
Qed.

Lemma row_log_elem rows y :
  y ∈ row_log rows ↔ ∃ k x, bget rows k = Some (json x) ∧ decode (json x) = Some y.
Proof.
  unfold row_log. rewrite sort_loop_Permutation, list_elem_of_omap. split.
  - intros ([k [x|]] & Hin & Hd); [|done]. apply bitems_get in Hin. eauto.
  - intros (k & x & Hg & Hd). exists (k, json x). by rewrite bitems_get.
Qed.

Lemma rows_seq_NoDup rows idx l :
  rows_wf rows idx → NoDup l.*1 → l ⊆ bitems rows →
  NoDup (row_seq <$> omap (λ kv, decode kv.2) l).
Proof.
  intros Hwf. induction l as [|[k r] l IH]; intros Hnd Hsub; [constructor|].
  apply NoDup_cons in Hnd as [Hk Hnd]. specialize (IH Hnd ltac:(set_solver)).
  cbn [omap list_omap snd]. destruct (decode r) as [y|] eqn:Hd; [|done]. cbn.
  constructor; [|done]. intros (y' & Hs & Hin)%list_elem_of_fmap_1.
  apply list_elem_of_omap in Hin as ([k' [x'|]] & Hin & Hd'); [|done].
  destruct r as [x|]; [|done]. apply Hk.
  apply decode_fields in Hd as (_ & Hd & _). apply decode_fields in Hd' as (_ & Hd' & _).
  assert (k = k') as ->; [|by apply (list_elem_of_fmap_2 fst _ (k', json x'))].
  eapply (rw_uniq _ _ Hwf); [apply bitems_get, Hsub; by left|apply bitems_get, Hsub; by right|congruence].
Qed.

Lemma sorted_by_seq l :
  StronglySorted (not_less (λ a b : X, row_seq a <? row_seq b)) l → NoDup (row_seq <$> l) →
  StronglySorted row_lt l.
Proof.
  induction 1 as [|x l Hl IH Ha]; intros Hnd; [constructor|].
  apply NoDup_cons in Hnd as [Hn Hnd]. constructor; [by apply IH|].
  rewrite Forall_forall in *. intros y Hin. specialize (Ha _ Hin).
  unfold not_less in Ha. unfold row_lt.
  assert (row_seq x ≠ row_seq y) by (intros He; apply Hn; rewrite He; by apply list_elem_of_fmap_2).
  lia.
Qed.

Lemma row_log_sorted rows idx : rows_wf rows idx → StronglySorted row_lt (row_log rows).
Proof.
  intros Hwf. apply sorted_by_seq.
  - apply sort_loop_sorted; unfold not_less; intros; lia.
  - unfold row_log. rewrite sort_loop_Permutation.
    eapply rows_seq_NoDup; eauto with chirp.
Qed.

(** The log is the only list in sequence order with these rows. *)
Lemma row_log_unique rows idx l :
  rows_wf rows idx → StronglySorted row_lt l →
  (∀ y, y ∈ l ↔ ∃ k x, bget rows k = Some (json x) ∧ decode (json x) = Some y) → row_log rows = l.
Proof.
  intros Hwf Hl He. symmetry. eapply StronglySorted_ext; try done; try apply _.
  - by eapply row_log_sorted.
  - intros y. by rewrite He, row_log_elem.
Qed.

Lemma log_inj rows idx y1 y2 :
  rows_wf rows idx → y1 ∈ row_log rows → y2 ∈ row_log rows →
  row_id y1 = row_id y2 ∨ row_seq y1 = row_seq y2 → y1 = y2.
Proof.
  intros Hwf (k1 & x1 & Hg1 & Hd1)%row_log_elem (k2 & x2 & Hg2 & Hd2)%row_log_elem Hor.
  pose proof (decode_fields _ _ Hd1) as (Hi1 & Hs1 & _).
  pose proof (decode_fields _ _ Hd2) as (Hi2 & Hs2 & _).
  pose proof (rw_get _ _ _ _ Hwf Hg1) as (_ & Hx1 & _).
  pose proof (rw_get _ _ _ _ Hwf Hg2) as (_ & Hx2 & _).
  assert (k1 = k2) as ->; [|congruence].
  destruct Hor; [congruence|]. eapply (rw_uniq _ _ Hwf); [done|done|congruence].
Qed.

Lemma find_row_Some rows idx id y :
  rows_wf rows idx → find_row id (row_log rows) = Some y ↔ y ∈ row_log rows ∧ row_id y = id.
Proof.
  intros Hwf. unfold find_row. split.
  - intros Hh%head_Some_elem_of. apply list_elem_of_filter in Hh. by destruct Hh.
  - intros [Hy Hid]. assert (Hf : y ∈ filter (λ y, row_id y = id) (row_log rows))
      by by apply list_elem_of_filter.
    destruct (filter _ _) as [|y' l] eqn:E; [by apply not_elem_of_nil in Hf|]. cbn. f_equal.
    assert (y' ∈ filter (λ y, row_id y = id) (row_log rows)) as [Hi' Hy']%list_elem_of_filter
      by (rewrite E; by left).
    eapply log_inj; try done. left. congruence.
Qed.

(** What the index says about an identifier. *)
Lemma find_row_index rows idx id :
  rows_wf rows idx →
  find_row id (row_log rows) = None ∧ bget idx id = None ∨
  ∃ k x y, find_row id (row_log rows) = Some y ∧ bget idx id = Some k ∧ row_id x = id
    ∧ bget rows k = Some (json x) ∧ decode (json x) = Some y ∧ put_error k = None.
Proof.
  intros Hwf. destruct (bget idx id) as [k|] eqn:E; [right|left].
  - apply (rw_idx _ _ Hwf) in E as (x & Hg & Hid).
    pose proof (rw_get _ _ _ _ Hwf Hg) as (_ & _ & _ & _ & Hp & y & Hd).
    exists k, x, y. split_and!; try done. eapply find_row_Some; [done|].
    split; [apply row_log_elem; eauto|]. apply decode_fields in Hd. naive_solver congruence.
  - split; [|done]. destruct (find_row id (row_log rows)) as [y|] eqn:Ef; [|done].
    eapply find_row_Some in Ef as [(k & x & Hg & Hd)%row_log_elem Hid]; [|done].
    pose proof (rw_get _ _ _ _ Hwf Hg) as (_ & Hx & _). apply decode_fields in Hd as (Hd & _).
    congruence.
Qed.
End rows.

(** ** How the list changes with the rows *)

Section changes.
Context {B : Type → Type} `{Bolt B} {X : Type} `{!LogRow X}.
Context (dec : string → result string).
Implicit Types (x : X) (rows : B (row X)) (idx : B string).

(** A change that keeps what locates a row, and its body. *)
Definition in_place (f : X → X) : Prop :=
  ∀ x, row_id (f x) = row_id x ∧ row_seq (f x) = row_seq x ∧ row_group (f x) = row_group x
    ∧ row_body (f x) = row_body x ∧ ∀ b, f (row_with_body b x) = row_with_body b (f x).

Lemma decode_in_place f x y :
  in_place f → decode dec (json x) = Some y → decode dec (json (f x)) = Some (f y).
Proof.
  intros Hf (b & Hd & ->)%decode_ok. apply decode_ok. exists b.
  destruct (Hf x) as (_ & _ & _ & -> & Hb). by rewrite Hb.
Qed.

Lemma rows_put_wf rows idx k x f :
  rows_wf dec rows idx → in_place f → bget rows k = Some (json x) →
  rows_wf dec (bset rows k (json (f x))) idx.
Proof.
  intros Hwf Hf Hg. pose proof (rw_get _ _ _ _ _ Hwf Hg) as (Hk & Hi & Hq & Hn & Hp & y & Hd).
  destruct (Hf x) as (Fi & Fs & Fg & Fb & _). split; rewrite ?bseq_set.
  - intros k' r. rewrite bget_set. case_decide as Hkk; [|apply (rw_row _ _ _ Hwf)].
    intros [= <-]. subst k'. exists (f x). rewrite Fi, Fs, Fg, Fb. split_and!; try done; [lia..|].
    apply decode_ok in Hd as (b & Hb & _). by rewrite Hb.
  - intros id k' (x' & Hx' & Hid)%(rw_idx _ _ _ Hwf). rewrite bget_set.
    case_decide; [|by exists x']. exists (f x). split; [done|]. congruence.
  - intros k1 k2 x1 x2. rewrite !bget_set.
    do 2 case_decide; intros Ha Hb Hs; simplify_eq; auto; eapply (rw_uniq _ _ _ Hwf); eauto; congruence.
  - apply (rw_bound _ _ _ Hwf).
Qed.

(** A row replaced in place is an update of the list. *)
Lemma rows_put rows idx k x f :
  rows_wf dec rows idx → in_place f → bget rows k = Some (json x) →
  row_log dec (bset rows k (json (f x))) = update_row (row_id x) f (row_log dec rows)
  ∧ rows_wf dec (bset rows k (json (f x))) idx.
Proof.
  intros Hwf Hf Hg. pose proof (rows_put_wf _ _ _ _ _ Hwf Hf Hg) as Hwf'. split; [|done].
  pose proof (rw_get _ _ _ _ _ Hwf Hg) as (_ & Hi & _ & _ & _ & y & Hd).
  pose proof (decode_fields _ _ _ Hd) as (Hyi & _).
  apply (row_log_unique dec _ idx); [done| |].
  - unfold update_row. eapply StronglySorted_fmap; [|by eapply row_log_sorted].
    intros a b _ _ Hab. unfold row_lt in *. destruct (Hf a) as (_ & Ha & _), (Hf b) as (_ & Hb & _).
    do 2 case_decide; congruence.
  - intros z. unfold update_row. rewrite list_elem_of_fmap. split.
    + intros (a & -> & Ha). pose proof Ha as (ka & xa & Hga & Hda)%row_log_elem.
      case_decide as Hid.
      * exists k, (f x). rewrite bget_set_eq. split; [done|].
        assert (a = y) as ->.
        { apply (log_inj dec rows idx); [done|done|apply row_log_elem; eauto|left; congruence]. }
        by apply decode_in_place.
      * exists ka, xa. rewrite bget_set_ne; [done|]. intros ->.
        apply decode_fields in Hda as (Hda & _). congruence.
    + intros (ka & xa & Hga & Hda). rewrite bget_set in Hga. case_decide as Hk.
      * injection Hga as <-. exists y. rewrite (decode_in_place _ _ _ Hf Hd) in Hda.
        injection Hda as <-. rewrite decide_True by done. split; [done|]. apply row_log_elem; eauto.
      * exists z. rewrite decide_False; [split; [done|apply row_log_elem; eauto]|].
        intros Hid. apply decode_fields in Hda as (Hda & _).
        pose proof (rw_get _ _ _ _ _ Hwf Hga) as (_ & Hx & _). congruence.
Qed.

Lemma row_key_inj g q g' q' :
  0 <= q < 2 ^ 64 → 0 <= q' < 2 ^ 64 → row_key g q = row_key g' q' → q = q' ∧ g = g'.
Proof.
  intros Hq Hq' He. unfold row_key in He. apply str_app_suffix_inj in He as [Hg He].
  2: { rewrite <- !bytes_of_length, !bytes_of_app, !length_app, !bytes_of_length.
       by rewrite !be_put64_length. }
  apply str_app_suffix_inj in He as [_ He]; [|by rewrite !be_put64_length].
  split; [by apply be_put64_inj|done].
Qed.

(** A new row goes to the end. *)
Lemma rows_add rows idx x y :
  rows_wf dec rows idx → row_seq x = bseq rows + 1 → row_seq x < 2 ^ 64 - 1 →
  no_nul (row_group x) → bget idx (row_id x) = None → decode dec (json x) = Some y →
  let k := row_key (row_group x) (row_seq x) in
  put_error k = None →
  row_log dec (bset (bnext rows) k (json x)) = row_log dec rows ++ [y]
  ∧ rows_wf dec (bset (bnext rows) k (json x)) (bset idx (row_id x) k)
  ∧ bseq (bset (bnext rows) k (json x)) = bseq rows + 1.
Proof.
  intros Hwf Hq Hlt Hn Hi Hd k Hp. pose proof (rw_bound _ _ _ Hwf) as Hb.
  set (rows' := bset (bnext rows) k (json x)).
  assert (Hseq : bseq rows' = bseq rows + 1)
    by (unfold rows'; rewrite bseq_set, bseq_next, uint64_id; lia).
  assert (Hget : ∀ k', bget rows' k' = if decide (k = k') then Some (json x) else bget rows k')
    by (intros; unfold rows'; by rewrite bget_set, bget_next).
  assert (Hold : ∀ k' x', bget rows k' = Some (json x') → k ≠ k' ∧ row_seq x' ≤ bseq rows).
  { intros k' x' Hg. pose proof (rw_get _ _ _ _ _ Hwf Hg) as (-> & _ & ? & _). split; [|lia].
    intros [? _]%row_key_inj; lia. }
  assert (Hwf' : rows_wf dec rows' (bset idx (row_id x) k)).
  { split; rewrite ?Hseq.
    - intros k' r. rewrite Hget. case_decide as Hkk.
      + intros [= <-]. exists x. rewrite bget_set_eq. subst k'. split_and!; try done; [lia..|].
        apply decode_ok in Hd as (b & Hd & _). by rewrite Hd.
      + intros (x' & -> & Hk' & Hi' & ? & ? & ? & ?)%(rw_row _ _ _ Hwf). exists x'.
        rewrite bget_set_ne by congruence. split_and!; try done; lia.
    - intros id k'. rewrite bget_set. case_decide as Hid.
      + intros [= <-]. exists x. by rewrite Hget, decide_True.
      + intros (x' & Hg & Hx')%(rw_idx _ _ _ Hwf). exists x'.
        rewrite Hget, decide_False; [done|]. by eapply Hold.
    - intros k1 k2 x1 x2. rewrite !Hget.
      do 2 case_decide; intros Ha Hb' Hs; simplify_eq; auto.
      + apply Hold in Hb'. lia.
      + apply Hold in Ha. lia.
      + by eapply (rw_uniq _ _ _ Hwf).
    - lia. }
  split; [|done]. apply (row_log_unique dec _ _ _ Hwf').
  - apply StronglySorted_app_2; [|by eapply row_log_sorted|repeat constructor].
    intros a b (ka & xa & Hg & Hda)%row_log_elem ->%list_elem_of_singleton.
    apply decode_fields in Hda as (_ & Hda & _). apply decode_fields in Hd as (_ & Hd & _).
    apply Hold in Hg. unfold row_lt. lia.
  - intros z. rewrite elem_of_app, list_elem_of_singleton, row_log_elem. split.
    + intros [(k' & x' & Hg & Hz)| ->].
      * exists k', x'. rewrite Hget, decide_False; [done|]. by eapply Hold.
      * exists k, x. by rewrite Hget, decide_True.
    + intros (k' & x' & Hg & Hz). rewrite Hget in Hg. case_decide; [|left; eauto].
      right. congruence.
Qed.

(** Rows removed with their index entries. *)
Lemma rows_remove rows idx rows' idx' (P : X → Prop) `{!∀ x, Decision (P x)} :
  rows_wf dec rows idx → (∀ b x, P (row_with_body b x) ↔ P x) → bseq rows' = bseq rows →
  (∀ k x, bget rows k = Some (json x) → bget rows' k = if decide (P x) then Some (json x) else None) →
  (∀ k, bget rows k = None → bget rows' k = None) →
  (∀ id, bget idx' id = match bget idx id with
                        | Some k => match bget rows k with
                                    | Some (json x) => if decide (P x) then Some k else None
                                    | _ => None
                                    end
                        | None => None
                        end) →
  row_log dec rows' = filter P (row_log dec rows) ∧ rows_wf dec rows' idx'.
Proof.
  intros Hwf HP Hseq Hget Hnone Hidx.
  assert (Hback : ∀ k r, bget rows' k = Some r → ∃ x, r = json x ∧ bget rows k = Some (json x) ∧ P x).
  { intros k r Hg. destruct (bget rows k) as [r'|] eqn:E; [|apply Hnone in E; congruence].
    pose proof (rw_row _ _ _ Hwf _ _ E) as (x & -> & _). rewrite (Hget _ _ E) in Hg.
    case_decide; naive_solver. }
  assert (Hwf' : rows_wf dec rows' idx').
  { split; rewrite ?Hseq.
    - intros k r (x & -> & Hg & Hx)%Hback. pose proof (rw_row _ _ _ Hwf _ _ Hg) as (? & [= <-] & Hk & Hi & ?).
      exists x. split; [done|]. split; [done|]. split; [|done]. rewrite Hidx, Hi, Hg. by rewrite decide_True.
    - intros id k. rewrite Hidx. destruct (bget idx id) as [k'|] eqn:E; [|done].
      pose proof (rw_idx _ _ _ Hwf _ _ E) as (x & Hg & Hid). rewrite Hg. case_decide as Hx; [|done].
      intros [= ->]. exists x. rewrite (Hget _ _ Hg). by rewrite decide_True.
    - intros k1 k2 x1 x2 (? & [= <-] & Hg1 & _)%Hback (? & [= <-] & Hg2 & _)%Hback.
      by apply (rw_uniq _ _ _ Hwf).
    - apply (rw_bound _ _ _ Hwf). }
  split; [|done]. apply (row_log_unique dec _ _ _ Hwf').
  - apply StronglySorted_filter. by eapply row_log_sorted.
  - intros z. rewrite list_elem_of_filter, row_log_elem. split.
    + intros [Hz (k & x & Hg & Hd)]. exists k, x. rewrite (Hget _ _ Hg).
      rewrite decide_True; [done|]. apply decode_ok in Hd as (b & _ & ->). by apply HP in Hz.
    + intros (k & x & (? & [= <-] & Hg & Hx)%Hback & Hd). split; [|eauto].
      apply decode_ok in Hd as (b & _ & ->). by apply HP.
Qed.

(** ** The walk over a group *)

Lemma group_prefix g q g' :
  no_nul g → no_nul g' → has_prefix (row_key g' q) (g +:+ of_bytes [0]) = true ↔ g' = g.
Proof.
  intros Hg Hg'. unfold row_key. rewrite has_prefix_spec. split.
  - intros [r He]. apply (f_equal bytes_of) in He.
    rewrite !bytes_of_app, <- (assoc_L (++)) in He.
    apply nul_split in He as [He _]; [by apply bytes_of_inj|done|done].
  - intros ->. exists (be_put64 q). by rewrite str_app_assoc.
Qed.

Lemma group_range rows idx g u k x :
  rows_wf dec rows idx → no_nul g → u = be_put64 (2 ^ 64 - 1) → bget rows k = Some (json x) →
  (has_prefix k (g +:+ of_bytes [0]) = true ∧ str_ltb k ((g +:+ of_bytes [0]) +:+ u) = true)
  ↔ row_group x = g.
Proof.
  intros Hwf Hg -> Hk. pose proof (rw_bound _ _ _ Hwf).
  pose proof (rw_get _ _ _ _ _ Hwf Hk) as (-> & _ & Hq & Hn & _).
  rewrite group_prefix by done. split; [by intros [? _]|]. intros He. split; [done|].
  unfold row_key. rewrite He, <- str_app_assoc. apply str_lt_app_l, str_lt_app_l.
  apply be_put64_lt; lia.
Qed.

(** The rows between a group's bounds, in key order, are the group's part of the list. *)
Lemma group_log rows idx g u :
  rows_wf dec rows idx → no_nul g → u = be_put64 (2 ^ 64 - 1) →
  omap (λ kv, decode dec kv.2)
    (filter (λ kv, has_prefix kv.1 (g +:+ of_bytes [0]) = true
      ∧ str_ltb kv.1 ((g +:+ of_bytes [0]) +:+ u) = true) (bitems rows))
  = filter (λ y, row_group y = g) (row_log dec rows).
Proof.
  intros Hwf Hg Hu. eapply (StronglySorted_ext row_lt).
  - pose proof (bitems_sorted rows) as Hb.
    assert (Hsub : bitems rows ⊆ bitems rows) by done. revert Hb Hsub.
    generalize (bitems rows) at 1 2 4. intros l.
    induction l as [|[k r] l IH]; intros Hb Hsub; [constructor|].
    apply sorted_cons in Hb as [Hb Hlt]. specialize (IH Hb ltac:(set_solver)).
    assert (Hk : bget rows k = Some r) by (apply bitems_get, Hsub; by left).
    pose proof (rw_row _ _ _ Hwf _ _ Hk) as (x & -> & _).
    rewrite filter_cons. case_decide as Hc; [|done]. cbn [omap list_omap snd].
    destruct (decode dec (json x)) as [y|] eqn:Hd; [|done].
    constructor; [done|]. apply Forall_forall. intros y' Hin.
    apply list_elem_of_omap in Hin as ([k' r'] & [Hc' Hin]%list_elem_of_filter & Hd').
    assert (Hk' : bget rows k' = Some r') by (apply bitems_get, Hsub; by right).
    pose proof (rw_row _ _ _ Hwf _ _ Hk') as (x' & -> & _). specialize (Hlt _ Hin).
    cbn [fst snd] in *. apply (group_range _ _ _ _ _ _ Hwf Hg Hu Hk) in Hc.
    apply (group_range _ _ _ _ _ _ Hwf Hg Hu Hk') in Hc'.
    pose proof (rw_get _ _ _ _ _ Hwf Hk) as (-> & _ & Hq & _).
    pose proof (rw_get _ _ _ _ _ Hwf Hk') as (-> & _ & Hq' & _).
    apply decode_fields in Hd as (_ & Hd & _). apply decode_fields in Hd' as (_ & Hd' & _).
    unfold row_key in Hlt. rewrite Hc, Hc' in Hlt.
    apply str_lt_app_l in Hlt. apply str_lt_app_l in Hlt.
    unfold row_lt. rewrite Hd, Hd'. pose proof (rw_bound _ _ _ Hwf).
    destruct (Z.lt_trichotomy (row_seq x) (row_seq x')) as [?|[Heq|Hgt]]; [done| |].
    + rewrite Heq in Hlt. by apply (irreflexivity str_lt) in Hlt.
    + apply be_put64_lt in Hgt; [|lia|lia].
      destruct (irreflexivity str_lt (be_put64 (row_seq x))). by etrans.
  - apply StronglySorted_filter. by eapply row_log_sorted.
  - intros y. rewrite list_elem_of_omap, list_elem_of_filter, row_log_elem. split.
    + intros ([k r] & [Hc Hin]%list_elem_of_filter & Hd). apply bitems_get in Hin.
      pose proof (rw_row _ _ _ Hwf _ _ Hin) as (x & -> & _). cbn [fst snd] in *.
      apply (group_range _ _ _ _ _ _ Hwf Hg Hu Hin) in Hc.
      split; [|eauto]. apply decode_fields in Hd as (_ & _ & ->). done.
    + intros [Hy (k & x & Hk & Hd)]. exists (k, json x). split; [|done].
      apply list_elem_of_filter. rewrite bitems_get. split; [|done].
      apply (group_range _ _ _ _ _ _ Hwf Hg Hu Hk). apply decode_fields in Hd as (_ & _ & <-). done.
Qed.
End changes.
