(* ===== verification/RoomLog.v ===== *)
(** * The room store refines a list (specification of StoreRooms.v)

    What the rooms, room messages, index and outbox buckets promise the rest
    of the program: a list of messages in sequence order, the set of copies
    owed (which member of which room still has to get which message) and the
    members of each room.  [room_rel] relates a store to such a state,
    [room_spec] says what each operation does to it and returns. *)

From stdpp Require Import sorting.
From S2P Require Import Prelude GoStrings Utf8 Proto Identity Base64 Crypto Bolt StoreData.
From S2P Require Import StoreCore StoreMessages MessageLog StoreRooms RowLog.

#[export] Program Instance room_row `{UnicodeTables} : LogRow RoomMessage := {|
  row_id := rm_ID; row_seq := rm_Seq; row_group m := ToLower (rm_Room m); row_body := rm_Body;
  row_with_body := rset_Body |}.
Solve All Obligations with done.

(** ** The specification *)

(** A copy owed: the folded room and member, and the message. *)
Definition owed_copy : Type := string * string * string.

Record rstate := mkRState {
  rs_log : list RoomMessage;
  rs_next : Z;
  rs_owed : gset owed_copy;
  rs_members : gmap string (list string);
  rs_counters : gmap (string * string) Z }.

(** The operations that change the room store, with their random reads. *)
Inductive room_op :=
| RPut (create : bool) (r : Room) (rnd : option string)
| RAdd (m : RoomMessage) (rnd : option string)
| RQueue (room member id : string)
| RSeq (room sender : string)
| RAttempt (id : string) (now : Z)
| RToggle (room id sender emoji : string)
| RMark (room member id : string)
| RDelete (room : string).

Inductive room_res :=
| RRMsg (r : result (RoomMessage * bool))
| RRUnit (r : result unit)
| RRSeq (r : result Z).

Section spec.
Context `{UnicodeTables}.

Definition set_rlog (l : list RoomMessage) (st : rstate) : rstate :=
  mkRState l (rs_next st) (rs_owed st) (rs_members st) (rs_counters st).
Definition set_owed (o : gset owed_copy) (st : rstate) : rstate :=
  mkRState (rs_log st) (rs_next st) o (rs_members st) (rs_counters st).
Definition set_members (m : gmap string (list string)) (st : rstate) : rstate :=
  mkRState (rs_log st) (rs_next st) (rs_owed st) m (rs_counters st).
Definition set_counters (c : gmap (string * string) Z) (st : rstate) : rstate :=
  mkRState (rs_log st) (rs_next st) (rs_owed st) (rs_members st) c.

(** Whether a member is still owed anything in a room. *)
Definition waits (owed : gset owed_copy) (room member : string) : bool :=
  negb (bool_decide (filter (λ o, o.1 = (ToLower room, ToLower member)) owed = ∅)).

Definition copy (room member id : string) : owed_copy := (ToLower room, ToLower member, ToLower id).

(** The first reaction that matches goes, or a new one is added. *)
Definition toggled (sender emoji : string) (m : RoomMessage) : option (list RoomReaction) :=
  match drop_reaction sender emoji (rm_Reactions m) with
  | Some l => Some l
  | None => if MaxRoomReactions <=? Z.of_nat (length (rm_Reactions m)) then None
            else Some (rm_Reactions m ++ [mkReaction sender emoji])
  end.

Definition room_spec (op : room_op) (st : rstate) : room_res * rstate :=
  let l := rs_log st in
  match op with
  | RPut create r _ =>
      if create && (MaxRoomMembers <? Z.of_nat (length (r_Members r)))
      then (RRUnit (Err (Errorf "store: room has too many members")), st)
      else (RRUnit (Ok tt), set_members (<[r_ID r := r_Members r]> (rs_members st)) st)
  | RAdd m _ =>
      match find_row (rm_ID m) l with
      | Some _ => (RRMsg (Ok (zero_room_message, true)), st)
      | None =>
          let m := rset_Seq (rs_next st + 1) m in
          (RRMsg (Ok (m, false)), mkRState (l ++ [m]) (rs_next st + 1) (rs_owed st) (rs_members st) (rs_counters st))
      end
  | RQueue room member id => (RRUnit (Ok tt), set_owed ({[copy room member id]} ∪ rs_owed st) st)
  | RSeq room sender =>
      let n := uint64 (default 0 (rs_counters st !! (ToLower room, ToLower sender)) + 1) in
      (RRSeq (Ok n), set_counters (<[(ToLower room, ToLower sender) := n]> (rs_counters st)) st)
  | RAttempt id now =>
      match find_row id l with
      | None => (RRUnit (Err not_found), st)
      | Some _ => (RRUnit (Ok tt), set_rlog (update_row id (rbump_attempt now) l) st)
      end
  | RToggle room id sender emoji =>
      match find_row id l with
      | None => (RRMsg (Err not_found), st)
      | Some m =>
          if negb (EqualFold (rm_Room m) room) then (RRMsg (Err not_found), st) else
          match toggled sender emoji m with
          | None => (RRMsg (Err (Errorf "store: too many reactions on this message")), st)
          | Some rs => (RRMsg (Ok (rset_Reactions rs m, true)),
                        set_rlog (update_row id (rset_Reactions rs) l) st)
          end
      end
  | RMark room member id =>
      match find_row id l with
      | None => (RRMsg (Err not_found), st)
      | Some m =>
          if rm_Status m =s? StatusDelivered then (RRMsg (Ok (m, false)), st) else
          match rs_members st !! room with
          | None => (RRMsg (Err not_found), st)
          | Some mbs =>
              let owed := rs_owed st ∖ {[copy room member id]} in
              if existsb (λ mb, negb (mb =s? rm_Sender m) && waits owed room mb) mbs
              then (RRMsg (Ok (m, false)), set_owed owed st)
              else (RRMsg (Ok (rset_Status StatusDelivered m, true)),
                    set_rlog (update_row id (rset_Status StatusDelivered) l) (set_owed owed st))
          end
      end
  | RDelete room =>
      (RRUnit (Ok tt),
       mkRState (filter (λ m, ToLower (rm_Room m) ≠ ToLower room) l) (rs_next st)
         (filter (λ o, o.1.1 ≠ ToLower room) (rs_owed st)) (delete room (rs_members st))
         (rs_counters st))
  end.
End spec.

(** ** Keys of the outbox *)

Definition colon_free (s : string) : Prop := 58 ∉ bytes_of s.

Definition out_key (R M V : string) : string := R +:+ (":" +:+ (M +:+ (":" +:+ V))).

Lemma sep_split (c : Z) a b x y : c ∉ a → c ∉ b → a ++ c :: x = b ++ c :: y → a = b ∧ x = y.
Proof.
  revert b. induction a as [|d a IH]; intros [|e b] Ha Hb He; simplify_eq/=; [done|set_solver..|].
  destruct (IH b) as [-> ->]; [set_solver|set_solver|done|done].
Qed.

(** A text with one separator has no second one to match. *)
Lemma sep_split_last (c : Z) a b x y : c ∉ a → c ∉ x → a ++ c :: x = b ++ c :: y → a = b ∧ x = y.
Proof.
  revert b. induction a as [|d a IH]; intros [|e b] Ha Hx He; simplify_eq/=; [done|set_solver..|].
  destruct (IH b) as [-> ->]; [set_solver|done|done|done].
Qed.

Lemma out_key_inj R M V R' M' V' :
  colon_free R → colon_free M → colon_free R' → colon_free M' →
  out_key R M V = out_key R' M' V' → R = R' ∧ M = M' ∧ V = V'.
Proof.
  unfold out_key. intros HR HM HR' HM' He. apply (f_equal bytes_of) in He.
  rewrite !bytes_of_app in He. change (bytes_of ":") with [58] in He. cbn [app] in He.
  apply sep_split in He as [E1 He]; [|done..]. apply sep_split in He as [E2 E3]; [|done..].
  split_and!; by apply bytes_of_inj.
Qed.

(** The prefix of a room, and of one member in it. *)
Lemma room_prefix R M V R' :
  colon_free R → colon_free R' → has_prefix (out_key R M V) (R' +:+ ":") = true ↔ R = R'.
Proof.
  intros HR HR'. rewrite has_prefix_spec. unfold out_key. split.
  - intros [r He]. apply (f_equal bytes_of) in He.
    rewrite !bytes_of_app, <- (assoc_L (++)) in He. change (bytes_of ":") with [58] in He.
    cbn [app] in He.
    apply sep_split in He as [E _]; [by apply bytes_of_inj|done..].
  - intros ->. exists (M +:+ (":" +:+ V)). by rewrite str_app_assoc.
Qed.

Lemma member_prefix_key R M V R' M' :
  colon_free R → colon_free R' → colon_free M → colon_free V →
  has_prefix (out_key R M V) (R' +:+ (":" +:+ (M' +:+ ":"))) = true ↔ R = R' ∧ M = M'.
Proof.
  intros HR HR' HM HV. rewrite has_prefix_spec. unfold out_key. split.
  - intros [r He]. apply (f_equal bytes_of) in He.
    rewrite !bytes_of_app, <- !(assoc_L (++)) in He. change (bytes_of ":") with [58] in He.
    cbn [app] in He. rewrite <- ?(assoc_L (++)) in He. cbn [app] in He.
    apply sep_split in He as [E1 He]; [|done..].
    apply sep_split_last in He as [E2 _]; [|done..]. split; by apply bytes_of_inj.
  - intros [-> ->]. exists V. by rewrite !str_app_assoc.
Qed.

Lemma seq_key_inj R M R' M' :
  no_nul R → no_nul R' → R +:+ (of_bytes [0] +:+ M) = R' +:+ (of_bytes [0] +:+ M') → R = R' ∧ M = M'.
Proof.
  intros HR HR' He. apply (f_equal bytes_of) in He. rewrite !bytes_of_app in He.
  apply sep_split in He as [E1 E2]; [|done..]. split; by apply bytes_of_inj.
Qed.

(** ** The relation between stores and states *)

Section relation.
Context {B : Type → Type} `{Bolt B} `{Primitives} `{UnicodeTables}.
Implicit Types (s : Store B) (st : rstate) (m : RoomMessage).

Definition run_room (op : room_op) s : room_res * Store B :=
  match op with
  | RPut true r rnd => let (r, s') := CreateRoom s r rnd in (RRUnit r, s')
  | RPut false r rnd => let (r, s') := UpdateRoom s r rnd in (RRUnit r, s')
  | RAdd m rnd => let (r, s') := AddRoomMessage s m rnd in (RRMsg r, s')
  | RQueue room member id => let (r, s') := AddRoomMemberToOutbox s room member id in (RRUnit r, s')
  | RSeq room sender => let (r, s') := NextRoomSenderSeq s room sender in (RRSeq r, s')
  | RAttempt id now => let (r, s') := RoomRecordAttempt s id now in (RRUnit r, s')
  | RToggle room id sender emoji =>
      let (r, s') := ToggleRoomReaction s room id sender emoji in (RRMsg r, s')
  | RMark room member id => let (r, s') := MarkRoomDelivered s room member id in (RRMsg r, s')
  | RDelete room => let (r, s') := DeleteRoom s room in (RRUnit r, s')
  end.

Definition room_rows s : B (row RoomMessage) := d_roommsgs (s_db s).

Record room_rel s st : Prop := {
  rr_keys : keys_ok s;
  rr_wf : rows_wf (decryptString s) (room_rows s) (d_roomidx (s_db s));
  rr_log : row_log (decryptString s) (room_rows s) = rs_log st;
  rr_next : bseq (room_rows s) = rs_next st;
  rr_out k v : bget (d_roomoutbox (s_db s)) k = Some v ↔
    ∃ R M, (R, M, v) ∈ rs_owed st ∧ k = out_key R M v;
  rr_free R M V : (R, M, V) ∈ rs_owed st → colon_free R ∧ colon_free M ∧ colon_free V;
  rr_rooms k : match bget (d_rooms (s_db s)) k with
               | Some (json r) => rs_members st !! k = Some (r_Members r)
               | Some corrupt => False
               | None => rs_members st !! k = None
               end;
  rr_seqs k v : bget (d_roomseq (s_db s)) k = Some v ↔
    ∃ R M n, rs_counters st !! (R, M) = Some n ∧ k = R +:+ (of_bytes [0] +:+ M) ∧ v = be_put64 n;
  rr_counter R M n : rs_counters st !! (R, M) = Some n → no_nul R ∧ no_nul M ∧ 0 <= n < 2 ^ 64;
  rr_times k m : bget (room_rows s) k = Some (json m) → jsonable m = true }.

(** What the arguments must satisfy: names that fit in the keys, without the
    bytes the keys use as separators, nonces of twelve bytes, and times that
    [json.Marshal] takes. *)
Definition name_fits (x : string) : Prop :=
  no_nul (ToLower x) ∧ colon_free (ToLower x) ∧ slen (ToLower x) <= 10000.

Definition room_args_ok (op : room_op) : Prop :=
  match op with
  | RPut _ r rnd => 0 < slen (r_ID r) <= 32768 ∧ (∃ nonce, rnd = Some nonce) ∧ jsonable r = true
  | RAdd m rnd => name_fits (rm_Room m) ∧ 0 < slen (rm_ID m) <= 32768
                  ∧ (∃ nonce, rnd = Some nonce ∧ slen nonce = 12) ∧ jsonable m = true
  | RQueue room member id | RMark room member id =>
      name_fits room ∧ name_fits member ∧ name_fits id ∧ ToLower id = id
  | RSeq room sender => name_fits room ∧ name_fits sender
  | RDelete room => name_fits room
  | RAttempt _ now => json_time now = true
  | RToggle _ _ _ _ => True
  end.

Lemma decryptRoomMessage_decode s m y :
  decryptRoomMessage s m = Ok y ↔ decode (decryptString s) (json m) = Some y.
Proof.
  unfold decryptRoomMessage. cbn. destruct (decryptString s (rm_Body m)); naive_solver.
Qed.

(** [load_room_msg] finds the row of the message with that identifier. *)
Lemma load_row s st id :
  room_rel s st →
  find_row id (rs_log st) = None ∧ load_room_msg id (s_db s) = Err not_found ∨
  ∃ k x y, find_row id (rs_log st) = Some y ∧ decryptRoomMessage s x = Ok y ∧ rm_ID x = id
    ∧ bget (room_rows s) k = Some (json x) ∧ put_error k = None
    ∧ load_room_msg id (s_db s) = Ok (x, k, s_db s).
Proof.
  intros Hr. rewrite <- (rr_log _ _ Hr). unfold load_room_msg. tx_unfold.
  destruct (find_row_index _ _ _ id (rr_wf _ _ Hr)) as [[Hf Hi]|(k & x & y & Hf & Hi & Hid & Hg & Hd & Hp)];
    rewrite Hi; [by left|right]. exists k, x, y.
  change (d_roommsgs (s_db s)) with (room_rows s). rewrite Hg.
  split_and!; try done. by apply decryptRoomMessage_decode.
Qed.

Lemma in_place_status v : in_place (rset_Status v).
Proof. by intros m. Qed.
Lemma in_place_attempt now : in_place (rbump_attempt now).
Proof. by intros m. Qed.
Lemma jsonable_attempt now m : jsonable m = true → json_time now = true → jsonable (rbump_attempt now m) = true.
Proof. unfold jsonable, room_message_jsonable. cbn. intros [-> _]%andb_true_iff ->. done. Qed.
Lemma in_place_reactions l : in_place (rset_Reactions l).
Proof. by intros m. Qed.

(** A row rewritten in place, and another outbox. *)
Lemma rel_put s st k x f ob owed :
  room_rel s st → in_place f → bget (room_rows s) k = Some (json x) → jsonable (f x) = true →
  (∀ k v, bget ob k = Some v ↔ ∃ R M, (R, M, v) ∈ owed ∧ k = out_key R M v) →
  owed ⊆ rs_owed st →
  room_rel
    (with_db s (bupd bRoomMsgs (bset (room_rows s) k (marshal (f x))) (bupd bRoomOutbox ob (s_db s))))
    (set_rlog (update_row (rm_ID x) f (rs_log st)) (set_owed owed st)).
Proof.
  intros [Hk Hwf Hl Hn Ho Hfree Hrooms Hseqs Hctr Htm] Hf Hg Hj Hob Hsub. rewrite (marshal_ok _ Hj).
  destruct (rows_put (decryptString s) (room_rows s) (d_roomidx (s_db s)) k x f Hwf Hf Hg) as [Hl' Hwf'].
  split; [done|done| |cbn; by rewrite bseq_set|done| |done..|].
  - cbn [set_rlog rs_log]. rewrite <- Hl. exact Hl'.
  - intros R M V HV. by apply Hfree, Hsub.
  - intros k' m. unfold room_rows. cbn. rewrite bget_set. case_decide; [by intros [= <-]|apply Htm].
Qed.

(** Only the outbox. *)
Lemma rel_out s st ob owed :
  room_rel s st →
  (∀ k v, bget ob k = Some v ↔ ∃ R M, (R, M, v) ∈ owed ∧ k = out_key R M v) →
  (∀ R M V, (R, M, V) ∈ owed → colon_free R ∧ colon_free M ∧ colon_free V) →
  room_rel (with_db s (bupd bRoomOutbox ob (s_db s))) (set_owed owed st).
Proof. by intros [Hk Hwf Hl Hn Ho Hfree Hrooms Hseqs Hctr Htm] Hob Hsub; split. Qed.

Lemma with_same s : with_db s (s_db s) = s.
Proof. by destruct s. Qed.

(** ** The outbox *)

Lemma name_key room member id :
  name_fits room → name_fits member → name_fits id →
  put_error (roomOutboxKey room member id) = None.
Proof.
  intros (_ & _ & Hr) (_ & _ & Hm) (_ & _ & Hi). apply put_error_none. unfold roomOutboxKey.
  rewrite !slen_app. change (slen ":") with 1.
  pose proof (slen_nonneg (ToLower room)). pose proof (slen_nonneg (ToLower member)).
  pose proof (slen_nonneg (ToLower id)). lia.
Qed.

Lemma out_add s st room member id :
  room_rel s st → room_args_ok (RQueue room member id) →
  ∀ k v, bget (bset (d_roomoutbox (s_db s)) (roomOutboxKey room member id) id) k = Some v ↔
    ∃ R M, (R, M, v) ∈ {[copy room member id]} ∪ rs_owed st ∧ k = out_key R M v.
Proof.
  intros Hr ((_ & Hr1 & _) & (_ & Hm1 & _) & (_ & Hi1 & _) & Hid) k v. rewrite bget_set.
  change (roomOutboxKey room member id) with (out_key (ToLower room) (ToLower member) (ToLower id)).
  rewrite Hid. unfold copy. rewrite Hid. split.
  - case_decide as Hk.
    + intros [= <-]. exists (ToLower room), (ToLower member). split; [set_solver|done].
    + intros (R & M & Ho & ->)%(rr_out _ _ Hr). exists R, M. split; [set_solver|done].
  - intros (R & M & [[= -> -> ->]%elem_of_singleton|Ho]%elem_of_union & ->); [by rewrite decide_True|].
    case_decide as Hk.
    + pose proof (rr_free _ _ Hr _ _ _ Ho) as (? & ? & _).
      apply out_key_inj in Hk as (_ & _ & ->); done.
    + apply (rr_out _ _ Hr). eauto.
Qed.

Lemma out_del s st room member id :
  room_rel s st → room_args_ok (RMark room member id) →
  ∀ k v, bget (bdel (d_roomoutbox (s_db s)) (roomOutboxKey room member id)) k = Some v ↔
    ∃ R M, (R, M, v) ∈ rs_owed st ∖ {[copy room member id]} ∧ k = out_key R M v.
Proof.
  intros Hr ((_ & Hr1 & _) & (_ & Hm1 & _) & (_ & Hi1 & _) & Hid) k v. rewrite bget_del.
  change (roomOutboxKey room member id) with (out_key (ToLower room) (ToLower member) (ToLower id)).
  unfold copy. split.
  - case_decide as Hk; [done|]. intros (R & M & Ho & ->)%(rr_out _ _ Hr). exists R, M.
    split; [|done]. apply elem_of_difference. split; [done|]. by intros [= -> -> ->]%elem_of_singleton.
  - intros (R & M & [Ho Hne]%elem_of_difference & ->). case_decide as Hk.
    + pose proof (rr_free _ _ Hr _ _ _ Ho) as (? & ? & _).
      apply out_key_inj in Hk as (<- & <- & <-); [set_solver|done..].
    + apply (rr_out _ _ Hr). eauto.
Qed.

(** [someone_waits] on the outbox is [waits] on the set. *)
Lemma waits_prefix ob owed room mb :
  (∀ k v, bget ob k = Some v ↔ ∃ R M, (R, M, v) ∈ owed ∧ k = out_key R M v) →
  (∀ R M V, (R, M, V) ∈ owed → colon_free R ∧ colon_free M ∧ colon_free V) →
  colon_free (ToLower room) →
  match c_prefix (bitems ob) (member_prefix room mb) with [] => false | _ => true end
  = waits owed room mb.
Proof.
  intros Hob Hfree Hroom. rewrite c_prefix_filter by auto with chirp. unfold waits.
  destruct (filter _ (bitems ob)) as [|[k v] l] eqn:E; symmetry.
  - apply negb_false_iff, bool_decide_eq_true. apply set_eq. intros [[R M] V].
    rewrite elem_of_filter. split; [|set_solver]. cbn [fst]. intros [[= -> ->] Ho].
    assert (Hin : (out_key (ToLower room) (ToLower mb) V, V) ∈
      filter (λ kv, has_prefix kv.1 (member_prefix room mb) = true) (bitems ob)).
    { apply list_elem_of_filter. rewrite bitems_get. pose proof (Hfree _ _ _ Ho) as (? & ? & ?).
      split; [|apply Hob; eauto]. cbn [fst]. by apply member_prefix_key. }
    rewrite E in Hin. by apply not_elem_of_nil in Hin.
  - apply negb_true_iff, bool_decide_eq_false. intros Hempty.
    assert (Hin : (k, v) ∈ filter (λ kv, has_prefix kv.1 (member_prefix room mb) = true) (bitems ob))
      by (rewrite E; by left).
    apply list_elem_of_filter in Hin as [Hp Hin]. apply bitems_get, Hob in Hin as (R & M & Ho & ->).
    pose proof (Hfree _ _ _ Ho) as (? & ? & ?). cbn [fst] in Hp.
    apply member_prefix_key in Hp as [-> ->]; [|done..]. set_solver.
Qed.
End relation.

(** ** Every operation does what the specification says *)

Section simulation.
Context {B : Type → Type} `{Bolt B} `{Primitives} `{UnicodeTables}.
Implicit Types (s : Store B) (st : rstate) (m : RoomMessage).

(** Run on related states, an operation returns the same and keeps them related. *)
Definition simulates (op : room_op) s st : Prop :=
  let '(r, s') := run_room op s in
  r = (room_spec op st).1 ∧ room_rel s' (room_spec op st).2.

Lemma sim_add m rnd s st :
  room_rel s st → room_args_ok (RAdd m rnd) → rs_next st + 1 < 2 ^ 64 - 1 → simulates (RAdd m rnd) s st.
Proof.
  intros Hr ((Hnn & _ & Hlen) & Hid & (nonce & -> & Hn) & Hj) Hb. pose proof Hr as [Hk Hwf Hl Hnx Ho Hfree Hrooms Hseqs Hctr Htm].
  unfold simulates, run_room, AddRoomMessage.
  destruct (encryptString_total s nonce (rm_Body m) Hk) as [enc Henc]. rewrite Henc.
  pose proof (decryptString_encryptString _ _ _ _ Hk Hn Henc) as Hdec.
  cbn [room_spec]. rewrite <- Hl.
  destruct (find_row_index _ _ _ (rm_ID m) Hwf) as [[-> Hi]|(k & x & y & -> & Hi & _)].
  2: { rewrite (Update_done s _ None (s_db s)).
       2: { unfold add_room_tx. tx_unfold. cbn [rm_ID rset_Body]. by rewrite Hi. }
       rewrite with_same. cbn. done. }
  pose proof (rw_bound _ _ _ Hwf) as Hbd.
  assert (Hq : bseq (bnext (room_rows s)) = rs_next st + 1).
  { rewrite bseq_next, Hnx, uint64_id; [done|]. rewrite Hnx in Hbd. lia. }
  set (x := rset_Seq (rs_next st + 1) (rset_Body enc m)).
  set (k := row_key (row_group x) (row_seq x)).
  assert (Hp : put_error k = None).
  { apply put_error_none. unfold k, row_key. rewrite !slen_app. change (slen (of_bytes [0])) with 1.
    assert (slen (be_put64 (row_seq x)) = 8) as -> by (unfold slen; by rewrite be_put64_length).
    pose proof (slen_nonneg (ToLower (rm_Room m))).
    change (row_group x) with (ToLower (rm_Room m)). lia. }
  assert (Hx : jsonable x = true) by done.
  assert (Hd : decode (decryptString s) (json x) = Some (rset_Seq (rs_next st + 1) m)).
  { apply decode_ok. exists (rm_Body m). split; [done|]. by destruct m. }
  destruct (rows_add (decryptString s) (room_rows s) (d_roomidx (s_db s)) x
    (rset_Seq (rs_next st + 1) m) Hwf) as (Hlog & Hwf' & Hseq);
    [cbn; lia|cbn; lia|done|done|done|done|]. fold k in Hlog, Hwf', Hseq.
  rewrite (Update_done s _ (Some x) (bupd bRoomIdx (bset (d_roomidx (s_db s)) (rm_ID m) k)
    (bupd bRoomMsgs (bset (bnext (room_rows s)) k (marshal x)) (s_db s)))).
  2: { unfold add_room_tx. tx_unfold. cbn [rm_ID rset_Body]. rewrite Hi. cbv zeta.
       change (d_roommsgs (s_db s)) with (room_rows s). rewrite Hq.
       change (roomMsgKey _ _) with k. fold x. rewrite Hp.
       cbn [rm_ID rset_Seq rset_Body x]. by rewrite (proj2 (put_error_none _) Hid). }
  cbn [default from_option id]. apply decryptRoomMessage_decode in Hd.
  change (decryptRoomMessage (with_db s _)) with (decryptRoomMessage s).
  rewrite (marshal_ok _ Hx). unfold id. rewrite Hd. split; [done|]. split; [done|done| |cbn; lia|done..|].
  - cbn [rs_log]. rewrite <- Hlog. done.
  - intros k' m'. unfold room_rows. cbn. rewrite bget_set, bget_next.
    case_decide; [by intros [= <-]|apply Htm].
Qed.

Lemma sim_put create r rnd s st :
  room_rel s st → room_args_ok (RPut create r rnd) → simulates (RPut create r rnd) s st.
Proof.
  intros Hr (Hid & [nonce ->] & Hj). pose proof Hr as [Hk Hwf Hl Hnx Ho Hfree Hrooms Hseqs Hctr Htm].
  destruct (encryptString_total s nonce (r_Name r) Hk) as [enc Henc].
  assert (Hupd : Update s (put_room (set_RName enc r)) = (Ok tt, with_db s
    (bupd bRooms (bset (d_rooms (s_db s)) (r_ID r) (json (set_RName enc r))) (s_db s)))).
  { apply Update_done. unfold put_room, Put. cbn [r_ID set_RName].
    rewrite (marshal_ok (set_RName enc r)) by done. by rewrite (proj2 (put_error_none _) Hid). }
  assert (Hrel : room_rel (with_db s (bupd bRooms (bset (d_rooms (s_db s)) (r_ID r)
    (json (set_RName enc r))) (s_db s))) (set_members (<[r_ID r := r_Members r]> (rs_members st)) st)).
  { split; [done..| |done|done|done]. intros k. cbn. rewrite bget_set. case_decide as Hkk.
    - subst k. by rewrite lookup_insert_eq.
    - rewrite lookup_insert_ne by done. apply Hrooms. }
  unfold simulates, run_room, room_spec. destruct create; cbn [andb].
  - unfold CreateRoom. destruct (MaxRoomMembers <? _); [done|].
    unfold encryptRoom. rewrite Henc. cbn [mbind result_bind]. rewrite Hupd. done.
  - unfold UpdateRoom, encryptRoom. rewrite Henc. cbn [mbind result_bind]. rewrite Hupd. done.
Qed.

Lemma sim_queue room member id s st :
  room_rel s st → room_args_ok (RQueue room member id) → simulates (RQueue room member id) s st.
Proof.
  intros Hr Ha. pose proof Ha as (Hr1 & Hm1 & Hi1 & Hid).
  unfold simulates, run_room, room_spec, AddRoomMemberToOutbox.
  rewrite (Update_done s _ tt (bupd bRoomOutbox
    (bset (d_roomoutbox (s_db s)) (roomOutboxKey room member id) id) (s_db s))).
  2: { unfold Put. by rewrite (name_key room member id) by done. }
  split; [done|]. apply rel_out; [done|by apply out_add|].
  intros R M V [[= -> -> ->]%elem_of_singleton|Ho]%elem_of_union; [|by apply (rr_free _ _ Hr)].
  split_and!; [apply Hr1|apply Hm1|apply Hi1].
Qed.

(** The entry of a counter, and what it holds. *)
Lemma counter_key s st room sender :
  room_rel s st → room_args_ok (RSeq room sender) →
  match bget (d_roomseq (s_db s)) (roomSeqKey room sender) with
  | Some b => if slen b =? 8 then be_get64 b else 0
  | None => 0
  end = default 0 (rs_counters st !! (ToLower room, ToLower sender)).
Proof.
  intros Hr [(Hn1 & _) (Hn2 & _)]. destruct (rs_counters st !! _) as [n|] eqn:Hc; cbn.
  - assert (Hg : bget (d_roomseq (s_db s)) (roomSeqKey room sender) = Some (be_put64 n))
      by (apply (rr_seqs _ _ Hr); by exists (ToLower room), (ToLower sender), n). rewrite Hg.
    apply (rr_counter _ _ Hr) in Hc as (_ & _ & Hc).
    unfold slen. by rewrite be_put64_length, be_get_put64, uint64_id.
  - destruct (bget _ _) as [b|] eqn:Hg; [|done]. exfalso.
    apply (rr_seqs _ _ Hr) in Hg as (R & M & n & Hx & Hk & _).
    pose proof (rr_counter _ _ Hr _ _ _ Hx) as (? & ? & _).
    apply seq_key_inj in Hk as [<- <-]; [congruence|done..].
Qed.

Lemma sim_seq room sender s st :
  room_rel s st → room_args_ok (RSeq room sender) → simulates (RSeq room sender) s st.
Proof.
  intros Hr Ha. pose proof Ha as [(Hn1 & _ & Hl1) (Hn2 & _ & Hl2)].
  unfold simulates, run_room, room_spec, NextRoomSenderSeq.
  set (n := uint64 (default 0 (rs_counters st !! (ToLower room, ToLower sender)) + 1)).
  rewrite (Update_done s _ n (bupd bRoomSeq
    (bset (d_roomseq (s_db s)) (roomSeqKey room sender) (be_put64 n)) (s_db s))).
  2: { unfold next_seq_tx. tx_unfold. rewrite (counter_key s st room sender Hr Ha). fold n.
       assert (put_error (roomSeqKey room sender) = None) as ->; [|done].
       apply put_error_none. unfold roomSeqKey. rewrite !slen_app. change (slen (of_bytes [0])) with 1.
       pose proof (slen_nonneg (ToLower room)). pose proof (slen_nonneg (ToLower sender)). lia. }
  split; [done|]. destruct Hr as [Hk Hwf Hl Hnx Ho Hfree Hrooms Hseqs Hctr Htm]. split; [done..| | |done].
  - intros k v. cbn [s_db with_db bupd bRoomSeq d_roomseq set_counters rs_counters snd].
    rewrite bget_set. case_decide as Hkk.
    + subst k. split.
      * intros [= <-]. exists (ToLower room), (ToLower sender), n. by rewrite lookup_insert_eq.
      * intros (R & M & n' & Hx & Hk' & ->). do 2 f_equal.
        assert (no_nul R) as HR.
        { revert Hx. rewrite lookup_insert. case_decide; [by simplify_eq|by intros (? & _)%Hctr]. }
        apply seq_key_inj in Hk' as [<- <-]; [|done..].
        rewrite lookup_insert_eq in Hx. congruence.
    + rewrite Hseqs. split; intros (R & M & n' & Hx & -> & ->); exists R, M, n'; (split; [|done]).
      * rewrite lookup_insert_ne; [done|]. by intros [= <- <-].
      * rewrite lookup_insert_ne in Hx; [done|]. by intros [= <- <-].
  - intros R M n'. cbn [snd set_counters rs_counters]. rewrite lookup_insert. case_decide as Hx; [|apply Hctr].
    simplify_eq. intros [= <-]. split_and!; [done..|apply uint64_range|apply uint64_range].
Qed.

Lemma sim_attempt id now s st :
  room_rel s st → room_args_ok (RAttempt id now) → simulates (RAttempt id now) s st.
Proof.
  intros Hr Hnow. unfold simulates, run_room, room_spec, RoomRecordAttempt.
  destruct (load_row s st id Hr) as [[-> Hl]|(k & x & y & -> & Hd & Hid & Hg & Hp & Hl)].
  { rewrite (Update_fail s _ not_found); [done|]. unfold mbind, tx_bind. by rewrite Hl. }
  rewrite (Update_done s _ tt (bupd bRoomMsgs (bset (room_rows s) k (marshal (rbump_attempt now x))) (s_db s))).
  2: { unfold mbind, tx_bind. rewrite Hl. unfold Put. by rewrite Hp. }
  split; [done|]. cbn [snd].
  pose proof (rel_put s st k x _ (d_roomoutbox (s_db s)) (rs_owed st) Hr (in_place_attempt now) Hg
    (jsonable_attempt _ _ (rr_times _ _ Hr _ _ Hg) Hnow)
    (rr_out _ _ Hr) ltac:(done)) as Hrel. rewrite Hid in Hrel.
  destruct s as [[] ? ? ? ?]. by destruct st.
Qed.

Lemma sim_toggle room id sender emoji s st :
  room_rel s st → simulates (RToggle room id sender emoji) s st.
Proof.
  intros Hr. unfold simulates, run_room, room_spec, ToggleRoomReaction.
  destruct (load_row s st id Hr) as [[-> Hl]|(k & x & y & -> & Hd & Hid & Hg & Hp & Hl)].
  { rewrite (Update_fail s _ not_found); [done|]. unfold toggle_tx, mbind, tx_bind. by rewrite Hl. }
  pose proof Hd as (b & Hb & Hy)%bind_ok. injection Hy as <-.
  cbn [rm_Room rm_Reactions rset_Body].
  change (toggled sender emoji (rset_Body b x)) with (toggled sender emoji x).
  destruct (EqualFold (rm_Room x) room) eqn:Ef; cbn [negb].
  2: { rewrite (Update_fail s _ not_found); [done|]. unfold toggle_tx, mbind, tx_bind.
       rewrite Hl, Ef. done. }
  assert (Hok : ∀ rs, toggled sender emoji x = Some rs →
    toggle_tx room id sender emoji (s_db s) = Ok (rset_Reactions rs x,
      bupd bRoomMsgs (bset (room_rows s) k (marshal (rset_Reactions rs x))) (s_db s))).
  { intros rs. unfold toggled, toggle_tx, mbind, tx_bind. rewrite Hl, Ef. cbn [negb].
    destruct (drop_reaction _ _ _); [intros [= ->]; unfold Put; by rewrite Hp|].
    destruct (_ <=? _); [done|]. intros [= <-]. unfold Put. by rewrite Hp. }
  destruct (toggled sender emoji x) as [rs|] eqn:Et.
  - rewrite (Update_done s _ _ _ (Hok rs eq_refl)).
    change (decryptRoomMessage (with_db s _)) with (decryptRoomMessage s).
    unfold decryptRoomMessage. cbn [mbind result_bind rm_Body rset_Reactions]. rewrite Hb.
    split; [done|]. cbn [snd].
    pose proof (rel_put s st k x _ (d_roomoutbox (s_db s)) (rs_owed st) Hr (in_place_reactions rs) Hg
      (rr_times _ _ Hr _ _ Hg)
      (rr_out _ _ Hr) ltac:(done)) as Hrel. rewrite Hid in Hrel.
    destruct s as [[] ? ? ? ?]. by destruct st.
  - rewrite (Update_fail s _ (Errorf "store: too many reactions on this message")); [done|].
    revert Et. unfold toggled, toggle_tx, mbind, tx_bind. rewrite Hl, Ef. cbn [negb].
    destruct (drop_reaction _ _ _); [done|]. by destruct (_ <=? _).
Qed.
End simulation.

Section more_simulation.
Context {B : Type → Type} `{Bolt B} `{Primitives} `{UnicodeTables}.
Implicit Types (s : Store B) (st : rstate) (m : RoomMessage).

(** [getRoom] reads the members of the state. *)
Lemma getRoom_members s st room d :
  room_rel s st → d_rooms d = d_rooms (s_db s) →
  match rs_members st !! room with
  | Some mbs => ∃ r, getRoom room d = Ok (r, d) ∧ r_Members r = mbs
  | None => getRoom room d = Err not_found
  end.
Proof.
  intros Hr Hd. pose proof (rr_rooms _ _ Hr room) as Hm. rewrite <- Hd in Hm.
  unfold getRoom. tx_unfold. destruct (bget (d_rooms d) room) as [[r|]|].
  - rewrite Hm. by exists r.
  - done.
  - by rewrite Hm.
Qed.

Lemma sim_mark room member id s st :
  room_rel s st → room_args_ok (RMark room member id) → simulates (RMark room member id) s st.
Proof.
  intros Hr Ha. pose proof Ha as ((_ & Hroom & _) & _).
  unfold simulates, run_room, room_spec, MarkRoomDelivered.
  destruct (load_row s st id Hr) as [[-> Hl]|(k & x & y & -> & Hd & Hid & Hg & Hp & Hl)].
  { rewrite (Update_fail s _ not_found); [done|]. unfold mark_room_tx, mbind, tx_bind. by rewrite Hl. }
  pose proof Hd as (b & Hb & Hy)%bind_ok. injection Hy as <-.
  cbn [rm_Status rm_Sender rset_Body].
  destruct (rm_Status x =s? StatusDelivered) eqn:Est.
  { rewrite (Update_done s _ (x, false) (s_db s)).
    - rewrite with_same. cbn [mbind result_bind]. by rewrite Hd.
    - unfold mark_room_tx, mbind, tx_bind. by rewrite Hl, Est. }
  set (ob := bdel (d_roomoutbox (s_db s)) (roomOutboxKey room member id)).
  set (d1 := bupd bRoomOutbox ob (s_db s)).
  set (owed := rs_owed st ∖ {[copy room member id]}).
  pose proof (out_del s st room member id Hr Ha) as Hob. fold ob owed in Hob.
  assert (Hfree : ∀ R M V, (R, M, V) ∈ owed → colon_free R ∧ colon_free M ∧ colon_free V)
    by (intros R M V [Ho _]%elem_of_difference; by apply (rr_free _ _ Hr)).
  pose proof (getRoom_members s st room d1 Hr eq_refl) as Hm.
  destruct (rs_members st !! room) as [mbs|].
  2: { rewrite (Update_fail s _ not_found); [done|]. unfold mark_room_tx, mbind, tx_bind.
       rewrite Hl, Est. unfold Delete. cbn [bsel bRoomOutbox]. fold ob d1. by rewrite Hm. }
  destruct Hm as (r & Hm & Hmbs).
  assert (Hw : someone_waits room (rm_Sender x) (r_Members r) (bitems ob)
             = existsb (λ mb, negb (mb =s? rm_Sender x) && waits owed room mb) mbs).
  { unfold someone_waits. rewrite Hmbs. clear Hmbs. induction mbs as [|mb mbs IH]; [done|].
    cbn. rewrite IH. do 2 f_equal. by apply waits_prefix. }
  assert (Htx : mark_room_tx room member id (s_db s)
    = if existsb (λ mb, negb (mb =s? rm_Sender x) && waits owed room mb) mbs
      then Ok ((x, false), d1)
      else Ok ((rset_Status StatusDelivered x, true),
               bupd bRoomMsgs (bset (room_rows s) k (marshal (rset_Status StatusDelivered x))) d1)).
  { unfold mark_room_tx, mbind, tx_bind. rewrite Hl, Est. unfold Delete, Items.
    cbn [bsel bRoomOutbox]. fold ob d1. rewrite Hm.
    change (d_roomoutbox d1) with ob. rewrite Hw. destruct (existsb _ _); [done|].
    unfold Put, mret, tx_ret. by rewrite Hp. }
  destruct (existsb _ mbs).
  - rewrite (Update_done s _ _ _ Htx).
    change (decryptRoomMessage (with_db s _)) with (decryptRoomMessage s). cbn [mbind result_bind].
    rewrite Hd. split; [done|]. by apply rel_out.
  - rewrite (Update_done s _ _ _ Htx).
    change (decryptRoomMessage (with_db s _)) with (decryptRoomMessage s). cbn [mbind result_bind].
    unfold decryptRoomMessage. cbn [rm_Body rset_Status]. rewrite Hb. split; [done|]. cbn [snd].
    rewrite <- Hid. apply rel_put; [done|apply in_place_status|done|by apply (rr_times _ _ Hr _ _ Hg)|exact Hob|set_solver].
Qed.

(** *** Deleting a room *)

Definition ids_of (l : list (string * row RoomMessage)) : list string :=
  omap (λ kv, match kv.2 with json m => Some (rm_ID m) | corrupt => None end) l.

Lemma delete_msgs_result (l : list (string * row RoomMessage)) (d : DB B) :
  ∃ rows idx, delete_room_msgs l d = Ok (tt, bupd bRoomIdx idx (bupd bRoomMsgs rows d)) ∧
    bseq rows = bseq (d_roommsgs d) ∧
    (∀ k, bget rows k = if decide (k ∈ l.*1) then None else bget (d_roommsgs d) k) ∧
    (∀ id, bget idx id = if decide (id ∈ ids_of l) then None else bget (d_roomidx d) id).
Proof.
  revert d. induction l as [|[k v] l IH]; intros d.
  { exists (d_roommsgs d), (d_roomidx d). split_and!; try done. by destruct d. }
  cbn [delete_room_msgs]. set (idx1 := match v with json m => bdel (d_roomidx d) (rm_ID m) | corrupt => d_roomidx d end).
  set (d1 := bupd bRoomIdx idx1 (bupd bRoomMsgs (bdel (d_roommsgs d) k) d)).
  destruct (IH d1) as (rows & idx & Hd & Hs & Hr & Hi). exists rows, idx. split_and!.
  - unfold mbind, tx_bind. destruct v as [m|]; unfold Delete, mret, tx_ret.
    + exact Hd.
    + unfold d1, idx1 in Hd. destruct d. exact Hd.
  - rewrite Hs. cbn. by rewrite bseq_del.
  - intros k'. rewrite Hr. cbn [d1 bupd bRoomIdx bRoomMsgs d_roommsgs fmap list_fmap fst].
    rewrite bget_del. pose proof (elem_of_cons l.*1 k' k). repeat case_decide; naive_solver.
  - intros id. rewrite Hi. cbn [d1 bupd bRoomIdx bRoomMsgs d_roomidx]. unfold idx1.
    cbn [ids_of omap list_omap snd]. fold (ids_of l). destruct v as [m|]; [|done].
    pose proof (elem_of_cons (ids_of l) id (rm_ID m)). rewrite bget_del.
    repeat case_decide; naive_solver.
Qed.

Lemma delete_out_result (l : list (string * string)) (d : DB B) :
  ∃ ob, delete_outbox_keys l d = Ok (tt, bupd bRoomOutbox ob d) ∧
    (∀ k, bget ob k = if decide (k ∈ l.*1) then None else bget (d_roomoutbox d) k).
Proof.
  revert d. induction l as [|[k v] l IH]; intros d.
  { exists (d_roomoutbox d). split; [by destruct d|done]. }
  cbn [delete_outbox_keys]. destruct (IH (bupd bRoomOutbox (bdel (d_roomoutbox d) k) d)) as (ob & Hd & Ho).
  exists ob. split; [exact Hd|]. intros k'. rewrite Ho. cbn [bupd bRoomOutbox d_roomoutbox fmap list_fmap fst].
  rewrite bget_del. pose proof (elem_of_cons l.*1 k' k). repeat case_decide; naive_solver.
Qed.

Lemma sim_delete room s st :
  room_rel s st → room_args_ok (RDelete room) → simulates (RDelete room) s st.
Proof.
  intros Hr (Hnn & Hcf & _). pose proof Hr as [Hk Hwf Hl Hnx Ho Hfree Hrooms Hseqs Hctr Htm].
  unfold simulates, run_room, room_spec, DeleteRoom.
  set (g := ToLower room). set (rows0 := room_rows s) in *.
  set (ml := c_prefix (bitems rows0) (g +:+ of_bytes [0])).
  assert (Hml : ∀ k r, (k, r) ∈ ml ↔ bget rows0 k = Some r ∧ has_prefix k (g +:+ of_bytes [0]) = true).
  { intros k r. unfold ml. rewrite c_prefix_filter by auto with chirp.
    rewrite list_elem_of_filter, bitems_get. naive_solver. }
  destruct (delete_msgs_result ml (s_db s)) as (rows & idx & Hd1 & Hs1 & Hr1 & Hi1).
  set (d1 := bupd bRoomIdx idx (bupd bRoomMsgs rows (s_db s))) in *.
  set (ol := c_prefix (bitems (d_roomoutbox d1)) (g +:+ ":")).
  destruct (delete_out_result ol d1) as (ob & Hd2 & Ho2).
  rewrite (Update_done s _ tt (bupd bRooms (bdel (d_rooms (s_db s)) room) (bupd bRoomOutbox ob d1))).
  2: { unfold mbind, tx_bind, Items. cbn [bsel bRoomMsgs]. fold g. change (d_roommsgs (s_db s)) with rows0.
       fold ml. rewrite Hd1. fold d1. cbn [bsel bRoomOutbox]. fold ol. by rewrite Hd2. }
  split; [done|]. cbn [snd].
  assert (Hgroup : ∀ k x, bget rows0 k = Some (json x) → k ∈ ml.*1 ↔ row_group x = g).
  { intros k x Hg. pose proof (rw_get _ _ _ _ _ Hwf Hg) as (Hkey & _ & _ & Hn & _).
    rewrite <- (group_prefix g (row_seq x) (row_group x)) by done. rewrite <- Hkey.
    rewrite list_elem_of_fmap. split.
    - by intros ([k' r] & -> & [_ ?]%Hml).
    - intros Hp. exists (k, json x). by rewrite Hml. }
  destruct (rows_remove (decryptString s) rows0 (d_roomidx (s_db s)) rows idx
    (λ x, row_group x ≠ g)) as [Hlog Hwf'].
  - done.
  - intros b x. by rewrite row_group_body.
  - exact Hs1.
  - intros k x Hg. rewrite Hr1. change (d_roommsgs (s_db s)) with rows0. rewrite Hg.
    pose proof (Hgroup k x Hg). repeat case_decide; naive_solver.
  - intros k Hn. rewrite Hr1. change (d_roommsgs (s_db s)) with rows0. rewrite Hn. by case_decide.
  - intros id. rewrite Hi1. destruct (bget (d_roomidx (s_db s)) id) as [k|] eqn:Ei; [|by case_decide].
    pose proof (rw_idx _ _ _ Hwf _ _ Ei) as (x & Hg & Hx). rewrite Hg.
    assert (Hids : id ∈ ids_of ml ↔ row_group x = g).
    { rewrite <- (Hgroup k x Hg). unfold ids_of. rewrite list_elem_of_omap, list_elem_of_fmap. split.
      - intros ([k' [x'|]] & Hin & Hid'); [|done]. injection Hid' as Hid'. cbn in Hid'.
        exists (k', json x'). split; [|done]. apply Hml in Hin as [Hin _]. cbn.
        pose proof (rw_get _ _ _ _ _ Hwf Hin) as (_ & Hi' & _). cbn in Hi'. rewrite Hid' in Hi'. congruence.
      - intros ([k' r'] & -> & Hin). exists (k', r'). split; [done|].
        apply Hml in Hin as [Hin _]. cbn in *. rewrite Hg in Hin. injection Hin as <-. cbn. by f_equal. }
    repeat case_decide; naive_solver.
  - assert (Hol : ∀ k, k ∈ ol.*1 ↔ has_prefix k (g +:+ ":") = true ∧ is_Some (bget (d_roomoutbox (s_db s)) k)).
    { intros k. unfold ol. rewrite c_prefix_filter by auto with chirp.
      rewrite list_elem_of_fmap. change (d_roomoutbox d1) with (d_roomoutbox (s_db s)). split.
      - intros ([k' v] & -> & [Hp Hin]%list_elem_of_filter). apply bitems_get in Hin. by eauto.
      - intros [Hp [v Hv]]. exists (k, v). split; [done|]. apply list_elem_of_filter. by rewrite bitems_get. }
    split; [done|done| | | | | |done|done|].
    + cbn [rs_log]. rewrite <- Hl. exact Hlog.
    + cbn. by rewrite Hs1.
    + intros k v. cbn [s_db with_db bupd bRooms bRoomOutbox d_roomoutbox rs_owed]. rewrite Ho2.
      change (d_roomoutbox d1) with (d_roomoutbox (s_db s)). split.
      * case_decide as Hin; [done|]. intros Hv. pose proof Hv as (R & M & Hx & ->)%Ho.
        exists R, M. split; [|done]. apply elem_of_filter. split; [|done]. cbn. intros ->.
        apply Hin, Hol. split; [|by eauto]. pose proof (Hfree _ _ _ Hx) as (? & ? & ?).
        by apply room_prefix.
      * intros (R & M & [Hne Hx]%elem_of_filter & ->). cbn in Hne.
        pose proof (Hfree _ _ _ Hx) as (? & ? & ?). case_decide as Hin; [|apply Ho; eauto].
        apply Hol in Hin as [Hp _]. apply room_prefix in Hp; done.
    + intros R M V [_ Hx]%elem_of_filter. by apply Hfree.
    + intros k. cbn [s_db with_db bupd bRooms d_rooms rs_members]. rewrite bget_del.
      case_decide as Hkk; [subst; by rewrite lookup_delete_eq|]. rewrite lookup_delete_ne by done. apply Hrooms.
    + intros k m. unfold room_rows. cbn. rewrite Hr1. case_decide; [done|]. apply Htm.
Qed.

Lemma room_op_simulates op s st :
  room_rel s st → room_args_ok op → rs_next st + 1 < 2 ^ 64 - 1 → simulates op s st.
Proof.
  intros Hr Ha Hb. destruct op; auto using sim_put, sim_add, sim_queue, sim_seq, sim_attempt, sim_toggle,
    sim_mark, sim_delete.
Qed.

Fixpoint run_room_ops (ops : list room_op) s : list room_res * Store B :=
  match ops with
  | [] => ([], s)
  | op :: ops =>
      let (r, s') := run_room op s in let (rs, s'') := run_room_ops ops s' in (r :: rs, s'')
  end.

Fixpoint room_spec_ops (ops : list room_op) st : list room_res * rstate :=
  match ops with
  | [] => ([], st)
  | op :: ops =>
      let (r, st') := room_spec op st in let (rs, st'') := room_spec_ops ops st' in (r :: rs, st'')
  end.

Lemma room_spec_next op st : rs_next st <= rs_next (room_spec op st).2 <= rs_next st + 1.
Proof. destruct op; cbn; repeat case_match; cbn; lia. Qed.

Lemma room_ops_simulate ops s st :
  room_rel s st → Forall room_args_ok ops → rs_next st + Z.of_nat (length ops) < 2 ^ 64 - 1 →
  (run_room_ops ops s).1 = (room_spec_ops ops st).1 ∧
  room_rel (run_room_ops ops s).2 (room_spec_ops ops st).2.
Proof.
  revert s st. induction ops as [|op ops IH]; intros s st Hr Ha Hb; [done|].
  apply Forall_cons in Ha as [Hop Ha]. cbn [length] in Hb.
  pose proof (room_op_simulates op s st Hr Hop ltac:(lia)) as Hs. unfold simulates in Hs.
  pose proof (room_spec_next op st) as Hq. cbn [run_room_ops room_spec_ops].
  destruct (run_room op s) as [r s'], (room_spec op st) as [r1 st1]. cbn [fst snd] in *.
  destruct Hs as [-> Hs]. destruct (IH s' st1 Hs Ha ltac:(lia)) as [Hrs Hrel].
  destruct (run_room_ops ops s') as [rs s''], (room_spec_ops ops st1) as [rs1 st2]. cbn in *.
  by rewrite Hrs.
Qed.
End more_simulation.

(** ** Reading *)

Section queries.
Context {B : Type → Type} `{Bolt B} `{Primitives} `{UnicodeTables}.
Implicit Types (s : Store B) (st : rstate) (m : RoomMessage).

Lemma collect_room_take s prefix n (visited : list (string * row RoomMessage)) :
  Forall (λ kv, is_Some (decode (decryptString s) kv.2)) visited →
  collect_room s prefix n visited
  = Ok (take n (omap (λ kv, decode (decryptString s) kv.2)
         (take_while (λ kv, has_prefix kv.1 prefix) visited))).
Proof.
  intros Hall. revert n. induction Hall as [|[k r] l [y Hd] _ IH]; intros [|n]; try done.
  cbn [collect_room take_while fst]. destruct (has_prefix k prefix); [|done].
  destruct r as [x|]; [|done]. cbn [omap list_omap snd unmarshal mbind result_bind] in *.
  rewrite Hd. apply decryptRoomMessage_decode in Hd as ->. cbn [mbind result_bind]. by rewrite IH.
Qed.

Lemma room_rows_decode s st :
  room_rel s st → Forall (λ kv, is_Some (decode (decryptString s) kv.2)) (bitems (room_rows s)).
Proof.
  intros Hr. apply Forall_forall. intros [k r] Hin. apply bitems_get in Hin.
  pose proof (rw_row _ _ _ (rr_wf _ _ Hr) _ _ Hin) as (x & -> & _).
  pose proof (rw_get _ _ _ _ _ (rr_wf _ _ Hr) Hin) as (_ & _ & _ & _ & _ & y & Hd). by exists y.
Qed.

Lemma RoomMessages_page s st room limit :
  room_rel s st → no_nul (ToLower room) →
  RoomMessages s room limit
  = Ok (lastn (page_limit limit)
          (filter (λ m, ToLower (rm_Room m) = ToLower room) (rs_log st))).
Proof.
  intros Hr Hn. unfold RoomMessages, View. tx_unfold.
  change (d_roommsgs (s_db s)) with (room_rows s). rewrite collect_room_take.
  2: { rewrite c_seek_prev_filter by auto with chirp. rewrite Forall_reverse.
       apply Forall_forall. intros kv [_ Hin]%list_elem_of_filter. revert kv Hin.
       apply Forall_forall. by eapply room_rows_decode. }
  rewrite rev_scan by auto with chirp. unfold lastn. rewrite omap_reverse, <- (rr_log _ _ Hr).
  do 3 f_equal. f_equal.
  exact (group_log (decryptString s) _ _ _ ff8 (rr_wf _ _ Hr) Hn ff8_seq).
Qed.

(** What an entry of the outbox that is owed gives. *)
Lemma owed_entry s st R M V room member :
  room_rel s st → colon_free (ToLower room) → (R, M, V) ∈ rs_owed st →
  ∃ l, room_pending_entry s (member_prefix room member) (s_db s) (out_key R M V, V) = Ok l ∧
    ∀ m, m ∈ l ↔ (R = ToLower room ∧ M = ToLower member) ∧ find_row V (rs_log st) = Some m.
Proof.
  intros Hr Hc Ho. pose proof (rr_free _ _ Hr _ _ _ Ho) as (? & ? & ?).
  unfold room_pending_entry. cbn [fst snd].
  destruct (has_prefix _ _) eqn:E; cbn [negb].
  2: { exists []. split; [done|]. intros m. rewrite elem_of_nil. split; [done|].
       intros [Hx _]. apply (member_prefix_key R M V _ (ToLower member)) in Hx; [|done..].
       unfold member_prefix in E. congruence. }
  apply member_prefix_key in E; [|done..]. rewrite <- (rr_log _ _ Hr).
  destruct (find_row_index _ _ _ V (rr_wf _ _ Hr)) as [[-> ->]|(k & x & y & -> & -> & _ & Hg & Hd & _)].
  - exists []. split; [done|]. intros m. rewrite elem_of_nil. naive_solver.
  - change (d_roommsgs (s_db s)) with (room_rows s). rewrite Hg.
    apply decryptRoomMessage_decode in Hd. cbn [unmarshal mbind result_bind]. rewrite Hd.
    exists [y]. split; [done|]. intros m. rewrite list_elem_of_singleton. naive_solver.
Qed.

Lemma pending_entries s st room member (l : list (string * string)) :
  room_rel s st → colon_free (ToLower room) → l ⊆ bitems (d_roomoutbox (s_db s)) → NoDup l.*1 →
  ∃ out, mapM (room_pending_entry s (member_prefix room member) (s_db s)) l = Ok out ∧
    NoDup (rm_ID <$> concat out) ∧
    ∀ m, m ∈ concat out ↔ ∃ R M V, (out_key R M V, V) ∈ l ∧ (R, M, V) ∈ rs_owed st ∧
      (R = ToLower room ∧ M = ToLower member) ∧ find_row V (rs_log st) = Some m.
Proof.
  intros Hr Hc. induction l as [|[k v] l IH]; intros Hsub Hnd.
  { exists []. split; [done|]. split; [constructor|]. intros m. rewrite elem_of_nil. split; [done|].
    intros (R & M & V & Hin & _). by apply not_elem_of_nil in Hin. }
  apply NoDup_cons in Hnd as [Hk Hnd].
  destruct (IH ltac:(set_solver) Hnd) as (out & Hm & Hnd' & Hout).
  assert (Hg : bget (d_roomoutbox (s_db s)) k = Some v) by (apply bitems_get, Hsub; by left).
  apply (rr_out _ _ Hr) in Hg as (R & M & Ho & ->).
  destruct (owed_entry s st R M v room member Hr Hc Ho) as (e & He & Hel).
  assert (Hid : ∀ m V, find_row V (rs_log st) = Some m → rm_ID m = V).
  { intros m V. rewrite <- (rr_log _ _ Hr). by intros [_ ?]%(find_row_Some _ _ _ _ _ (rr_wf _ _ Hr)). }
  exists (e :: out). split; [|split].
  - cbn [mapM]. by rewrite He, Hm.
  - cbn [concat]. rewrite fmap_app. apply NoDup_app. split; [|split; [|done]].
    + pose proof He as He'. unfold room_pending_entry in He'.
      destruct (negb _); [by injection He' as <-; constructor|].
      destruct (bget _ _) as [ik|]; [|injection He' as <-; constructor].
      destruct (bget _ _) as [mv|]; [|injection He' as <-; constructor].
      apply bind_ok in He' as (x & _ & (y & _ & [= <-])%bind_ok). apply NoDup_singleton.
    + intros i (m & -> & [[-> ->] Hf]%Hel)%list_elem_of_fmap_1 (m' & Hi & Hin)%list_elem_of_fmap_1.
      apply Hout in Hin as (R' & M' & V' & Hin & _ & [-> ->] & Hf').
      apply Hid in Hf, Hf'. apply Hk, list_elem_of_fmap. exists (out_key (ToLower room) (ToLower member) V', V').
      split; [|done]. cbn. congruence.
  - intros m. cbn [concat]. rewrite elem_of_app, Hel, Hout. split.
    + intros [[HR Hf]|(R' & M' & V' & Hin & ?)].
      * exists R, M, v. split; [by left|done].
      * exists R', M', V'. split; [by right|done].
    + intros (R' & M' & V' & [[= Hkey ->]|Hin]%elem_of_cons & Ho' & HR & Hf).
      * left. split; [|done]. pose proof (rr_free _ _ Hr _ _ _ Ho) as (? & ? & _).
        pose proof (rr_free _ _ Hr _ _ _ Ho') as (? & ? & _).
        apply out_key_inj in Hkey as (-> & -> & _); done.
      * right. exists R', M', V'. done.
Qed.

Lemma RoomPending_owed s st room member :
  room_rel s st → colon_free (ToLower room) →
  RoomPending_ s room member
  = Ok (filter (λ m, (ToLower room, ToLower member, rm_ID m) ∈ rs_owed st) (rs_log st)).
Proof.
  intros Hr Hc. unfold RoomPending_.
  destruct (pending_entries s st room member (bitems (d_roomoutbox (s_db s))) Hr Hc)
    as (out & -> & Hnd & Hout); [done|auto with chirp|].
  cbn [mbind result_bind]. f_equal. pose proof (rr_wf _ _ Hr) as Hwf. rewrite <- (rr_log _ _ Hr) in *.
  assert (Hin : ∀ m, m ∈ concat out ↔ (ToLower room, ToLower member, rm_ID m) ∈ rs_owed st
                 ∧ m ∈ row_log (decryptString s) (room_rows s)).
  { intros m. rewrite Hout. split.
    - intros (R & M & V & _ & Ho & [-> ->] & [Hm <-]%(find_row_Some _ _ _ _ _ Hwf)). done.
    - intros [Ho Hm]. exists (ToLower room), (ToLower member), (rm_ID m).
      split; [|split; [done|split; [done|by apply (find_row_Some _ _ _ _ _ Hwf)]]].
      apply bitems_get, (rr_out _ _ Hr). eauto. }
  apply (StronglySorted_ext row_lt).
  - apply sorted_by_seq.
    + apply sort_loop_sorted; unfold not_less; intros; lia.
    + unfold sortByRoomSeq. rewrite sort_loop_Permutation. apply NoDup_fmap_2_strong.
      * intros x y [_ Hx]%Hin [_ Hy]%Hin Hxy. apply (log_inj _ _ _ _ _ Hwf Hx Hy). by right.
      * by apply (NoDup_fmap_1 rm_ID).
  - apply StronglySorted_filter. by eapply row_log_sorted.
  - intros m. unfold sortByRoomSeq. rewrite sort_loop_Permutation, Hin, list_elem_of_filter. done.
Qed.
(** *** Times that [json.Marshal] does not take *)

(** The greatest key of sorted rows is the first of their reverse. *)
Lemma sorted_pairs {V} (l : list (string * V)) :
  StronglySorted str_lt l.*1 → StronglySorted (λ a b, str_lt a.1 b.1) l.
Proof.
  induction l as [|x l IH]; [constructor|]. intros [Hs Hx]%sorted_cons.
  constructor; [by apply IH|]. by apply Forall_forall.
Qed.

Lemma reverse_last_key {V} (l : list (string * V)) k v :
  StronglySorted (λ a b, str_lt a.1 b.1) l → (k, v) ∈ l → (∀ kv, kv ∈ l → kv.1 = k ∨ str_lt kv.1 k) →
  ∃ l', reverse l = (k, v) :: l'.
Proof.
  intros Hs Hin Hle. destruct l as [|x l _] using rev_ind; [by apply not_elem_of_nil in Hin|].
  rewrite reverse_app. exists (reverse l). cbn. f_equal.
  apply elem_of_app in Hin as [Hin|Hin%list_elem_of_singleton]; [|done]. exfalso.
  assert (Hlt : str_lt k x.1) by (apply (StronglySorted_app_1_elem_of _ _ _ (k, v) x Hs); [done|by left]).
  destruct (Hle x) as [Hx|Hx]; [apply elem_of_app; right; by left| |].
  - rewrite Hx in Hlt. by apply (irreflexivity str_lt) in Hlt.
  - destruct (irreflexivity str_lt k). by etrans.
Qed.

Lemma mapM_err {A A'} (f : A → result A') l x e : x ∈ l → f x = Err e → is_ok (mapM f l) = false.
Proof.
  intros Hin Hf. induction Hin as [x l|x y l Hin IH]; cbn.
  - by rewrite Hf.
  - destruct (f y); [|done]. cbn. by destruct (mapM f l); [apply IH|].
Qed.

(** The row stored for such a room cannot be read, and no list of rooms either. *)
Lemma put_spoils create s r nonce :
  keys_ok s → 0 < slen (r_ID r) <= 32768 → Z.of_nat (length (r_Members r)) <= MaxRoomMembers →
  jsonable r = false →
  let '(res, s') := run_room (RPut create r (Some nonce)) s in
  res = RRUnit (Ok tt) ∧ GetRoom s' (r_ID r) = Err ErrJSON ∧ is_ok (ListRooms s') = false.
Proof.
  intros Hk Hid Hm Hj. destruct (encryptString_total s nonce (r_Name r) Hk) as [enc Henc].
  set (s1 := with_db s (bupd bRooms (bset (d_rooms (s_db s)) (r_ID r) corrupt) (s_db s))).
  assert (Hrun : run_room (RPut create r (Some nonce)) s = (RRUnit (Ok tt), s1)).
  { assert (Hupd : Update s (put_room (set_RName enc r)) = (Ok tt, s1)).
    { apply Update_done. unfold put_room, Put, marshal.
      change (jsonable (set_RName enc r)) with (jsonable r). rewrite Hj. cbn [r_ID set_RName].
      by rewrite (proj2 (put_error_none _) Hid). }
    destruct create; cbn [run_room]; unfold CreateRoom, UpdateRoom, encryptRoom;
      rewrite ?(proj2 (Z.ltb_ge _ _) Hm), Henc; cbn [mbind result_bind]; by rewrite Hupd. }
  rewrite Hrun. split_and!; [done| |].
  - unfold GetRoom, View, getRoom. tx_unfold. unfold s1. cbn. by rewrite bget_set_eq.
  - unfold ListRooms. eapply (mapM_err _ _ corrupt ErrJSON); [|done].
    apply list_elem_of_fmap. exists (r_ID r, corrupt). split; [done|].
    apply bitems_get. unfold s1. cbn. by rewrite bget_set_eq.
Qed.

Lemma collect_room_bad s prefix n (visited : list (string * row RoomMessage)) k l :
  take_while (λ kv, has_prefix kv.1 prefix) visited = (k, corrupt) :: l →
  collect_room s prefix (S n) visited = Err ErrJSON.
Proof.
  destruct visited as [|[k' r] visited]; [done|]. cbn [take_while collect_room fst].
  destruct (has_prefix k' prefix); [|by intros [=]].
  intros Hx. by simplify_eq/=.
Qed.

(** The row stored for such a message is the newest of its room. *)
Lemma add_spoils s st m nonce :
  room_rel s st → name_fits (rm_Room m) → 0 < slen (rm_ID m) <= 32768 → slen nonce = 12 →
  rs_next st + 1 < 2 ^ 64 - 1 → find_row (rm_ID m) (rs_log st) = None → jsonable m = false →
  let '(res, s') := run_room (RAdd m (Some nonce)) s in
  res = RRMsg (Ok (rset_Seq (rs_next st + 1) m, false)) ∧
  ∀ limit, RoomMessages s' (rm_Room m) limit = Err ErrJSON.
Proof.
  intros Hr (Hnn & _ & Hlen) Hid Hn Hb Hf Hj. pose proof (rr_keys _ _ Hr) as Hk.
  pose proof (rr_wf _ _ Hr) as Hwf. pose proof (rw_bound _ _ _ Hwf) as Hbd.
  pose proof (rr_next _ _ Hr) as Hnx.
  destruct (encryptString_total s nonce (rm_Body m) Hk) as [enc Henc].
  pose proof (decryptString_encryptString _ _ _ _ Hk Hn Henc) as Hdec.
  destruct (find_row_index _ _ _ (rm_ID m) Hwf) as [[_ Hi]|(k & x & y & Hf' & _)];
    [|rewrite (rr_log _ _ Hr) in Hf'; congruence].
  assert (Hq : bseq (bnext (room_rows s)) = rs_next st + 1)
    by (rewrite bseq_next, Hnx, uint64_id; [done|]; rewrite Hnx in Hbd; lia).
  set (x := rset_Seq (rs_next st + 1) (rset_Body enc m)).
  set (k := row_key (row_group x) (row_seq x)).
  assert (Hp : put_error k = None).
  { apply put_error_none. unfold k, row_key. rewrite !slen_app. change (slen (of_bytes [0])) with 1.
    assert (slen (be_put64 (row_seq x)) = 8) as -> by (unfold slen; by rewrite be_put64_length).
    pose proof (slen_nonneg (ToLower (rm_Room m))).
    change (row_group x) with (ToLower (rm_Room m)). lia. }
  set (rows := bset (bnext (room_rows s)) k corrupt).
  set (s1 := with_db s (bupd bRoomIdx (bset (d_roomidx (s_db s)) (rm_ID m) k) (bupd bRoomMsgs rows (s_db s)))).
  assert (Hrun : run_room (RAdd m (Some nonce)) s = (RRMsg (Ok (rset_Seq (rs_next st + 1) m, false)), s1)).
  { cbn [run_room]. unfold AddRoomMessage. rewrite Henc. rewrite (Update_done s _ (Some x) (s_db s1)).
    - cbn [default from_option id]. unfold decryptRoomMessage. cbn [rm_Body rset_Seq rset_Body x].
      change (decryptString (with_db s _)) with (decryptString s). unfold id.
      rewrite Hdec. by destruct m.
    - unfold add_room_tx. tx_unfold. cbn [rm_ID rset_Body]. rewrite Hi. cbv zeta.
      change (d_roommsgs (s_db s)) with (room_rows s). rewrite Hq.
      change (roomMsgKey _ _) with k. fold x. rewrite Hp.
      assert (marshal x = corrupt) as -> by (unfold marshal; change (jsonable x) with (jsonable m); by rewrite Hj).
      cbn [rm_ID rset_Seq rset_Body x]. by rewrite (proj2 (put_error_none _) Hid). }
  rewrite Hrun. split; [done|]. intros limit. unfold RoomMessages, View. tx_unfold.
  change (d_roommsgs (s_db s1)) with rows. set (pre := ToLower (rm_Room m) +:+ of_bytes [0]).
  assert (Hkey : k = pre +:+ be_put64 (rs_next st + 1)) by (unfold k, row_key, pre; by rewrite str_app_assoc).
  assert (page_limit limit = S (Nat.pred (page_limit limit))) as ->
    by (unfold page_limit; case_match eqn:E; lia).
  destruct (reverse_last_key (filter (λ kv, has_prefix kv.1 pre = true ∧ str_ltb kv.1 (pre +:+ ff8) = true)
    (bitems rows)) k corrupt) as [l Hl].
  - apply StronglySorted_filter, sorted_pairs. auto with chirp.
  - apply list_elem_of_filter. cbn [fst]. rewrite bitems_get. unfold rows. rewrite bget_set_eq.
    rewrite Hkey. split; [|done].
    split; [apply has_prefix_app|]. apply str_lt_app_l. rewrite ff8_seq. apply be_put64_lt; lia.
  - intros [k' r'] [[Hp1 Hp2] Hin%bitems_get]%list_elem_of_filter. cbn [fst] in *. revert Hin. unfold rows.
    rewrite bget_set, bget_next. case_decide as Hkk; [by left|]. intros Hg. right.
    pose proof (rw_row _ _ _ Hwf _ _ Hg) as (x' & -> & _).
    pose proof (rw_get _ _ _ _ _ Hwf Hg) as (-> & _ & Hq' & Hn' & _).
    apply (group_prefix _ _ _ Hnn Hn') in Hp1. rewrite Hkey. unfold row_key. rewrite Hp1, str_app_assoc.
    apply str_lt_app_l. apply be_put64_lt; lia.
  - rewrite <- rev_scan in Hl by auto with chirp. by rewrite (collect_room_bad _ _ _ _ _ _ Hl).
Qed.
End queries.


(** ** Properties *)

Definition no_rooms : rstate := mkRState [] 0 ∅ ∅ ∅.

Section properties.
Context {B : Type → Type} `{Bolt B} `{Primitives} `{UnicodeTables}.
Implicit Types (s : Store B) (st : rstate) (m : RoomMessage).

Lemma room_rel_empty ek ik fd dk :
  keys_ok (mkStore empty_db ek ik fd dk) → room_rel (mkStore empty_db ek ik fd dk) no_rooms.
Proof.
  intros Hk. assert (Hnone : ∀ (k : string) V, bget (bempty : B V) k = None) by (intros; by rewrite bget_empty).
  split; unfold room_rows; cbn.
  - done.
  - split.
    + intros k r. by rewrite Hnone.
    + intros id k. by rewrite Hnone.
    + intros k1 k2 x1 x2. by rewrite Hnone.
    + by rewrite bseq_empty.
  - unfold row_log. destruct (bitems _) as [|[k r] l] eqn:E; [done|].
    assert (Hin : (k, r) ∈ bitems (bempty : B (row RoomMessage))) by (rewrite E; by left).
    apply bitems_get in Hin. by rewrite bget_empty in Hin.
  - by rewrite bseq_empty.
  - intros k v. rewrite Hnone. split; [done|]. intros (R & M & HV & _). set_solver.
  - set_solver.
  - intros k. by rewrite Hnone.
  - intros k v. rewrite Hnone. split; [done|]. intros (R & M & n & HV & _). done.
  - done.
  - intros k m. by rewrite Hnone.
Qed.

End properties.

(** ** Witnesses *)

#[local] Existing Instance gmap_bolt.
#[local] Existing Instance toy_primitives.

Definition ex_room_message (id room sender dir body : string) : RoomMessage :=
  mkRoomMessage id room sender dir body 1000 StatusQueued 0 zero_time 0 "" 1 [].

(** A room of the year 1143677, as a peer may announce it. *)
Definition ex_far_room : Room := mkRoom "r2" "far" ["me"] "bob" (ofUnixMilli (2 ^ 55)) RoomPending.

Definition ex_room_ops : list room_op :=
  [ RPut true (mkRoom "r1" "tea" ["me"; "bob"; "eve"] "me" 1000 RoomJoined) (Some "nonce nonce ");
    RSeq "r1" "me"; RSeq "R1" "ME";
    RAdd (ex_room_message "0a" "r1" "me" DirOut "hi") (Some "nonce nonce ");
    RQueue "r1" "bob" "0a"; RQueue "r1" "eve" "0a";
    RAdd (ex_room_message "0b" "r1" "me" DirOut "there") (Some "nonce nonce ");
    RQueue "r1" "bob" "0b";
    RAdd (ex_room_message "0a" "r1" "me" DirOut "hi") (Some "nonce nonce ");
    RToggle "r1" "0b" "bob" "+1"; RToggle "r2" "0b" "bob" "+1";
    RAttempt "0b" 2000; RMark "r1" "bob" "0a"; RMark "r1" "eve" "0a" ].

Section witnesses.
Local Existing Instance ascii_tables.

Lemma ex_room_args : Forall room_args_ok ex_room_ops.
Proof.
  assert (Hf : ∀ x, bool_decide (0 ∉ bytes_of (ToLower x)) = true →
    bool_decide (58 ∉ bytes_of (ToLower x)) = true → (slen (ToLower x) <=? 10000) = true → name_fits x).
  { intros x ?%bool_decide_eq_true ?%bool_decide_eq_true ?. split_and!; [done..|lia]. }
  assert (Hn : ∀ x, (0 < slen x <= 32768) ↔ ((0 <? slen x) && (slen x <=? 32768)) = true) by lia.
  unfold ex_room_ops. repeat apply Forall_cons_2; [..|done].
  all: cbn [room_args_ok]; rewrite ?Hn; split_and?.
  all: try (apply Hf; by vm_compute); try done; try (by eexists); try (by vm_compute).
  all: exists "nonce nonce "; by vm_compute.
Qed.


(** Two members whose names [ValidateName] takes, of which one extends the
    other by a colon: what is owed to the longer name counts as owed to the
    shorter, who was not there when the message was written. *)
Lemma colon_prefix_confuses_members :
  let s := (run_room_ops
    [ RPut true (mkRoom "r1" "tea" ["me"; "bob:eve"] "me" 1000 RoomJoined) (Some "nonce nonce ");
      RAdd (ex_room_message "0a" "r1" "me" DirOut "hi") (Some "nonce nonce ");
      RQueue "r1" "bob:eve" "0a";
      RPut false (mkRoom "r1" "tea" ["me"; "bob:eve"; "bob"] "me" 1000 RoomJoined) (Some "nonce nonce ") ]
    ex_empty).2 in
  ValidateName "bob" = Ok "bob" ∧ ValidateName "bob:eve" = Ok "bob:eve" ∧
  match RoomPending_ s "r1" "bob" with Ok l => rm_Body <$> l | Err _ => [] end = ["hi"].
Proof. by vm_compute. Qed.
End witnesses.
