(* ===== verification/Backoff.v ===== *)
(** * Retry delays and the dial rule (internal/node/node.go, rooms.go)

    Durations are nanoseconds in an int64, wrap-around written out.  A random
    read is an argument, [None] standing for a failed one. *)

From S2P Require Import Prelude GoStrings Utf8 Proto Sha256 Identity.

Definition Second : Z := 1000000000.
Definition Minute : Z := 60 * Second.

(** [t.Sub(u)]: the difference of two instants saturates at the int64 range. *)
Definition time_Sub (t u : Z) : Z := Z.max (- 2 ^ 63) (Z.min (2 ^ 63 - 1) (t - u)).

(** [x << k] on an int64, for a uint64 shift count. *)
Definition shl64 (x k : Z) : Z := if 64 <=? k then 0 else int64 (x * 2 ^ k).

Definition backoff (attempt base max : Z) : Z :=
  let attempt := if 16 <? attempt then 16 else attempt in
  let d := shl64 base (uint64 (attempt - 1)) in
  if (attempt <? 1) || (max <? d) || (d <=? 0) then max else d.

Definition jitteredBackoff (attempt base max : Z) (rnd : option string) : Z :=
  let d := backoff attempt base max in
  if d <=? 0 then d else
  match rnd with
  | None => d
  | Some b => int64 (uint64 (1 + be_get64 b mod uint64 d))
  end.

(** The delay of [flushRoomMember], which multiplies without a guard. *)
Definition roomBackoff (attempts base max : Z) : Z :=
  let d := int64 (base * shl64 1 (uint64 (attempts - 1))) in
  if max <? d then max else d.

(** ** Fingerprints the user types *)

(** The separators [fpMatches] skips. *)
Definition is_sep (r : Z) : bool :=
  (r =? 32) || (r =? 9) || (r =? 58) || (r =? 45) || (r =? 0xA0).

Section fp.
Context `{UnicodeTables}.

Definition fpMatches (want remoteKey : string) : bool :=
  of_bytes (concat (encode_rune <$> (to_lower_rune <$> filter (λ r, is_sep r = false) (runes want))))
  =s? Fingerprint remoteKey.
End fp.

(** ** Lemmas *)

Lemma shl64_small x k : 0 <= k < 64 → - 2 ^ 63 <= x * 2 ^ k < 2 ^ 63 → shl64 x k = x * 2 ^ k.
Proof. intros Hk Hx. unfold shl64. destruct (Z.leb_spec 64 k); [lia|]. by apply int64_id. Qed.

Lemma backoff_range attempt base max : 0 < max → 0 < backoff attempt base max <= max.
Proof.
  intros Hm. unfold backoff. cbv zeta. set (a := if 16 <? attempt then 16 else attempt).
  set (d := shl64 base (uint64 (a - 1))).
  destruct (a <? 1); cbn [orb]; [lia|]. destruct (Z.ltb_spec max d); cbn [orb]; [lia|].
  destruct (Z.leb_spec d 0); cbn [orb]; lia.
Qed.

(** Doubling up to the cap: below sixteen attempts and without overflow the
    delay is [base * 2^(attempt-1)], cut at [max]. *)
Lemma backoff_doubles attempt base max :
  1 <= attempt <= 16 → 0 < base < 2 ^ 47 → 0 < max →
  backoff attempt base max = Z.min (base * 2 ^ (attempt - 1)) max.
Proof.
  intros Ha Hb Hm. unfold backoff. destruct (Z.ltb_spec 16 attempt); [lia|].
  rewrite uint64_id by lia. rewrite shl64_small; [|lia|].
  - assert (0 < 2 ^ (attempt - 1)) by (apply Z.pow_pos_nonneg; lia).
    destruct (Z.ltb_spec attempt 1); [lia|]. cbn [orb].
    destruct (Z.ltb_spec max (base * 2 ^ (attempt - 1))); cbn [orb]; [lia|].
    destruct (Z.leb_spec (base * 2 ^ (attempt - 1)) 0); [nia|]. lia.
  - assert (2 ^ (attempt - 1) <= 2 ^ 15) by (apply Z.pow_le_mono_r; lia).
    assert (0 < 2 ^ (attempt - 1)) by (apply Z.pow_pos_nonneg; lia).
    change (2 ^ 63) with (2 ^ 48 * 2 ^ 15). nia.
Qed.

(** ** Properties *)

(** C39: retry delays.  For messages: for every attempt count, every base
    (overflowing ones included) and every outcome of the random read the delay
    lies in [1 .. backoff attempt base max], and so within the cap; without
    overflow the bound doubles with every attempt up to the cap.  For rooms:
    with the default knobs the product is negative after 34 unanswered
    attempts and zero from 65 on: the cap does not apply, and every tick
    resends. *)
Theorem retry_delays attempt base max rnd :
  0 < max < 2 ^ 63 →
  (1 <= jitteredBackoff attempt base max rnd <= backoff attempt base max
   ∧ backoff attempt base max <= max
   ∧ (1 <= attempt <= 16 → 0 < base < 2 ^ 47 →
      backoff attempt base max = Z.min (base * 2 ^ (attempt - 1)) max)) ∧
  roomBackoff 34 (2 * Second) (30 * Second) < 0 ∧
  ∀ attempts, 65 <= attempts < 2 ^ 62 → roomBackoff attempts (2 * Second) (30 * Second) = 0.
Proof.
  intros Hm. pose proof (backoff_range attempt base max ltac:(lia)) as Hd.
  split; [|split; [by vm_compute|]].
  - split; [|split; [lia|intros ? ?; apply backoff_doubles; [done|done|lia]]].
    unfold jitteredBackoff. set (d := backoff attempt base max) in *. cbv zeta.
    destruct (Z.leb_spec d 0); [lia|]. destruct rnd as [b|]; [|lia].
    rewrite (uint64_id d) by lia. pose proof (Z.mod_pos_bound (be_get64 b) d ltac:(lia)).
    rewrite uint64_id by lia. rewrite int64_id by lia. lia.
  - intros a Ha. unfold roomBackoff.
    rewrite uint64_id by lia. unfold shl64. destruct (Z.leb_spec 64 (a - 1)); [|lia].
    by vm_compute.
Qed.

Lemma retry_delays_witness :
  1 <= jitteredBackoff 3 (2 * Second) (30 * Second) (Some "abcdefgh") <= 8 * Second.
Proof.
  destruct (retry_delays 3 (2 * Second) (30 * Second) (Some "abcdefgh"))
    as ((Hj & _ & Hd) & _); [by vm_compute|].
  rewrite Hd in Hj; [|by vm_compute|by vm_compute].
  change (Z.min (2 * Second * 2 ^ (3 - 1)) (30 * Second)) with (8 * Second) in Hj. exact Hj.
Defined.
