(* ===== verification/Invite.v ===== *)
(** * Invitations (internal/node/invite.go, internal/node/qr.go)

    The chirp://add/ URI by which a device is added without discovery: how it
    is written, how it is parsed, which address goes into it, and the picture
    of it.  The interfaces of the machine are an argument; the encoder of the
    QR library is a parameter. *)

From S2P Require Import Prelude GoStrings Utf8 Proto Sha256 Identity Json Backoff.

Definition InvitePrefix : string := "chirp://add/".
Definition MinFPLen : Z := 8.
Definition MaxPreviewFP : Z := 16.

(** [strings.Cut] at a byte: what comes before it, what after it if it occurs. *)
Fixpoint cut_byte (c : Z) (l : list Z) : list Z * option (list Z) :=
  match l with
  | [] => ([], None)
  | b :: l => if b =? c then ([], Some l)
              else let (p, r) := cut_byte c l in (b :: p, r)
  end.

(** The last occurrence of a byte: what is around it. *)
Fixpoint cut_last (c : Z) (l : list Z) : option (list Z * list Z) :=
  match l with
  | [] => None
  | b :: l =>
      match cut_last c l with
      | Some (p, r) => Some (b :: p, r)
      | None => if b =? c then Some ([], l) else None
      end
  end.

Definition has_byte (c : Z) (l : list Z) : bool := existsb (Z.eqb c) l.

(** [net.SplitHostPort]; brackets are 91 and 93, the colon is 58. *)
Definition SplitHostPort (hostport : string) : result (string * string) :=
  let l := bytes_of hostport in
  match cut_last 58 l with
  | None => Err (Errorf "missing port in address")
  | Some (before, port) =>
      let checked (host inner after : list Z) :=
        if has_byte 91 inner then Err (Errorf "unexpected '[' in address")
        else if has_byte 93 after then Err (Errorf "unexpected ']' in address")
        else Ok (of_bytes host, of_bytes port) in
      match l with
      | 91 :: l' =>
          match cut_byte 93 l' with
          | (_, None) => Err (Errorf "missing ']' in address")
          | (host, Some after) =>
              (* the bracket must end right before the last colon *)
              match after with
              | [] => Err (Errorf "missing port in address")
              | c :: _ =>
                  if (length after =? S (length port))%nat then checked host l' after
                  else if c =? 58 then Err (Errorf "too many colons in address")
                  else Err (Errorf "missing port in address")
              end
          end
      | _ =>
          if has_byte 58 before then Err (Errorf "too many colons in address")
          else checked before l l
      end
  end.

Definition is_lower_hex (c : Z) : bool := ((48 <=? c) && (c <=? 57)) || ((97 <=? c) && (c <=? 102)).

Definition ParseInvite (uri : string) : result (string * string * string) :=
  if negb (has_prefix uri InvitePrefix) then Err (Errorf "invite: must start with chirp://add/") else
  let rest := str_drop (String.length InvitePrefix) uri in
  if rest =s? "" then Err (Errorf "invite: empty address") else
  let (hostPort, fp) := cut_byte 47 (bytes_of rest) in
  match fp with
  | None => Err (Errorf "invite: missing fingerprint prefix")
  | Some fp =>
      let fp := of_bytes fp in
      if fp =s? "" then Err (Errorf "invite: missing fingerprint prefix") else
      if slen fp <? MinFPLen then Err (Errorf "invite: fingerprint prefix must be at least 8 chars") else
      if negb (forallb is_lower_hex (runes fp))
      then Err (Errorf "invite: fingerprint must be lowercase hex") else
      match SplitHostPort (of_bytes hostPort) with
      | Err e => Err (Wrapf "invite: bad host:port" e)
      | Ok (host, port) =>
          if host =s? "" then Err (Errorf "invite: empty host") else
          if port =s? "" then Err (Errorf "invite: empty port") else
          Ok (host, port, fp)
      end
  end.

Definition FormatInvite (host port fingerprint : string) : string :=
  let fp := if MaxPreviewFP <? slen fingerprint then str_take 16 fingerprint else fingerprint in
  InvitePrefix +:+ (host +:+ (":" +:+ (port +:+ ("/" +:+ fp)))).

(** ** The addresses of the machine *)

(** An interface: up, loopback, its addresses or a failure to list them; an
    address is the bytes of an IP network's IP, [None] if it is no IP network. *)
Record Iface := mkIface { if_up : bool; if_loopback : bool; if_addrs : result (list (option (list Z))) }.

(** [ip.To4()]. *)
Definition To4 (ip : list Z) : option (list Z) :=
  if (length ip =? 4)%nat then Some ip
  else if (length ip =? 16)%nat && bool_decide (take 12 ip = replicate 10 0 ++ [255; 255])
  then Some (drop 12 ip) else None.

(** [IsLoopback], [IsLinkLocalUnicast], [IsPrivate] and [String] of an IPv4 address. *)
Definition IsLoopback (ip : list Z) : bool := match ip with a :: _ => a =? 127 | _ => false end.
Definition IsLinkLocalUnicast (ip : list Z) : bool :=
  match ip with a :: b :: _ => (a =? 169) && (b =? 254) | _ => false end.
Definition IsPrivate (ip : list Z) : bool :=
  match ip with
  | a :: b :: _ => (a =? 10) || ((a =? 172) && (Z.land b 240 =? 16)) || ((a =? 192) && (b =? 168))
  | _ => false
  end.
Fixpoint dotted (ip : list Z) : list Z :=
  match ip with
  | [] => []
  | [b] => dec b
  | b :: ip => dec b ++ 46 :: dotted ip
  end.
Definition IPString (ip : list Z) : string := of_bytes (dotted ip).

(** What an address contributes to the private and to the other addresses. *)
Definition usable (a : option (list Z)) : option (list Z) :=
  ip ← a; ip ← To4 ip;
  if IsLoopback ip || IsLinkLocalUnicast ip then None else Some ip.

Definition usable_addrs (ifc : Iface) : list (list Z) :=
  if negb (if_up ifc) || if_loopback ifc then []
  else match if_addrs ifc with Err _ => [] | Ok l => omap usable l end.

Definition localAddresses (ifaces : result (list Iface)) : list string :=
  match ifaces with
  | Err _ => []
  | Ok ifaces =>
      let ips := concat (usable_addrs <$> ifaces) in
      (IPString <$> filter (λ ip, IsPrivate ip = true) ips)
      ++ (IPString <$> filter (λ ip, IsPrivate ip = false) ips)
  end.

(** ** The picture *)

(** [qr.Encode]: the size of the code and its black modules. *)
Class QR := { qr_encode : string → result (Z * (Z → Z → bool)) }.

Section picture.
Context `{QR}.

Definition num (z : Z) : string := of_bytes (dec z).

(** The rows and columns of the double loop, row by row. *)
Definition modules (size : Z) : list (Z * Z) :=
  let range := seqZ 0 size in y ← range; x ← range; [(x, y)].

Definition module_path (scale : Z) (xy : Z * Z) : string :=
  let s := num scale in
  "M" +:+ num ((xy.1 + 4) * scale) +:+ " " +:+ num ((xy.2 + 4) * scale) +:+ "h" +:+ s +:+ "v" +:+ s
  +:+ "h-" +:+ s +:+ "z".

Definition quoted (s : string) : string := of_bytes ([34] ++ bytes_of s ++ [34]).

Definition QRSVG (text : string) (scale : Z) : result string :=
  let scale := if scale <=? 0 then 8 else scale in
  match qr_encode text with
  | Err e => Err (Wrapf "node: encode qr" e)
  | Ok (size, black) =>
      let px := num ((size + 4 * 2) * scale) in
      let path := foldr (λ xy p, module_path scale xy +:+ p) ""
        (filter (λ xy, black xy.1 xy.2 = true) (modules size)) in
      Ok ("<svg xmlns=" +:+ quoted "http://www.w3.org/2000/svg" +:+ " viewBox="
          +:+ quoted ("0 0 " +:+ px +:+ " " +:+ px) +:+ " width=" +:+ quoted px +:+ " height="
          +:+ quoted px +:+ " role=" +:+ quoted "img" +:+ " aria-label=" +:+ quoted "Invite QR code"
          +:+ " shape-rendering=" +:+ quoted "crispEdges" +:+ "><rect width=" +:+ quoted px
          +:+ " height=" +:+ quoted px +:+ " fill=" +:+ quoted "#fff" +:+ "/><path d=" +:+ quoted path
          +:+ " fill=" +:+ quoted "#0C0C14" +:+ "/></svg>")
  end.

Record InviteT := mkInvite {
  iv_URI : string; iv_Host : string; iv_Port : string; iv_Fingerprint : string;
  iv_Addresses : list string; iv_SVG : string }.

(** [n.Invite()] on a node with this fingerprint listening on this port. *)
Definition Invite (ifaces : result (list Iface)) (listenPort : Z) (myFP : string) : result InviteT :=
  let port := num listenPort in
  let addrs := localAddresses ifaces in
  let host := default "127.0.0.1" (head addrs) in
  let uri := FormatInvite host port myFP in
  svg ← QRSVG uri 8;
  Ok (mkInvite uri host port myFP addrs svg).
End picture.

(** ** Cutting where it was joined *)

Lemma cut_byte_app c p r : c ∉ p → cut_byte c (p ++ c :: r) = (p, Some r).
Proof.
  induction p as [|b p IH]; intros Hp; cbn; [by rewrite Z.eqb_refl|].
  destruct (Z.eqb_spec b c) as [->|]; [destruct Hp; by left|].
  rewrite IH; [done|]. intros Hc. apply Hp. by right.
Qed.

Lemma cut_last_none c l : c ∉ l → cut_last c l = None.
Proof.
  induction l as [|b l IH]; intros Hl; [done|]. cbn. rewrite IH by (intros Hc; apply Hl; by right).
  destruct (Z.eqb_spec b c) as [->|]; [destruct Hl; by left|done].
Qed.

Lemma cut_last_app c p r : c ∉ r → cut_last c (p ++ c :: r) = Some (p, r).
Proof.
  intros Hr. induction p as [|b p IH]; cbn.
  - by rewrite cut_last_none, Z.eqb_refl.
  - by rewrite IH.
Qed.

Lemma has_byte_spec c l : has_byte c l = true ↔ c ∈ l.
Proof.
  unfold has_byte. rewrite existsb_exists. split.
  - intros (x & Hx%list_elem_of_In & ->%Z.eqb_eq). done.
  - intros Hc. exists c. split; [by apply list_elem_of_In|apply Z.eqb_refl].
Qed.

(** A host or port without the bytes that separate and quote. *)
Definition plain_part (s : string) : Prop := s ≠ "" ∧ Forall (λ b, b ∉ [47; 58; 91; 93]) (bytes_of s).

Lemma plain_not_in s c : plain_part s → c ∈ [47; 58; 91; 93] → c ∉ bytes_of s.
Proof. intros [_ Hs] Hc Hin. rewrite Forall_forall in Hs. by apply (Hs c Hin). Qed.

Lemma has_byte_false c l : c ∉ l → has_byte c l = false.
Proof. intros Hc. destruct (has_byte c l) eqn:E; [|done]. by apply has_byte_spec in E. Qed.

Lemma SplitHostPort_plain host port :
  plain_part host → plain_part port → SplitHostPort (host +:+ (":" +:+ port)) = Ok (host, port).
Proof.
  intros Hh Hp. unfold SplitHostPort. rewrite !bytes_of_app. change (bytes_of ":") with [58].
  cbn [app]. rewrite cut_last_app by (apply (plain_not_in port); [done|set_solver]). cbv zeta.
  rewrite !of_bytes_of.
  assert (H58 : has_byte 58 (bytes_of host) = false)
    by (apply has_byte_false, (plain_not_in host); [done|set_solver]).
  assert (Hno : ∀ c, c ∈ [91; 93] → has_byte c (bytes_of host ++ 58 :: bytes_of port) = false).
  { intros c Hc. apply has_byte_false. intros [Hi|[->|Hi]%elem_of_cons]%elem_of_app.
    - by apply (plain_not_in host c Hh) in Hi; [|set_solver].
    - set_solver.
    - by apply (plain_not_in port c Hp) in Hi; [|set_solver]. }
  assert (Hhead : ∃ b l, bytes_of host = b :: l ∧ b ≠ 91).
  { destruct Hh as [Hne Hall]. destruct (bytes_of host) as [|b l] eqn:E.
    - destruct Hne. by rewrite <- (of_bytes_of host), E.
    - exists b, l. split; [done|]. apply Forall_cons in Hall as [Hb _]. set_solver. }
  destruct Hhead as (b & l & El & Hb). rewrite H58, !Hno by set_solver. rewrite El. cbn [app].
  rewrite <- (of_bytes_of host), El. destruct b as [|b|b]; try done.
  do 7 (destruct b as [b|b|]; try done).
Qed.

Lemma hex_runes s : Forall (λ b, is_lower_hex b = true) (bytes_of s) → forallb is_lower_hex (runes s) = true.
Proof.
  intros Hs. unfold runes. rewrite units_ascii.
  2: { eapply Forall_impl; [exact Hs|]. unfold is_lower_hex. cbn. lia. }
  rewrite <- list_fmap_compose. induction Hs as [|b l Hb _ IH]; [done|]. cbn. by rewrite Hb.
Qed.

Lemma str_take_hex n s :
  Forall (λ b, is_lower_hex b = true) (bytes_of s) → Forall (λ b, is_lower_hex b = true) (bytes_of (str_take n s)).
Proof.
  intros Hs. unfold str_take. rewrite bytes_of_of by (apply Forall_take, bytes_of_range). by apply Forall_take.
Qed.

Lemma ParseInvite_Format host port fp :
  plain_part host → plain_part port → 8 <= slen fp → Forall (λ b, is_lower_hex b = true) (bytes_of fp) →
  ParseInvite (FormatInvite host port fp)
  = Ok (host, port, if 16 <? slen fp then str_take 16 fp else fp).
Proof.
  intros Hh Hp Hl Hx. unfold ParseInvite, FormatInvite, MaxPreviewFP, MinFPLen.
  set (fp' := if 16 <? slen fp then str_take 16 fp else fp).
  assert (Hfp : 8 <= slen fp' ∧ Forall (λ b, is_lower_hex b = true) (bytes_of fp')).
  { subst fp'. destruct (Z.ltb_spec 16 (slen fp)); [|done]. split; [|by apply str_take_hex].
    change 16%nat with (Z.to_nat 16). rewrite slen_take; lia. }
  destruct Hfp as [Hl' Hx']. rewrite has_prefix_app. cbn [negb]. rewrite str_drop_app by done.
  replace (host +:+ (":" +:+ (port +:+ ("/" +:+ fp')))) with ((host +:+ (":" +:+ port)) +:+ ("/" +:+ fp'))
    by (by rewrite <- !str_app_assoc).
  assert (Hne : ((host +:+ (":" +:+ port)) +:+ ("/" +:+ fp') =s? "") = false).
  { apply eqs_false. intros E. apply (f_equal slen) in E. rewrite !slen_app in E.
    change (slen "/") with 1 in E. change (slen "") with 0 in E. change (slen ":") with 1 in E.
    pose proof (slen_nonneg host). pose proof (slen_nonneg port). lia. }
  rewrite Hne, bytes_of_app. rewrite (bytes_of_app "/"). change (bytes_of "/") with [47]. cbn [app].
  rewrite cut_byte_app.
  2: { rewrite !bytes_of_app. change (bytes_of ":") with [58]. rewrite !elem_of_app.
       intros [Hi|[Hi|Hi]]; [by apply (plain_not_in host 47 Hh) in Hi; [|set_solver]|set_solver|
         by apply (plain_not_in port 47 Hp) in Hi; [|set_solver]]. }
  rewrite !of_bytes_of.
  assert (Hf : (fp' =s? "") = false) by (apply eqs_false; intros ->; by change (slen "") with 0 in Hl').
  rewrite Hf. destruct (Z.ltb_spec (slen fp') 8); [lia|]. rewrite hex_runes by done. cbn [negb].
  rewrite SplitHostPort_plain by done.
  by rewrite (proj2 (eqs_false _ _) (proj1 Hh)), (proj2 (eqs_false _ _) (proj1 Hp)).
Qed.

(** ** What goes into the URI *)

Lemma hex_encode_lower s : Forall (λ b, is_lower_hex b = true) (bytes_of (hex_encode s)).
Proof.
  rewrite bytes_of_hex. pose proof (bytes_of_range s) as Hr.
  induction Hr as [|b l Hb _ IH]; [constructor|]. cbn. unfold is_byte in Hb.
  assert (Hd : ∀ d, 0 <= d < 16 → is_lower_hex (hex_digit d) = true).
  { intros d Hd. unfold is_lower_hex, hex_digit. ztests; done. }
  pose proof (Z.mod_pos_bound b 16 ltac:(lia)). assert (0 <= b / 16 < 16).
  { split; [apply Z.div_pos; lia|apply Z.div_lt_upper_bound; lia]. }
  constructor; [by apply Hd|]. constructor; [by apply Hd|done].
Qed.

Lemma dec_nat_bytes n : 0 <= n → Forall (λ b, is_dec b = true) (dec_nat n) ∧ dec_nat n ≠ [].
Proof.
  intros Hn. destruct (dec_nat_spec n Hn) as [[Hd Hne] _]. split.
  - apply Forall_forall. intros b Hb. rewrite forallb_forall in Hd. by apply Hd, list_elem_of_In.
  - by destruct (dec_nat n).
Qed.

Lemma num_plain n : 0 <= n → plain_part (num n).
Proof.
  intros Hn. destruct (dec_nat_bytes n Hn) as [Hd Hne]. unfold num, dec.
  destruct (Z.ltb_spec n 0); [lia|]. assert (Hb : bytes_of (of_bytes (dec_nat n)) = dec_nat n).
  { apply bytes_of_of. eapply Forall_impl; [exact Hd|]. unfold is_dec, is_byte. cbn. lia. }
  split.
  - intros E. apply (f_equal bytes_of) in E. rewrite Hb in E. done.
  - rewrite Hb. eapply Forall_impl; [exact Hd|]. unfold is_dec. cbn. intros b Hx Hin.
    set_unfold in Hin. lia.
Qed.

Lemma dotted_bytes ip :
  ip ≠ [] → Forall (λ b, 0 <= b) ip →
  Forall (λ b, is_dec b = true ∨ b = 46) (dotted ip) ∧ dotted ip ≠ [].
Proof.
  intros Hne Hip. induction Hip as [|b ip Hb Hip IH]; [done|].
  destruct (dec_nat_bytes b Hb) as [Hd Hdn].
  assert (E : dec b = dec_nat b) by (unfold dec; destruct (Z.ltb_spec b 0); [lia|done]).
  assert (Hd' : Forall (λ b, is_dec b = true ∨ b = 46) (dec_nat b)) by (eapply Forall_impl; [exact Hd|auto]).
  destruct ip as [|b2 ip]; cbn [dotted] in *; rewrite E; [done|].
  destruct IH as [IH _]; [done|]. split; [|by destruct (dec_nat b)].
  apply Forall_app. split; [done|]. constructor; [by right|done].
Qed.

Lemma IPString_plain ip : ip ≠ [] → Forall (λ b, 0 <= b) ip → plain_part (IPString ip).
Proof.
  intros Hne Hip. destruct (dotted_bytes ip Hne Hip) as [Hd Hdn]. unfold IPString.
  assert (Hb : bytes_of (of_bytes (dotted ip)) = dotted ip).
  { apply bytes_of_of. eapply Forall_impl; [exact Hd|]. unfold is_dec, is_byte. cbn. lia. }
  split; [intros E; apply (f_equal bytes_of) in E; by rewrite Hb in E|].
  rewrite Hb. eapply Forall_impl; [exact Hd|]. unfold is_dec. cbn. intros b Hx Hin.
  set_unfold in Hin. lia.
Qed.

(** The interfaces give addresses of bytes. *)
Definition iface_ok (ifc : Iface) : Prop :=
  ∀ l ip, if_addrs ifc = Ok l → Some ip ∈ l → Forall is_byte ip.

Lemma usable_ok ifaces ip :
  Forall iface_ok ifaces → ip ∈ concat (usable_addrs <$> ifaces) → ip ≠ [] ∧ Forall (λ b, 0 <= b) ip.
Proof.
  intros Hok Hip. apply list_elem_of_In, in_concat in Hip as (l & Hl%list_elem_of_In & Hip%list_elem_of_In).
  apply list_elem_of_fmap in Hl as (ifc & -> & Hifc). rewrite Forall_forall in Hok.
  specialize (Hok ifc Hifc). unfold usable_addrs in Hip.
  destruct (negb (if_up ifc) || if_loopback ifc); [by apply not_elem_of_nil in Hip|].
  destruct (if_addrs ifc) as [l|] eqn:El; [|by apply elem_of_nil in Hip].
  apply list_elem_of_omap in Hip as (a & Ha & Hu). unfold usable in Hu.
  destruct a as [x|]; [|done]. cbn in Hu. destruct (To4 x) as [y|] eqn:Ey; [|done]. cbn in Hu.
  case_match; [done|]. injection Hu as <-. specialize (Hok l x El Ha). unfold To4 in Ey.
  assert (Hnn : Forall (λ b, 0 <= b) x) by (eapply Forall_impl; [exact Hok|]; unfold is_byte; lia).
  destruct (Nat.eqb_spec (length x) 4) as [E|_].
  - injection Ey as <-. split; [by destruct x|done].
  - destruct (Nat.eqb_spec (length x) 16) as [E|]; [|done]. case_bool_decide; [|done].
    injection Ey as <-. split; [|by apply Forall_drop]. intros Hd. apply (f_equal length) in Hd.
    rewrite length_drop, E in Hd. done.
Qed.

Lemma localAddresses_plain ifaces :
  (∀ l, ifaces = Ok l → Forall iface_ok l) → Forall plain_part (localAddresses ifaces).
Proof.
  intros Hok. unfold localAddresses. destruct ifaces as [l|]; [|constructor].
  specialize (Hok l eq_refl). apply Forall_app. split; apply Forall_fmap, Forall_forall;
    intros ip [_ Hip]%list_elem_of_filter; apply usable_ok in Hip as [? ?]; auto; by apply IPString_plain.
Qed.

(** ** The invitation of a node *)

Section invite.
Context `{QR} `{UnicodeTables}.

Lemma Invite_uri ifaces port key inv :
  (∀ l, ifaces = Ok l → Forall iface_ok l) →
  Invite ifaces port (Fingerprint key) = Ok inv →
  iv_URI inv = FormatInvite (iv_Host inv) (num port) (Fingerprint key) ∧ plain_part (iv_Host inv) ∧
  (iv_Host inv ∈ localAddresses ifaces ∨ localAddresses ifaces = [] ∧ iv_Host inv = "127.0.0.1").
Proof.
  intros Hok Hi. pose proof (localAddresses_plain ifaces Hok) as Ha. unfold Invite in Hi.
  destruct (QRSVG _ _) as [svg|]; [|done]. cbn [mbind result_bind] in Hi.
  assert (E : ∀ a b : InviteT, Ok a = Ok b → a = b) by congruence.
  apply E in Hi as <-. cbn [iv_URI iv_Host]. split; [done|].
  destruct (localAddresses ifaces) as [|a l]; cbn [head default].
  - split; [|by right]. split; [done|]. cbn. repeat constructor; set_solver.
  - apply Forall_cons in Ha as [Ha _]. split; [exact Ha|left; by left].
Qed.

Lemma ParseInvite_Invite ifaces port key inv :
  (∀ l, ifaces = Ok l → Forall iface_ok l) → 0 <= port →
  Invite ifaces port (Fingerprint key) = Ok inv →
  ParseInvite (iv_URI inv) = Ok (iv_Host inv, num port, str_take 16 (Fingerprint key)).
Proof.
  intros Hok Hp (-> & Hh & _)%Invite_uri; [|done].
  rewrite ParseInvite_Format; [|done|by apply num_plain| |apply hex_encode_lower];
    rewrite Fingerprint_length; [done|lia].
Qed.

(** On lower-case hex [fpMatches] is equality. *)
Lemma fpMatches_hex s remote :
  Forall (λ b, is_lower_hex b = true) (bytes_of s) → fpMatches s remote = (s =s? Fingerprint remote).
Proof.
  intros Hs. unfold fpMatches. f_equal. rewrite <- (of_bytes_of s) at 2. f_equal.
  unfold runes. rewrite units_ascii.
  2: { eapply Forall_impl; [exact Hs|]. unfold is_lower_hex. cbn. lia. }
  rewrite <- list_fmap_compose. induction Hs as [|b l Hb _ IH]; [done|]. cbn [fmap list_fmap compose rune_of].
  assert (Hr : 48 <= b <= 57 ∨ 97 <= b <= 102) by (unfold is_lower_hex in Hb; lia).
  rewrite filter_cons_True by (unfold is_sep; lia). cbn [fmap list_fmap concat].
  unfold compose at 1. rewrite to_lower_ascii by lia. assert (Hc : (65 <=? b) && (b <=? 90) = false) by lia. rewrite Hc.
  rewrite encode_ascii by lia. cbn [app]. by f_equal.
Qed.
End invite.

(** ** Properties *)

Section properties.
Context `{QR} `{UnicodeTables}.

Lemma prefix_refused key remote : fpMatches (str_take 16 (Fingerprint key)) remote = false.
Proof.
  rewrite fpMatches_hex.
  - apply eqs_false. intros Heq. apply (f_equal slen) in Heq. rewrite Fingerprint_length in Heq.
    change 16%nat with (Z.to_nat 16) in Heq. rewrite slen_take in Heq; [done|].
    rewrite Fingerprint_length. lia.
  - apply str_take_hex, hex_encode_lower.
Qed.

(** C40: an invitation reads back, and verifies nobody.  Whatever the interfaces
    of the machine, the URI a node shares parses to the host and port it was
    made of, with the first sixteen digits of its fingerprint; the host is an
    IPv4 address of the machine or the loopback address.  The check of a dial
    compares whole fingerprints: with what an invitation gives it refuses
    every key, its author's included. *)
Theorem invite_roundtrip ifaces port key inv :
  (∀ l, ifaces = Ok l → Forall iface_ok l) → 0 <= port →
  Invite ifaces port (Fingerprint key) = Ok inv →
  ParseInvite (iv_URI inv) = Ok (iv_Host inv, num port, str_take 16 (Fingerprint key)) ∧
  (iv_Host inv ∈ localAddresses ifaces ∨ localAddresses ifaces = [] ∧ iv_Host inv = "127.0.0.1") ∧
  ∀ remote, fpMatches (str_take 16 (Fingerprint key)) remote = false.
Proof.
  intros Hok Hp Hi. split; [by eapply ParseInvite_Invite|]. split; [by eapply Invite_uri|].
  apply prefix_refused.
Qed.
End properties.

(** ** Examples *)

#[local] Existing Instance ascii_tables.

(** A code of one black module. *)
#[local] Instance ex_qr : QR := {| qr_encode _ := Ok (1, λ _ _, true) |}.

Definition ex_ifaces : result (list Iface) :=
  Ok [ mkIface true true (Ok [Some [127; 0; 0; 1]]); mkIface true false (Err (Errorf "flags"));
       mkIface true false (Ok [None; Some (replicate 10 0 ++ [255; 255; 8; 8; 4; 4]); Some [192; 168; 1; 5]]) ].

Lemma ex_ifaces_ok l : ex_ifaces = Ok l → Forall iface_ok l.
Proof.
  intros [= <-]. repeat constructor; intros l ip Hl Hip; cbn in Hl; try done; injection Hl as <-;
    apply list_elem_of_In in Hip; cbn in Hip; destruct_or?; try done; try (injection Hip as <-);
    repeat constructor; unfold is_byte; lia.
Qed.

Definition ex_invite : InviteT :=
  match Invite ex_ifaces 9001 (Fingerprint "key") with Ok i => i | Err _ => mkInvite "" "" "" "" [] "" end.

Lemma ex_invite_ok : Invite ex_ifaces 9001 (Fingerprint "key") = Ok ex_invite.
Proof. by vm_compute. Qed.

Lemma invite_roundtrip_witness :
  iv_Addresses ex_invite = ["192.168.1.5"; "8.8.4.4"] ∧
  ParseInvite (iv_URI ex_invite) = Ok (iv_Host ex_invite, num 9001, str_take 16 (Fingerprint "key")).
Proof.
  split; [by vm_compute|]. apply (invite_roundtrip ex_ifaces 9001 "key" ex_invite ex_ifaces_ok); [done|].
  exact ex_invite_ok.
Defined.
