(* ===== verification/NodeState.v ===== *)
(** * The state of a node and its effects (internal/node: node.go, link.go, events.go)

    A node owns its store, its table of sessions ([n_conns], the objects) and
    its map of live sessions ([n_live], by folded name: a pointer is a
    connection number), the peers it has discovered, its subscribers and its
    diagnostics log.  What leaves the node is a trace: envelopes handed to a
    session, closed connections, events, log lines, goroutines started.  A
    handler runs as one step (the code holds a mutex or is the only reader);
    the clock is read once per step ([now]); random reads and the outcome of
    writing to a session are the environment's. *)

From S2P Require Import Prelude GoStrings Utf8 Proto Sha256 Identity Base64 Crypto Bolt.
From S2P Require Import StoreData StoreCore StoreMessages StorePeers StoreFiles StoreRooms.
From S2P Require Import Backoff.

(** [Config]: the timing knobs. *)
Record Config := mkConfig {
  PingEvery : Z; DeadAfter : Z; RetryBase : Z; RetryMax : Z; DialTick : Z }.

(** [cfg.defaults()] on the timing knobs. *)
Definition defaults (c : Config) : Config :=
  let pick v d := if v =? 0 then d else v in
  mkConfig (pick (PingEvery c) (10 * Second)) (pick (DeadAfter c) (30 * Second))
    (pick (RetryBase c) (2 * Second)) (pick (RetryMax c) (30 * Second)) (pick (DialTick c) Second).

(** An event for subscribers; [ev_Progress] is the fraction as its two terms. *)
Record Event := mkEvent {
  ev_Type : string; ev_Peer : string; ev_Message : option Message; ev_Emoji : string;
  ev_Target : string; ev_FileID : string; ev_FileSrc : string; ev_FileSize : Z;
  ev_FileHash : string; ev_Progress : Z * Z; ev_Room : string;
  ev_RoomMessage : option RoomMessage }.

Definition event (t peer : string) : Event :=
  mkEvent t peer None "" "" "" "" 0 "" (0, 1) "" None.
Definition event_msg (t peer : string) (m : Message) : Event :=
  mkEvent t peer (Some m) "" "" "" "" 0 "" (0, 1) "" None.
Definition event_target (t peer emoji target : string) : Event :=
  mkEvent t peer None emoji target "" "" 0 "" (0, 1) "" None.
Definition event_file (t peer id src : string) (size : Z) (hash : string) (prog : Z * Z) : Event :=
  mkEvent t peer None "" "" id src size hash prog "" None.
Definition event_room (t room target : string) (m : option RoomMessage) : Event :=
  mkEvent t "" None "" target "" "" 0 "" (0, 1) room m.

(** [progressOf]. *)
Definition progressOf (done total : Z) : Z * Z := if total <=? 0 then (0, 1) else (done, total).

(** A session ([link] with the fields of its [session.Conn] the node reads).
    [lk_fileAck] maps a transfer to its channel of capacity one; the last two
    fields are the local variables of its [readLoop]. *)
Record Link := mkLink {
  lk_peer : string; lk_caps : list string; lk_since : Z;
  lk_rxFileID : string; lk_rxFileOff : Z; lk_rxFileHash : string; lk_rxFileSize : Z;
  lk_rxFileName : string;
  lk_fileAck : gmap string (option Z);
  lk_msgCount : Z; lk_rateStart : Z }.

(** [newLink]. *)
Definition newLink (peer : string) (caps : list string) (now : Z) : Link :=
  mkLink peer caps now "" 0 "" 0 "" ∅ 0 zero_time.

Definition set_rx (id : string) (off : Z) (hash : string) (size : Z) (name : string) (l : Link) : Link :=
  mkLink (lk_peer l) (lk_caps l) (lk_since l) id off hash size name (lk_fileAck l)
    (lk_msgCount l) (lk_rateStart l).
Definition set_rxOff (off : Z) (l : Link) : Link :=
  mkLink (lk_peer l) (lk_caps l) (lk_since l) (lk_rxFileID l) off (lk_rxFileHash l)
    (lk_rxFileSize l) (lk_rxFileName l) (lk_fileAck l) (lk_msgCount l) (lk_rateStart l).
Definition set_fileAck (a : gmap string (option Z)) (l : Link) : Link :=
  mkLink (lk_peer l) (lk_caps l) (lk_since l) (lk_rxFileID l) (lk_rxFileOff l) (lk_rxFileHash l)
    (lk_rxFileSize l) (lk_rxFileName l) a (lk_msgCount l) (lk_rateStart l).
Definition set_rate (count start : Z) (l : Link) : Link :=
  mkLink (lk_peer l) (lk_caps l) (lk_since l) (lk_rxFileID l) (lk_rxFileOff l) (lk_rxFileHash l)
    (lk_rxFileSize l) (lk_rxFileName l) (lk_fileAck l) count start.

(** [l.speaks(cap)], and [speaksRooms(l)], the same loop for one capability. *)
Definition speaks (l : Link) (cap : string) : bool := has_cap (lk_caps l) cap.
Definition speaksRooms (l : Link) : bool := has_cap (lk_caps l) CapRooms.

(** A discovered service and what is known about it. *)
Record DiscPeer := mkDiscPeer { dp_Name : string; dp_FP : string; dp_Addrs : list string }.
Record Nearby := mkNearby {
  nb_peer : DiscPeer; nb_up : bool; nb_seen : Z; nb_fails : Z; nb_nextDial : Z; nb_dialing : bool }.

(** Goroutines a step starts. *)
Inductive task :=
| TFlush (peer : string) (force : bool)
| TFlushFile (peer fileID : string)
| TDial (fp : string)
| TPing (conn : nat)
| TRunSession (conn : nat).

Inductive output :=
| OSend (conn : nat) (e : Envelope)
| OClose (conn : nat)
| OEmit (e : Event)
| OLog (format : string)
| OSpawn (t : task)
| OAnnounce (name fp : string)
| OPanic.

(** Whether writing an envelope to a session fails, given all that left the
    node before. *)
Class Wire := { wire_error : list output → nat → Envelope → option error }.

(** A wire that never fails. *)
Definition good_wire : Wire := {| wire_error _ _ _ := None |}.

Definition logCap : nat := 200.

Section node.
Context {B : Type → Type} `{Bolt B} `{Primitives} `{UnicodeTables} `{Wire}.

Record Node := mkNode {
  n_store : Store B;
  n_cfg : Config;
  n_id : Identity;
  n_myFP : string;
  n_nearby : gmap string Nearby;
  n_conns : gmap nat Link;
  n_live : gmap string nat;
  n_subs : gmap Z (list Event);
  n_nextSub : Z;
  n_log : list (Z * string);
  n_announced : bool;
  n_out : list output }.

Definition with_store (s : Store B) (n : Node) : Node :=
  mkNode s (n_cfg n) (n_id n) (n_myFP n) (n_nearby n) (n_conns n) (n_live n) (n_subs n)
    (n_nextSub n) (n_log n) (n_announced n) (n_out n).
Definition with_id (i : Identity) (n : Node) : Node :=
  mkNode (n_store n) (n_cfg n) i (n_myFP n) (n_nearby n) (n_conns n) (n_live n) (n_subs n)
    (n_nextSub n) (n_log n) (n_announced n) (n_out n).
Definition with_nearby (x : gmap string Nearby) (n : Node) : Node :=
  mkNode (n_store n) (n_cfg n) (n_id n) (n_myFP n) x (n_conns n) (n_live n) (n_subs n)
    (n_nextSub n) (n_log n) (n_announced n) (n_out n).
Definition with_conns (x : gmap nat Link) (n : Node) : Node :=
  mkNode (n_store n) (n_cfg n) (n_id n) (n_myFP n) (n_nearby n) x (n_live n) (n_subs n)
    (n_nextSub n) (n_log n) (n_announced n) (n_out n).
Definition with_live (x : gmap string nat) (n : Node) : Node :=
  mkNode (n_store n) (n_cfg n) (n_id n) (n_myFP n) (n_nearby n) (n_conns n) x (n_subs n)
    (n_nextSub n) (n_log n) (n_announced n) (n_out n).
Definition with_subs (x : gmap Z (list Event)) (k : Z) (n : Node) : Node :=
  mkNode (n_store n) (n_cfg n) (n_id n) (n_myFP n) (n_nearby n) (n_conns n) (n_live n) x
    k (n_log n) (n_announced n) (n_out n).
Definition with_log (x : list (Z * string)) (n : Node) : Node :=
  mkNode (n_store n) (n_cfg n) (n_id n) (n_myFP n) (n_nearby n) (n_conns n) (n_live n) (n_subs n)
    (n_nextSub n) x (n_announced n) (n_out n).
Definition with_out (o : output) (n : Node) : Node :=
  mkNode (n_store n) (n_cfg n) (n_id n) (n_myFP n) (n_nearby n) (n_conns n) (n_live n) (n_subs n)
    (n_nextSub n) (n_log n) (n_announced n) (n_out n ++ [o]).

(** [New(cfg)]. *)
Definition New (s : Store B) (cfg : Config) (id : Identity) : Node :=
  mkNode s (defaults cfg) id (Fingerprint (id_Public id)) ∅ ∅ ∅ ∅ 0 [] false [].

(** ** The monad of handlers *)

Definition M (A : Type) : Type := Node → A * Node.

#[export] Instance M_ret : MRet M := λ A a n, (a, n).
#[export] Instance M_bind : MBind M := λ A A' f m n, let (a, n') := m n in f a n'.

Definition get : M Node := λ n, (n, n).
Definition modify (f : Node → Node) : M unit := λ n, (tt, f n).
(** An operation of the store, and a read. *)
Definition on_store {A} (f : Store B → result A * Store B) : M (result A) := λ n,
  let (r, s') := f (n_store n) in (r, with_store s' n).
Definition read_store {A} (f : Store B → A) : M A := λ n, (f (n_store n), n).
Definition out (o : output) : M unit := modify (with_out o).
Definition spawn (t : task) : M unit := out (OSpawn t).

(** [for ... range l { f }]. *)
Fixpoint for_each {A} (l : list A) (f : A → M unit) : M unit :=
  match l with [] => mret tt | x :: l => _ ← f x; for_each l f end.

(** [n.emit(e)]: a full subscriber loses the event. *)
Definition sub_buffer : nat := 64.
Definition deliver (e : Event) (q : list Event) : list Event :=
  if (length q <? sub_buffer)%nat then q ++ [e] else q.
Definition emit (e : Event) : M unit :=
  _ ← modify (λ n, with_subs (deliver e <$> n_subs n) (n_nextSub n) n);
  out (OEmit e).

(** [n.Subscribe()] and the function it returns; the first event taken off a channel. *)
Definition Subscribe : M Z :=
  n ← get;
  _ ← modify (with_subs (<[n_nextSub n := []]> (n_subs n)) (n_nextSub n + 1));
  mret (n_nextSub n).
Definition Unsubscribe (id : Z) : M unit :=
  modify (λ n, with_subs (delete id (n_subs n)) (n_nextSub n) n).

(** [n.logf]: the last [logCap] lines, each with its format. *)
Definition logf (now : Z) (format : string) : M unit :=
  _ ← modify (λ n, with_log (lastn logCap (n_log n ++ [(now, format)])) n);
  out (OLog format).

(** ** Sessions *)

Definition link_at (c : nat) : M (option Link) := λ n, (n_conns n !! c, n).
Definition set_link (c : nat) (l : Link) : M unit :=
  modify (λ n, with_conns (<[c := l]> (n_conns n)) n).

(** [n.linkFor(name)], the connection and the session object. *)
Definition linkFor (name : string) : M (option (nat * Link)) := λ n,
  (c ← n_live n !! ToLower name; l ← n_conns n !! c; Some (c, l), n).

(** [l.send(e)]: the envelope is validated, encrypted and written. *)
Definition send (c : nat) (e : Envelope) : M (result unit) := λ n,
  match validate e with
  | Err err => (Err err, n)
  | Ok _ =>
      match wire_error (n_out n) c e with
      | Some err => (Err err, n)
      | None => (Ok tt, with_out (OSend c e) n)
      end
  end.

Definition close (c : nat) : M unit := out (OClose c).

(** [l.awaitFileAck], [l.cancelFileAck] and [l.deliverFileAck]. *)
Definition update_link (c : nat) (f : Link → Link) : M unit :=
  modify (λ n, with_conns (alter f c (n_conns n)) n).
Definition awaitFileAck (c : nat) (id : string) : M unit :=
  update_link c (λ l, set_fileAck (<[id := None]> (lk_fileAck l)) l).
Definition cancelFileAck (c : nat) (id : string) : M unit :=
  update_link c (λ l, set_fileAck (delete id (lk_fileAck l)) l).
Definition deliverFileAck (c : nat) (id : string) (offset : Z) : M unit :=
  update_link c (λ l,
    match lk_fileAck l !! id with
    | Some None => set_fileAck (<[id := Some offset]> (lk_fileAck l)) l
    | _ => l
    end).
End node.

Arguments Node B : clear implicits.
Arguments M B A : clear implicits.

(** Errors of the node package without a sentinel. *)
Definition node_error (msg : string) : error := Errorf msg.

(** [x ←? m; k]: [x, err := m; if err != nil { return err }; k]. *)
Definition try_ {B : Type → Type} `{Bolt B} {A A'} (m : M B (result A))
    (k : A → M B (result A')) : M B (result A') :=
  r ← m; match r with Err e => mret (Err e) | Ok a => k a end.
Notation "x ←? m ; k" := (try_ m (λ x, k)) (at level 20, m at level 100, k at level 200) : stdpp_scope.
