(* ===== verification/Stream.v ===== *)
(** * The event stream of the interface (api.go, events.go)

    The loop of [events] after its subscription: heartbeats, events and the
    end of the request, against the queue the node keeps for the subscriber. *)

From S2P Require Import Prelude GoStrings Utf8 Proto Sha256 Identity Base64 Crypto Bolt.
From S2P Require Import StoreData StoreCore StoreMessages StorePeers StoreFiles StoreRooms Backoff NodeState.

(** What is written to the response: the retry hint, a comment, an event: the
    value given to [json.Marshal], whose error is dropped, so that one with a
    room message of a time it refuses is written as an empty text. *)
Inductive stream_msg := SRetry | SBeat | SData (e : Event).

(** The loop's subscription, what it wrote, and whether it still runs. *)
Record stream := mkStream { sm_sub : Z; sm_written : list stream_msg; sm_open : bool }.

(** Which case of the [select] is taken. *)
Inductive stream_case := case_done | case_beat | case_event.

Section stream.
Context {B : Type → Type} `{Bolt B}.
Implicit Types (n : Node B) (st : stream).

Definition events_start (sub : Z) : stream := mkStream sub [SRetry] true.

(** The deferred [cancel]. *)
Definition events_end st : M B stream :=
  _ ← Unsubscribe (sm_sub st); mret (mkStream (sm_sub st) (sm_written st) false).

(** A write that fails ends the loop. *)
Definition events_write st (x : stream_msg) (write_error : bool) : M B stream :=
  if write_error then events_end st else mret (mkStream (sm_sub st) (sm_written st ++ [x]) true).

(** [e, ok := <-ch]: the channel closed, an event, or [None] while it blocks. *)
Definition events_receive (sub : Z) : M B (option (option Event)) :=
  n ← get;
  match n_subs n !! sub with
  | None => mret (Some None)
  | Some [] => mret None
  | Some (e :: q) => _ ← modify (with_subs (<[sub := q]> (n_subs n)) (n_nextSub n)); mret (Some (Some e))
  end.

Definition events_turn st (c : stream_case) (write_error : bool) : M B stream :=
  if negb (sm_open st) then mret st else
  match c with
  | case_done => events_end st
  | case_beat => events_write st SBeat write_error
  | case_event =>
      x ← events_receive (sm_sub st);
      match x with
      | None => mret st
      | Some None => events_end st
      | Some (Some e) => events_write st (SData e) write_error
      end
  end.

Definition data_of (l : list stream_msg) : list Event :=
  omap (λ x, match x with SData e => Some e | _ => None end) l.

Definition full n (sub : Z) : bool :=
  match n_subs n !! sub with Some q => (sub_buffer <=? length q)%nat | None => false end.

(** A turn of the loop, or an event the node publishes; beside them the events
    published since the subscription, and how many were dropped on the
    full queue. *)
Inductive stream_step : Node B * stream * list Event * nat → Node B * stream * list Event * nat → Prop :=
| stream_turn c werr n st es k :
    stream_step (n, st, es, k) ((events_turn st c werr n).2, (events_turn st c werr n).1, es, k)
| stream_emit e n st es k :
    stream_step (n, st, es, k) ((emit e n).2, st, es ++ [e],
      if full n (sm_sub st) then S k else k).

(** While the loop runs, what it wrote and what waits are published events in
    order, all of them unless some were dropped; after it, no queue is left. *)
Record stream_inv (sub : Z) (x : Node B * stream * list Event * nat) : Prop := {
  si_sub : sm_sub x.1.1.2 = sub;
  si_open : sm_open x.1.1.2 = true → ∃ q, n_subs x.1.1.1 !! sub = Some q ∧ (length q <= sub_buffer)%nat ∧
    sublist (data_of (sm_written x.1.1.2) ++ q) x.1.2 ∧ (x.2 = O → data_of (sm_written x.1.1.2) ++ q = x.1.2);
  si_closed : sm_open x.1.1.2 = false → n_subs x.1.1.1 !! sub = None ∧ sublist (data_of (sm_written x.1.1.2)) x.1.2 }.

Lemma data_of_app l l' : data_of (l ++ l') = data_of l ++ data_of l'.
Proof. apply omap_app. Qed.

Lemma end_inv sub n st es k :
  sm_sub st = sub → sublist (data_of (sm_written st)) es →
  stream_inv sub ((events_end st n).2, (events_end st n).1, es, k).
Proof.
  intros Hs Hl. split; cbn; [done|done|]. intros _. split; [|done]. subst sub. cbn. apply lookup_delete_eq.
Qed.

Lemma write_inv sub n st es k x werr q :
  sm_sub st = sub → n_subs n !! sub = Some q → (length q <= sub_buffer)%nat →
  sublist (data_of (sm_written st)) es → sublist (data_of (sm_written st ++ [x]) ++ q) es →
  (k = O → data_of (sm_written st ++ [x]) ++ q = es) →
  stream_inv sub ((events_write st x werr n).2, (events_write st x werr n).1, es, k).
Proof.
  intros Hs Hq Hl H1 H2 H3. unfold events_write. destruct werr; [by apply end_inv|].
  split; cbn; [done| |done]. intros _. by exists q.
Qed.

Lemma events_receive_eq sub n q :
  n_subs n !! sub = Some q →
  events_receive sub n = match q with
    | [] => (None, n)
    | e :: q => (Some (Some e), with_subs (<[sub := q]> (n_subs n)) (n_nextSub n) n)
    end.
Proof. intros Hq. unfold events_receive, mbind, M_bind, get. cbv beta iota. rewrite Hq. by destruct q. Qed.

Lemma turn_inv sub c werr n st es k :
  stream_inv sub (n, st, es, k) → stream_inv sub ((events_turn st c werr n).2, (events_turn st c werr n).1, es, k).
Proof.
  intros Hi. unfold events_turn. destruct (sm_open st) eqn:Eo; [|done]. cbn [negb].
  destruct Hi as [Hs Ho _]. cbn [fst snd] in *. destruct (Ho Eo) as (q & Hq & Hl & Hsub & Hall).
  assert (Hd : sublist (data_of (sm_written st)) es) by (etrans; [|exact Hsub]; by apply sublist_inserts_r).
  destruct c; [by apply end_inv| |].
  - apply write_inv with q; rewrite ?data_of_app; cbn; rewrite ?app_nil_r; try done.
  - rewrite Hs. unfold mbind at 1 2, M_bind at 1 2. rewrite (events_receive_eq _ _ _ Hq). destruct q as [|e q].
    + split; cbn; [done| |congruence]. intros _. by exists [].
    + apply write_inv with q; [done|cbn; apply lookup_insert_eq|cbn in Hl; lia|done|..];
        rewrite data_of_app, <- app_assoc; done.
Qed.

Lemma emit_subs e n i : n_subs (emit e n).2 !! i = deliver e <$> n_subs n !! i.
Proof. apply (lookup_fmap (deliver e)). Qed.

Lemma emit_inv sub e n st es k :
  stream_inv sub (n, st, es, k) →
  stream_inv sub ((emit e n).2, st, es ++ [e], if full n (sm_sub st) then S k else k).
Proof.
  intros [Hs Ho Hc]. cbn [fst snd] in *. split; cbn [fst snd]; [done|..].
  - intros Eo. destruct (Ho Eo) as (q & Hq & Hl & Hsub & Hall). exists (deliver e q).
    rewrite Hs. unfold full. rewrite Hq. split; [by rewrite emit_subs, Hq|]. unfold deliver.
    destruct (Nat.ltb_spec (length q) sub_buffer) as [Hlt|Hge].
    + rewrite (proj2 (Nat.leb_gt _ _)) by done. split; [rewrite length_app; cbn; lia|].
      rewrite app_assoc. split; [by apply sublist_app|]. intros Hk. by rewrite Hall.
    + rewrite (proj2 (Nat.leb_le _ _)) by done. split; [done|]. split; [by apply sublist_inserts_r|done].
  - intros Eo. destruct (Hc Eo) as [Hn Hsub]. rewrite emit_subs, Hn. split; [done|by apply sublist_inserts_r].
Qed.

(** The stream tells the truth: started on a new subscription, through any
    turns and published events, what was written is a subsequence of what
    was published since, in order; while the loop runs and no event found its
    queue of [sub_buffer] full, what was written and what waits are all of
    them; when it ends the subscription is gone. *)
Lemma stream_in_order n0 x :
  let n1 := (Subscribe n0).2 in let sub := (Subscribe n0).1 in
  rtc stream_step (n1, events_start sub, [], O) x → stream_inv sub x.
Proof.
  intros n1 sub Hr. assert (H0 : stream_inv sub (n1, events_start sub, [], O)).
  { split; [done| |done]. intros _. exists []. cbn. split_and!; [apply lookup_insert_eq|lia|done|done]. }
  revert H0. induction Hr as [y|y z w Hyz _ IH]; [done|]. intros Hy. apply IH.
  destruct Hyz; [by apply turn_inv|by apply emit_inv].
Qed.
End stream.
