(* ===== verification/NodeRooms.v ===== *)
(** * Rooms of a node (internal/node/rooms.go)

    What the user does to rooms and what a peer's room envelopes do.  Every
    handler gets the session the envelope arrived on: its peer name is the
    authenticated identity of the sender. *)

From S2P Require Import Prelude GoStrings Utf8 Proto Sha256 Identity Base64 Crypto Bolt.
From S2P Require Import StoreData StoreCore StoreMessages StorePeers StoreFiles StoreRooms.
From S2P Require Import Backoff NodeState.

Section members.
Context `{UnicodeTables}.

Definition isMember (members : list string) (name : string) : bool :=
  existsb (λ m, EqualFold m name) members.

Definition removePeer (members : list string) (name : string) : list string :=
  filter (λ m, EqualFold m name = false) members.

Definition sortStrings (s : list string) : list string := sort_loop str_ltb s.

(** The loop of [dedupeMembers] with its set of folded names. *)
Fixpoint dedupe_loop (seen : gset string) (members : list string) : list string :=
  match members with
  | [] => []
  | m :: members =>
      if bool_decide (ToLower m ∈ seen) then dedupe_loop seen members
      else m :: dedupe_loop ({[ToLower m]} ∪ seen) members
  end.

Definition dedupeMembers (members : list string) : list string :=
  sortStrings (dedupe_loop ∅ members).
End members.

Definition set_Members (l : list string) (r : Room) : Room :=
  mkRoom (r_ID r) (r_Name r) l (r_CreatedBy r) (r_CreatedAt r) (r_State r).
Definition set_CreatedBy (c : string) (r : Room) : Room :=
  mkRoom (r_ID r) (r_Name r) (r_Members r) c (r_CreatedAt r) (r_State r).

Section rooms.
Context {B : Type → Type} `{Bolt B} `{Primitives} `{UnicodeTables} `{Wire}.

Definition my_name : M B string := λ n, (id_Name (n_id n), n).

(** The envelope of [sendRoomEvent]. *)
Definition room_event_envelope (roomID eventType actor name : string) (members : list string)
    (now : Z) : Envelope :=
  mkEnvelope TypeRoomEvent "" (UnixMilli now) "" "" "" "" "" 0 "" 0 "" roomID 0 eventType name
    actor members.

Definition sendRoomEvent (now : Z) (member roomID eventType actor name : string)
    (members : list string) : M B unit :=
  l ← linkFor member;
  match l with
  | None => mret tt
  | Some (c, l) =>
      if negb (speaksRooms l) then logf now "room event to %s skipped: peer does not speak rooms"
      else
        r ← send c (room_event_envelope roomID eventType actor name members now);
        match r with Err _ => logf now "room event to %s: %v" | Ok _ => mret tt end
  end.

(** Tell every name of a list but the two given ones. *)
Definition tell_others (now : Z) (names : list string) (skip : string → bool)
    (roomID eventType actor name : string) (members : list string) : M B unit :=
  for_each names (λ mb,
    if skip mb then mret tt
    else sendRoomEvent now mb roomID eventType actor name members).

Definition flush_room_loop (c : nat) (member roomID : string) (now : Z)
  : list RoomMessage → M B unit :=
  fix loop (pending : list RoomMessage) : M B unit :=
    match pending with
    | [] => mret tt
    | m :: pending =>
        n ← get;
        if (0 <? rm_Attempts m)
           && (time_Sub now (rm_LastTry m) <? roomBackoff (rm_Attempts m) (RetryBase (n_cfg n))
                                     (RetryMax (n_cfg n)))
        then loop pending
        else
          _ ← on_store (λ s, RoomRecordAttempt s (rm_ID m) now);
          r ← send c (mkEnvelope TypeRoomMsg (rm_ID m) (UnixMilli (rm_TS m)) (rm_Body m) "" "" ""
                        "" 0 "" 0 "" roomID (rm_SenderSeq m) "" "" "" []);
          match r with
          | Err _ => logf now "room send to %s: %v"
          | Ok _ => loop pending
          end
    end.

Definition flushRoomMember (now : Z) (member roomID : string) : M B unit :=
  l ← linkFor member;
  match l with
  | None => mret tt
  | Some (c, l) =>
      if negb (speaksRooms l) then mret tt else
      pending ← read_store (λ s, RoomPending_ s roomID member);
      match pending with
      | Err _ => logf now "room pending: %v"
      | Ok pending => flush_room_loop c member roomID now pending
      end
  end.

(** [CreateRoom]; [rng] is what [rand.Reader] holds for the identifier. *)
Definition CreateRoom_ (now : Z) (rng : string) (rnd : option string) (name : string)
    (memberNames : list string) : M B (result Room) :=
  if name =s? "" then mret (Err (node_error "node: room name required")) else
  if (length memberNames =? 0)%nat then mret (Err (node_error "node: at least one member required")) else
  if MaxRoomMembers - 1 <? Z.of_nat (length memberNames)
  then mret (Err (node_error "node: too many members")) else
  known ← read_store (λ s, forallb (λ m, is_ok (GetPeer s m)) memberNames);
  if negb known then mret (Err (node_error "node: member is not a pinned peer")) else
  me ← my_name;
  let members := dedupeMembers (me :: memberNames) in
  match NewID rng with
  | Err e => mret (Err (Wrapf "node: generate room id" e))
  | Ok (roomID, _) =>
      let room := mkRoom roomID name members me now RoomJoined in
      _ ←? on_store (λ s, CreateRoom s room rnd);
      _ ← tell_others now members (λ m, m =s? me) roomID "create" me name members;
      _ ← emit (event "room" "");
      mret (Ok room)
  end.

Definition room_message (id room sender dir body : string) (ts : Z) (status : string)
    (senderSeq : Z) : RoomMessage :=
  mkRoomMessage id room sender dir body ts status 0 zero_time 0 "" senderSeq [].

Definition SendRoomMessage (now : Z) (rng : string) (rnd : option string) (roomID body : string)
    : M B (result RoomMessage) :=
  if body =s? "" then mret (Err (Sentinel ErrBadBody)) else
  if MaxBody <? slen body then mret (Err (Sentinel ErrBadBody)) else
  r ← read_store (λ s, GetRoom s roomID);
  match r with
  | Err e => _ ← logf now "SendRoomMessage: get room: %v"; mret (Err e)
  | Ok r =>
      me ← my_name;
      if negb (isMember (r_Members r) me)
      then mret (Err (node_error "node: not a member of this room")) else
      if Room_Pending r then mret (Err (Sentinel ErrRoomPending)) else
      match NewID rng with
      | Err e => mret (Err e)
      | Ok (msgID, _) =>
          senderSeq ←? on_store (λ s, NextRoomSenderSeq s roomID me);
          let m := room_message msgID roomID me DirOut body now StatusQueued senderSeq in
          stored ←? on_store (λ s, AddRoomMessage s m rnd);
          let '(stored, dup) := (stored : RoomMessage * bool) in
          if dup then mret (Ok stored) else
          _ ← for_each (r_Members r) (λ mb,
                if mb =s? me then mret tt else
                r ← on_store (λ s, AddRoomMemberToOutbox s roomID mb msgID);
                match r with Err _ => logf now "room outbox: %v" | Ok _ => mret tt end);
          _ ← emit (event_room "roomMessage" roomID "" (Some stored));
          _ ← logf now "SendRoomMessage: stored msg %s in room %s, members=%v";
          _ ← for_each (r_Members r) (λ mb,
                if mb =s? me then mret tt else
                _ ← logf now "room flush for %s (room %s)";
                flushRoomMember now mb roomID);
          mret (Ok stored)
      end
  end.

Definition AddRoomMember (now : Z) (rnd : option string) (roomID memberName : string)
    : M B (result unit) :=
  r ←? read_store (λ s, GetRoom s roomID);
  me ← my_name;
  if negb (r_CreatedBy r =s? me)
  then mret (Err (node_error "node: only the creator can add members")) else
  if isMember (r_Members r) memberName then mret (Err (node_error "node: already a member")) else
  if MaxRoomMembers <=? Z.of_nat (length (r_Members r))
  then mret (Err (node_error "node: room is full")) else
  known ← read_store (λ s, is_ok (GetPeer s memberName));
  if negb known then mret (Err (node_error "node: not a pinned peer")) else
  let r := set_Members (sortStrings (r_Members r ++ [memberName])) r in
  _ ←? on_store (λ s, UpdateRoom s r rnd);
  _ ← sendRoomEvent now memberName roomID "create" me (r_Name r) (r_Members r);
  _ ← tell_others now (r_Members r) (λ mb, (mb =s? me) || (mb =s? memberName))
        roomID "join" memberName "" [];
  _ ← emit (event "room" "");
  mret (Ok tt).

Definition RemoveRoomMember (now : Z) (rnd : option string) (roomID memberName : string)
    : M B (result unit) :=
  r ←? read_store (λ s, GetRoom s roomID);
  me ← my_name;
  if negb (r_CreatedBy r =s? me)
  then mret (Err (node_error "node: only the creator can remove members")) else
  if memberName =s? me
  then mret (Err (node_error "node: cannot remove yourself; use leave instead")) else
  if negb (isMember (r_Members r) memberName) then mret (Err (node_error "node: not a member")) else
  let r := set_Members (filter (λ m, m ≠ memberName) (r_Members r)) r in
  _ ←? on_store (λ s, UpdateRoom s r rnd);
  _ ← sendRoomEvent now memberName roomID "remove" memberName "" [];
  _ ← tell_others now (r_Members r) (λ mb, (mb =s? me) || (mb =s? memberName))
        roomID "remove" memberName "" [];
  _ ← emit (event "room" "");
  mret (Ok tt).

(** The new creator when we leave: the first member that is not us. *)
Definition heir (me : string) (r : Room) : string :=
  if (r_CreatedBy r =s? me) && (1 <? length (r_Members r))%nat then
    match filter (λ m, m ≠ me) (r_Members r) with [] => r_CreatedBy r | m :: _ => m end
  else r_CreatedBy r.

Definition LeaveRoom (now : Z) (rnd : option string) (roomID : string) : M B (result unit) :=
  r ←? read_store (λ s, GetRoom s roomID);
  me ← my_name;
  if negb (isMember (r_Members r) me) then mret (Err (node_error "node: not a member")) else
  let r := set_CreatedBy (heir me r) r in
  let r := set_Members (filter (λ m, m ≠ me) (r_Members r)) r in
  if (length (r_Members r) =? 0)%nat then on_store (λ s, DeleteRoom s roomID) else
  _ ←? on_store (λ s, UpdateRoom s r rnd);
  _ ← tell_others now (r_Members r) (λ _, false) roomID "leave" me "" [];
  _ ← emit (event "room" "");
  mret (Ok tt).

Definition RenameRoom (now : Z) (rnd : option string) (roomID newName : string)
    : M B (result unit) :=
  if newName =s? "" then mret (Err (node_error "node: new name required")) else
  r ←? read_store (λ s, GetRoom s roomID);
  me ← my_name;
  if negb (r_CreatedBy r =s? me)
  then mret (Err (node_error "node: only the creator can rename the room")) else
  let r := set_RName newName r in
  _ ←? on_store (λ s, UpdateRoom s r rnd);
  _ ← tell_others now (r_Members r) (λ mb, mb =s? me) roomID "rename" me newName [];
  _ ← emit (event "room" "");
  mret (Ok tt).

Definition SendRoomReaction (now : Z) (roomID msgID emoji : string) : M B (result unit) :=
  if emoji =s? "" then mret (Err (node_error "node: emoji required")) else
  r ←? read_store (λ s, GetRoom s roomID);
  me ← my_name;
  if negb (isMember (r_Members r) me)
  then mret (Err (node_error "node: not a member of this room")) else
  if Room_Pending r then mret (Err (Sentinel ErrRoomPending)) else
  mc ←? on_store (λ s, ToggleRoomReaction s roomID msgID me emoji);
  let '(m, changed) := (mc : RoomMessage * bool) in
  _ ← (if changed then emit (event_room "roomMessage" roomID "" (Some m)) else mret tt);
  _ ← for_each (r_Members r) (λ mb,
        if mb =s? me then mret tt else
        l ← linkFor mb;
        match l with
        | None => mret tt
        | Some (c, l) =>
            if negb (speaksRooms l) then mret tt else
            r ← send c (mkEnvelope TypeReact "" 0 "" "" emoji msgID "" 0 "" 0 "" roomID 0 "" "" "" []);
            match r with Err _ => logf now "room reaction to %s: %v" | Ok _ => mret tt end
        end);
  mret (Ok tt).

Definition AcceptRoomInvite (now : Z) (rnd : option string) (roomID : string) : M B (result unit) :=
  r ←? read_store (λ s, GetRoom s roomID);
  if negb (Room_Pending r) then mret (Ok tt) else
  me ← my_name;
  if negb (isMember (r_Members r) me)
  then mret (Err (node_error "node: not a member of this room")) else
  _ ←? on_store (λ s, UpdateRoom s (set_RState RoomJoined r) rnd);
  _ ← emit (event "room" "");
  _ ← tell_others now (r_Members r) (λ mb, mb =s? me) roomID "join" me "" [];
  mret (Ok tt).

Definition DeclineRoomInvite (now : Z) (roomID : string) : M B (result unit) :=
  r ←? read_store (λ s, GetRoom s roomID);
  if negb (Room_Pending r)
  then mret (Err (node_error "node: this room has already been joined; leave it instead")) else
  me ← my_name;
  _ ← tell_others now (r_Members r) (λ mb, mb =s? me) roomID "leave" me "" [];
  _ ←? on_store (λ s, DeleteRoom s roomID);
  _ ← emit (event "room" "");
  mret (Ok tt).

(** ** Envelopes from peers *)

Definition handleRoomReaction (now : Z) (l : Link) (e : Envelope) : M B unit :=
  r ← read_store (λ s, GetRoom s (Proto.Room e));
  match r with
  | Err _ => logf now "room reaction dropped: unknown room %s from %s"
  | Ok r =>
      me ← my_name;
      if negb (isMember (r_Members r) (lk_peer l)) || negb (isMember (r_Members r) me)
         || Room_Pending r
      then logf now "room reaction dropped: %q is not a member of %s, or we have not joined"
      else
        mc ← on_store (λ s, ToggleRoomReaction s (Proto.Room e) (Target e) (lk_peer l) (Emoji e));
        match (mc : result (RoomMessage * bool)) with
        | Err _ => logf now "room reaction store: %v"
        | Ok (m, changed) =>
            if changed then emit (event_room "roomMessage" (Proto.Room e) "" (Some m)) else mret tt
        end
  end.

Definition handleRoomMsg (now : Z) (rnd : option string) (c : nat) (l : Link) (e : Envelope)
    : M B unit :=
  r ← read_store (λ s, GetRoom s (Proto.Room e));
  match r with
  | Err _ => logf now "room msg dropped: unknown room %s from %s"
  | Ok r =>
      me ← my_name;
      if negb (isMember (r_Members r) (lk_peer l))
      then logf now "room msg dropped: %q is not a member of %s" else
      if negb (isMember (r_Members r) me)
      then logf now "room msg dropped: we are not a member of %s" else
      if Room_Pending r then logf now "room msg held: invitation to %s not accepted yet" else
      let m := room_message (ID e) (Proto.Room e) (lk_peer l) DirIn (Body e) (ofUnixMilli (TS e))
                 StatusReceived (Seq e) in
      sd ← on_store (λ s, AddRoomMessage s m rnd);
      match (sd : result (RoomMessage * bool)) with
      | Err _ => logf now "room msg store: %v"
      | Ok (stored, dup) =>
          r ← send c (mkEnvelope TypeRoomAck (ID e) 0 "" "" "" "" "" 0 "" 0 "" (Proto.Room e) 0 "" "" "" []);
          _ ← (match r with Err _ => logf now "room ack: %v" | Ok _ => mret tt end);
          if dup then mret tt
          else emit (event_room "roomMessage" (Proto.Room e) "" (Some stored))
      end
  end.

Definition handleRoomAck (now : Z) (l : Link) (e : Envelope) : M B unit :=
  r ← read_store (λ s, GetRoom s (Proto.Room e));
  match r with
  | Err _ => logf now "room ack dropped from %q for room %s"
  | Ok r =>
      if negb (isMember (r_Members r) (lk_peer l))
      then logf now "room ack dropped from %q for room %s" else
      mc ← on_store (λ s, MarkRoomDelivered s (Proto.Room e) (lk_peer l) (ID e));
      match (mc : result (RoomMessage * bool)) with
      | Err _ => logf now "room ack store: %v"
      | Ok (_, changed) =>
          if changed then emit (event_room "roomStatus" (Proto.Room e) (ID e) None) else mret tt
      end
  end.

Definition handle_create (now : Z) (rnd : option string) (actor : string) (e : Envelope) : M B unit :=
  me ← my_name;
  let members := dedupeMembers
    (match RoomMembers e with [] => [actor; me] | l => l end) in
  if negb (isMember members me) then logf now "room create rejected: %q did not include us in %v" else
  if MaxRoomMembers <? Z.of_nat (length members)
  then logf now "room create rejected: %d members exceeds the cap" else
  existing ← read_store (λ s, GetRoom s (Proto.Room e));
  match existing with
  | Ok existing =>
      if negb (actor =s? r_CreatedBy existing)
      then logf now "room create rejected: %q is not the creator of %s" else
      _ ← on_store (λ s, UpdateRoom s (set_Members members (set_RName (RoomName e) existing)) rnd);
      emit (event "room" "")
  | Err _ =>
      let room := mkRoom (Proto.Room e) (RoomName e) members actor (ofUnixMilli (TS e)) RoomPending in
      r ← on_store (λ s, CreateRoom s room rnd);
      match r with
      | Err _ => logf now "room create: %v"
      | Ok _ => emit (event "room" "")
      end
  end.

Definition handle_join (now : Z) (rnd : option string) (actor : string) (e : Envelope) : M B unit :=
  r ← read_store (λ s, GetRoom s (Proto.Room e));
  match r with
  | Err _ => mret tt
  | Ok r =>
      if EqualFold actor (RoomActor e) then
        if isMember (r_Members r) actor then emit (event "room" "") else mret tt
      else
      if negb (actor =s? r_CreatedBy r) then logf now "room join rejected: %q is not the creator" else
      if isMember (r_Members r) (RoomActor e) then mret tt else
      if MaxRoomMembers <=? Z.of_nat (length (r_Members r))
      then logf now "room join rejected: room %s is full" else
      _ ← on_store (λ s, UpdateRoom s (set_Members (sortStrings (r_Members r ++ [RoomActor e])) r) rnd);
      emit (event "room" "")
  end.

Definition handle_remove (now : Z) (rnd : option string) (actor : string) (e : Envelope) : M B unit :=
  r ← read_store (λ s, GetRoom s (Proto.Room e));
  match r with
  | Err _ => mret tt
  | Ok r =>
      me ← my_name;
      if negb (actor =s? r_CreatedBy r) then logf now "room remove rejected: %q is not the creator" else
      _ ← (if RoomActor e =s? me then
             _ ← on_store (λ s, DeleteRoom s (Proto.Room e)); mret tt
           else if isMember (r_Members r) (RoomActor e) then
             _ ← on_store (λ s, UpdateRoom s
                   (set_Members (removePeer (r_Members r) (RoomActor e)) r) rnd); mret tt
           else mret tt);
      emit (event "room" "")
  end.

Definition handle_leave (now : Z) (rnd : option string) (actor : string) (e : Envelope) : M B unit :=
  r ← read_store (λ s, GetRoom s (Proto.Room e));
  match r with
  | Err _ => mret tt
  | Ok r =>
      me ← my_name;
      if actor =s? me then _ ← on_store (λ s, DeleteRoom s (Proto.Room e)); mret tt
      else if isMember (r_Members r) actor then
        _ ← on_store (λ s, UpdateRoom s (set_Members (removePeer (r_Members r) actor) r) rnd);
        emit (event "room" "")
      else mret tt
  end.

Definition handle_rename (now : Z) (rnd : option string) (actor : string) (e : Envelope) : M B unit :=
  r ← read_store (λ s, GetRoom s (Proto.Room e));
  match r with
  | Err _ => mret tt
  | Ok r =>
      if negb (actor =s? r_CreatedBy r) then logf now "room rename rejected: %q is not the creator" else
      _ ← on_store (λ s, UpdateRoom s (set_RName (RoomName e) r) rnd);
      emit (event "room" "")
  end.

Definition handleRoomEvent (now : Z) (rnd : option string) (l : Link) (e : Envelope) : M B unit :=
  let actor := lk_peer l in
  if RoomEvent e =s? "create" then handle_create now rnd actor e
  else if RoomEvent e =s? "join" then handle_join now rnd actor e
  else if RoomEvent e =s? "remove" then handle_remove now rnd actor e
  else if RoomEvent e =s? "leave" then handle_leave now rnd actor e
  else if RoomEvent e =s? "rename" then handle_rename now rnd actor e
  else mret tt.
End rooms.
