(* ===== verification/NodeViews.v ===== *)
(** * What a node shows, and its life cycle (internal/node: views.go, rooms.go, node.go)

    The read-only views the HTTP interface serves: ourselves, the contact
    list, the rooms, the diagnostics; and [Start] and [Stop].  What the
    sockets know (addresses, the port) is the argument [Sockets].  A map is
    iterated in the order of [map_to_list]; Go leaves it open. *)

From stdpp Require Import sorting.
From S2P Require Import Prelude GoStrings Utf8 Proto Sha256 Identity Base64 Crypto Bolt.
From S2P Require Import StoreData StoreCore StoreMessages StorePeers StoreFiles StoreRooms.
From S2P Require Import Backoff NodeState NodeRooms.

Definition TrustUnknown : string := "unknown".
Definition TrustNew : string := "new".
Definition TrustVerified : string := "verified".
Definition TrustChanged : string := "changed".

(** The listener's port and address, the remote address of a connection, and
    when the node was started. *)
Record Sockets := mkSockets { sk_port : Z; sk_listen : string; sk_addr : nat → string; sk_started : Z }.

Record MeT := mkMe {
  me_Name : string; me_FP : string; me_FPGroups : list string; me_Words : list string;
  me_Identicon : string; me_Port : Z }.

(** A nil slice or an absent string is the empty one; a nil pointer is [None]. *)
Record PeerView := mkPeerView {
  pv_Name : string; pv_FP : string; pv_FPGroups : list string; pv_Words : list string;
  pv_Identicon : string; pv_Trust : string; pv_Online : bool; pv_Nearby : bool; pv_Addr : string;
  pv_FirstSeen : Z; pv_LastSeen : Z; pv_Queued : Z; pv_Last : option Message;
  pv_NewFP : string; pv_NewFPGroups : list string; pv_NewWords : list string }.

Record RoomMemberView := mkMemberView { mv_Name : string; mv_Online : bool }.
Record RoomView := mkRoomView {
  rv_ID : string; rv_Name : string; rv_State : string; rv_Members : list RoomMemberView;
  rv_CreatedBy : string; rv_CreatedAt : Z; rv_LastMsg : option RoomMessage; rv_Unread : Z }.

Record SessionView := mkSession { se_Peer : string; se_Addr : string; se_Since : Z }.
Record Diag := mkDiag {
  dg_Listen : string; dg_Uptime : Z; dg_Nearby : Z; dg_Sessions : list SessionView;
  dg_Log : list (Z * string) }.

Section views.
Context {B : Type → Type} `{Bolt B} `{Primitives} `{UnicodeTables}.
Implicit Types n : Node B.

Definition Me (sk : Sockets) n : MeT :=
  mkMe (id_Name (n_id n)) (n_myFP n) (FingerprintGroups (n_myFP n)) (Words (id_Public (n_id n)))
    (IdenticonSeed (id_Public (n_id n))) (sk_port sk).

(** ** The contact list *)

(** [queued[strings.ToLower(m.Peer)]++]. *)
Definition count_queued (pend : list Message) : gmap string Z :=
  foldl (λ q m, let k := ToLower (m_Peer m) in <[k := default 0 (q !! k) + 1]> q) ∅ pend.

Definition nearbyByName n : gmap string Nearby :=
  foldl (λ q fn, if nb_up fn.2 then <[ToLower (dp_Name (nb_peer fn.2)) := fn.2]> q else q) ∅
    (map_to_list (n_nearby n)).

Definition live_link n (k : string) : option (nat * Link) :=
  c ← n_live n !! k; l ← n_conns n !! c; Some (c, l).

Definition pinned_trust (p : Peer) : string :=
  if negb (p_PendingKey p =s? "") then TrustChanged
  else if p_Verified p then TrustVerified else TrustNew.

(** One pinned peer as the loop body assembles it. *)
Definition pinned_view (sk : Sockets) n (queued : gmap string Z) (near : gmap string Nearby) (p : Peer)
    : PeerView :=
  let k := ToLower (p_Name p) in
  let changed := negb (p_PendingKey p =s? "") in
  let newFP := if changed then Fingerprint (p_PendingKey p) else "" in
  let l := live_link n k in
  mkPeerView (p_Name p) (p_FP p) (FingerprintGroups (p_FP p)) (Words (p_Key p)) (IdenticonSeed (p_Key p))
    (pinned_trust p) (bool_decide (is_Some l)) (bool_decide (is_Some (near !! k)))
    (match l with Some (c, _) => sk_addr sk c | None => "" end)
    (p_FirstSeen p) (p_LastSeen p) (default 0 (queued !! k))
    (match Messages (n_store n) (p_Name p) 1 with Ok [m] => Some m | _ => None end)
    newFP (if changed then FingerprintGroups newFP else []) (if changed then Words (p_PendingKey p) else []).

Definition unknown_view (nb : Nearby) : PeerView :=
  mkPeerView (dp_Name (nb_peer nb)) (dp_FP (nb_peer nb)) (FingerprintGroups (dp_FP (nb_peer nb))) [] ""
    TrustUnknown false true "" zero_time (nb_seen nb) 0 None "" [] [].

(** The order: who has a session first, then by folded name. *)
Definition view_less (a b : PeerView) : bool :=
  if negb (Bool.eqb (pv_Online a) (pv_Online b)) then pv_Online a
  else str_ltb (ToLower (pv_Name a)) (ToLower (pv_Name b)).

Definition Peers (sk : Sockets) n : result (list PeerView) :=
  pinned ← ListPeers (n_store n);
  pend ← Pending (n_store n) "";
  let near := nearbyByName n in
  let seen := list_to_set (C := gset string) ((λ p, ToLower (p_Name p)) <$> pinned) in
  let unmet := filter (λ kn, kn.1 ∉ seen) (map_to_list near) in
  Ok (sort_loop view_less
        ((pinned_view sk n (count_queued pend) near <$> pinned) ++ (unknown_view <$> unmet.*2))).

(** ** Rooms *)

Definition memberOnline n (name : string) : bool :=
  EqualFold name (id_Name (n_id n)) || bool_decide (is_Some (live_link n (ToLower name))).

Definition room_view n (r : Room) : RoomView :=
  mkRoomView (r_ID r) (r_Name r) (r_State r) ((λ m, mkMemberView m (memberOnline n m)) <$> r_Members r)
    (r_CreatedBy r) (r_CreatedAt r)
    (match RoomMessages (n_store n) (r_ID r) 1 with Ok ms => last ms | Err _ => None end) 0.

Definition Rooms n : result (list RoomView) :=
  rooms ← ListRooms (n_store n); Ok (map (room_view n) rooms).

Definition GetRoom_ n (id : string) : result RoomView :=
  r ← GetRoom (n_store n) id; Ok (room_view n r).

(** ** Diagnostics *)

Definition Diagnostics (sk : Sockets) (now : Z) n : Diag :=
  let up := filter (λ fn, nb_up fn.2 = true) (map_to_list (n_nearby n)) in
  mkDiag (sk_listen sk) (Z.quot (time_Sub now (sk_started sk)) Second) (Z.of_nat (length up))
    (omap (λ kc, l ← n_conns n !! kc.2; Some (mkSession (lk_peer l) (sk_addr sk kc.2) (lk_since l)))
       (map_to_list (n_live n)))
    (n_log n).

(** ** Starting and stopping *)

Definition with_announced (b : bool) n : Node B :=
  mkNode (n_store n) (n_cfg n) (n_id n) (n_myFP n) (n_nearby n) (n_conns n) (n_live n) (n_subs n)
    (n_nextSub n) (n_log n) b (n_out n).

(** What listening, browsing and announcing answer; the loops run as the
    steps of [NodeCore] from then on. *)
Record StartEnv := mkStart { st_listen : result unit; st_browse : result unit; st_announce : result unit }.

Definition Start (env : StartEnv) (now : Z) : M B (result unit) :=
  match st_listen env with
  | Err e => mret (Err (Wrapf "node: listen" e))
  | Ok _ =>
      match st_browse env with
      | Err e => mret (Err e)
      | Ok _ =>
          match st_announce env with
          | Err e => mret (Err e)
          | Ok _ =>
              n ← get;
              _ ← out (OAnnounce (id_Name (n_id n)) (n_myFP n));
              _ ← modify (with_announced true);
              _ ← logf now "listening on %s, announcing as %q (%s…)";
              mret (Ok tt)
          end
      end
  end.

Definition Stop : M B unit :=
  _ ← modify (with_announced false);
  n ← get;
  for_each (map_to_list (n_live n)).*2 close.
End views.

(** ** The order of the contact list *)

Section order.
Context `{UnicodeTables}.

Lemma view_less_spec a b :
  view_less a b = true ↔
  (pv_Online a = true ∧ pv_Online b = false) ∨
  (pv_Online a = pv_Online b ∧ str_ltb (ToLower (pv_Name a)) (ToLower (pv_Name b)) = true).
Proof. unfold view_less. destruct (pv_Online a), (pv_Online b); cbn; naive_solver. Qed.

Lemma view_less_asym a b : view_less a b = true → view_less b a = false.
Proof.
  intros Hab%view_less_spec. destruct (view_less b a) eqn:Hba; [|done]. apply view_less_spec in Hba.
  destruct Hab as [[H1 H2]|[H1 H2]], Hba as [[H3 H4]|[H3 H4]]; try congruence.
  exfalso. exact (str_lt_irrefl _ (str_lt_trans _ _ _ H2 H4)).
Qed.

Lemma view_not_less_trans a b c :
  not_less view_less a b → not_less view_less b c → not_less view_less a c.
Proof.
  unfold not_less. intros Hab Hbc. destruct (view_less c a) eqn:E; [|done]. apply view_less_spec in E.
  assert (Hn : ∀ x y, view_less x y = false →
    (pv_Online x = false ∧ pv_Online y = true) ∨
    (pv_Online x = pv_Online y ∧ str_ltb (ToLower (pv_Name x)) (ToLower (pv_Name y)) = false)).
  { intros x y. unfold view_less. destruct (pv_Online x), (pv_Online y); cbn; naive_solver. }
  apply Hn in Hab as [[H1 H2]|[H1 H2]], Hbc as [[H3 H4]|[H3 H4]]; destruct E as [[H5 H6]|[H5 H6]];
    try congruence.
  destruct (str_lt_trichotomy (ToLower (pv_Name a)) (ToLower (pv_Name b))) as [Hl|[Hl|Hl]].
  - assert (Hc : str_lt (ToLower (pv_Name c)) (ToLower (pv_Name b))) by (by eapply str_lt_trans).
    unfold str_lt in Hc. congruence.
  - rewrite Hl in H6. congruence.
  - unfold str_lt in Hl. congruence.
Qed.

Lemma count_queued_spec pend k :
  default 0 (count_queued pend !! k) = Z.of_nat (length (filter (λ m, ToLower (m_Peer m) = k) pend)).
Proof.
  unfold count_queued.
  cut (∀ q : gmap string Z, default 0 (foldl (λ (q : gmap string Z) m, let k := ToLower (m_Peer m) in <[k := default 0 (q !! k) + 1]> q) q pend !! k)
    = default 0 (q !! k) + Z.of_nat (length (filter (λ m, ToLower (m_Peer m) = k) pend))).
  { intros Hq. rewrite Hq, lookup_empty. done. }
  induction pend as [|m pend IH]; intros q; cbn [foldl]; [cbn; lia|].
  rewrite IH. cbv zeta. destruct (decide (ToLower (m_Peer m) = k)) as [<-|Hk].
  - rewrite lookup_insert_eq, filter_cons_True by done. cbn [length default from_option id]. lia.
  - rewrite lookup_insert_ne, filter_cons_False by done. done.
Qed.
End order.

(** ** Properties *)

Section properties.
Context {B : Type → Type} `{Bolt B} `{Primitives} `{UnicodeTables}.
Implicit Types n : Node B.

Lemma nearbyByName_spec n k nb :
  nearbyByName n !! k = Some nb →
  nb_up nb = true ∧ ToLower (dp_Name (nb_peer nb)) = k ∧ ∃ fp, n_nearby n !! fp = Some nb.
Proof.
  unfold nearbyByName.
  cut (∀ l (q : gmap string Nearby), (∀ k nb, q !! k = Some nb →
      nb_up nb = true ∧ ToLower (dp_Name (nb_peer nb)) = k ∧ ∃ fp, n_nearby n !! fp = Some nb) →
    (∀ fn, fn ∈ l → n_nearby n !! fn.1 = Some fn.2) → ∀ k nb,
    foldl (λ (q : gmap string Nearby) fn, if nb_up fn.2 then <[ToLower (dp_Name (nb_peer fn.2)) := fn.2]> q else q) q l !! k = Some nb →
      nb_up nb = true ∧ ToLower (dp_Name (nb_peer nb)) = k ∧ ∃ fp, n_nearby n !! fp = Some nb).
  { intros Hl. apply Hl; [done|]. intros [fp nb'] Hin. by apply elem_of_map_to_list in Hin. }
  induction l as [|[fp nb'] l IH]; intros q Hq Hl; cbn [foldl fst snd]; [exact Hq|].
  apply IH; [|intros fn Hfn; apply Hl; by right]. destruct (nb_up nb') eqn:E; [|done].
  intros k' x [[<- <-]|[_ Hx]]%lookup_insert_Some; [|by apply Hq].
  split_and!; [done|done|]. exists fp. apply (Hl (fp, nb')). by left.
Qed.

(** The views before they are sorted. *)
Lemma Peers_inv sk n views :
  Peers sk n = Ok views →
  ∃ pinned pend, ListPeers (n_store n) = Ok pinned ∧ Pending (n_store n) "" = Ok pend ∧
    views ≡ₚ (pinned_view sk n (count_queued pend) (nearbyByName n) <$> pinned)
      ++ (unknown_view <$> (filter (λ kn, kn.1 ∉ list_to_set (C := gset string)
           ((λ p, ToLower (p_Name p)) <$> pinned)) (map_to_list (nearbyByName n))).*2) ∧
    StronglySorted (not_less view_less) views.
Proof.
  intros (pinned & Hp & Hv)%bind_ok. apply bind_ok in Hv as (pend & Hq & [= <-]).
  exists pinned, pend. split_and!; [done|done|apply sort_loop_Permutation|].
  apply sort_loop_sorted; [apply view_not_less_trans|apply view_less_asym].
Qed.

Lemma pinned_trust_known p : pinned_trust p ≠ TrustUnknown.
Proof. unfold pinned_trust. repeat case_match; done. Qed.

Lemma filter_pinned sk n q near (pinned : list Peer) :
  filter (λ v, pv_Trust v ≠ TrustUnknown) (pinned_view sk n q near <$> pinned) = pinned_view sk n q near <$> pinned.
Proof.
  apply filter_all, Forall_forall. intros v (p & -> & _)%list_elem_of_fmap. apply pinned_trust_known.
Qed.

Lemma filter_unmet (l : list Nearby) : filter (λ v, pv_Trust v ≠ TrustUnknown) (unknown_view <$> l) = [].
Proof.
  induction l as [|nb l IH]; [done|]. cbn [fmap list_fmap]. rewrite filter_cons_False; [done|].
  intros Hn. by apply Hn.
Qed.

(** C29: what the contact list says is so.  Every pinned peer is listed once,
    whoever else is listed is advertised now under a name nobody is pinned
    by and has no session; "verified" is shown exactly for a verified peer
    with no other key waiting, "changed" with the waiting key's fingerprint
    exactly when one waits; the queue length counts the undelivered messages
    to that name; those with a session come first, by name within both. *)
Theorem contact_list_is_truthful sk n views :
  Peers sk n = Ok views →
  ∃ pinned pend, ListPeers (n_store n) = Ok pinned ∧ Pending (n_store n) "" = Ok pend ∧
    pv_Name <$> filter (λ v, pv_Trust v ≠ TrustUnknown) views ≡ₚ p_Name <$> pinned ∧
    StronglySorted (not_less view_less) views ∧
    ∀ v, v ∈ views →
      (pv_Trust v = TrustUnknown ∧ pv_Online v = false ∧
       (∃ fp nb, n_nearby n !! fp = Some nb ∧ nb_up nb = true ∧ pv_Name v = dp_Name (nb_peer nb)) ∧
       ∀ p, p ∈ pinned → ToLower (p_Name p) ≠ ToLower (pv_Name v)) ∨
      ∃ p, p ∈ pinned ∧ pv_Name v = p_Name p ∧ pv_FP v = p_FP p ∧
        (pv_Trust v = TrustVerified ↔ p_Verified p = true ∧ p_PendingKey p = "") ∧
        (pv_Trust v = TrustChanged ↔ p_PendingKey p ≠ "") ∧
        (p_PendingKey p ≠ "" → pv_NewFP v = Fingerprint (p_PendingKey p)) ∧
        (pv_Online v = true ↔ is_Some (live_link n (ToLower (p_Name p)))) ∧
        pv_Queued v = Z.of_nat (length (filter (λ m, ToLower (m_Peer m) = ToLower (p_Name p)) pend)).
Proof.
  intros (pinned & pend & Hp & Hq & Hv & Hs)%Peers_inv. exists pinned, pend. split_and!; [done..| |done|].
  - rewrite Hv, filter_app, filter_pinned, filter_unmet, app_nil_r. by rewrite <- list_fmap_compose.
  - intros v Hin. rewrite Hv in Hin. apply elem_of_app in Hin as [Hin|Hin].
    + right. apply list_elem_of_fmap in Hin as (p & -> & Hin). exists p.
      cbn [pv_Name pv_FP pv_Trust pv_NewFP pv_Online pv_Queued pinned_view].
      rewrite bool_decide_eq_true, count_queued_spec. unfold pinned_trust.
      destruct (p_PendingKey p =s? "") eqn:E; cbn [negb].
      * apply eqs_true in E. split_and!; try done; destruct (p_Verified p); naive_solver.
      * apply eqs_false in E. split_and!; try done; naive_solver.
    + left. apply list_elem_of_fmap in Hin as (nb & -> & Hin).
      apply list_elem_of_fmap in Hin as ([k nb'] & -> & Hin). apply list_elem_of_filter in Hin as [Hn Hin].
      apply elem_of_map_to_list in Hin. destruct (nearbyByName_spec n k nb' Hin) as (Hu & Hk & fp & Hfp).
      cbn [fst snd] in *. split_and!; [done|done|by exists fp, nb'|].
      intros p Hp' He. apply Hn. rewrite elem_of_list_to_set. apply list_elem_of_fmap. exists p.
      split; [|done]. rewrite He. by cbn.
Qed.
End properties.

(** ** Example: one pinned peer whose key changed, one stranger nearby *)

#[local] Existing Instance gmap_bolt.
#[local] Existing Instance toy_primitives.
#[local] Existing Instance ascii_tables.

Definition ex_bob : Peer :=
  mkPeer "Bob" "bobs-key" (Fingerprint "bobs-key") 0 0 true "another-key" 5.
Definition ex_view_node : Node gbucket :=
  let db := bupd bPeers (bset bempty "bob" (json ex_bob)) empty_db in
  with_nearby {["fp" := mkNearby (mkDiscPeer "Carol" "fp" []) true 7 0 0 false]}
    (New (mkStore db None None ["files"] ∅) (mkConfig 0 0 0 0 0) (mkIdentity "Alice" "priv" "pub")).
Definition ex_sockets : Sockets := mkSockets 7000 ":7000" (λ _, "10.0.0.2:7000") 0.

Definition ok_list {A} (r : result (list A)) : list A := match r with Ok l => l | Err _ => [] end.

Lemma contact_list_is_truthful_witness :
  pv_Name <$> filter (λ v, pv_Trust v ≠ TrustUnknown) (ok_list (Peers ex_sockets ex_view_node)) ≡ₚ ["Bob"] ∧
  StronglySorted (not_less view_less) (ok_list (Peers ex_sockets ex_view_node)).
Proof.
  assert (Hok : Peers ex_sockets ex_view_node = Ok (ok_list (Peers ex_sockets ex_view_node))).
  { assert (Ho : is_ok (Peers ex_sockets ex_view_node) = true) by (vm_compute; reflexivity).
    destruct (Peers ex_sockets ex_view_node); [reflexivity|discriminate Ho]. }
  destruct (contact_list_is_truthful ex_sockets ex_view_node _ Hok) as (pinned & pend & Hp & _ & Hn & Hs & _).
  assert (Hb : ListPeers (n_store ex_view_node) = Ok [ex_bob]) by (vm_compute; reflexivity).
  rewrite Hb in Hp. injection Hp as <-. split; [exact Hn|exact Hs].
Defined.
