(* ===== verification/App.v ===== *)
(** * The life cycle of the process (internal/app/app.go)

    Opening the database with or without its passphrase, first-run setup,
    restoring a backup, turning the passphrase on, replacing a locked shell.
    The store is shared with the node: it is the node's once one runs.  What
    the disk holds and what the sockets answer are arguments; [None] is a
    panic. *)

From stdpp Require Import sorting.
From S2P Require Import Prelude GoStrings Utf8 Proto Sha256 Identity Base64 Json Codec Crypto Backup Bolt.
From S2P Require Import StoreData StoreCore StoreMessages StorePeers StoreFiles StoreRooms.
From S2P Require Import Backoff NodeState NodeRooms NodeViews.

(** [Config]; [ac_Timing] are the timing knobs as [Tune] leaves them. *)
Record AppConfig := mkAppConfig { ac_DataDir : path; ac_Passphrase : string; ac_Timing : Config }.

Section app.
Context {B : Type → Type} `{Bolt B} `{Primitives} `{Curve} `{UnicodeTables}.

(** What is under the data directory: whether it can be made, the database
    as [bolt.Open] gives it, the files. *)
Record Disk := mkDisk { dk_mkdir : result unit; dk_db : result (DB B); dk_files : FS }.

(** [App]; [a_St] is [St] as long as no node runs. *)
Record App := mkApp {
  a_cfg : AppConfig; a_St : option (Store B); a_openErr : option error; a_n : option (Node B);
  a_stopped : bool }.

(** [a.St] and [a.NeedsPassphrase()]. *)
Definition St (a : App) : option (Store B) :=
  match a_n a with Some n => Some (n_store n) | None => a_St a end.
Definition NeedsPassphrase (a : App) : bool := bool_decide (is_Some (a_openErr a)).

Definition with_St (s : Store B) (a : App) : App :=
  match a_n a with
  | Some n => mkApp (a_cfg a) (a_St a) (a_openErr a) (Some (with_store s n)) (a_stopped a)
  | None => mkApp (a_cfg a) (Some s) (a_openErr a) None (a_stopped a)
  end.
Definition with_n (n : Node B) (a : App) : App :=
  mkApp (a_cfg a) (a_St a) (a_openErr a) (Some n) (a_stopped a).

(** [a.startNode(id)]; its callers have a store. *)
Definition startNode (env : StartEnv) (now : Z) (s : Store B) (id : Identity) (a : App)
    : result unit * App :=
  let (r, n) := Start env now (New s (ac_Timing (a_cfg a)) id) in
  match r with Err e => (Err e, a) | Ok _ => (Ok tt, with_n n a) end.

Definition Open (env : StartEnv) (now : Z) (dk : Disk) (cfg : AppConfig) : result App :=
  match dk_mkdir dk with
  | Err e => Err e
  | Ok _ =>
      match OpenWithPassphrase (dk_db dk) (ac_Passphrase cfg) (ac_DataDir cfg ++ ["files"]) (dk_files dk) with
      | Err e =>
          if errors_is e ErrPassphraseRequired then Ok (mkApp cfg None (Some e) None true) else Err e
      | Ok st =>
          match LoadIdentity st with
          | Err e => Err e
          | Ok None => Ok (mkApp cfg (Some st) None None false)
          | Ok (Some id) =>
              let st := match s_encKey st with
                        | None => SetKey st (Some (DeriveKeyFromIdentity (id_Private id)))
                        | Some _ => st
                        end in
              let (r, a) := startNode env now st id (mkApp cfg (Some st) None None false) in
              match r with Err e => Err e | Ok _ => Ok a end
          end
      end
  end.

Definition Unlock (env : StartEnv) (now : Z) (dk : Disk) (cfg : AppConfig) (passphrase : string)
    : result App :=
  Open env now dk (mkAppConfig (ac_DataDir cfg) passphrase (ac_Timing cfg)).

Definition Replace (next a : App) : App :=
  mkApp (a_cfg next) (a_St next) None (a_n next) (a_stopped next).

(** What [Setup] and [Restore] do with an identity; a shell has no store. *)
Definition install (env : StartEnv) (now : Z) (rnd : option string) (id : Identity) (a : App)
    : option (result unit * App) :=
  s ← St a;
  let s := SetKey s (Some (DeriveKeyFromIdentity (id_Private id))) in
  let (r, s) := SaveIdentity s id rnd in
  match r with
  | Err e => Some (Err e, with_St s a)
  | Ok _ => Some (startNode env now s id (with_St s a))
  end.

Definition Setup (env : StartEnv) (now : Z) (rng : result string) (rnd : option string) (name : string)
    (a : App) : option (result unit * App) :=
  match a_n a with
  | Some _ => Some (Err (Errorf "app: already set up"), a)
  | None =>
      match Generate name rng with
      | Err e => Some (Err e, a)
      | Ok id => install env now rnd id a
      end
  end.

Definition Restore (env : StartEnv) (now : Z) (rnd : option string) (data passphrase : string) (a : App)
    : option (result unit * App) :=
  match a_n a with
  | Some _ => Some (Err (Errorf "app: already set up"), a)
  | None =>
      match ImportBackup data passphrase with
      | Err e => Some (Err e, a)
      | Ok id => install env now rnd id a
      end
  end.

Definition Backup (rnd_salt rnd_nonce : option string) (passphrase : string) (a : App) : result string :=
  match a_n a with
  | None => Err (Sentinel ErrNeedsSetup)
  | Some n => ExportBackup (n_id n) passphrase rnd_salt rnd_nonce
  end.

Definition EnablePassphrase (salt_rnd rnd : option string) (passphrase : string) (a : App)
    : option (result unit * App) :=
  match a_n a with
  | None => Some (Err (Sentinel ErrNeedsSetup), a)
  | Some n =>
      '(r, s) ← StoreCore.EnablePassphrase (n_store n) passphrase salt_rnd rnd;
      Some (r, with_n (with_store s n) a)
  end.

(** [a.Close()]: the node's sessions are closed; what stays is on the disk. *)
Definition Close (a : App) : App :=
  mkApp (a_cfg a) (a_St a) (a_openErr a) (snd ∘ Stop <$> a_n a) true.

(** What the disk holds after an app that uses this store. *)
Definition disk_of (s : Store B) : Disk := mkDisk (Ok tt) (Ok (s_db s)) (s_disk s).
End app.
Arguments App B : clear implicits.
Arguments Disk B : clear implicits.

(** ** Lemmas *)

Section facts.
Context {B : Type → Type} `{Bolt B} `{Primitives} `{Curve} `{UnicodeTables}.
Implicit Types (a : App B) (s : Store B).

Definition starts (env : StartEnv) : Prop :=
  st_listen env = Ok tt ∧ st_browse env = Ok tt ∧ st_announce env = Ok tt.

Lemma startNode_ok env now s id a :
  starts env → ∃ n, startNode env now s id a = (Ok tt, with_n n a) ∧ n_store n = s ∧ n_id n = id.
Proof.
  intros (H1' & H2' & H3'). unfold startNode, Start. rewrite H1', H2', H3'. eexists. split; [reflexivity|done].
Qed.

Lemma Generate_private name priv id : Generate name (Ok priv) = Ok id → id_Private id = priv.
Proof.
  unfold Generate. intros (nm & _ & Hg)%bind_ok. cbn in Hg. destruct (dh_public priv); [|done].
  by injection Hg as <-.
Qed.

(** An opened app without an identity: the first run. *)
Definition first_run a s : Prop :=
  a_n a = None ∧ a_St a = Some s ∧ s_idKey s = None ∧ bget (d_meta (s_db s)) "identity" = None ∧
  PassphraseSet s = false.

Definition record_of (id : Identity) : idRecord := mkIdRecord (id_Name id) (id_Private id) (id_Public id).
Definition saved_db (d : DB B) (id : Identity) : DB B :=
  bupd bMeta (bset (d_meta d) "identity" (MIdentity (json (record_of id)))) d.

Lemma SaveIdentity_first s id rnd :
  s_idKey s = None → bget (d_meta (s_db s)) "identity" = None →
  SaveIdentity s id rnd = (Ok tt, with_db s (saved_db (s_db s) id)).
Proof.
  intros Hk Hi. unfold SaveIdentity. rewrite Hk. cbn [encryptWith]. unfold Update, run_update. tx_unfold.
  rewrite Hi. tx_unfold. by rewrite put_meta by auto.
Qed.

Lemma install_first env now rnd id a s :
  starts env → first_run a s →
  ∃ a' n, install env now rnd id a = Some (Ok tt, a') ∧ a_n a' = Some n ∧ n_id n = id ∧
    n_store n = with_keys (with_db s (saved_db (s_db s) id)) (Some (DeriveKeyFromIdentity (id_Private id))) None.
Proof.
  intros He (Hn & Hs & Hk & Hi & _). unfold install, St. rewrite Hn, Hs. cbn [mbind option_bind].
  rewrite SaveIdentity_first by done.
  destruct (startNode_ok env now (with_db (SetKey s (Some (DeriveKeyFromIdentity (id_Private id))))
    (saved_db (s_db (SetKey s (Some (DeriveKeyFromIdentity (id_Private id))))) id)) id
    (with_St (with_db (SetKey s (Some (DeriveKeyFromIdentity (id_Private id))))
      (saved_db (s_db (SetKey s (Some (DeriveKeyFromIdentity (id_Private id))))) id)) a) He)
    as (n & E & E1 & E2).
  rewrite E. eexists _, n. split_and!; [done|done|done|]. rewrite E1. unfold with_keys, SetKey, with_db. by rewrite Hk.
Qed.

(** The meta bucket of a device that was set up and has no passphrase. *)
Definition has_identity (d : DB B) (id : Identity) : Prop :=
  bget (d_meta d) "identity" = Some (MIdentity (json (record_of id))) ∧
  IsEncrypted (id_Private id) = false ∧
  ∀ ek ik fd fs, PassphraseSet (mkStore d ek ik fd fs) = false.

Lemma Open_has_identity env now dk cfg d id :
  starts env → dk_mkdir dk = Ok tt → dk_db dk = Ok d → has_identity d id →
  ∃ a n, Open env now dk cfg = Ok a ∧ a_n a = Some n ∧ n_id n = id ∧ s_db (n_store n) = d ∧
    s_encKey (n_store n) = Some (DeriveKeyFromIdentity (id_Private id)).
Proof.
  intros He Hm Hd (Hi & Hp & Hk). unfold Open. rewrite Hm, Hd. unfold OpenWithPassphrase, openStore.
  cbn [mbind result_bind]. specialize (Hk None None (ac_DataDir cfg ++ ["files"]) (dk_files dk)).
  unfold PassphraseSet in Hk. destruct (loadKDF _) as [mode salt]. cbn [fst] in Hk. rewrite Hk. cbn [negb].
  rewrite (LoadIdentity_row _ (record_of id) (id_Private id)); [|done|by apply decrypt_plain].
  cbn [s_encKey record_of ir_Name ir_Pub id_Private]. assert (Eid : mkIdentity (id_Name id) (id_Private id) (id_Public id) = id) by by destruct id.
  rewrite Eid. edestruct startNode_ok as (n & E & E1 & E2); [exact He|]. rewrite E.
  eexists _, n. split_and!; [done|done|done| |]; by rewrite E1.
Qed.

Lemma has_identity_meta d d' id : d_meta d' = d_meta d → has_identity d id → has_identity d' id.
Proof.
  intros E (Hi & Hp & Hk). split_and!; [by rewrite E|done|]. intros ek ik fd fs.
  specialize (Hk ek ik fd fs). revert Hk. unfold PassphraseSet, loadKDF. cbn [s_db]. by rewrite E.
Qed.

Lemma saved_has_identity a s id :
  first_run a s → IsEncrypted (id_Private id) = false → has_identity (saved_db (s_db s) id) id.
Proof.
  intros (_ & _ & _ & _ & Hk) Hp. split_and!; [apply bget_set_eq|done|]. intros ek ik fd fs.
  revert Hk. unfold PassphraseSet, loadKDF, saved_db. cbn. by rewrite !bget_set_ne by done.
Qed.

Lemma EnablePassphrase_app salt nonce pass a n id :
  a_n a = Some n → has_identity (s_db (n_store n)) id → slen nonce = 12 → 12 <= RuneCountInString pass →
  ∃ enc a' n',
    encryptWith (Some (argon2id pass salt)) (id_Private id) (Some nonce) = Ok enc ∧
    EnablePassphrase (Some salt) (Some nonce) pass a = Some (Ok tt, a') ∧ a_n a' = Some n' ∧
    s_db (n_store n') = enabled_db (s_db (n_store n)) salt (mkIdRecord (id_Name id) enc (id_Public id)).
Proof.
  intros Hn (Hi & Hp & Hk) Hnonce Hpass. unfold EnablePassphrase. rewrite Hn.
  assert (HP : PassphraseSet (n_store n) = false).
  { specialize (Hk (s_encKey (n_store n)) (s_idKey (n_store n)) (s_filesDir (n_store n)) (s_disk (n_store n))).
    revert Hk. by destruct (n_store n). }
  destruct (EnablePassphrase_ok (n_store n) pass salt nonce (record_of id) Hpass HP Hi Hp Hnonce)
    as (enc & Henc & E). rewrite E. exists enc. do 2 eexists. split_and!; [done|reflexivity|reflexivity|done].
Qed.
End facts.

(** ** Properties *)

Section properties.
Context {B : Type → Type} `{Bolt B} `{Primitives} `{Curve} `{UnicodeTables}.
Implicit Types (a : App B) (s : Store B).

(** C23: what setup makes survives.  On the first run, [Setup] with a valid
    name leaves a running node with that name and the generated key pair;
    the private key lies in the database as it is; and whatever is written
    to the other buckets since, opening the data directory again, with any
    passphrase given, runs a node with the same identity that encrypts and
    decrypts with the same key. *)
Theorem setup_survives_restart env now priv rnd name a s id :
  starts env → first_run a s → Generate name (Ok priv) = Ok id → IsEncrypted priv = false →
  ∃ a' n,
    Setup env now (Ok priv) rnd name a = Some (Ok tt, a') ∧ a_n a' = Some n ∧ n_id n = id ∧
    bget (d_meta (s_db (n_store n))) "identity" = Some (MIdentity (json (mkIdRecord (id_Name id) priv (id_Public id)))) ∧
    ∀ s' env' now' cfg, d_meta (s_db s') = d_meta (s_db (n_store n)) → starts env' →
      ∃ a'' n'', Open env' now' (disk_of s') cfg = Ok a'' ∧ a_n a'' = Some n'' ∧ n_id n'' = id ∧
        s_db (n_store n'') = s_db s' ∧ s_encKey (n_store n'') = s_encKey (n_store n).
Proof.
  intros He Hf Hg Hp. pose proof (Generate_private _ _ _ Hg) as Hpriv.
  unfold Setup. pose proof Hf as (Hn & _). rewrite Hn, Hg.
  destruct (install_first env now rnd id a s He Hf) as (a' & n & E & En & Eid & Es).
  exists a', n. split_and!; [done..| |].
  - rewrite Es, <- Hpriv. apply bget_set_eq.
  - intros s' env' now' cfg Hm He'. rewrite <- Hpriv in Hp.
    pose proof (saved_has_identity a s id Hf Hp) as Hh. rewrite Es in Hm |- *. cbn [with_keys with_db s_db] in Hm.
    apply (has_identity_meta _ _ _ Hm) in Hh.
    destruct (Open_has_identity env' now' (disk_of s') cfg (s_db s') id He' eq_refl eq_refl Hh)
      as (a'' & n'' & X1 & X2 & X3 & X4 & X5). by exists a'', n''.
Qed.

(** C24: a passphrase locks the device until it is given.  After
    [EnablePassphrase] on a running app, opening its data directory without
    the passphrase gives a shell that runs no node and holds no store, on
    which [Setup] with a valid name dereferences the missing store and
    panics; a passphrase that does not decrypt the key is refused; with the
    right one the node runs again with the identity it had, and replacing
    the shell by that app ends the lock. *)
Theorem locked_until_unlocked env now salt nonce pass a n id cfg :
  starts env → a_n a = Some n → has_identity (s_db (n_store n)) id → id_Private id ≠ "" → slen nonce = 12 →
  12 <= RuneCountInString pass →
  ∃ enc a' n',
    EnablePassphrase (Some salt) (Some nonce) pass a = Some (Ok tt, a') ∧ a_n a' = Some n' ∧
    encryptWith (Some (argon2id pass salt)) (id_Private id) (Some nonce) = Ok enc ∧
    let dk := disk_of (n_store n') in
    (∃ shell, Unlock env now dk cfg "" = Ok shell ∧ a_n shell = None ∧ St shell = None ∧ NeedsPassphrase shell = true ∧
       ∀ rng rnd name, is_ok (Generate name rng) = true → Setup env now rng rnd name shell = None) ∧
    (∀ wrong, wrong ≠ "" → is_ok (Decrypt (argon2id wrong salt) enc) = false →
       Unlock env now dk cfg wrong = Err (Errorf "store: wrong database passphrase")) ∧
    (is_ok (Decrypt (DeriveKeyFromIdentity (id_Private id)) enc) = false →
       ∃ a2 n2, Unlock env now dk cfg pass = Ok a2 ∧ a_n a2 = Some n2 ∧ n_id n2 = id ∧
         s_encKey (n_store n2) = Some (DeriveKeyFromIdentity (id_Private id)) ∧
         ∀ shell, a_n (Replace a2 shell) = Some n2 ∧ NeedsPassphrase (Replace a2 shell) = false).
Proof.
  intros He Hn Hi Hpr Hnonce Hpass.
  destruct (EnablePassphrase_app salt nonce pass a n id Hn Hi Hnonce Hpass) as (enc & a' & n' & Henc & E & En & Ed).
  exists enc, a', n'. split_and!; [done..|]. cbv zeta. unfold Unlock, Open, disk_of. cbn [dk_mkdir dk_db dk_files ac_Passphrase ac_DataDir].
  rewrite Ed. assert (Hpe : pass ≠ "") by (intros ->; by apply Hpass). split_and!.
  - unfold OpenWithPassphrase, openStore. cbn [mbind result_bind]. rewrite loadKDF_enabled, eqs_refl. cbn [negb].
    eexists. split_and!; [reflexivity|done|done|done|]. intros rng rnd name Hg. unfold Setup. cbn [a_n].
    destruct (Generate name rng) as [id'|]; [|done]. reflexivity.
  - intros wrong Hw Hbad.
    rewrite (OpenWithPassphrase_wrong _ pass salt nonce (record_of id) enc wrong) by done. done.
  - intros Hno. rewrite (OpenWithPassphrase_enabled _ pass salt nonce (record_of id)) by done.
    cbn [ir_Name ir_Priv ir_Pub record_of].
    rewrite (LoadIdentity_enabled _ pass salt nonce (record_of id) enc _ _ (DeriveKeyFromIdentity (id_Private id)))
      by done. cbn [s_encKey ir_Name ir_Priv ir_Pub record_of].
    edestruct (startNode_ok (B := B)) as (n2 & X & X1 & X2); [exact He|]. rewrite X. eexists _, n2.
    split_and!; [done|done|rewrite X2; by destruct id|by rewrite X1|]. done.
Qed.

(** C22: a backup moves the identity to another device.  What [Backup] writes
    on a running app under a passphrase of twelve characters or more,
    [Restore] with it on a first-run app anywhere turns into a running node
    with the same name and key pair. *)
Theorem device_migration env now salt nonce rnd pass a n b s key :
  starts env → a_n a = Some n → identity_ok (n_id n) → slen (id_Private (n_id n)) = 32 →
  MinPassphraseLen <= RuneCountInString pass → slen salt = 16 → slen nonce = 12 →
  scrypt_key pass salt scryptN scryptR scryptP = Ok key → first_run b s →
  ∃ file b' n',
    Backup (Some salt) (Some nonce) pass a = Ok file ∧
    Restore env now rnd file pass b = Some (Ok tt, b') ∧ a_n b' = Some n' ∧ n_id n' = n_id n.
Proof.
  intros He Ha Hid Hpr Hpw Hs Hno Hk Hf.
  destruct (ImportBackup_ExportBackup (n_id n) pass salt nonce key Hid Hpr Hpw Hs Hno Hk) as (file & E1 & E2).
  destruct (install_first env now rnd (n_id n) b s He Hf) as (b' & n' & X1 & X2 & X3 & _).
  exists file, b', n'. unfold Backup, Restore. rewrite Ha. pose proof Hf as (Hb & _). rewrite Hb, E2.
  by split_and!.
Qed.
End properties.

(** ** Examples *)

#[local] Existing Instance gmap_bolt.
#[local] Existing Instance toy_primitives.
#[local] Existing Instance toy_curve.
#[local] Existing Instance ascii_tables.

Definition good_start : StartEnv := mkStart (Ok tt) (Ok tt) (Ok tt).
Definition ex_cfg : AppConfig := mkAppConfig ["home"] "" (mkConfig 0 0 0 0 0).
Definition ex_fresh_store : Store gbucket := mkStore empty_db None None ["home"; "files"] ∅.
Definition ex_fresh : App gbucket := mkApp ex_cfg (Some ex_fresh_store) None None false.

Lemma ex_fresh_first : first_run ex_fresh ex_fresh_store.
Proof. by split_and!. Qed.

Lemma setup_survives_restart_witness :
  ∃ a' n a'' n'', Setup good_start 0 (Ok ex_secret) None " Alice " ex_fresh = Some (Ok tt, a') ∧ a_n a' = Some n ∧
    Open good_start 1 (disk_of (n_store n)) ex_cfg = Ok a'' ∧ a_n a'' = Some n'' ∧ n_id n'' = ex_owner.
Proof.
  destruct (setup_survives_restart good_start 0 ex_secret None " Alice " ex_fresh ex_fresh_store ex_owner)
    as (a' & n & X1 & X2 & _ & _ & X3);
    [done|exact ex_fresh_first|vm_compute; reflexivity|reflexivity|].
  destruct (X3 (n_store n) good_start 1 ex_cfg eq_refl ltac:(done)) as (a'' & n'' & X4 & X5 & X6 & _).
  exists a', n, a'', n''. by split_and!.
Defined.

Definition ex_running : App gbucket :=
  match install good_start 0 None ex_owner ex_fresh with Some (_, a) => a | None => ex_fresh end.
Definition ex_node : Node gbucket :=
  match a_n ex_running with Some n => n | None => New ex_fresh_store (mkConfig 0 0 0 0 0) ex_owner end.

Lemma ex_running_ok : a_n ex_running = Some ex_node ∧ n_id ex_node = ex_owner ∧ has_identity (s_db (n_store ex_node)) ex_owner.
Proof.
  destruct (install_first good_start 0 None ex_owner ex_fresh ex_fresh_store ltac:(done) ex_fresh_first)
    as (a' & n & E & En & Eid & Es).
  unfold ex_node, ex_running. rewrite E, En. split_and!; [done|done|]. rewrite Es.
  by apply (saved_has_identity ex_fresh); [exact ex_fresh_first|].
Qed.

Lemma locked_until_unlocked_witness :
  ∃ a' n' shell, EnablePassphrase (Some "salt") (Some "nonce-nonce-") ex_pass ex_running = Some (Ok tt, a') ∧
    a_n a' = Some n' ∧ Unlock good_start 0 (disk_of (n_store n')) ex_cfg "" = Ok shell ∧ a_n shell = None.
Proof.
  destruct ex_running_ok as (Hn & _ & Hi).
  assert (Hp : 12 <= RuneCountInString ex_pass) by (apply Z.leb_le; vm_compute; reflexivity).
  assert (Hk : id_Private ex_owner ≠ "") by (intros E; discriminate E).
  assert (Hl : slen "nonce-nonce-" = 12) by reflexivity.
  assert (He : starts good_start) by (split_and!; reflexivity).
  pose proof (locked_until_unlocked good_start 0 "salt" "nonce-nonce-" ex_pass ex_running ex_node ex_owner ex_cfg
    He Hn Hi Hk Hl Hp) as (enc & a' & n' & X1 & X2 & _ & X).
  cbv zeta in X. destruct X as ((shell & X3 & X4 & _) & _).
  exists a', n', shell. exact (conj X1 (conj X2 (conj X3 X4))).
Defined.

Lemma device_migration_witness :
  ∃ file b' n', Backup (Some ex_salt) (Some "nonce-nonce-") ex_pass ex_running = Ok file ∧
    Restore good_start 0 None file ex_pass ex_fresh = Some (Ok tt, b') ∧ a_n b' = Some n' ∧ n_id n' = n_id ex_node.
Proof.
  destruct ex_running_ok as (Hn & Hid & _).
  assert (Hi : identity_ok (n_id ex_node)).
  { rewrite Hid. split_and!; [reflexivity|vm_compute; reflexivity|vm_compute; reflexivity]. }
  assert (Hl : slen (id_Private (n_id ex_node)) = 32) by (rewrite Hid; reflexivity).
  assert (Hp : MinPassphraseLen <= RuneCountInString ex_pass) by (apply Z.leb_le; vm_compute; reflexivity).
  assert (He : starts good_start) by (split_and!; reflexivity).
  assert (Hs : slen ex_salt = 16) by reflexivity.
  assert (Ho : slen "nonce-nonce-" = 12) by reflexivity.
  assert (Hk : scrypt_key ex_pass ex_salt scryptN scryptR scryptP
    = Ok (str_take 32 (ex_pass +:+ (ex_salt +:+ "................................")))) by reflexivity.
  exact (device_migration good_start 0 ex_salt "nonce-nonce-" None ex_pass ex_running ex_node ex_fresh
    ex_fresh_store _ He Hn Hi Hl Hp Hs Ho Hk ex_fresh_first).
Defined.
