(* ===== verification/Discovery.v ===== *)
(** * Discovery (internal/discovery: discovery.go, memory.go, mdns.go)

    The in-memory hub as a step relation on its two maps and the channels of
    its browsers, and the parser of service entries.  Multicast itself is the
    network's and the zeroconf library's; a service entry is a record of the
    fields the parser reads. *)

From S2P Require Import Prelude GoStrings Utf8 Proto Sha256 Identity Json Backoff Invite NodeState.

Record Announcement := mkAnn { an_Name : string; an_FP : string; an_Port : Z }.
(** [Peer] is [NodeState.DiscPeer]. *)
Record DEvent := mkDEvent { de_Up : bool; de_Peer : DiscPeer }.

#[export] Instance DiscPeer_eq_dec : EqDecision DiscPeer.
Proof. solve_decision. Defined.
#[export] Instance DEvent_eq_dec : EqDecision DEvent.
Proof. solve_decision. Defined.

(** ** The hub *)

Definition hub_buffer : nat := 64.

(** A browser's channel, and for the statements what was taken off it and
    whether an event was dropped. *)
Record browser := mkBrowser { br_chan : list DEvent; br_got : list DEvent; br_lost : bool }.

(** [Hub] with its [mem] instances: [h_mems] gives their [id].  An announcement
    is kept with the instance whose goroutine waits to withdraw it. *)
Record Hub := mkHub {
  h_next : Z; h_announce : gmap Z (nat * Announcement); h_browsers : gmap Z browser; h_mems : gmap nat Z }.

Definition NewHub : Hub := mkHub 0 ∅ ∅ ∅.

Definition toPeer (a : Announcement) : DiscPeer :=
  mkDiscPeer (an_Name a) (an_FP a) ["127.0.0.1:" +:+ num (an_Port a)].

Definition trySend (e : DEvent) (b : browser) : browser :=
  if (length (br_chan b) <? hub_buffer)%nat
  then mkBrowser (br_chan b ++ [e]) (br_got b) (br_lost b)
  else mkBrowser (br_chan b) (br_got b) true.

(** [for bid, ch := range h.browsers { if bid != m.id { trySend(ch, e) } }]. *)
Definition tell_browsers (self : Z) (e : DEvent) (bs : gmap Z browser) : gmap Z browser :=
  map_imap (λ bid b, Some (if bid =? self then b else trySend e b)) bs.

(** [h.New()]. *)
Definition attach (m : nat) (h : Hub) : Hub :=
  mkHub (h_next h) (h_announce h) (h_browsers h) (<[m := 0]> (h_mems h)).

Definition mem_id (h : Hub) (m : nat) : Z := default 0 (h_mems h !! m).

Definition Announce (m : nat) (a : Announcement) (h : Hub) : Hub :=
  let id := h_next h + 1 in
  mkHub id (<[id := (m, a)]> (h_announce h))
    (tell_browsers (mem_id h m) (mkDEvent true (toPeer a)) (h_browsers h)) (h_mems h).

(** The goroutine of [Announce] once its context is cancelled. *)
Definition withdraw (id : Z) (h : Hub) : Hub :=
  match h_announce h !! id with
  | None => h
  | Some (m, a) =>
      mkHub (h_next h) (delete id (h_announce h))
        (tell_browsers (mem_id h m) (mkDEvent false (toPeer a)) (h_browsers h)) (h_mems h)
  end.

Definition Browse (m : nat) (h : Hub) : Hub :=
  let id := h_next h + 1 in
  let b := foldl (λ b a, trySend (mkDEvent true (toPeer a)) b) (mkBrowser [] [] false)
             (map_to_list (h_announce h)).*2.*2 in
  mkHub id (h_announce h) (<[id := b]> (h_browsers h)) (<[m := id]> (h_mems h)).

(** The goroutine of [Browse] once its context is cancelled. *)
Definition stop_browse (m : nat) (h : Hub) : Hub :=
  mkHub (h_next h) (h_announce h) (delete (mem_id h m) (h_browsers h)) (h_mems h).

(** A receive on a browser's channel. *)
Definition receive (bid : Z) (h : Hub) : Hub :=
  mkHub (h_next h) (h_announce h)
    (alter (λ b, match br_chan b with
                 | [] => b
                 | e :: q => mkBrowser q (br_got b ++ [e]) (br_lost b)
                 end) bid (h_browsers h)) (h_mems h).

(** One step; an instance browses once and before it announces, as [Node.Start] does. *)
Inductive hub_step : Hub → Hub → Prop :=
| step_attach m h : h_mems h !! m = None → hub_step h (attach m h)
| step_browse m h : h_mems h !! m = Some 0 → hub_step h (Browse m h)
| step_announce m a h : mem_id h m ≠ 0 → hub_step h (Announce m a h)
| step_withdraw id h : hub_step h (withdraw id h)
| step_stop m h : mem_id h m ≠ 0 → hub_step h (stop_browse m h)
| step_receive bid h : hub_step h (receive bid h).

(** ** Service entries (mdns.go) *)

(** [zeroconf.ServiceEntry]: the TXT strings, the port, the addresses with
    whether an IPv6 one is link-local. *)
Record ServiceEntry := mkEntry {
  en_Text : list string; en_Port : Z; en_AddrIPv4 : list string; en_AddrIPv6 : list (string * bool) }.

(** [strings.Cut(kv, "=")]. *)
Definition cut_eq (kv : string) : option (string * string) :=
  match cut_byte 61 (bytes_of kv) with
  | (k, Some v) => Some (of_bytes k, of_bytes v)
  | (_, None) => None
  end.

Definition txt_map (l : list string) : gmap string string :=
  foldl (λ t kv, match cut_eq kv with Some (k, v) => <[k := v]> t | None => t end) ∅ l.

(** [net.JoinHostPort]. *)
Definition JoinHostPort (host port : string) : string :=
  if has_byte 58 (bytes_of host) then "[" +:+ (host +:+ ("]:" +:+ port)) else host +:+ (":" +:+ port).

Definition fromEntry (e : ServiceEntry) : option DiscPeer :=
  let txt k := default "" (txt_map (en_Text e) !! k) in
  if negb (txt "v" =s? "1") || (txt "name" =s? "") || negb (slen (txt "fp") =? 64)
     || (en_Port e <=? 0) || (65535 <? en_Port e) then None else
  let port := num (en_Port e) in
  let addrs := ((λ ip, JoinHostPort ip port) <$> en_AddrIPv4 e)
    ++ ((λ ip, JoinHostPort ip.1 port) <$> filter (λ ip, ip.2 = false) (en_AddrIPv6 e)) in
  if (0 <? length addrs)%nat then Some (mkDiscPeer (txt "name") (txt "fp") addrs) else None.

(** The TXT strings [MDNS.Announce] registers. *)
Definition announce_txt (a : Announcement) : list string :=
  ["v=1"; "name=" +:+ an_Name a; "fp=" +:+ an_FP a].

(** What [zeroconf.Register], [zeroconf.NewResolver] (with all traffic, or
    IPv4 only) and [Resolver.Browse] answer. *)
Class Zeroconf := {
  zc_Register : string → string → string → Z → list string → result unit;
  zc_NewResolver : bool → result unit;
  zc_Browse : string → string → result unit }.

Section mdns.
Context `{Zeroconf}.

(** The services the process has registered, by the number of the call. *)
Record MDNS := mkMDNS { md_next : nat; md_services : gmap nat (string * Z * list string) }.

Definition Service : string := "_chirp._tcp".

Definition MDNS_Announce (a : Announcement) (m : MDNS) : result unit * MDNS :=
  if slen (an_FP a) <? 16 then (Err (Errorf "mdns: fingerprint too short"), m) else
  match zc_Register (str_take 16 (an_FP a)) Service "local." (an_Port a) (announce_txt a) with
  | Err e => (Err (Wrapf "mdns: register" e), m)
  | Ok _ => (Ok tt, mkMDNS (S (md_next m))
      (<[md_next m := (str_take 16 (an_FP a), an_Port a, announce_txt a)]> (md_services m)))
  end.

(** [srv.Shutdown()], once the context of that call is cancelled. *)
Definition MDNS_shutdown (call : nat) (m : MDNS) : MDNS := mkMDNS (md_next m) (delete call (md_services m)).

(** Whether [Browse] gives a channel: without IPv6 it tries again on IPv4. *)
Definition MDNS_Browse : result unit :=
  let res := match zc_NewResolver false with Ok _ => Ok tt | Err _ => zc_NewResolver true end in
  match res with
  | Err e => Err (Wrapf "mdns: resolver" e)
  | Ok _ => match zc_Browse Service "local." with
            | Err e => Err (Wrapf "mdns: browse" e)
            | Ok _ => Ok tt
            end
  end.
End mdns.
Arguments MDNS : clear implicits.

(** The goroutine of [Browse] on the entries the library puts on its channel,
    with their times to live; those that cannot be parsed are skipped, the
    channel blocks.  Which entries those are (whether goodbyes are among
    them, how their text is escaped) is the library's. *)
Definition MDNS_events (entries : list (Z * ServiceEntry)) : list DEvent :=
  omap (λ te, p ← fromEntry te.2; Some (mkDEvent (0 <? te.1) p)) entries.

(** ** What a browser knows *)

(** How often a peer came up, less how often it went away. *)
Definition net_up (p : DiscPeer) (l : list DEvent) : Z :=
  foldr (λ e z, (if decide (de_Peer e = p) then if de_Up e then 1 else -1 else 0) + z) 0 l.

Lemma net_up_app p l l' : net_up p (l ++ l') = net_up p l + net_up p l'.
Proof. unfold net_up. induction l as [|e l IH]; cbn [foldr app]; [done|]. rewrite IH. lia. Qed.

(** The announcements for [p] by instances other than the one with this browser. *)
Definition announced_to (h : Hub) (bid : Z) (p : DiscPeer) (ma : nat * Announcement) : Prop :=
  toPeer ma.2 = p ∧ mem_id h ma.1 ≠ bid.
#[export] Instance announced_to_dec h bid p ma : Decision (announced_to h bid p ma).
Proof. unfold announced_to. apply _. Defined.

Definition announced (h : Hub) (bid : Z) (p : DiscPeer) : Z :=
  Z.of_nat (size (filter (λ ka, announced_to h bid p ka.2) (h_announce h))).

Record hub_inv (h : Hub) : Prop := {
  inv_next : 0 <= h_next h;
  inv_announce id ma : h_announce h !! id = Some ma → 0 < id <= h_next h ∧ mem_id h ma.1 ≠ 0;
  inv_browser bid b : h_browsers h !! bid = Some b → 0 < bid <= h_next h;
  inv_mem m id : h_mems h !! m = Some id → 0 <= id <= h_next h;
  inv_knows bid b p : h_browsers h !! bid = Some b → br_lost b = false →
    net_up p (br_got b ++ br_chan b) = announced h bid p }.

Definition weight (e : DEvent) (p : DiscPeer) : Z := net_up p [e].

Lemma weight_spec up q p : weight (mkDEvent up q) p = if decide (q = p) then if up then 1 else -1 else 0.
Proof. unfold weight, net_up. cbn. case_decide; [destruct up|]; lia. Qed.

(** Sending: unless the event is dropped it is at the end. *)
Lemma trySend_knows e b p :
  br_lost (trySend e b) = false →
  br_lost b = false ∧ net_up p (br_got (trySend e b) ++ br_chan (trySend e b))
    = net_up p (br_got b ++ br_chan b) + weight e p.
Proof.
  unfold trySend. destruct (_ <? _)%nat; cbn [br_lost br_got br_chan]; [|done].
  intros Hl. split; [done|]. rewrite app_assoc, net_up_app. done.
Qed.

Lemma tell_lookup self e bs bid b' :
  tell_browsers self e bs !! bid = Some b' ↔
  ∃ b, bs !! bid = Some b ∧ b' = if bid =? self then b else trySend e b.
Proof.
  unfold tell_browsers. rewrite map_lookup_imap. destruct (bs !! bid) as [b|]; cbn; [|naive_solver].
  split; [intros [= <-]; eauto|]. by intros (? & [= <-] & ->).
Qed.

Lemma announced_frame h h' bid p :
  h_announce h' = h_announce h →
  (∀ id ma, h_announce h !! id = Some ma → mem_id h' ma.1 = mem_id h ma.1) →
  announced h' bid p = announced h bid p.
Proof.
  intros E Hm. unfold announced. rewrite E. do 2 f_equal. apply map_filter_ext.
  intros id ma Hid. unfold announced_to. cbn. by rewrite (Hm id ma Hid).
Qed.

Lemma announced_insert h bid p id m a bs n :
  h_announce h !! id = None →
  announced (mkHub n (<[id := (m, a)]> (h_announce h)) bs (h_mems h)) bid p
  = announced h bid p + if decide (mem_id h m ≠ bid) then weight (mkDEvent true (toPeer a)) p else 0.
Proof.
  intros Hid. unfold announced. cbn [h_announce]. rewrite weight_spec.
  change (announced_to (mkHub _ _ _ (h_mems h))) with (announced_to h).
  change (announced_to_dec (mkHub _ _ _ (h_mems h))) with (announced_to_dec h).
  destruct (decide (announced_to h bid p (m, a))) as [[H1 H2]|Hn].
  - rewrite map_filter_insert_True by done. rewrite map_size_insert_None
      by (apply map_lookup_filter_None; by left).
    cbn in H1, H2.
    rewrite decide_True, decide_True by done.
    lia.
  - rewrite map_filter_insert_not' by (done || by rewrite Hid).
    destruct (decide (mem_id h m ≠ bid)), (decide (toPeer a = p)); [by destruct Hn|lia..].
Qed.

Lemma announced_delete h bid p id m a bs n :
  h_announce h !! id = Some (m, a) →
  announced (mkHub n (delete id (h_announce h)) bs (h_mems h)) bid p
  = announced h bid p + if decide (mem_id h m ≠ bid) then weight (mkDEvent false (toPeer a)) p else 0.
Proof.
  intros Hid. pose proof (announced_insert (mkHub n (delete id (h_announce h)) bs (h_mems h)) bid p id m a
    (h_browsers h) (h_next h) ltac:(cbn; apply lookup_delete_eq)) as Hi.
  cbn [h_announce h_mems] in Hi. rewrite insert_delete_id in Hi by done.
  change (mem_id (mkHub n _ bs (h_mems h))) with (mem_id h) in Hi.
  assert (E : announced (mkHub (h_next h) (h_announce h) (h_browsers h) (h_mems h)) bid p = announced h bid p)
    by by destruct h.
  rewrite E in Hi. rewrite !weight_spec in *. repeat case_decide; lia.
Qed.

(** The channel of a new browser: an event for each announcement there is. *)
Lemma foldl_trySend_knows l b p :
  br_lost (foldl (λ b a, trySend (mkDEvent true (toPeer a)) b) b l) = false →
  br_lost b = false ∧
  net_up p (br_got (foldl (λ b a, trySend (mkDEvent true (toPeer a)) b) b l)
            ++ br_chan (foldl (λ b a, trySend (mkDEvent true (toPeer a)) b) b l))
  = net_up p (br_got b ++ br_chan b) + Z.of_nat (length (filter (λ a, toPeer a = p) l)).
Proof.
  revert b. induction l as [|a l IH]; intros b; cbn [foldl]; [cbn; intros ->; split; [done|lia]|].
  intros Hl. destruct (IH _ Hl) as [H1 H2]. destruct (trySend_knows _ b p H1) as [H3 H4]. split; [done|].
  rewrite H2, H4, weight_spec. destruct (decide (toPeer a = p)) as [Ha|Ha].
  - rewrite filter_cons_True by done. cbn [length]. lia.
  - rewrite filter_cons_False by done. lia.
Qed.

Lemma announced_all h bid p :
  (∀ id ma, h_announce h !! id = Some ma → mem_id h ma.1 ≠ bid) →
  announced h bid p = Z.of_nat (length (filter (λ a, toPeer a = p) (map_to_list (h_announce h)).*2.*2)).
Proof.
  intros Hb. unfold announced. f_equal. rewrite <- length_map_to_list, map_filter_alt.
  rewrite map_to_list_to_map.
  2: { eapply sublist_NoDup; [apply (NoDup_fst_map_to_list (h_announce h))|]. apply fmap_sublist, sublist_filter. }
  assert (Hin : ∀ ka, ka ∈ map_to_list (h_announce h) → mem_id h ka.2.1 ≠ bid).
  { intros [id ma] Hka%elem_of_map_to_list. by apply (Hb id). }
  induction (map_to_list (h_announce h)) as [|[id [m a]] l IH]; [done|]. cbn [fmap list_fmap snd].
  specialize (IH (λ ka Hka, Hin ka (list_elem_of_further _ _ _ Hka))).
  pose proof (Hin _ (list_elem_of_here _ _)) as Hm. cbn in Hm.
  destruct (decide (toPeer a = p)) as [Ha|Ha].
  - rewrite !filter_cons_True by done. cbn [length]. by rewrite IH.
  - rewrite !filter_cons_False; [done|done|]. intros [Ht _]. by apply Ha.
Qed.

(** Telling the browsers of a change keeps them informed. *)
Lemma tell_knows h self up a (after : Z → DiscPeer → Z) :
  hub_inv h →
  (∀ bid p, after bid p = announced h bid p
     + if decide (self ≠ bid) then weight (mkDEvent up (toPeer a)) p else 0) →
  ∀ bid b p, tell_browsers self (mkDEvent up (toPeer a)) (h_browsers h) !! bid = Some b →
    br_lost b = false → net_up p (br_got b ++ br_chan b) = after bid p.
Proof.
  intros Hi Haf bid b p (b0 & Hb0 & ->)%tell_lookup Hl. rewrite Haf. destruct (Z.eqb_spec bid self) as [->|Hne].
  - rewrite decide_False by (intros Hx; by apply Hx). rewrite (inv_knows h Hi self b0 p Hb0 Hl). lia.
  - rewrite decide_True by done. destruct (trySend_knows _ b0 p Hl) as [Hl0 ->].
    by rewrite (inv_knows h Hi bid b0 p Hb0 Hl0).
Qed.

Lemma attach_inv m h : hub_inv h → h_mems h !! m = None → hub_inv (attach m h).
Proof.
  intros [Hn Ha Hb Hm Hk] Hfresh.
  assert (Hmem : ∀ m', mem_id (attach m h) m' = mem_id h m').
  { intros m'. unfold mem_id, attach. cbn. destruct (decide (m = m')) as [<-|Hne].
    - by rewrite lookup_insert_eq, Hfresh.
    - by rewrite lookup_insert_ne. }
  constructor; cbn [h_next h_announce h_browsers h_mems attach]; try done.
  - intros id ma Hid. rewrite Hmem. by apply Ha.
  - intros m' id [[_ <-]|[_ Hl]]%lookup_insert_Some; [lia|by apply (Hm m')].
  - intros bid b p Hl Hlost. rewrite (Hk bid b p Hl Hlost). symmetry. by apply announced_frame.
Qed.

Lemma Browse_inv m h : hub_inv h → h_mems h !! m = Some 0 → hub_inv (Browse m h).
Proof.
  intros [Hn Ha Hb Hm Hk] Hz.
  assert (Hmem : ∀ m', mem_id h m' ≠ 0 → mem_id (Browse m h) m' = mem_id h m').
  { intros m' Hne. unfold mem_id, Browse in *. cbn. rewrite lookup_insert_ne; [done|].
    intros <-. by rewrite Hz in Hne. }
  assert (Hold : ∀ id ma, h_announce h !! id = Some ma → mem_id (Browse m h) ma.1 = mem_id h ma.1).
  { intros id ma Hid. apply Hmem. by apply (Ha id). }
  constructor; cbn [h_next h_announce h_browsers h_mems Browse]; try lia.
  - intros id ma Hid. rewrite (Hold id) by done. specialize (Ha id ma Hid). lia.
  - intros bid b [[<- _]|[_ Hl]]%lookup_insert_Some; [lia|]. specialize (Hb bid b Hl). lia.
  - intros m' id [[_ <-]|[_ Hl]]%lookup_insert_Some; [lia|]. specialize (Hm m' id Hl). lia.
  - intros bid b p [[<- <-]|[_ Hl]]%lookup_insert_Some Hlost.
    + apply (foldl_trySend_knows _ _ p) in Hlost as [_ ->]. cbn [br_got br_chan app].
      rewrite announced_all; [cbn [net_up foldr h_announce Browse]; lia|].
      intros id ma Hid. cbn [Browse h_announce] in Hid. rewrite (Hold id ma Hid).
      assert (mem_id h ma.1 <= h_next h); [|lia]. unfold mem_id.
      destruct (h_mems h !! ma.1) as [x|] eqn:Ex; cbn; [|lia]. specialize (Hm _ _ Ex). lia.
    + rewrite (Hk bid b p Hl Hlost). symmetry. by apply announced_frame.
Qed.

Lemma Announce_inv m a h : hub_inv h → mem_id h m ≠ 0 → hub_inv (Announce m a h).
Proof.
  intros Hi Hz. pose proof Hi as [Hn Ha Hb Hm Hk].
  assert (Hfresh : h_announce h !! (h_next h + 1) = None).
  { destruct (_ !! _) as [ma|] eqn:E; [|done]. apply Ha in E. lia. }
  constructor; cbn [h_next h_announce h_browsers h_mems Announce]; try lia.
  - intros id ma [[<- <-]|[_ Hid]]%lookup_insert_Some; [split; [lia|exact Hz]|].
    specialize (Ha id ma Hid). split; [lia|apply Ha].
  - intros bid b (b0 & Hb0 & _)%tell_lookup. specialize (Hb bid b0 Hb0). lia.
  - intros m' id Hl. specialize (Hm m' id Hl). lia.
  - apply tell_knows; [done|]. intros bid p. by apply announced_insert.
Qed.

Lemma withdraw_inv id h : hub_inv h → hub_inv (withdraw id h).
Proof.
  intros Hi. unfold withdraw. destruct (h_announce h !! id) as [[m a]|] eqn:E; [|done].
  pose proof Hi as [Hn Ha Hb Hm Hk].
  constructor; cbn [h_next h_announce h_browsers h_mems]; try done.
  - intros id' ma [_ Hid]%lookup_delete_Some. by apply (Ha id').
  - intros bid b (b0 & Hb0 & _)%tell_lookup. by apply (Hb bid b0).
  - apply tell_knows; [done|]. intros bid p. by apply announced_delete.
Qed.

Lemma stop_browse_inv m h : hub_inv h → hub_inv (stop_browse m h).
Proof.
  intros [Hn Ha Hb Hm Hk]. constructor; cbn [h_next h_announce h_browsers h_mems stop_browse]; try done.
  - intros bid b [_ Hl]%lookup_delete_Some. by apply (Hb bid b).
  - intros bid b p [_ Hl]%lookup_delete_Some. by apply Hk.
Qed.

Lemma receive_inv bid h : hub_inv h → hub_inv (receive bid h).
Proof.
  intros [Hn Ha Hb Hm Hk].
  assert (Hal : ∀ bid' b, h_browsers (receive bid h) !! bid' = Some b →
    ∃ b0, h_browsers h !! bid' = Some b0 ∧ br_lost b = br_lost b0 ∧
      br_got b ++ br_chan b = br_got b0 ++ br_chan b0).
  { intros bid' b. cbn. rewrite lookup_alter_Some. intros [(<- & b0 & Hb0 & ->)|[_ Hl]]; [|by eexists].
    exists b0. destruct (br_chan b0) as [|e q] eqn:E; cbn; [by rewrite E|]. by rewrite <- app_assoc. }
  constructor; try done.
  - intros bid' b (b0 & Hb0 & _)%Hal. by apply (Hb bid' b0).
  - intros bid' b p (b0 & Hb0 & El & Eg)%Hal Hlost. rewrite Eg. apply Hk; congruence.
Qed.

Lemma hub_inv_step h h' : hub_inv h → hub_step h h' → hub_inv h'.
Proof.
  intros Hi Hs. destruct Hs; [by apply attach_inv|by apply Browse_inv|by apply Announce_inv|
    by apply withdraw_inv|by apply stop_browse_inv|by apply receive_inv].
Qed.

Lemma hub_reachable_inv h : rtc hub_step NewHub h → hub_inv h.
Proof.
  intros Hr. assert (H0 : hub_inv NewHub) by by constructor.
  induction Hr as [|h h' h'' Hs _ IH]; [done|]. by eapply IH, hub_inv_step.
Qed.

(** ** Service entries made from announcements *)

Lemma cut_eq_txt k v : 61 ∉ bytes_of k → cut_eq (k +:+ ("=" +:+ v)) = Some (k, v).
Proof.
  intros Hk. unfold cut_eq. rewrite !bytes_of_app. change (bytes_of "=") with [61]. cbn [app].
  rewrite cut_byte_app by done. by rewrite !of_bytes_of.
Qed.

(** What an announcement's text parses to. *)
Lemma fromEntry_announced e a :
  en_Text e = announce_txt a → an_Name a ≠ "" → slen (an_FP a) = 64 → 1 <= en_Port e <= 65535 →
  en_AddrIPv4 e ≠ [] →
  ∃ d, fromEntry e = Some d ∧ dp_Name d = an_Name a ∧ dp_FP d = an_FP a ∧ dp_Addrs d ≠ [].
Proof.
  intros Ht Hn Hf Hp Ha.
  unfold fromEntry. rewrite Ht. unfold txt_map, announce_txt. cbn [foldl].
  change "v=1" with ("v" +:+ ("=" +:+ "1")).
  change ("name=" +:+ an_Name a) with ("name" +:+ ("=" +:+ an_Name a)).
  change ("fp=" +:+ an_FP a) with ("fp" +:+ ("=" +:+ an_FP a)).
  rewrite !cut_eq_txt by (vm_compute; set_solver).
  assert (E1 : (<["fp" := an_FP a]> (<["name" := an_Name a]> (<["v" := "1"]> (∅ : gmap string string)))) !! "v" = Some "1")
    by done.
  assert (E2 : (<["fp" := an_FP a]> (<["name" := an_Name a]> (<["v" := "1"]> (∅ : gmap string string)))) !! "name"
    = Some (an_Name a)) by done.
  assert (E3 : (<["fp" := an_FP a]> (<["name" := an_Name a]> (<["v" := "1"]> (∅ : gmap string string)))) !! "fp"
    = Some (an_FP a)) by done.
  rewrite E1, E2, E3. cbn [default from_option id]. rewrite eqs_refl, (proj2 (eqs_false _ _) Hn), Hf.
  destruct (Z.leb_spec (en_Port e) 0); [lia|]. destruct (Z.ltb_spec 65535 (en_Port e)); [lia|].
  cbn [negb orb Z.eqb Pos.eqb]. destruct (en_AddrIPv4 e) as [|ip l]; [done|]. cbn [fmap list_fmap app length Nat.ltb Nat.leb].
  eexists. by split_and!.
Qed.

(** *** What any entry parses to *)

(** A text of the entry gives the key [k] the value [v]. *)
Definition carries (e : ServiceEntry) (k v : string) : Prop := ∃ kv, kv ∈ en_Text e ∧ cut_eq kv = Some (k, v).

Lemma txt_map_carries e k v : txt_map (en_Text e) !! k = Some v → carries e k v.
Proof.
  unfold txt_map, carries. induction (en_Text e) as [|kv l IH] using rev_ind; [cbn; by rewrite lookup_empty|].
  rewrite foldl_app. cbn [foldl]. destruct (cut_eq kv) as [[k' v']|] eqn:E.
  - intros [[-> ->]|[_ Hl]]%lookup_insert_Some; [exists kv; set_solver|].
    destruct (IH Hl) as (kv' & ? & ?). exists kv'. set_solver.
  - intros Hl. destruct (IH Hl) as (kv' & ? & ?). exists kv'. set_solver.
Qed.

(** The peer [d] is what the entry says, and fit to be dialed. *)
Record says (e : ServiceEntry) (d : DiscPeer) : Prop := {
  sy_version : carries e "v" "1";
  sy_name : carries e "name" (dp_Name d) ∧ dp_Name d ≠ "";
  sy_fp : carries e "fp" (dp_FP d) ∧ slen (dp_FP d) = 64;
  sy_port : 1 <= en_Port e <= 65535;
  sy_some : dp_Addrs d ≠ [];
  sy_addrs a : a ∈ dp_Addrs d → ∃ ip, a = JoinHostPort ip (num (en_Port e)) ∧
    (ip ∈ en_AddrIPv4 e ∨ (ip, false) ∈ en_AddrIPv6 e) }.

Lemma default_carries e k v : default "" (txt_map (en_Text e) !! k) = v → v ≠ "" → carries e k v.
Proof. intros <- Hv. apply txt_map_carries. by destruct (txt_map (en_Text e) !! k). Qed.

Lemma fromEntry_says e d : fromEntry e = Some d → says e d.
Proof.
  unfold fromEntry. destruct (_ || _) eqn:E; [done|].
  apply orb_false_iff in E as [E E5]. apply orb_false_iff in E as [E E4]. apply orb_false_iff in E as [E E3].
  apply orb_false_iff in E as [E1 E2]. apply negb_false_iff, eqs_true in E1. apply eqs_false in E2.
  apply negb_false_iff in E3. set (addrs := _ ++ _). destruct (0 <? length addrs)%nat eqn:El; [|done].
  intros [= <-]. split; cbn [dp_Name dp_FP dp_Addrs].
  - by apply default_carries.
  - split; [by apply default_carries|done].
  - split; [|lia]. apply default_carries; [done|]. intros Hfp. by rewrite Hfp in E3.
  - lia.
  - by destruct addrs.
  - intros a [(ip & -> & Hip)%list_elem_of_fmap|(ip & -> & [Hl Hip]%list_elem_of_filter)%list_elem_of_fmap]%elem_of_app.
    + exists ip. auto.
    + exists ip.1. split; [done|]. right. destruct ip as [ip b]. cbn in Hl. by subst b.
Qed.

(** Every event of a browser is of an entry that says so. *)
Lemma MDNS_events_sound entries ev :
  ev ∈ MDNS_events entries →
  ∃ ttl e, (ttl, e) ∈ entries ∧ de_Up ev = (0 <? ttl) ∧ says e (de_Peer ev).
Proof.
  intros ([ttl e] & Hin & Hev)%list_elem_of_omap. cbn [fst snd] in Hev.
  destruct (fromEntry e) as [d|] eqn:Ed; [|done]. injection Hev as <-. exists ttl, e.
  split_and!; [done|done|by apply fromEntry_says].
Qed.

(** C26: discovery is accurate.  Through any interleaving of instances
    attached to the hub, browsing, announcing, withdrawing, leaving and
    reading their channels: for a browser none of whose events was dropped
    for a full channel, the events it read and those that wait, counted as
    arrivals less departures, are for every peer the number of announcements
    of it by the other instances now, so none for itself.  By multicast,
    whatever entries the library delivers: every event is of a delivered
    entry, an arrival exactly if its time to live is positive; the entry
    carries version 1 and the peer's name and fingerprint, which are not
    empty and of 64 bytes, and the peer has an address to dial, each made of
    an address of the entry (none of them link-local) and its port, 1 to 65535. *)
Theorem discovery_is_accurate h :
  rtc hub_step NewHub h →
  (∀ bid b p, h_browsers h !! bid = Some b → br_lost b = false →
     net_up p (br_got b ++ br_chan b) = announced h bid p) ∧
  (∀ entries ev, ev ∈ MDNS_events entries →
     ∃ ttl e, (ttl, e) ∈ entries ∧ de_Up ev = (0 <? ttl) ∧ says e (de_Peer ev)).
Proof.
  intros Hr. split; [intros bid b p; by apply inv_knows, hub_reachable_inv|apply MDNS_events_sound].
Qed.

(** ** Example: two instances; the first announces, the second hears of it *)

Definition ex_ann : Announcement :=
  mkAnn "Alice" "0123456789abcdef0123456789abcdef0123456789abcdef0123456789abcdef" 4000.
Definition ex_entry : ServiceEntry := mkEntry (announce_txt ex_ann) 4000 ["192.168.1.9"] [("fe80::1", true)].
Definition ex_hub : Hub := Announce 0 ex_ann (Browse 1 (Browse 0 (attach 1 (attach 0 NewHub)))).

Lemma ex_hub_reachable : rtc hub_step NewHub ex_hub.
Proof.
  repeat (eapply rtc_r; [|first [by apply step_announce|by apply step_browse|by apply step_attach]]).
  apply rtc_refl.
Qed.

(** An entry of another version among those delivered: it is skipped. *)
Definition ex_delivered : list (Z * ServiceEntry) :=
  [(120, mkEntry ["v=2"; "name=Eve"] 4000 ["192.168.1.7"] []); (120, ex_entry)].

Lemma discovery_is_accurate_witness :
  (∃ b, h_browsers ex_hub !! 2 = Some b ∧ net_up (toPeer ex_ann) (br_got b ++ br_chan b) = 1) ∧
  ∃ ev, MDNS_events ex_delivered = [ev] ∧ de_Up ev = true ∧ dp_Addrs (de_Peer ev) = ["192.168.1.9:4000"] ∧
    ∃ ttl e, (ttl, e) ∈ ex_delivered ∧ says e (de_Peer ev).
Proof.
  destruct (discovery_is_accurate ex_hub ex_hub_reachable) as [H1 H2]. split.
  - exists (default (mkBrowser [] [] true) (h_browsers ex_hub !! 2)).
    assert (Hb : h_browsers ex_hub !! 2 = Some (default (mkBrowser [] [] true) (h_browsers ex_hub !! 2)))
      by (vm_compute; reflexivity).
    split; [exact Hb|]. etrans; [apply (H1 2 _ (toPeer ex_ann) Hb); vm_compute; reflexivity|].
    vm_compute. reflexivity.
  - set (ev := mkDEvent true (mkDiscPeer "Alice" (an_FP ex_ann) ["192.168.1.9:4000"])).
    assert (E : MDNS_events ex_delivered = [ev]) by (vm_compute; reflexivity).
    exists ev. split_and!; [exact E|done|done|].
    destruct (H2 ex_delivered ev) as (ttl & e & Hin & _ & Hs); [rewrite E; by left|]. by exists ttl, e.
Defined.
