(* ===== verification/NodeCore.v ===== *)
(** * Sending, sessions and discovery (internal/node/node.go, views.go)

    The outbox of messages and of files, the life of a session from handshake
    to clean-up, the dial loop and the operations of the user interface.  The
    outcome of a handshake, of a dial and of a wait is the environment's. *)

From S2P Require Import Prelude GoStrings Utf8 Proto Sha256 Identity Base64 Crypto Bolt.
From S2P Require Import StoreData StoreCore StoreMessages StorePeers StoreFiles StoreRooms.
From S2P Require Import Backoff NodeState NodeRooms.

Definition bare (t : string) : Envelope :=
  mkEnvelope t "" 0 "" "" "" "" "" 0 "" 0 "" "" 0 "" "" "" [].
Definition msg_envelope (m : Message) : Envelope :=
  mkEnvelope TypeMsg (m_ID m) (UnixMilli (m_TS m)) (m_Body m) (m_ReplyTo m) "" "" "" 0 "" 0 "" "" 0
    "" "" "" [].
Definition ack_envelope (id : string) : Envelope :=
  mkEnvelope TypeAck id 0 "" "" "" "" "" 0 "" 0 "" "" 0 "" "" "" [].
Definition target_envelope (t emoji target : string) : Envelope :=
  mkEnvelope t "" 0 "" "" emoji target "" 0 "" 0 "" "" 0 "" "" "" [].
Definition file_envelope (f : File) : Envelope :=
  mkEnvelope TypeFile (f_ID f) 0 "" "" "" "" (f_Name f) (f_Size f) (f_Hash f) 0 "" "" 0 "" "" "" [].
Definition fileack_envelope (id : string) (off : Z) : Envelope :=
  mkEnvelope TypeFileAck id 0 "" "" "" "" "" 0 "" off "" "" 0 "" "" "" [].
Definition chunk_envelope (id : string) (off : Z) (chunk : string) : Envelope :=
  mkEnvelope TypeChunk id 0 "" "" "" "" "" 0 "" off chunk "" 0 "" "" "" [].

Section node.
Context {B : Type → Type} `{Bolt B} `{Primitives} `{UnicodeTables} `{Wire} `{DiskFaults}.

(** ** Messages *)

(** The checks of [SendReply] and [SendFile] on the peer. *)
Definition pinned (peer : string) : M B (result Peer) :=
  p ← read_store (λ s, GetPeer s peer);
  mret (match p with
  | Err e => Err (if errors_is e ErrNotFound then Sentinel ErrUnknownPeer else e)
  | Ok p => if negb (p_PendingKey p =s? "") then Err (Sentinel ErrKeyChanged) else Ok p
  end).

Definition SendReply (now : Z) (rng : string) (rnd : option string) (peer body replyTo : string)
    : M B (result Message) :=
  if (body =s? "") || (MaxBody <? slen body) || negb (ValidString body)
  then mret (Err (Sentinel ErrBadBody)) else
  p ←? pinned peer;
  match NewID rng with
  | Err e => mret (Err e)
  | Ok (id, _) =>
      md ←? on_store (λ s, AddMessage s
        (mkMessage id (p_Name p) DirOut body now StatusQueued 0 zero_time 0 replyTo) rnd);
      let m := (md : Message * bool).1 in
      _ ← emit (event_msg "message" (p_Name p) m);
      _ ← spawn (TFlush (p_Name p) false);
      mret (Ok m)
  end.

Definition Send (now : Z) (rng : string) (rnd : option string) (peer body : string)
    : M B (result Message) :=
  SendReply now rng rnd peer body "".

(** Whether [flush] leaves a message for later; [rnd] is the random read. *)
Definition not_yet (cfg : Config) (now : Z) (m : Message) (rnd : option string) : bool :=
  (0 <? m_Attempts m)
  && (time_Sub now (m_LastTry m)
      <? jitteredBackoff (m_Attempts m) (RetryBase cfg) (RetryMax cfg) rnd).

Definition flush_loop (now : Z) (rnd : string → option string) (peer : string) (c : nat)
    (force : bool) : list Message → M B unit :=
  fix loop (pend : list Message) : M B unit :=
    match pend with
    | [] => mret tt
    | m :: pend =>
        n ← get;
        if negb force && not_yet (n_cfg n) now m (rnd (m_ID m)) then loop pend else
        m2 ← on_store (λ s, RecordAttempt s (m_ID m) now);
        match m2 with
        | Err _ => loop pend
        | Ok m2 =>
            r ← send c (msg_envelope m);
            match r with
            | Err _ => _ ← logf now "send to %q failed: %v"; close c
            | Ok _ => _ ← emit (event_msg "status" peer m2); loop pend
            end
        end
    end.

Definition flush (now : Z) (rnd : string → option string) (peer : string) (force : bool)
    : M B unit :=
  l ← linkFor peer;
  match l with
  | None => mret tt
  | Some (c, _) =>
      pend ← read_store (λ s, Pending s peer);
      match pend with
      | Err _ => logf now "outbox: %v"
      | Ok pend => flush_loop now rnd peer c force pend
      end
  end.

Definition RetryNow (peer : string) : M B unit := spawn (TFlush peer true).

(** One tick of [outboxLoop]. *)
Definition outbox_tick (now : Z) (rnd : string → option string) : M B unit :=
  n ← get;
  let names := omap (λ c, lk_peer <$> n_conns n !! c) (map_to_list (n_live n)).*2 in
  _ ← for_each names (λ name, flush now rnd name false);
  fo ← read_store FileOutbox;
  _ ← (match fo with
       | Err _ => mret tt
       | Ok fo => for_each fo (λ f, spawn (TFlushFile (f_Peer f) (f_ID f)))
       end);
  rooms ← read_store ListRooms;
  match rooms with
  | Err _ => mret tt
  | Ok rooms =>
      for_each rooms (λ r, for_each (r_Members r) (λ mb,
        me ← my_name;
        if mb =s? me then mret tt else flushRoomMember now mb (r_ID r)))
  end.

Definition DeleteFromOutbox_ (id : string) : M B (result unit) :=
  _ ←? on_store (λ s, DeleteFromOutbox s id);
  _ ← emit (event "outbox" "");
  mret (Ok tt).

(** One run of [retentionLoop]; [AddDate days] is the date [days] ago. *)
Definition retention_run (now : Z) (AddDate : Z → Z) : M B unit :=
  st ← read_store Settings_;
  match st with
  | Err _ => mret tt
  | Ok st =>
      if RetentionDays st =? 0 then mret tt else
      k ← on_store (λ s, Prune s (AddDate (RetentionDays st)));
      match k with
      | Ok k =>
          if 0 <? k then _ ← logf now "retention: pruned %d messages"; emit (event "peers" "")
          else mret tt
      | Err _ => mret tt
      end
  end.

(** ** Files *)

Definition SendFile (now : Z) (rng : string) (rnd : option string) (peer name data : string)
    : M B (result string) :=
  p ←? pinned peer;
  if (slen data =? 0) || (MaxFileSize <? slen data)
  then mret (Err (node_error "node: file size out of range")) else
  match NewID rng with
  | Err e => mret (Err e)
  | Ok (id, _) =>
      let hash := hex_encode (Sum256 data) in
      _ ←? on_store (λ s, AddOutboundFile s id (p_Name p) name hash data now rnd);
      _ ← emit (event_file "fileOutbox" (p_Name p) id name (slen data) "" (0, 1));
      _ ← spawn (TFlushFile (p_Name p) id);
      mret (Ok id)
  end.

Definition file_sent (peer : string) (f : File) : M B unit :=
  _ ← on_store (λ s, MarkFileSent s (f_ID f));
  emit (event_file "fileComplete" peer (f_ID f) (f_Name f) 0 "" (0, 1)).

(** The chunk loop of [flushFile]; [chunks_left] is a bound of its turns: one
    for each chunk, the last one shorter, and one for the exit. *)
Definition chunks_left (off size : Z) : nat :=
  Z.to_nat ((size - off + (ChunkSize - 1)) / ChunkSize + 1).

Definition chunk_loop (now : Z) (peer : string) (c : nat) (f : File) (data : string)
  : nat → Z → M B unit :=
  fix loop (fuel : nat) (off : Z) : M B unit :=
    match fuel with
    | O => mret tt
    | S fuel =>
        if negb (off <? f_Size f) then file_sent peer f else
        let stop := if f_Size f <? off + ChunkSize then f_Size f else off + ChunkSize in
        match slice data off stop with
        | None => out OPanic
        | Some chunk =>
            r ← send c (chunk_envelope (f_ID f) off chunk);
            match r with
            | Err _ => _ ← logf now "file chunk to %q: %v"; close c
            | Ok _ =>
                _ ← emit (event_file "fileProgress" peer (f_ID f) (f_Name f) 0 ""
                            (progressOf stop (f_Size f)));
                loop fuel stop
            end
        end
    end.

(** [flushFile] after the wait: what is sent from an offset on. *)
Definition flushFile_from (now : Z) (peer : string) (c : nat) (f : File) (data : string) (off : Z)
    : M B unit :=
  if f_Size f <=? off then file_sent peer f
  else chunk_loop now peer c f data (chunks_left off (f_Size f)) off.

(** The record under the identifier [flushFile] was called with. *)
Definition under_id (fileID : string) (f : File) : File :=
  mkFile fileID (f_Peer f) (f_Dir f) (f_Name f) (f_Size f) (f_Hash f) (f_Status f) (f_Received f)
    (f_Sent f) (f_TS f).

(** [flushFile] before it takes the flush lock of the session: the session, the
    row and the bytes are read, and the row is marked. *)
Definition flushFile_prepare (peer fileID : string) : M B (option (nat * Link * File * string)) :=
  l ← linkFor peer;
  match l with
  | None => mret None
  | Some (c, l) =>
      f ← read_store (λ s, GetFile s fileID);
      match f with
      | Err _ => mret None
      | Ok f =>
          if negb (f_Status f =s? FileQueued) && negb (f_Status f =s? FileSending)
          then mret None else
          data ← read_store (λ s, FileBlob s fileID);
          match data with
          | Err _ => mret None
          | Ok data =>
              _ ← on_store (λ s, MarkFileSending s fileID);
              mret (Some (c, l, under_id fileID f, data))
          end
      end
  end.

(** [flushFile] with the lock, up to the wait: [Some] when it waits for the
    receiver's offset. *)
Definition flushFile_send (now : Z) (peer : string) (p : nat * Link * File * string)
    : M B (option (nat * File * string)) :=
  let '(c, l, f, data) := p in
  let waits := speaks l CapResume in
  _ ← (if waits then awaitFileAck c (f_ID f) else mret tt);
  let cancel := if waits then cancelFileAck c (f_ID f) else mret tt in
  r ← send c (file_envelope f);
  match r with
  | Err _ => _ ← logf now "file header to %q: %v"; _ ← close c; _ ← cancel; mret None
  | Ok _ =>
      if waits then mret (Some (c, f, data))
      else _ ← flushFile_from now peer c f data 0; mret None
  end.

(** [flushFile] up to the wait, when nobody holds the lock. *)
Definition flushFile (now : Z) (peer fileID : string) : M B (option (nat * File * string)) :=
  p ← flushFile_prepare peer fileID;
  match p with None => mret None | Some p => flushFile_send now peer p end.

(** The wait of [flushFile] ends with the receiver's offset, or times out. *)
Definition flushFile_answer (now : Z) (peer : string) (w : nat * File * string) (timeout : bool)
    : M B unit :=
  let '(c, f, data) := w in
  l ← link_at c;
  _ ← (match (if timeout then None else l ≫= λ l, lk_fileAck l !! f_ID f) with
       | Some (Some off) =>
           let off := if (off <? 0) || (f_Size f <? off) then 0 else off in
           _ ← (if 0 <? off then logf now "resuming %s to %q at %d of %d bytes" else mret tt);
           flushFile_from now peer c f data off
       | _ => logf now "no fileack from %q for %s; will retry"
       end);
  cancelFileAck c (f_ID f).

(** ** Sessions *)

(** What a completed handshake ([session.Conn]) says about the remote. *)
Record Handshake := mkHandshake { hs_Name : string; hs_Key : string; hs_Caps : list string }.

(** [establish] on connection [c] after the handshake [sc]. *)
Definition establish (now : Z) (rnd : option string) (c : nat) (sc : result Handshake)
    (wantFP : string) : M B (result Link) :=
  match sc with
  | Err e =>
      _ ← close c; _ ← logf now "handshake with %s failed: %v"; mret (Err (Wrapf "handshake failed" e))
  | Ok sc =>
      n ← get;
      if hs_Key sc =s? id_Public (n_id n) then
        _ ← close c; mret (Err (node_error "node: connected to ourselves")) else
      if negb (wantFP =s? "") && negb (fpMatches wantFP (hs_Key sc)) then
        _ ← close c; _ ← logf now "REFUSED %q: dialed expecting fingerprint %s, remote presented %s…";
        mret (Err (Wrapf "node: remote key differs" (Sentinel ErrFPMismatch))) else
      po ← on_store (λ s, Observe s (hs_Name sc) (hs_Key sc) now rnd);
      match (po : result (Peer * bool)) with
      | Err e => _ ← close c; _ ← logf now "store: %v"; mret (Err e)
      | Ok (peer, false) =>
          _ ← close c; _ ← logf now "REFUSED %q: key %s… does not match pinned %s…";
          _ ← emit (event "peers" (p_Name peer));
          mret (Err (node_error "node: key does not match the pin"))
      | Ok (peer, true) =>
          let l := newLink (p_Name peer) (hs_Caps sc) now in
          let key := ToLower (p_Name peer) in
          n ← get;
          _ ← (match n_live n !! key with Some old => close old | None => mret tt end);
          _ ← set_link c l;
          _ ← modify (λ n, with_live (<[key := c]> (n_live n)) n);
          _ ← logf now "session up with %q (%s…) from %s";
          _ ← emit (event "peers" (p_Name peer));
          mret (Ok l)
      end
  end.

(** [runSession] starts, and ends when the read loop does. *)
Definition runSession_start (c : nat) (l : Link) : M B unit :=
  _ ← spawn (TPing c); spawn (TFlush (lk_peer l) true).

Definition runSession_end (now : Z) (c : nat) : M B unit :=
  l ← link_at c;
  match l with
  | None => mret tt
  | Some l =>
      _ ← close c;
      _ ← modify (λ n,
            if bool_decide (n_live n !! ToLower (lk_peer l) = Some c)
            then with_live (delete (ToLower (lk_peer l)) (n_live n)) n else n);
      _ ← logf now "session down with %q";
      emit (event "peers" (lk_peer l))
  end.

(** One turn of [pingLoop]. *)
Definition ping (c : nat) : M B unit :=
  r ← send c (bare TypePing);
  match r with Err _ => close c | Ok _ => mret tt end.

(** [serve], up to the end of the session. *)
Definition serve (now : Z) (rnd : option string) (c : nat) (sc : result Handshake) (wantFP : string)
    : M B (result unit) :=
  l ←? establish now rnd c sc wantFP;
  _ ← runSession_start c l;
  mret (Ok tt).

(** [Dial] on a connection, or without one. *)
Definition Dial (now : Z) (rnd : option string) (c : result nat) (sc : result Handshake)
    (fingerprint : string) : M B (result unit) :=
  match c with
  | Err e => mret (Err (Wrapf "dial" e))
  | Ok c =>
      l ← establish now rnd c sc fingerprint;
      match l with
      | Err e => mret (Err (Wrapf "dial" e))
      | Ok _ => _ ← spawn (TRunSession c); mret (Ok tt)
      end
  end.

(** ** Discovery *)

(** One event of [browseLoop]. *)
Definition browse (now : Z) (p : DiscPeer) (up : bool) : M B unit :=
  n ← get;
  if dp_FP p =s? n_myFP n then mret tt else
  _ ← modify (λ n, with_nearby (<[dp_FP p :=
        match n_nearby n !! dp_FP p with
        | Some nb => mkNearby p up now (nb_fails nb) (nb_nextDial nb) (nb_dialing nb)
        | None => mkNearby p up now 0 zero_time false
        end]> (n_nearby n)) n);
  _ ← logf now (if up then "mdns: found %q at %s" else "mdns: %q went away");
  emit (event "peers" "").

(** Whether [dialLoop] leaves a service alone. *)
Definition skip_dial (n : Node B) (now : Z) (fp : string) (nb : Nearby) : bool :=
  negb (nb_up nb) || nb_dialing nb || (now <? nb_nextDial nb) || negb (str_ltb (n_myFP n) fp).

(** The body of [dialLoop]'s loop over the services. *)
Definition dial_entry (now : Z) (fp : string) : M B unit :=
  n ← get;
  match n_nearby n !! fp with
  | None => mret tt
  | Some nb =>
      let stale := nb_up nb && (2 * Minute <? time_Sub now (nb_seen nb)) in
      let nb := if stale then mkNearby (nb_peer nb) false (nb_seen nb) (nb_fails nb)
                               (nb_nextDial nb) (nb_dialing nb) else nb in
      _ ← modify (λ n, with_nearby (<[fp := nb]> (n_nearby n)) n);
      _ ← (if stale then
             _ ← logf now "mdns: %q expired (no announcement for 2m)"; emit (event "peers" "")
           else mret tt);
      if skip_dial n now fp nb then mret tt else
      if bool_decide (is_Some (n_live n !! ToLower (dp_Name (nb_peer nb)))) then mret tt else
      _ ← modify (λ n, with_nearby (<[fp := mkNearby (nb_peer nb) (nb_up nb) (nb_seen nb)
            (nb_fails nb) (nb_nextDial nb) true]> (n_nearby n)) n);
      spawn (TDial fp)
  end.

(** One tick of [dialLoop]. *)
Definition dial_tick (now : Z) : M B unit :=
  n ← get;
  for_each (map_to_list (n_nearby n)).*1 (dial_entry now).

Definition dialDone (now : Z) (rnd : option string) (fp : string) (ok : bool) : M B unit :=
  modify (λ n, with_nearby (alter (λ nb,
    if ok then mkNearby (nb_peer nb) (nb_up nb) (nb_seen nb) 0 (now + DialTick (n_cfg n)) false
    else
      let fails := nb_fails nb + 1 in
      mkNearby (nb_peer nb) (nb_up nb) (nb_seen nb) fails
        (now + jitteredBackoff fails Second (30 * Second) rnd) false) fp (n_nearby n)) n).

(** [dial] when no address answered. *)
Definition dial_failed (now : Z) (rnd : option string) (fp : string) : M B unit :=
  _ ← dialDone now rnd fp false;
  logf now "dial %q failed: %v".

(** ** The user interface (views.go) *)

Definition Verify (name : string) (v : bool) : M B (result unit) :=
  _ ←? on_store (λ s, SetVerified s name v);
  _ ← emit (event "peers" name);
  mret (Ok tt).

Definition AcceptKey (name : string) : M B (result unit) :=
  _ ←? on_store (λ s, AcceptPendingKey s name);
  _ ← emit (event "peers" name);
  mret (Ok tt).

Definition Forget (name : string) : M B (result unit) :=
  l ← linkFor name;
  _ ← (match l with Some (c, _) => close c | None => mret tt end);
  _ ←? on_store (λ s, ForgetPeer s name);
  _ ← emit (event "peers" name);
  mret (Ok tt).

(** [Rename]; [announcer] says whether the announcer is running, and
    [announce_error] whether announcing fails. *)
Definition Rename (now : Z) (announcer announce_error : bool) (name : string)
    : M B (result unit) :=
  match ValidateName name with
  | Err _ => mret (Err (Sentinel ErrBadName))
  | Ok name =>
      _ ←? on_store (λ s, RenameIdentity s name);
      _ ← modify (λ n, with_id (mkIdentity name (id_Private (n_id n)) (id_Public (n_id n))) n);
      n ← get;
      _ ← (if negb announcer then mret tt
           else if announce_error then logf now "re-announce after rename: %v"
           else out (OAnnounce (id_Name (n_id n)) (n_myFP n)));
      _ ← emit (event "me" "");
      mret (Ok tt)
  end.

Definition Outbox : M B (result (list Message)) := read_store (λ s, Pending s "").

Definition DeleteFile_ (id : string) : M B (result unit) :=
  _ ←? on_store (λ s, DeleteFile s id);
  _ ← emit (event "peers" "");
  mret (Ok tt).

Definition DeleteMessage_ (id : string) : M B (result unit) :=
  _ ←? on_store (λ s, DeleteMessage s id);
  _ ← emit (event "peers" "");
  mret (Ok tt).

(** An envelope for a peer with a session, or [ErrUnknownPeer]. *)
Definition send_to (peer : string) (e : Envelope) : M B (result unit) :=
  l ← linkFor peer;
  match l with None => mret (Err (Sentinel ErrUnknownPeer)) | Some (c, _) => send c e end.

Definition SendReaction (peer emoji targetID : string) : M B (result unit) :=
  send_to peer (target_envelope TypeReact emoji targetID).

(** Typing notices and read receipts are sent only when the user allows them. *)
Definition if_allowed (allowed : Settings → bool) (m : M B (result unit)) : M B (result unit) :=
  st ← read_store Settings_;
  match st with
  | Err _ => mret (Ok tt)
  | Ok st => if negb (allowed st) then mret (Ok tt) else m
  end.

Definition SendTyping (peer : string) : M B (result unit) :=
  if_allowed Typing (send_to peer (bare TypeTyping)).
Definition SendReadReceipt (peer targetID : string) : M B (result unit) :=
  if_allowed Receipts (send_to peer (target_envelope TypeRead "" targetID)).
Definition DeleteMessageForEveryone (peer targetID : string) : M B (result unit) :=
  send_to peer (target_envelope TypeDelAll "" targetID).

Definition RemoteCaps (peer : string) : M B (list string) :=
  l ← linkFor peer;
  mret (match l with None => [] | Some (_, l) => lk_caps l end).
End node.
