(* ===== verification/Accept.v ===== *)
(** * Connections that come in (node.go)

    The accept loop with its bound on half-open handshakes.  A slot is taken
    for a connection before its handshake and freed when that ends, whatever
    the outcome; the session that may follow holds none. *)

From S2P Require Import Prelude GoStrings Utf8 Proto Sha256 Identity Base64 Crypto Bolt.
From S2P Require Import StoreData StoreCore StoreMessages StorePeers StoreFiles StoreRooms.
From S2P Require Import Backoff NodeState NodeRooms NodeCore.

(** The capacity of [hsSem]. *)
Definition hsSlots : nat := 32.

Section accept.
Context {B : Type → Type} `{Bolt B} `{Primitives} `{UnicodeTables} `{Wire} `{DiskFaults}.
Implicit Types (n : Node B) (half : gset nat).

(** [hsSem] is the set of connections whose handshake holds a slot. *)
Record listener := mkListener { ls_half : gset nat; ls_node : Node B; ls_running : bool }.

(** [n.logf] and [c.Close()] run beside the slots. *)
Definition on_node (m : M B unit) (l : listener) : listener :=
  mkListener (ls_half l) (m (ls_node l)).2 (ls_running l).

(** One turn of [acceptLoop]: what [Accept] gives; [stopping] says that the
    context is cancelled. *)
Definition acceptLoop (now : Z) (accepted : result nat) (stopping : bool) (l : listener) : listener :=
  if negb (ls_running l) then l else
  match accepted with
  | Err _ =>
      let l := on_node (if stopping then mret tt else logf now "accept: %v") l in
      mkListener (ls_half l) (ls_node l) false
  | Ok c =>
      if (size (ls_half l) <? hsSlots)%nat then mkListener ({[c]} ∪ ls_half l) (ls_node l) true
      else on_node (close c) l
  end.

(** The goroutine of a connection when its handshake ends: [establish] calls
    [release] once, then the rest of [serve] follows. *)
Definition handshake_ends (now : Z) (rnd : option string) (c : nat) (sc : result Handshake) (l : listener)
    : listener :=
  mkListener (ls_half l ∖ {[c]}) (serve now rnd c sc "" (ls_node l)).2 (ls_running l).

(** A connection is accepted once: its number is new. *)
Inductive listen_step : listener → listener → Prop :=
| listen_accept now c stopping l :
    c ∉ ls_half l → n_conns (ls_node l) !! c = None → listen_step l (acceptLoop now (Ok c) stopping l)
| listen_error now e stopping l : listen_step l (acceptLoop now (Err e) stopping l)
| listen_ends now rnd c sc l : c ∈ ls_half l → listen_step l (handshake_ends now rnd c sc l).

Lemma acceptLoop_takes now c stopping l :
  ls_running l = true → (size (ls_half l) < hsSlots)%nat →
  acceptLoop now (Ok c) stopping l = mkListener ({[c]} ∪ ls_half l) (ls_node l) true.
Proof. intros Hr Hs. unfold acceptLoop. rewrite Hr. cbn [negb]. by rewrite (proj2 (Nat.ltb_lt _ _) Hs). Qed.

(** Shedding load: a connection too many is closed, and that is all. *)
Lemma acceptLoop_sheds now c stopping l :
  ls_running l = true → size (ls_half l) = hsSlots →
  acceptLoop now (Ok c) stopping l = mkListener (ls_half l) (with_out (OClose c) (ls_node l)) true.
Proof. intros Hr Hs. unfold acceptLoop, on_node. by rewrite Hr, Hs. Qed.

(** At most [hsSlots] connections are in a handshake nobody authenticated. *)
Lemma slots_bounded l l' :
  rtc listen_step l l' → (size (ls_half l) <= hsSlots)%nat → (size (ls_half l') <= hsSlots)%nat.
Proof.
  induction 1 as [|l l1 l2 Hs _ IH]; [done|]. intros Hl. apply IH. clear IH.
  destruct Hs as [now c stopping l Hc _|now e stopping l|now rnd c sc l Hc].
  - unfold acceptLoop. destruct (ls_running l); [|done]. cbn [negb].
    destruct (Nat.ltb_spec (size (ls_half l)) hsSlots) as [Hlt|]; [|done]. cbn [ls_half].
    rewrite size_union by set_solver. rewrite size_singleton. lia.
  - unfold acceptLoop. destruct (ls_running l); [|done]. by destruct stopping.
  - cbn. etrans; [|exact Hl]. apply subseteq_size. set_solver.
Qed.

(** No slot leaks: when any handshake ends, well or badly, there is room for
    another connection. *)
Lemma slot_comes_back now rnd c sc now' c' stopping l :
  ls_running l = true → c ∈ ls_half l → (size (ls_half l) <= hsSlots)%nat →
  c' ∈ ls_half (acceptLoop now' (Ok c') stopping (handshake_ends now rnd c sc l)).
Proof.
  intros Hr Hc Hl. rewrite acceptLoop_takes; [cbn; set_solver|done|]. cbn.
  assert (Hs : size (ls_half l) = S (size (ls_half l ∖ {[c]}))); [|lia].
  rewrite (union_difference_L {[c]} (ls_half l)) at 1 by set_solver.
  rewrite size_union by set_solver. by rewrite size_singleton.
Qed.
End accept.
