(* ===== verification/Sniff.v ===== *)
(** * Content sniffing (http.DetectContentType)

    The signature table of net/http: the first signature that matches the
    first 512 bytes names the type. *)

From S2P Require Import Prelude GoStrings Utf8.

Inductive signature :=
| exactSig (sig : list Z) (ct : string)
| maskedSig (mask pat : list Z) (skipWS : bool) (ct : string)
| htmlSig (h : string)
| mp4Sig
| textSig.

Definition isWS (b : Z) : bool := (b =? 9) || (b =? 10) || (b =? 12) || (b =? 13) || (b =? 32).
Definition isTT (b : Z) : bool := (b =? 32) || (b =? 62).

Fixpoint is_prefix (p l : list Z) : bool :=
  match p, l with
  | [], _ => true
  | x :: p, y :: l => (x =? y) && is_prefix p l
  | _ :: _, [] => false
  end.

Fixpoint masked_match (mask pat l : list Z) : bool :=
  match mask, pat, l with
  | [], [], _ => true
  | m :: mask, p :: pat, b :: l => (Z.land b m =? p) && masked_match mask pat l
  | _, _, _ => false
  end.

(** Letters of the tag match either case; then a space or [>]. *)
Fixpoint html_match (h l : list Z) : bool :=
  match h, l with
  | [], b :: _ => isTT b
  | c :: h, b :: l =>
      (c =? (if (65 <=? c) && (c <=? 90) then Z.land b 0xDF else b)) && html_match h l
  | _, [] => false
  end.

Fixpoint drop_ws (l : list Z) : list Z :=
  match l with b :: l' => if isWS b then drop_ws l' else l | [] => [] end.

(** The brands of an ftyp box of [boxSize] bytes, from offset [st] on. *)
Fixpoint mp4_brand (fuel : nat) (st boxSize : Z) (data : list Z) : bool :=
  match fuel with
  | O => false
  | S fuel =>
      if st <? boxSize then
        (negb (st =? 12) && bool_decide (take 3 (drop (Z.to_nat st) data) = bytes_of "mp4"))
        || mp4_brand fuel (st + 4) boxSize data
      else false
  end.

Definition mp4_match (data : list Z) : bool :=
  let boxSize := foldl (λ a b, 256 * a + b) 0 (take 4 data) in
  (12 <=? Z.of_nat (length data)) && (boxSize <=? Z.of_nat (length data)) && (boxSize mod 4 =? 0)
  && bool_decide (take 4 (drop 4 data) = bytes_of "ftyp") && mp4_brand (length data) 8 boxSize data.

Definition binary_byte (b : Z) : bool :=
  (b <=? 8) || (b =? 11) || ((14 <=? b) && (b <=? 26)) || ((28 <=? b) && (b <=? 31)).

Definition sig_match (data : list Z) (s : signature) : option string :=
  match s with
  | exactSig sig ct => if is_prefix sig data then Some ct else None
  | maskedSig mask pat ws ct =>
      if masked_match mask pat (if ws then drop_ws data else data) then Some ct else None
  | htmlSig h => if html_match (bytes_of h) (drop_ws data) then Some "text/html; charset=utf-8" else None
  | mp4Sig => if mp4_match data then Some "video/mp4" else None
  | textSig => if existsb binary_byte (drop_ws data) then None else Some "text/plain; charset=utf-8"
  end.

Definition ff (n : nat) : list Z := replicate n 255.
Definition zz (n : nat) : list Z := replicate n 0.
Definition riff (form : string) : list Z := bytes_of "RIFF" ++ zz 4 ++ bytes_of form.

Definition sniffSignatures : list signature :=
  (htmlSig <$> ["<!DOCTYPE HTML"; "<HTML"; "<HEAD"; "<SCRIPT"; "<IFRAME"; "<H1"; "<DIV"; "<FONT"; "<TABLE";
     "<A"; "<STYLE"; "<TITLE"; "<B"; "<BODY"; "<BR"; "<P"; "<!--"]) ++
  [ maskedSig (ff 5) (bytes_of "<?xml") true "text/xml; charset=utf-8";
    exactSig (bytes_of "%PDF-") "application/pdf";
    exactSig (bytes_of "%!PS-Adobe-") "application/postscript";
    maskedSig [255; 255; 0; 0] [254; 255; 0; 0] false "text/plain; charset=utf-16be";
    maskedSig [255; 255; 0; 0] [255; 254; 0; 0] false "text/plain; charset=utf-16le";
    maskedSig [255; 255; 255; 0] [239; 187; 191; 0] false "text/plain; charset=utf-8";
    exactSig [0; 0; 1; 0] "image/x-icon"; exactSig [0; 0; 2; 0] "image/x-icon";
    exactSig (bytes_of "BM") "image/bmp";
    exactSig (bytes_of "GIF87a") "image/gif"; exactSig (bytes_of "GIF89a") "image/gif";
    maskedSig (ff 4 ++ zz 4 ++ ff 6) (riff "WEBPVP") false "image/webp";
    exactSig ([137] ++ bytes_of "PNG" ++ [13; 10; 26; 10]) "image/png";
    exactSig [255; 216; 255] "image/jpeg";
    maskedSig (ff 4 ++ zz 4 ++ ff 4) (bytes_of "FORM" ++ zz 4 ++ bytes_of "AIFF") false "audio/aiff";
    exactSig (bytes_of "ID3") "audio/mpeg";
    exactSig (bytes_of "OggS" ++ [0]) "application/ogg";
    exactSig (bytes_of "MThd" ++ [0; 0; 0; 6]) "audio/midi";
    maskedSig (ff 4 ++ zz 4 ++ ff 4) (riff "AVI ") false "video/avi";
    maskedSig (ff 4 ++ zz 4 ++ ff 4) (riff "WAVE") false "audio/wave";
    mp4Sig;
    exactSig [26; 69; 223; 163] "video/webm";
    maskedSig (zz 34 ++ ff 2) (zz 34 ++ bytes_of "LP") false "application/vnd.ms-fontobject";
    exactSig [0; 1; 0; 0] "font/ttf"; exactSig (bytes_of "OTTO") "font/otf";
    exactSig (bytes_of "ttcf") "font/collection"; exactSig (bytes_of "wOFF") "font/woff";
    exactSig (bytes_of "wOF2") "font/woff2";
    exactSig [31; 139; 8] "application/x-gzip";
    exactSig (bytes_of "PK" ++ [3; 4]) "application/zip";
    exactSig (bytes_of "Rar!" ++ [26; 7; 0]) "application/x-rar-compressed";
    exactSig (bytes_of "Rar!" ++ [26; 7; 1; 0]) "application/x-rar-compressed";
    exactSig [0; 97; 115; 109] "application/wasm";
    textSig ].

Fixpoint first_match (data : list Z) (sigs : list signature) : string :=
  match sigs with
  | [] => "application/octet-stream"
  | s :: sigs => match sig_match data s with Some ct => ct | None => first_match data sigs end
  end.

Definition DetectContentType (data : string) : string := first_match (take 512 (bytes_of data)) sniffSignatures.

(** ** What the type says of the bytes *)

(** The bytes a file of one of the raster types starts with. *)
Definition magic_of (ct : string) (l : list Z) : Prop :=
  (ct = "image/png" ∧ [137; 80; 78; 71; 13; 10; 26; 10] `prefix_of` l) ∨
  (ct = "image/jpeg" ∧ [255; 216; 255] `prefix_of` l) ∨
  (ct = "image/gif" ∧ (bytes_of "GIF87a" `prefix_of` l ∨ bytes_of "GIF89a" `prefix_of` l)) ∨
  (ct = "image/webp" ∧ ∃ size rest, length size = 4%nat ∧ l = bytes_of "RIFF" ++ size ++ bytes_of "WEBPVP" ++ rest).

Lemma is_prefix_spec p l : is_prefix p l = true → p `prefix_of` l.
Proof.
  revert l. induction p as [|x p IH]; intros [|y l]; cbn; try done; [by exists (y :: l)|].
  rewrite andb_true_iff, Z.eqb_eq. intros [-> Hp]. by apply prefix_cons, IH.
Qed.

Lemma first_match_in data sigs ct :
  first_match data sigs = ct → ct = "application/octet-stream" ∨ ∃ s, s ∈ sigs ∧ sig_match data s = Some ct.
Proof.
  induction sigs as [|s sigs IH]; cbn; [by left|]. destruct (sig_match data s) as [ct'|] eqn:E.
  - intros <-. right. exists s. split; [by left|done].
  - intros [?|(s' & ? & ?)]%IH; [by left|]. right. exists s'. split; [by right|done].
Qed.

Definition raster : list string := ["image/png"; "image/jpeg"; "image/gif"; "image/webp"].

Lemma webp_match l :
  Forall is_byte l → masked_match (ff 4 ++ zz 4 ++ ff 6) (riff "WEBPVP") l = true → magic_of "image/webp" l.
Proof.
  intros Hl Hm. right; right; right. split; [done|].
  assert (Hff : ∀ b p, is_byte b → (Z.land b 255 =? p) = true → b = p).
  { intros b p Hb Hp. apply Z.eqb_eq in Hp. rewrite <- Hp. change 255 with (Z.ones 8).
    rewrite Z.land_ones by lia. symmetry. apply Z.mod_small. done. }
  do 14 (destruct l as [|? l]; [by cbn in Hm; rewrite ?andb_false_r in Hm|]).
  cbn in Hm. rewrite !andb_true_iff in Hm.
  repeat match goal with
  | H : _ ∧ _ |- _ => destruct H
  | H : Forall is_byte (_ :: _) |- _ => apply Forall_cons in H as [? H]
  | H : (Z.land ?b 255 =? _) = true |- _ => apply Hff in H; [subst b|assumption]
  end.
  eexists [_; _; _; _], l. split; reflexivity.
Qed.

(** Every signature of a raster type is one of these. *)
Lemma raster_signatures :
  Forall (λ s, ∀ l ct, Forall is_byte l → sig_match l s = Some ct → ct ∈ raster → magic_of ct l) sniffSignatures.
Proof.
  assert (Hno : ∀ s ct0, (∀ l ct, sig_match l s = Some ct → ct = ct0) → ct0 ∉ raster →
    ∀ l ct, Forall is_byte l → sig_match l s = Some ct → ct ∈ raster → magic_of ct l).
  { intros s ct0 Hs Hn l ct _ Hm Hin. by rewrite (Hs l ct Hm) in Hin. }
  unfold sniffSignatures. apply Forall_app. split.
  - apply Forall_fmap, Forall_forall. intros h _.
    refine (Hno _ "text/html; charset=utf-8" _ _); [|set_solver]. intros l ct. cbn. case_match; congruence.
  - repeat first [apply Forall_nil_2|apply Forall_cons_2];
      try (lazymatch goal with
      | |- context [exactSig _ ?c] => refine (Hno _ c _ _)
      | |- context [maskedSig _ _ _ ?c] => refine (Hno _ c _ _)
      | |- context [mp4Sig] => refine (Hno _ "video/mp4" _ _)
      | |- context [textSig] => refine (Hno _ "text/plain; charset=utf-8" _ _)
      end; [intros l ct; cbn; case_match; congruence|unfold raster; set_solver]);
      intros l ct Hl; cbn [sig_match]; (destruct (is_prefix _ _) eqn:Hp || destruct (masked_match _ _ _) eqn:Hp);
      try done; intros [= <-] _; try (by apply webp_match); apply is_prefix_spec in Hp.
    + right; right; left. eauto.
    + right; right; left. eauto.
    + left. done.
    + right; left. done.
Qed.

Lemma DetectContentType_raster data ct :
  DetectContentType data = ct → ct ∈ raster → magic_of ct (bytes_of data).
Proof.
  intros Hd Hin. apply first_match_in in Hd as [->|(s & Hs & Hm)]; [unfold raster in Hin; set_solver|].
  pose proof raster_signatures as Ht. rewrite Forall_forall in Ht.
  pose proof (Ht s Hs _ _ (Forall_take _ _ _ (bytes_of_range data)) Hm Hin) as Hmag. clear Hm.
  assert (Hpre : ∀ p, p `prefix_of` take 512 (bytes_of data) → p `prefix_of` bytes_of data).
  { intros p Hp. etrans; [exact Hp|]. exists (drop 512 (bytes_of data)). by rewrite take_drop. }
  destruct Hmag as [[? ?]|[[? ?]|[[? [?|?]]|[? (sz & r & Hz & E)]]]]; [left|right; left|do 2 right; left..|do 3 right];
    split; auto. exists sz, (r ++ drop 512 (bytes_of data)). split; [done|].
  rewrite <- (take_drop 512 (bytes_of data)) at 1. by rewrite E, <- !app_assoc.
Qed.
