(* ===== verification/Api.v ===== *)
(** * The local HTTP interface (internal/api/api.go)

    The hardening middleware, the route table and every handler over the app:
    a request and what the machine answers to it ([Env]) give a response and
    the app afterwards, or nothing if the handler panics.  A response carries
    the value handed to the JSON encoder, not its text.  net/url and
    mime/multipart are the class [Web]; static files are the server's. *)

From stdpp Require Import sorting.
From S2P Require Import Prelude GoStrings Utf8 Proto Sha256 Identity Base64 Json Codec Crypto Backup Bolt.
From S2P Require Import StoreData StoreCore StoreMessages StorePeers StoreFiles StoreRooms.
From S2P Require Import Backoff Invite NodeState NodeRooms NodeViews NodeCore App Sniff.

Definition maxBody : Z := Z.shiftl 64 10.
Definition maxFileUpload : Z := MaxFileSize + Z.shiftl 1 20.

(** [url.Parse(o)] up to its host. *)
Class Web := { url_Host : string → result string }.

(** A request; [rq_segs] are the segments of the escaped path after the first
    slash, [rq_upload] the name and content of the form's file, if the body
    is a form with one. *)
Record Request := mkRequest {
  rq_Method : string; rq_Host : string; rq_segs : list string; rq_query : list (string * string);
  rq_XChirp : string; rq_Origin : string; rq_Body : string; rq_upload : result (string * string) }.

(** ** Percent decoding and the path *)

Fixpoint unescape (l : list Z) : list Z :=
  match l with
  | 37 :: a :: b :: l' =>
      match hex_val a, hex_val b with
      | Some x, Some y => 16 * x + y :: unescape l'
      | _, _ => l
      end
  | b :: l' => b :: unescape l'
  | [] => []
  end.
Definition PathUnescape (s : string) : string := of_bytes (unescape (bytes_of s)).

(** [r.URL.Path]. *)
Definition URL_Path (r : Request) : string :=
  foldr (λ s p, "/" +:+ (PathUnescape s +:+ p)) "" (rq_segs r).

(** Whether the multiplexer serves the path rather than redirect to a cleaned one. *)
Definition dots (s : string) : bool := (s =s? ".") || (s =s? "..").
Definition is_clean (segs : list string) : bool :=
  forallb (λ s, negb (dots s)) segs && forallb (λ s, negb (s =s? "")) (removelast segs).

(** [r.URL.Query().Get(k)]. *)
Definition Query (r : Request) (k : string) : string :=
  default "" (snd <$> List.find (λ kv, kv.1 =s? k) (rq_query r)).

(** ** Responses *)

Inductive payload :=
| PNone | PError (msg : string) | POk | PRedirect | PStatic | PStream (sub : Z) | PRaw (data : string)
| PState (setup locked : bool) (me : option MeT)
| PMe (me : MeT) | PPeers (l : list PeerView) | PMessages (l : list Message) | PMessage (m : Message)
| PInvite (i : InviteT) | PParsed (host port fp : string) | PDiag (d : Diag) | PSettings (st : Settings)
| PRooms (l : list RoomView) | PRoomRec (r : Room) | PRoom (r : RoomView)
| PRoomMessages (l : list RoomMessage) | PRoomMessage (m : RoomMessage)
| PSearch (l : list (Message * string)) | PFiles (l : list File) | PFile (f : File)
| PSent (id name : string).

(** Status, headers (a later one of a name replaces an earlier), the name in
    Content-Disposition, and the body. *)
Record Response := mkResponse {
  rs_Code : Z; rs_Headers : list (string * string); rs_Filename : option string; rs_Body : payload }.

Definition writeJSON (code : Z) (v : payload) : Response :=
  mkResponse code [("Content-Type", "application/json")] None v.
Definition writeErr (code : Z) (msg : string) : Response := writeJSON code (PError msg).
Definition ok_true : Response := writeJSON 200 POk.

Definition fail (err : error) : Response :=
  if errors_is err ErrUnknownPeer || errors_is err ErrNotFound then writeErr 404 "not found"
  else if errors_is err ErrKeyChanged then writeErr 409 (error_text err)
  else if errors_is err ErrBadBody then writeErr 400 (error_text err)
  else if errors_is err ErrBadPassphrase then writeErr 401 (error_text err)
  else writeErr 500 (error_text err).

Definition http_Error (code : Z) (msg : string) : Response :=
  mkResponse code [("Content-Type", "text/plain; charset=utf-8"); ("X-Content-Type-Options", "nosniff")] None
    (PError msg).

Definition sanitizeFilename (name : string) : string :=
  if name =s? "" then "file" else
  let after c l := match cut_last c l with Some (_, l') => l' | None => l end in
  let name := of_bytes (after 92 (after 47 (bytes_of name))) in
  if (name =s? "") || (name =s? ".") || (name =s? "..") then "file" else name.

(** [ct] up to a semicolon, as [filePreview] cuts it. *)
Definition media_type (ct : string) : string :=
  match cut_byte 59 (bytes_of ct) with (t, Some _) => TrimSpace (of_bytes t) | _ => ct end.

(** ** Handlers *)

Section api.
Context {B : Type → Type} `{Bolt B} `{Primitives} `{Curve} `{UnicodeTables} `{Wire} `{DiskFaults} `{QR} `{Web}.

(** The machine, for one request: the clock, the random reads, the sockets,
    what a dialled connection and its handshake give, what starting a node
    and reopening the database give. *)
Record Env := mkEnv {
  e_now : Z; e_rng : string; e_rnd : option string; e_rnd2 : option string; e_keygen : result string;
  e_sockets : Sockets; e_start : StartEnv; e_disk : Disk B; e_conn : result nat; e_hs : result Handshake;
  e_ifaces : result (list Iface); e_announcer : bool; e_announce_error : bool }.

(** A handler may change the app and may panic. *)
Definition Hd (A : Type) : Type := App B → option (A * App B).
#[export] Instance Hd_ret : MRet Hd := λ A x a, Some (x, a).
#[export] Instance Hd_bind : MBind Hd := λ A A' f m a, '(x, a) ← m a; f x a.

Definition get_app : Hd (App B) := λ a, Some (a, a).
Definition set_app (a : App B) : Hd unit := λ _, Some (tt, a).
Definition panic {A} : Hd A := λ _, None.
Definition from_option_panic {A} (o : option A) : Hd A := match o with Some x => mret x | None => panic end.

(** An operation of the node, and a look at it. *)
Definition node_do {A} (m : M B A) : Hd A := λ a,
  n ← a_n a; let (x, n) := m n in Some (x, with_n n a).
Definition node_see {A} (f : Node B → A) : Hd A := λ a, n ← a_n a; Some (f n, a).

Definition reply {A} (r : result A) (ok : A → Response) : Hd Response :=
  mret (match r with Ok x => ok x | Err e => fail e end).

Definition needNode (f : Hd Response) : Hd Response := λ a,
  match a_n a with None => Some (writeErr 409 "setup required", a) | Some _ => f a end.

Definition handler := Env → Request → (string → string) → Hd Response.

Definition isFileUpload (r : Request) : bool := Contains (URL_Path r) "/file" && (rq_Method r =s? "POST").
Definition limit_of (r : Request) : Z := if isFileUpload r then maxFileUpload else maxBody.

(** [http.MaxBytesReader]: what can be read of the body. *)
Definition limited (r : Request) : string :=
  if slen (rq_Body r) <=? limit_of r then rq_Body r else str_take (Z.to_nat (limit_of r)) (rq_Body r).

(** [readJSON]: the first value of the body, which no unknown field may be in;
    past the limit a value that does not end by itself is an error. *)
Definition read_value {R} (fields : list (field R)) (zero : R) (r : Request) : option R :=
  '(v, rest) ← parse (limited r);
  match v with
  | JObj _ | JArr _ => of_json true fields v zero
  | _ => if (limit_of r <? slen (rq_Body r)) && bool_decide (rest = []) then None
         else of_json true fields v zero
  end.
Definition readJSON {R} (fields : list (field R)) (zero : R) (r : Request) (k : R → Hd Response) : Hd Response :=
  match read_value fields zero r with
  | None => mret (writeErr 400 "invalid JSON body")
  | Some x => k x
  end.

(** The anonymous structs of the handlers. *)
Definition one (name : string) : list (field string) := [required_field name (λ s, s) (λ s _, s)].
Definition two (a b : string) : list (field (string * string)) :=
  [required_field a fst (λ s x, (s, x.2)); required_field b snd (λ s x, (x.1, s))].
Definition dial_fields : list (field (string * string * string)) :=
  [required_field "host" (λ x, x.1.1) (λ s x, (s, x.1.2, x.2));
   required_field "port" (λ x, x.1.2) (λ s x, (x.1.1, s, x.2));
   required_field "fingerprint" snd (λ s x, (x.1, s))].
Definition room_fields : list (field (string * list string)) :=
  [required_field "name" fst (λ s x, (s, x.2)); strings_field "members" snd (λ l x, (x.1, l))].
Definition bool_field {R} (name : string) (get : R → bool) (upd : bool → R → R) : field R :=
  mkField name (λ r, Some (JBool (get r)))
    (λ v r, match v with JBool b => Some (upd b r) | JNull => Some r | _ => None end).
Definition settings_fields : list (field Settings) :=
  [ required_int "retentionDays" RetentionDays
      (λ x st, mkSettings x (Notify st) (Previews st) (Typing st) (Receipts st));
    bool_field "notify" Notify (λ x st, mkSettings (RetentionDays st) x (Previews st) (Typing st) (Receipts st));
    bool_field "previews" Previews (λ x st, mkSettings (RetentionDays st) (Notify st) x (Typing st) (Receipts st));
    bool_field "typing" Typing (λ x st, mkSettings (RetentionDays st) (Notify st) (Previews st) x (Receipts st));
    bool_field "receipts" Receipts (λ x st, mkSettings (RetentionDays st) (Notify st) (Previews st) (Typing st) x) ].

(** *** Setup *)

Definition state : handler := λ env _ _,
  a ← get_app;
  match a_n a with
  | None =>
      let locked := match a_openErr a with Some e => errors_is e ErrPassphraseRequired | None => false end in
      mret (writeJSON 200 (PState true locked None))
  | Some n => mret (writeJSON 200 (PState false false (Some (Me (e_sockets env) n))))
  end.

Definition unlock : handler := λ env r p,
  readJSON (one "passphrase") "" r (λ pass,
    a ← get_app;
    match Unlock (e_start env) (e_now env) (e_disk env) (a_cfg a) pass with
    | Err e =>
        if errors_is e ErrPassphraseRequired || Contains (ToLower (error_text e)) "passphrase"
        then mret (writeErr 401 "wrong passphrase")
        else mret (writeErr 500 (error_text e))
    | Ok next => _ ← set_app (Replace next a); state env r p
    end).

Definition enablePassphrase : handler := λ env r _,
  readJSON (one "passphrase") "" r (λ pass a,
    '(res, a) ← App.EnablePassphrase (e_rnd2 env) (e_rnd env) pass a;
    Some (match res with Err e => writeErr 400 (error_text e) | Ok _ => ok_true end, a)).

Definition setup : handler := λ env r p,
  readJSON (one "name") "" r (λ name,
    res ← Setup (e_start env) (e_now env) (e_keygen env) (e_rnd env) name;
    match res with Err e => mret (writeErr 400 (error_text e)) | Ok _ => state env r p end).

Definition restore : handler := λ env r p,
  readJSON (two "backup" "passphrase") ("", "") r (λ inp,
    res ← Restore (e_start env) (e_now env) (e_rnd env) inp.1 inp.2;
    match res with
    | Err e => mret (if errors_is e ErrBadPassphrase then fail e else writeErr 400 (error_text e))
    | Ok _ => state env r p
    end).

Definition me : handler := λ env _ _, m ← node_see (Me (e_sockets env)); mret (writeJSON 200 (PMe m)).

Definition rename : handler := λ env r p,
  readJSON (one "name") "" r (λ name,
    res ← node_do (Rename (e_now env) (e_announcer env) (e_announce_error env) name);
    match res with Err e => mret (fail e) | Ok _ => me env r p end).

Definition backup : handler := λ env r _,
  readJSON (one "passphrase") "" r (λ pass,
    a ← get_app;
    mret (match App.Backup (e_rnd2 env) (e_rnd env) pass a with
          | Err e => writeErr 400 (error_text e)
          | Ok data => mkResponse 200 [("Content-Type", "application/json")] (Some "chirp-key-backup.json") (PRaw data)
          end)).

(** *** Peers and messages *)

Definition peers : handler := λ env _ _,
  ps ← node_see (Peers (e_sockets env)); reply ps (λ ps, writeJSON 200 (PPeers ps)).
Definition messages : handler := λ _ _ p,
  ms ← node_see (λ n, Messages (n_store n) (p "name") 300); reply ms (λ ms, writeJSON 200 (PMessages ms)).
Definition send_ : handler := λ env r p,
  readJSON (two "body" "replyTo") ("", "") r (λ inp,
    m ← node_do (SendReply (e_now env) (e_rng env) (e_rnd env) (p "name") inp.1 inp.2);
    reply m (λ m, writeJSON 201 (PMessage m))).
Definition verify : handler := λ _ r p,
  readJSON [bool_field "verified" (λ b, b) (λ b _, b)] false r (λ v,
    res ← node_do (Verify (p "name") v); reply res (λ _, ok_true)).
Definition acceptKey : handler := λ _ _ p,
  res ← node_do (AcceptKey (p "name"));
  mret (match res with
        | Ok _ => ok_true
        | Err e => if errors_is e ErrNotFound then fail e else writeErr 409 (error_text e)
        end).
Definition retry : handler := λ _ _ p, _ ← node_do (RetryNow (p "name")); mret (writeJSON 202 POk).
Definition forget : handler := λ _ _ p, res ← node_do (Forget (p "name")); reply res (λ _, ok_true).
Definition dial : handler := λ env r _,
  readJSON dial_fields ("", "", "") r (λ inp,
    res ← node_do (Dial (e_now env) (e_rnd env) (e_conn env) (e_hs env) inp.2);
    mret (match res with
          | Ok _ => ok_true
          | Err e =>
              if errors_is e ErrFPMismatch
              then writeErr 403 "the key the remote presented does not match the fingerprint you gave; nothing was trusted"
              else writeErr 502 (error_text e)
          end)).
Definition invite : handler := λ env _ _,
  i ← node_see (λ n, Invite (e_ifaces env) (sk_port (e_sockets env)) (n_myFP n));
  reply i (λ i, writeJSON 200 (PInvite i)).
Definition parseInvite : handler := λ _ r _,
  readJSON (one "uri") "" r (λ uri,
    mret (match ParseInvite uri with
          | Err e => writeErr 400 (error_text e)
          | Ok (host, port, fp) => writeJSON 200 (PParsed host port fp)
          end)).
Definition outbox : handler := λ _ _ _,
  ms ← node_see (λ n, Pending (n_store n) ""); reply ms (λ ms, writeJSON 200 (PMessages ms)).
Definition deleteOutbox : handler := λ _ _ p,
  res ← node_do (DeleteFromOutbox_ (p "id")); reply res (λ _, ok_true).
Definition diagnostics : handler := λ env _ _,
  d ← node_see (Diagnostics (e_sockets env) (e_now env)); mret (writeJSON 200 (PDiag d)).
Definition getSettings : handler := λ _ _ _,
  st ← node_see (λ n, Settings_ (n_store n)); reply st (λ st, writeJSON 200 (PSettings st)).
Definition putSettings : handler := λ _ r _,
  readJSON settings_fields (mkSettings 0 false false false false) r (λ st,
    res ← node_do (on_store (λ s, SaveSettings s st));
    mret (match res with Err e => writeErr 400 (error_text e) | Ok _ => writeJSON 200 (PSettings st) end)).
Definition clearMessages : handler := λ _ _ _,
  res ← node_do (on_store DeleteAllMessages);
  match res with
  | Err e => mret (fail e)
  | Ok _ => _ ← node_do (emit (event "peers" "")); mret ok_true
  end.
(** Up to the subscription; the loop is in [Stream]. *)
Definition events : handler := λ _ _ _,
  id ← node_do Subscribe;
  mret (mkResponse 200 [("Content-Type", "text/event-stream"); ("X-Accel-Buffering", "no")] None (PStream id)).
Definition react : handler := λ _ r p,
  readJSON (two "emoji" "target") ("", "") r (λ inp,
    res ← node_do (SendReaction (p "name") inp.1 inp.2); reply res (λ _, ok_true)).
Definition typing : handler := λ _ _ p, res ← node_do (SendTyping (p "name")); reply res (λ _, ok_true).
Definition readReceipt : handler := λ _ r p,
  readJSON (one "target") "" r (λ t, res ← node_do (SendReadReceipt (p "name") t); reply res (λ _, ok_true)).

Definition deleteMessage : handler := λ _ r p,
  let delete_here : Hd Response := res ← node_do (DeleteMessage_ (p "id")); reply res (λ _, ok_true) in
  if Query r "everyone" =s? "1" then
    if Query r "peer" =s? "" then mret (writeErr 400 "peer is required to delete for everyone") else
    res ← node_do (DeleteMessageForEveryone (Query r "peer") (p "id"));
    match res with Err e => mret (fail e) | Ok _ => delete_here end
  else delete_here.

Definition search : handler := λ _ r _,
  if TrimSpace (Query r "q") =s? "" then mret (writeJSON 200 (PSearch [])) else
  res ← node_see (λ n, Search (n_store n) (Query r "q") 50);
  res ← from_option_panic res;
  reply res (λ l, writeJSON 200 (PSearch l)).

(** *** Rooms *)

Definition rooms : handler := λ _ _ _, rs ← node_see Rooms; reply rs (λ rs, writeJSON 200 (PRooms rs)).
Definition createRoom : handler := λ env r _,
  readJSON room_fields ("", []) r (λ inp,
    room ← node_do (CreateRoom_ (e_now env) (e_rng env) (e_rnd env) inp.1 inp.2);
    reply room (λ room, writeJSON 201 (PRoomRec room))).
Definition getRoom_ : handler := λ _ _ p,
  room ← node_see (λ n, GetRoom_ n (p "id")); reply room (λ room, writeJSON 200 (PRoom room)).
Definition roomMessages : handler := λ _ _ p,
  ms ← node_see (λ n, RoomMessages (n_store n) (p "id") 300); reply ms (λ ms, writeJSON 200 (PRoomMessages ms)).
Definition sendRoomMessage : handler := λ env r p,
  readJSON (one "body") "" r (λ body,
    m ← node_do (SendRoomMessage (e_now env) (e_rng env) (e_rnd env) (p "id") body);
    reply m (λ m, writeJSON 201 (PRoomMessage m))).
Definition deleteRoom : handler := λ env _ p,
  res ← node_do (LeaveRoom (e_now env) (e_rnd env) (p "id")); reply res (λ _, ok_true).
Definition addRoomMember : handler := λ env r p,
  readJSON (one "name") "" r (λ name,
    res ← node_do (AddRoomMember (e_now env) (e_rnd env) (p "id") name); reply res (λ _, ok_true)).
Definition removeRoomMember : handler := λ env _ p,
  res ← node_do (RemoveRoomMember (e_now env) (e_rnd env) (p "id") (p "name")); reply res (λ _, ok_true).
Definition acceptRoom : handler := λ env _ p,
  res ← node_do (AcceptRoomInvite (e_now env) (e_rnd env) (p "id")); reply res (λ _, ok_true).
Definition declineRoom : handler := λ env _ p,
  res ← node_do (DeclineRoomInvite (e_now env) (p "id")); reply res (λ _, ok_true).
Definition reactRoomMessage : handler := λ env r p,
  readJSON (one "emoji") "" r (λ emoji,
    res ← node_do (SendRoomReaction (e_now env) (p "id") (p "msgId") emoji); reply res (λ _, ok_true)).
Definition renameRoom : handler := λ env r p,
  readJSON (one "name") "" r (λ name,
    res ← node_do (RenameRoom (e_now env) (e_rnd env) (p "id") name); reply res (λ _, ok_true)).

(** *** Files *)

Definition sendFile : handler := λ env r p,
  if limit_of r <? slen (rq_Body r) then mret (writeErr 400 "could not parse upload") else
  match rq_upload r with
  | Err e => mret (writeErr 400 ("no file in upload: " +:+ error_text e))
  | Ok (filename, content) =>
      let data := if slen content <=? MaxFileSize + 1 then content
                  else str_take (Z.to_nat (MaxFileSize + 1)) content in
      let name := sanitizeFilename filename in
      id ← node_do (SendFile (e_now env) (e_rng env) (e_rnd env) (p "name") name data);
      reply id (λ id, writeJSON 201 (PSent id name))
  end.
Definition files : handler := λ _ _ _,
  fs ← node_see (λ n, ListFiles (n_store n)); reply fs (λ fs, writeJSON 200 (PFiles fs)).
Definition getFile : handler := λ _ _ p,
  f ← node_see (λ n, GetFile (n_store n) (p "id")); reply f (λ f, writeJSON 200 (PFile f)).

Definition fileData : handler := λ _ _ p,
  data ← node_see (λ n, FileData (n_store n) (p "id"));
  f ← node_see (λ n, GetFile (n_store n) (p "id"));
  reply data (λ data,
    mkResponse 200 [("Content-Type", "application/octet-stream"); ("Content-Length", num (slen data))]
      (match f with Ok f => if f_Name f =s? "" then None else Some (sanitizeFilename (f_Name f)) | Err _ => None end)
      (PRaw data)).

Definition previewable : list string := ["image/png"; "image/jpeg"; "image/gif"; "image/webp"].

Definition filePreview : handler := λ _ _ p,
  f ← node_see (λ n, GetFile (n_store n) (p "id"));
  data ← node_see (λ n, FileData (n_store n) (p "id"));
  reply f (λ f,
    if negb (f_Dir f =s? DirIn) || negb (f_Status f =s? FileComplete)
    then writeErr 404 "no preview for this file" else
    match data with
    | Err e => fail e
    | Ok data =>
        let ct := media_type (DetectContentType data) in
        if negb (bool_decide (ct ∈ previewable)) then writeErr 415 "not a previewable image" else
        mkResponse 200 [("Content-Type", ct); ("Content-Length", num (slen data));
          ("X-Content-Type-Options", "nosniff"); ("Content-Security-Policy", "sandbox; default-src 'none'");
          ("Content-Disposition", "inline")] None (PRaw data)
    end).

Definition deleteFile : handler := λ _ _ p,
  res ← node_do (DeleteFile_ (p "id")); reply res (λ _, ok_true).

(** ** Routes *)

(** A pattern's segments against the path's: a wildcard takes a segment that
    is not empty, a literal itself. *)
Definition wildcard (s : string) : option string :=
  if has_prefix s "{" then Some (str_take (String.length s - 2) (str_drop 1 s)) else None.
Fixpoint match_segs (pat segs : list string) : option (list (string * string)) :=
  match pat, segs with
  | [], [] => Some []
  | x :: pat, s :: segs =>
      match wildcard x with
      | Some name => if s =s? "" then None else vs ← match_segs pat segs; Some ((name, PathUnescape s) :: vs)
      | None => if x =s? PathUnescape s then match_segs pat segs else None
      end
  | _, _ => None
  end.
Definition PathValue (vs : list (string * string)) (k : string) : string :=
  default "" (snd <$> List.find (λ kv, kv.1 =s? k) vs).

Definition node_route (h : handler) : handler := λ env r p, needNode (h env r p).

(** The patterns of [New], method and path. *)
Definition routes : list (string * string * handler) :=
  [ ("GET", "api/state", state);
    ("POST", "api/setup", setup);
    ("POST", "api/restore", restore);
    ("POST", "api/unlock", unlock);
    ("POST", "api/passphrase", node_route enablePassphrase);
    ("GET", "api/me", node_route me);
    ("POST", "api/me/rename", node_route rename);
    ("GET", "api/peers", node_route peers);
    ("GET", "api/peers/{name}/messages", node_route messages);
    ("POST", "api/peers/{name}/messages", node_route send_);
    ("POST", "api/peers/{name}/verify", node_route verify);
    ("POST", "api/peers/{name}/accept-key", node_route acceptKey);
    ("POST", "api/peers/{name}/retry", node_route retry);
    ("POST", "api/peers/{name}/react", node_route react);
    ("POST", "api/peers/{name}/typing", node_route typing);
    ("POST", "api/peers/{name}/read", node_route readReceipt);
    ("DELETE", "api/messages/{id}", node_route deleteMessage);
    ("GET", "api/search", node_route search);
    ("DELETE", "api/peers/{name}", node_route forget);
    ("POST", "api/dial", node_route dial);
    ("POST", "api/invite/parse", node_route parseInvite);
    ("GET", "api/invite", node_route invite);
    ("GET", "api/outbox", node_route outbox);
    ("DELETE", "api/outbox/{id}", node_route deleteOutbox);
    ("GET", "api/diagnostics", node_route diagnostics);
    ("GET", "api/settings", node_route getSettings);
    ("PUT", "api/settings", node_route putSettings);
    ("POST", "api/messages/clear", node_route clearMessages);
    ("POST", "api/backup", node_route backup);
    ("GET", "api/events", node_route events);
    ("POST", "api/peers/{name}/file", node_route sendFile);
    ("GET", "api/files", node_route files);
    ("GET", "api/files/{id}", node_route getFile);
    ("GET", "api/files/{id}/data", node_route fileData);
    ("GET", "api/files/{id}/preview", node_route filePreview);
    ("DELETE", "api/files/{id}", node_route deleteFile);
    ("GET", "api/rooms", node_route rooms);
    ("POST", "api/rooms", node_route createRoom);
    ("GET", "api/rooms/{id}", node_route getRoom_);
    ("GET", "api/rooms/{id}/messages", node_route roomMessages);
    ("POST", "api/rooms/{id}/messages", node_route sendRoomMessage);
    ("DELETE", "api/rooms/{id}", node_route deleteRoom);
    ("POST", "api/rooms/{id}/members", node_route addRoomMember);
    ("DELETE", "api/rooms/{id}/members/{name}", node_route removeRoomMember);
    ("POST", "api/rooms/{id}/rename", node_route renameRoom);
    ("POST", "api/rooms/{id}/messages/{msgId}/react", node_route reactRoomMessage);
    ("POST", "api/rooms/{id}/accept", node_route acceptRoom);
    ("POST", "api/rooms/{id}/decline", node_route declineRoom) ].

(** A GET pattern serves HEAD as well. *)
Definition is_read (m : string) : bool := (m =s? "GET") || (m =s? "HEAD").
Definition method_match (pat m : string) : bool := if pat =s? "GET" then is_read m else pat =s? m.

Fixpoint find_route (rs : list (string * string * handler)) (r : Request)
    : option (handler * list (string * string)) :=
  match rs with
  | [] => None
  | (m, pat, h) :: rs =>
      match (if method_match m (rq_Method r) then match_segs (split_slash pat) (rq_segs r) else None) with
      | Some vs => Some (h, vs)
      | None => find_route rs r
      end
  end.

(** The multiplexer: a route, the static files at ["GET /"], or neither. *)
Definition ServeHTTP (env : Env) (r : Request) : Hd Response :=
  if negb (is_clean (rq_segs r)) then mret (mkResponse 301 [] None PRedirect) else
  match find_route routes r with
  | Some (h, vs) => h env r (PathValue vs)
  | None => if is_read (rq_Method r) then mret (mkResponse 200 [] None PStatic)
            else mret (http_Error 405 "Method Not Allowed")
  end.

(** ** The middleware *)

Definition loopback (host : string) : bool := existsb (λ h, h =s? host) ["127.0.0.1"; "localhost"; "[::1]"; "::1"].
Definition hostname (r : Request) : string :=
  match SplitHostPort (rq_Host r) with Ok (host, _) => host | Err _ => rq_Host r end.

Definition security_headers : list (string * string) :=
  [("Content-Security-Policy", "default-src 'none'; script-src 'self'; style-src 'self'; img-src 'self' data:; font-src 'self'; connect-src 'self'; base-uri 'none'; form-action 'none'; frame-ancestors 'none'");
   ("X-Content-Type-Options", "nosniff"); ("Referrer-Policy", "no-referrer"); ("Cache-Control", "no-store")].

Definition harden (resp : Response) : Response :=
  mkResponse (rs_Code resp) (security_headers ++ rs_Headers resp) (rs_Filename resp) (rs_Body resp).

Definition origin_ok (r : Request) : bool :=
  (rq_Origin r =s? "") ||
  match url_Host (rq_Origin r) with Ok h => h =s? rq_Host r | Err _ => false end.

Definition secure (next : Request → Hd Response) (r : Request) : Hd Response :=
  if negb (loopback (hostname r)) then mret (http_Error 403 "forbidden host") else
  let refuse msg := mret (harden (http_Error 403 msg)) in
  if negb (is_read (rq_Method r)) && negb (rq_XChirp r =s? "1") then refuse "missing X-Chirp header" else
  if negb (is_read (rq_Method r)) && negb (origin_ok r) then refuse "cross-origin request refused" else
  resp ← next r; mret (harden resp).

(** [s.Handler()]. *)
Definition Handler (env : Env) (r : Request) : Hd Response := secure (ServeHTTP env) r.
End api.

(** ** File names *)

Lemma cut_last_occurs c l1 l2 : cut_last c (l1 ++ c :: l2) ≠ None.
Proof.
  induction l1 as [|b l1 IH]; cbn; [|by destruct (cut_last c _) as [[]|]; naive_solver].
  destruct (cut_last c l2) as [[]|]; [done|]. by rewrite Z.eqb_refl.
Qed.

Lemma cut_last_inv c l p r : cut_last c l = Some (p, r) → l = p ++ c :: r ∧ c ∉ r.
Proof.
  revert p. induction l as [|b l IH]; intros p; cbn; [done|].
  destruct (cut_last c l) as [[p' r']|] eqn:E.
  - intros [= <- <-]. destruct (IH p' eq_refl) as [-> ?]. done.
  - destruct (Z.eqb_spec b c) as [->|]; [|done]. intros [= <- <-]. split; [done|].
    intros (l1 & l2 & ->)%list_elem_of_split. by apply cut_last_occurs in E.
Qed.

(** What follows the last [c], or the whole. *)
Lemma after_last c l :
  let r := match cut_last c l with Some (_, r) => r | None => l end in (c ∉ r) ∧ (∀ x, x ∈ r → x ∈ l).
Proof.
  cbv zeta. destruct (cut_last c l) as [[p r]|] eqn:E.
  - apply cut_last_inv in E as [-> Hc]. split; [done|]. intros x Hx. apply elem_of_app. right. by right.
  - split; [|done]. intros (l1 & l2 & ->)%list_elem_of_split. by apply cut_last_occurs in E.
Qed.

(** The name a file is stored and offered under is one path component. *)
Lemma sanitizeFilename_plain name :
  StoreData.plain (sanitizeFilename name) ∧ 92 ∉ bytes_of (sanitizeFilename name).
Proof.
  unfold sanitizeFilename. cbv zeta.
  assert (Hf : StoreData.plain "file" ∧ 92 ∉ bytes_of "file").
  { split; [split_and!; try done|]; vm_compute; set_solver. }
  destruct (name =s? ""); [exact Hf|].
  destruct (after_last 47 (bytes_of name)) as [H1 H2].
  set (l1 := match cut_last 47 (bytes_of name) with Some (_, r) => r | None => bytes_of name end) in *.
  destruct (after_last 92 l1) as [H3 H4].
  set (l2 := match cut_last 92 l1 with Some (_, r) => r | None => l1 end) in *.
  assert (Hr : Forall is_byte l2).
  { apply Forall_forall. intros x Hx. pose proof (bytes_of_range name) as Hb. rewrite Forall_forall in Hb.
    apply Hb. by apply H2, H4. }
  destruct ((of_bytes l2 =s? "") || _ || _) eqn:E; [exact Hf|].
  apply orb_false_iff in E as [[E1 E2]%orb_false_iff E3]. apply eqs_false in E1, E2, E3.
  unfold StoreData.plain. rewrite bytes_of_of by done. split_and!; [done..| |].
  - intros Hx. by apply H1, H4.
  - done.
Qed.

(** ** Requests that change nothing *)

Section facts.
Context {B : Type → Type} `{Bolt B} `{Primitives} `{Curve} `{UnicodeTables} `{Wire} `{DiskFaults} `{QR} `{Web}.
Implicit Types a : App B.

(** At most the list of subscribers differs. *)
Definition untouched a a' : Prop :=
  a' = a ∨ ∃ n subs k, a_n a = Some n ∧ a' = with_n (with_subs subs k n) a.

Definition quiet {A} (m : Hd A) : Prop := ∀ a x a', m a = Some (x, a') → a' = a.

Lemma quiet_ret {A} (x : A) : quiet (mret x).
Proof. by intros a y a' [= _ <-]. Qed.
Lemma quiet_bind {A A'} (m : Hd A) (f : A → Hd A') : quiet m → (∀ x, quiet (f x)) → quiet (m ≫= f).
Proof.
  intros Hm Hf a y a'. unfold mbind, Hd_bind. destruct (m a) as [[x a1]|] eqn:E; [|done].
  cbn. intros Hy. apply Hm in E as ->. by apply Hf in Hy.
Qed.
Lemma quiet_get : quiet (get_app (B := B)).
Proof. by intros a x a' [= _ <-]. Qed.
Lemma quiet_see {A} (f : Node B → A) : quiet (node_see f).
Proof. intros a x a'. unfold node_see. destruct (a_n a); cbn; [|done]. by intros [= _ <-]. Qed.
Lemma quiet_option {A} (o : option A) : quiet (from_option_panic (B := B) o).
Proof. destruct o; [apply quiet_ret|done]. Qed.
Lemma quiet_reply {A} (r : result A) ok : quiet (reply (B := B) r ok).
Proof. apply quiet_ret. Qed.
Lemma quiet_need f : quiet f → quiet (needNode (B := B) f).
Proof. intros Hf a x a'. unfold needNode. destruct (a_n a); [apply Hf|]. by intros [= _ <-]. Qed.

Ltac quiet_tac :=
  repeat (intros; lazymatch goal with
  | |- quiet (mret _) => apply quiet_ret
  | |- quiet (reply _ _) => apply quiet_reply
  | |- quiet get_app => apply quiet_get
  | |- quiet (node_see _) => apply quiet_see
  | |- quiet (from_option_panic _) => apply quiet_option
  | |- quiet (needNode _) => apply quiet_need
  | |- quiet (mbind _ _) => apply quiet_bind
  | |- quiet (match ?x with _ => _ end) => destruct x
  | |- quiet (if ?x then _ else _) => destruct x
  end).

Definition reads_only (h : handler) : Prop :=
  ∀ env r p a x a', h env r p a = Some (x, a') → untouched a a'.

Lemma quiet_reads (h : handler) : (∀ env r p, quiet (h env r p)) → reads_only h.
Proof. intros Hq env r p a x a' Hx. left. by apply (Hq env r p a x). Qed.

Lemma events_reads : reads_only (node_route events).
Proof.
  intros env r p a x a'. unfold node_route, needNode, events. destruct (a_n a) as [n|] eqn:E.
  - unfold mbind, Hd_bind, node_do. rewrite E. cbn. intros [= _ <-]. right. by eexists n, _, _.
  - intros [= _ <-]. by left.
Qed.

(** Every route that serves GET or HEAD only reads. *)
Lemma get_routes_read q :
  is_read q = true → Forall (λ mph, method_match mph.1.1 q = true → reads_only mph.2) routes.
Proof.
  intros Hq. assert (Hno : ∀ m, is_read m = false → method_match m q = true → False).
  { intros m Hm. unfold method_match. destruct (m =s? "GET") eqn:E.
    - apply eqs_true in E as ->. done.
    - intros ->%eqs_true. congruence. }
  unfold routes. repeat first [apply Forall_nil_2|apply Forall_cons_2]; cbn [fst snd]; intros E;
    first [by apply Hno in E|apply events_reads|apply quiet_reads; intros; unfold node_route;
      unfold state, me, peers, messages, search, invite, outbox, diagnostics, getSettings, files, getFile, fileData,
        filePreview, rooms, getRoom_, roomMessages; quiet_tac].
Qed.

Lemma find_route_in (rs : list (string * string * handler (B := B))) r h vs :
  find_route rs r = Some (h, vs) → ∃ m pat, (m, pat, h) ∈ rs ∧ method_match m (rq_Method r) = true ∧
    match_segs (split_slash pat) (rq_segs r) = Some vs.
Proof.
  induction rs as [|[[m pat] h'] rs IH]; cbn; [done|].
  destruct (method_match m (rq_Method r)) eqn:Em; [destruct (match_segs _ _) as [vs'|] eqn:Es|].
  - intros [= <- <-]. exists m, pat. split_and!; [by left|done|done].
  - intros (m' & pat' & ? & ?)%IH. exists m', pat'. split; [by right|done].
  - intros (m' & pat' & ? & ?)%IH. exists m', pat'. split; [by right|done].
Qed.

(** Which route serves a path can be computed with a segment left open: only
    whether it is empty and what it decodes to matter. *)
Fixpoint match_pre (pat : list string) (segs : list (bool * string)) : option (list (string * string)) :=
  match pat, segs with
  | [], [] => Some []
  | x :: pat, (empty, d) :: segs =>
      match wildcard x with
      | Some name => if empty : bool then None else vs ← match_pre pat segs; Some ((name, d) :: vs)
      | None => if x =s? d then match_pre pat segs else None
      end
  | _, _ => None
  end.
Definition pre (s : string) : bool * string := (s =s? "", PathUnescape s).

Fixpoint pick (keys : list (string * string)) (m : string) (segs : list (bool * string))
    : option (nat * list (string * string)) :=
  match keys with
  | [] => None
  | (mp, pat) :: keys =>
      match (if method_match mp m then match_pre (split_slash pat) segs else None) with
      | Some vs => Some (0%nat, vs)
      | None => '(i, vs) ← pick keys m segs; Some (S i, vs)
      end
  end.

Lemma match_segs_pre pat segs : match_segs pat segs = match_pre pat (map pre segs).
Proof.
  revert segs. induction pat as [|x pat IH]; intros [|s segs]; cbn; try done. by rewrite IH.
Qed.

Lemma find_route_pick (rs : list (string * string * handler (B := B))) r i vs h mp :
  pick rs.*1 (rq_Method r) (map pre (rq_segs r)) = Some (i, vs) → rs !! i = Some (mp, h) →
  find_route rs r = Some (h, vs).
Proof.
  revert i. induction rs as [|[[m pat] h'] rs IH]; intros i; cbn [fmap list_fmap pick find_route fst]; [done|].
  rewrite match_segs_pre. destruct (if method_match m (rq_Method r) then _ else _) as [vs'|].
  - intros [= <- <-]. cbn. by intros [= _ ->].
  - destruct (pick _ _ _) as [[j vs']|] eqn:E; [|done]. cbn. intros [= <- <-]. cbn. by apply IH.
Qed.

Lemma ServeHTTP_reads env r a x a' :
  is_read (rq_Method r) = true → ServeHTTP env r a = Some (x, a') → untouched a a'.
Proof.
  intros Hq. unfold ServeHTTP. destruct (is_clean _); cbn [negb]; [|intros [= _ <-]; by left].
  destruct (find_route routes r) as [[h vs]|] eqn:E.
  - apply find_route_in in E as (m & pat & Hin & Hm & _). pose proof (get_routes_read _ Hq) as Hr.
    rewrite Forall_forall in Hr. specialize (Hr _ Hin Hm). apply Hr.
  - rewrite Hq. intros [= _ <-]. by left.
Qed.
End facts.

(** The last header of a name. *)
Definition header (resp : Response) (k : string) : option string :=
  snd <$> List.find (λ kv, kv.1 =s? k) (reverse (rs_Headers resp)).

(** ** The sniffed type of a preview *)

Definition ct_of (s : signature) : string :=
  match s with
  | exactSig _ ct | maskedSig _ _ _ ct => ct
  | htmlSig _ => "text/html; charset=utf-8"
  | mp4Sig => "video/mp4"
  | textSig => "text/plain; charset=utf-8"
  end.

Lemma sig_match_ct l s ct : sig_match l s = Some ct → ct = ct_of s.
Proof. destruct s; cbn; case_match; congruence. Qed.

Lemma media_type_raster data :
  media_type (DetectContentType data) ∈ raster → media_type (DetectContentType data) = DetectContentType data.
Proof.
  assert (Ht : Forall (λ s, media_type (ct_of s) ∈ raster → media_type (ct_of s) = ct_of s) sniffSignatures).
  { assert (Hd : forallb (λ s, negb (bool_decide (media_type (ct_of s) ∈ raster))
      || (media_type (ct_of s) =s? ct_of s)) sniffSignatures = true) by (vm_compute; reflexivity).
    apply Forall_forall. intros s Hs. rewrite forallb_forall in Hd. specialize (Hd s (proj1 (list_elem_of_In _ _) Hs)).
    apply orb_true_iff in Hd as [Hd|Hd%eqs_true]; [|done].
    apply negb_true_iff, bool_decide_eq_false in Hd. done. }
  destruct (first_match_in _ _ _ (eq_refl (DetectContentType data))) as [E|(s & Hs & Hm)].
  - unfold DetectContentType in *. rewrite E. by vm_compute.
  - apply sig_match_ct in Hm. fold (DetectContentType data) in Hm. rewrite Hm.
    rewrite Forall_forall in Ht. by apply Ht.
Qed.

(** ** Properties *)

Section properties.
Context {B : Type → Type} `{Bolt B} `{Primitives} `{Curve} `{UnicodeTables} `{Wire} `{DiskFaults} `{QR} `{Web}.
Implicit Types a : App B.

Lemma Handler_next env r a resp a' :
  Handler env r a = Some (resp, a') → rs_Code resp ≠ 403 →
  ∃ x, ServeHTTP env r a = Some (x, a') ∧ resp = harden x.
Proof.
  unfold Handler, secure. destruct (loopback (hostname r)); cbn [negb]; [|intros [= <- _]; done].
  destruct (negb (is_read _) && negb (_ =s? _)); [intros [= <- _]; done|].
  destruct (negb (is_read _) && negb (origin_ok r)); [intros [= <- _]; done|].
  unfold mbind, Hd_bind. destruct (ServeHTTP env r a) as [[x a1]|]; [|done]. intros [= <- <-] _. by exists x.
Qed.

Lemma filePreview_ok env r p a x a' :
  node_route filePreview env r p a = Some (x, a') → rs_Code x = 200 →
  ∃ n f data, a_n a = Some n ∧ GetFile (n_store n) (p "id") = Ok f ∧ f_Dir f = DirIn ∧ f_Status f = FileComplete ∧
    FileData (n_store n) (p "id") = Ok data ∧ media_type (DetectContentType data) ∈ raster ∧
    x = mkResponse 200 [("Content-Type", media_type (DetectContentType data)); ("Content-Length", num (slen data));
          ("X-Content-Type-Options", "nosniff"); ("Content-Security-Policy", "sandbox; default-src 'none'");
          ("Content-Disposition", "inline")] None (PRaw data).
Proof.
  unfold node_route, needNode, filePreview, node_see, reply, mbind, Hd_bind, mret, Hd_ret.
  destruct (a_n a) as [n|] eqn:En; [|by intros [= <- _]]. cbn [mbind option_bind]. rewrite En.
  cbn [mbind option_bind].
  assert (Hfail : ∀ e, rs_Code (fail e) ≠ 200) by (intros e; unfold fail; by repeat case_match).
  intros [= <- _]. destruct (GetFile (n_store n) (p "id")) as [f|e] eqn:Ef; [|by intros ?%Hfail].
  destruct (f_Dir f =s? DirIn) eqn:Ed; cbn [negb orb]; [|done].
  destruct (f_Status f =s? FileComplete) eqn:Es; cbn [negb orb]; [|done].
  destruct (FileData (n_store n) (p "id")) as [data|e] eqn:Edata; [|by intros ?%Hfail].
  case_bool_decide as Hin; cbn [negb]; [|done]. intros _. exists n, f, data.
  apply eqs_true in Ed, Es. by split_and!.
Qed.

(** C18: only the interface's own pages change anything.  A request whose
    answer leaves the app other than it was, but for its list of event
    subscribers, came to a loopback name, with a method that is neither GET
    nor HEAD, carried the X-Chirp header, which a page of another origin
    cannot set, and had no Origin or one whose host is the host asked. *)
Theorem only_own_pages_change_state env r a resp a' :
  Handler env r a = Some (resp, a') →
  untouched a a' ∨
  (loopback (hostname r) = true ∧ is_read (rq_Method r) = false ∧ rq_XChirp r = "1" ∧
   (rq_Origin r = "" ∨ url_Host (rq_Origin r) = Ok (rq_Host r))).
Proof.
  unfold Handler, secure. destruct (loopback (hostname r)); cbn [negb]; [|intros [= _ <-]; by left; left].
  destruct (is_read (rq_Method r)) eqn:Hq; cbn [negb andb].
  - unfold mbind, Hd_bind. destruct (ServeHTTP env r a) as [[x a1]|] eqn:E; [|done].
    intros [= _ <-]. left. by eapply ServeHTTP_reads.
  - destruct (rq_XChirp r =s? "1") eqn:Ex; cbn [negb]; [|intros [= _ <-]; by left; left].
    destruct (origin_ok r) eqn:Eo; cbn [negb]; [|intros [= _ <-]; by left; left].
    intros _. right. split_and!; [done|done|by apply eqs_true|].
    unfold origin_ok in Eo. apply orb_true_iff in Eo as [Eo%eqs_true|Eo]; [by left|]. right.
    destruct (url_Host (rq_Origin r)); [|done]. by apply eqs_true in Eo as ->.
Qed.

(** C32: a preview is a raster image.  What GET /api/files/{id}/preview
    serves are the bytes of a completely received file of that identifier,
    labelled as PNG, JPEG, GIF or WebP and starting as a file of that type
    does, whatever name and type its sender gave; the response forbids
    sniffing and is sandboxed. *)
Theorem preview_is_a_raster_image env r id a resp a' :
  Handler env r a = Some (resp, a') → rq_Method r = "GET" →
  rq_segs r = ["api"; "files"; id; "preview"] → rs_Code resp = 200 →
  ∃ n f data ct,
    a_n a = Some n ∧ GetFile (n_store n) (PathUnescape id) = Ok f ∧ f_Dir f = DirIn ∧ f_Status f = FileComplete ∧
    FileData (n_store n) (PathUnescape id) = Ok data ∧ rs_Body resp = PRaw data ∧
    header resp "Content-Type" = Some ct ∧ ct ∈ raster ∧ magic_of ct (bytes_of data) ∧
    header resp "X-Content-Type-Options" = Some "nosniff" ∧
    header resp "Content-Security-Policy" = Some "sandbox; default-src 'none'".
Proof.
  intros Hh Hm Hs H200. apply Handler_next in Hh as (x & Hh & ->); [|by rewrite H200]. cbn [harden rs_Code] in H200.
  unfold ServeHTTP in Hh. destruct (is_clean (rq_segs r)) eqn:Hc; cbn [negb] in Hh; [|by injection Hh as <- _].
  assert (Hid : id ≠ "") by (intros ->; by rewrite Hs in Hc).
  rewrite (find_route_pick routes r 34 [("id", PathUnescape id)] (node_route filePreview) ("GET", "api/files/{id}/preview"))
    in Hh; [| |reflexivity].
  2: { rewrite Hm, Hs. cbn [map]. unfold pre at 3. rewrite (proj2 (eqs_false _ _) Hid).
       generalize (PathUnescape id) as d. intros d. vm_compute. reflexivity. }
  destruct (filePreview_ok env r _ a x a' Hh H200) as (n & f & data & H1' & H2' & H3' & H4' & H5' & H6' & ->).
  exists n, f, data, (media_type (DetectContentType data)). split_and!; try done.
  by apply DetectContentType_raster; [rewrite media_type_raster|].
Qed.

(** C37: deleting one file can delete everything.  The identifier in DELETE
    /api/files/{id} reaches the disk unchecked: with the escaped name of the
    parent directory, which the multiplexer does not clean away, the handler
    answers 200 and removes all there is below the data directory, though
    no file has that identifier. *)
Theorem delete_file_escapes env r a n dir :
  a_n a = Some n → s_filesDir (n_store n) = dir ++ ["files"] → clean_path dir →
  loopback (hostname r) = true → rq_XChirp r = "1" → rq_Origin r = "" → rq_Method r = "DELETE" →
  rq_segs r = ["api"; "files"; "%2E%2E"] →
  ∃ a' n', Handler env r a = Some (harden ok_true, a') ∧ a_n a' = Some n' ∧
    ∀ p, below dir p = true → s_disk (n_store n') !! p = None.
Proof.
  intros Hn Hd Hdir Hl Hx Ho Hm Hs. unfold Handler, secure, origin_ok. rewrite Hl, Hx, Ho, Hm. cbn [negb].
  change (negb (is_read "DELETE") && negb ("1" =s? "1")) with false. cbv iota.
  rewrite eqs_refl. cbn [negb orb andb]. rewrite andb_false_r. cbv iota.
  unfold ServeHTTP. rewrite Hs. change (is_clean ["api"; "files"; "%2E%2E"]) with true. cbn [negb].
  rewrite (find_route_pick routes r 35 [("id", "..")] (node_route deleteFile) ("DELETE", "api/files/{id}"));
    [| |reflexivity].
  2: { rewrite Hm, Hs. vm_compute. reflexivity. }
  unfold node_route, needNode, deleteFile, node_do, mbind, Hd_bind. rewrite Hn. cbn [mbind option_bind].
  change (PathValue [("id", "..")] "id") with "..".
  unfold DeleteFile_, try_, on_store, DeleteFile, Update, run_update. tx_unfold.
  eexists _, _. split; [reflexivity|]. split; [reflexivity|]. intros p Hp.
  cbn [n_store with_store with_subs with_out s_disk with_disk with_db s_filesDir]. rewrite Hd.
  apply map_lookup_filter_None. right. intros x _. cbn [fst].
  unfold fileDir. rewrite filepath_Join_parent; [by rewrite Hp|].
  apply Forall_app. split; [done|]. by repeat constructor.
Qed.
End properties.

(** ** Examples *)

#[local] Existing Instance gmap_bolt.
#[local] Existing Instance toy_primitives.
#[local] Existing Instance toy_curve.
#[local] Existing Instance ascii_tables.
#[local] Existing Instance good_wire.
#[local] Existing Instance no_faults.
#[local] Existing Instance ex_qr.
Definition ex_web : Web := {| url_Host o := Ok (str_drop 7 o) |}.
#[local] Existing Instance ex_web.

Definition ex_env : Env :=
  mkEnv 0 "" None None (Ok "") ex_sockets good_start (mkDisk (Ok tt) (Ok empty_db) ∅) (Err (Errorf "refused"))
    (Err (Errorf "refused")) (Ok []) true false.
Definition ex_request (method host xchirp origin : string) (segs : list string) : Request :=
  mkRequest method host segs [] xchirp origin "" (Err (Errorf "no form")).

(** A page elsewhere tries to clear the messages. *)
Definition ex_forged : Request :=
  ex_request "POST" "127.0.0.1:7777" "1" "http://evil.example" ["api"; "messages"; "clear"].

Lemma only_own_pages_change_state_witness :
  ∃ resp a', Handler ex_env ex_forged ex_running = Some (resp, a') ∧ untouched ex_running a'.
Proof.
  eexists _, ex_running.
  assert (Hh : Handler ex_env ex_forged ex_running
    = Some (harden (http_Error 403 "cross-origin request refused"), ex_running)) by reflexivity.
  split; [exact Hh|].
  destruct (only_own_pages_change_state ex_env ex_forged ex_running _ ex_running Hh)
    as [Hu|(_ & _ & _ & [Ho|Ho])]; [exact Hu|discriminate Ho|discriminate Ho].
Defined.

(** A received picture, its name pretending to be a web page. *)
Definition ex_png : string := of_bytes ([137; 80; 78; 71; 13; 10; 26; 10] ++ [1; 2; 3]).
Definition ex_file : File := mkFile "f1" "Bob" DirIn "page.html" 11 "" FileComplete 11 0 0.
Definition ex_files_node : Node gbucket :=
  New (mkStore (bupd bFiles (bset bempty "f1" (json ex_file)) empty_db) None None ["home"; "files"]
    {[ ["home"; "files"; "f1"; "data.enc"] := ex_png ]}) (mkConfig 0 0 0 0 0) ex_owner.
Definition ex_files_app : App gbucket := mkApp ex_cfg None None (Some ex_files_node) false.
Definition ex_preview : Request :=
  ex_request "GET" "localhost:7777" "" "" ["api"; "files"; "f1"; "preview"].
Definition ex_preview_response : Response :=
  match Handler ex_env ex_preview ex_files_app with Some (resp, _) => resp | None => ok_true end.

Lemma preview_is_a_raster_image_witness : header ex_preview_response "Content-Type" = Some "image/png".
Proof.
  assert (Hc : rs_Code ex_preview_response = 200) by (vm_compute; reflexivity).
  assert (Hs : is_Some (Handler ex_env ex_preview ex_files_app)) by (vm_compute; eexists; reflexivity).
  unfold ex_preview_response in *. destruct (Handler ex_env ex_preview ex_files_app) as [[resp a']|] eqn:E;
    [|by destruct Hs].
  destruct (preview_is_a_raster_image ex_env ex_preview "f1" ex_files_app resp a' E eq_refl eq_refl Hc)
    as (n & f & data & ct & Hn & _ & _ & _ & Hd & _ & Ht & _ & Hm & _).
  injection Hn as <-. vm_compute in Hd. injection Hd as <-. rewrite Ht. clear -Hm.
  destruct Hm as [[-> _]|[[_ [? Hp]]|[[_ [[? Hp]|[? Hp]]]|[_ (sz & rest & _ & Hp)]]]]; [reflexivity|discriminate Hp..].
Defined.

Lemma delete_file_escapes_witness :
  ∃ a' n', Handler ex_env (ex_request "DELETE" "localhost" "1" "" ["api"; "files"; "%2E%2E"]) ex_files_app
             = Some (harden ok_true, a') ∧ a_n a' = Some n' ∧
           s_disk (n_store n') !! ["home"; "files"; "f1"; "data.enc"] = None.
Proof.
  destruct (delete_file_escapes ex_env (ex_request "DELETE" "localhost" "1" "" ["api"; "files"; "%2E%2E"])
    ex_files_app ex_files_node ["home"]) as (a' & n' & X1 & X2 & X3); try reflexivity.
  - by repeat constructor.
  - exists a', n'. split; [exact X1|]. split; [exact X2|]. by apply X3.
Defined.
