(* ===== verification/Daemon.v ===== *)
(** * The programs (cmd/chirpd/main.go, cmd/demo/main.go)

    The check that keeps the interface of the daemon on the loopback
    interface, with the address parser of the standard library it rests on,
    the start of the daemon as one function from its flags and what the
    system answers to what it serves, and the parts of the demonstration that
    compute something. *)

From S2P Require Import Prelude GoStrings Utf8 Proto Identity Base64 Json Crypto Backup Bolt StoreData StoreCore.
From S2P Require Import Backoff Invite NodeState NodeViews NodeCore App Api.

(** ** net.ParseIP *)

(** The fields of a dotted address: those read, the value and the number of
    digits of the current one, and whether it has just begun. *)
Fixpoint parse_ipv4_fields (l fields : list Z) (val digLen : Z) (fresh : bool) : option (list Z) :=
  match l with
  | [] => if (length fields <? 3)%nat then None else Some (fields ++ [val])
  | c :: l' =>
      if is_dec c then
        if (digLen =? 1) && (val =? 0) then None else
        let val := val * 10 + (c - 48) in
        if 255 <? val then None else parse_ipv4_fields l' fields val (digLen + 1) false
      else if c =? 46 then
        if fresh || match l' with [] => true | _ => false end then None
        else if (length fields =? 3)%nat then None
        else parse_ipv4_fields l' (fields ++ [val]) 0 0 true
      else None
  end.
Definition parse_ipv4 (l : list Z) : option (list Z) := parse_ipv4_fields l [] 0 0 true.

(** The hexadecimal digits before the next separator: how many, their value,
    what follows. *)
Fixpoint hex_group (l : list Z) (off : nat) (acc : Z) : option (nat * Z * list Z) :=
  match l with
  | [] => Some (off, acc, [])
  | c :: l' =>
      match hex_val c with
      | None => Some (off, acc, l)
      | Some d =>
          let acc := acc * 16 + d in
          if (3 <? off)%nat || (65535 <? acc) then None else hex_group l' (S off) acc
      end
  end.

(** The loop over the groups; [ellipsis] is where "::" stood.  Each turn adds
    two bytes or ends, so nine turns are enough. *)
Fixpoint ipv6_groups (fuel : nat) (ip : list Z) (ellipsis : option nat) (s : list Z)
    : option (list Z * option nat * list Z) :=
  match fuel with
  | O => None
  | S fuel =>
      if (16 <=? length ip)%nat then Some (ip, ellipsis, s) else
      '(off, acc, rest) ← hex_group s 0 0;
      if (off =? 0)%nat then None else
      match rest with
      | 46 :: _ =>
          if bool_decide (ellipsis = None) && negb (length ip =? 12)%nat then None
          else if (16 <? length ip + 4)%nat then None
          else f ← parse_ipv4 s; Some (ip ++ f, ellipsis, [])
      | _ =>
          let ip := ip ++ [acc / 256; acc mod 256] in
          match rest with
          | [] => Some (ip, ellipsis, [])
          | c :: t =>
              if negb (c =? 58) then None else
              match t with
              | [] => None
              | 58 :: t' =>
                  match ellipsis, t' with
                  | Some _, _ => None
                  | None, [] => Some (ip, Some (length ip), [])
                  | None, _ => ipv6_groups fuel ip (Some (length ip)) t'
                  end
              | _ => ipv6_groups fuel ip ellipsis t
              end
          end
      end
  end.

(** The zeros that "::" stands for. *)
Definition expand_ellipsis (r : list Z * option nat * list Z) : option (list Z) :=
  let '(ip, ellipsis, s) := r in
  match s with
  | _ :: _ => None
  | [] =>
      if (length ip <? 16)%nat then
        e ← ellipsis; Some (take e ip ++ replicate (16 - length ip) 0 ++ drop e ip)
      else if bool_decide (is_Some ellipsis) then None else Some ip
  end.

Definition parse_ipv6 (s : list Z) : option (list Z) :=
  if has_byte 37 s then None else
  match s with
  | 58 :: 58 :: [] => Some (replicate 16 0)
  | 58 :: 58 :: s' => r ← ipv6_groups 9 [] (Some 0%nat) s'; expand_ellipsis r
  | _ => r ← ipv6_groups 9 [] None s; expand_ellipsis r
  end.

(** The first of '.', ':' and '%' says which kind it is; an address with a
    zone is none for [net.ParseIP].  The result has sixteen bytes. *)
Fixpoint ip_kind (l : list Z) : option Z :=
  match l with
  | [] => None
  | c :: l => if (c =? 46) || (c =? 58) || (c =? 37) then Some c else ip_kind l
  end.
Definition v4_in_v6 : list Z := replicate 10 0 ++ [255; 255].
Definition ParseIP (host : string) : option (list Z) :=
  let l := bytes_of host in
  match ip_kind l with
  | Some 46 => (λ f, v4_in_v6 ++ f) <$> parse_ipv4 l
  | Some 58 => parse_ipv6 l
  | _ => None
  end.

(** [IP.IsLoopback] of an address of either length. *)
Definition IP_IsLoopback (ip : list Z) : bool :=
  match To4 ip with
  | Some ip4 => IsLoopback ip4
  | None => bool_decide (ip = replicate 15 0 ++ [1])
  end.

(** ** The daemon *)

Definition requireLoopback (addr : string) : result unit :=
  match SplitHostPort addr with
  | Err e => Err (Wrapf "bad --http address" e)
  | Ok (host, _) =>
      if host =s? "localhost" then Ok tt else
      let refused := Err (Errorf "--http must be a loopback address") in
      match ParseIP host with
      | None => refused
      | Some ip => if IP_IsLoopback ip then Ok tt else refused
      end
  end.

(** The check of the demonstration: addresses only. *)
Definition demo_requireLoopback (addr : string) : bool :=
  match SplitHostPort addr with
  | Err _ => false
  | Ok (host, _) => match ParseIP host with None => false | Some ip => IP_IsLoopback ip end
  end.

Section daemon.
Context {B : Type → Type} `{Bolt B} `{Primitives} `{Curve} `{UnicodeTables}.

(** The flags of [run], by default [defaults]: the data directory goes to [Open],
    with no passphrase and no tuning, and so does the peers' address, which
    only the sockets see. *)
Record Flags := mkFlags {
  fl_data : path; fl_http : string; fl_name : string; fl_version : bool }.

Definition defaults (configDir : path) : Flags := mkFlags (configDir ++ ["chirp"]) "127.0.0.1:7777" "" false.
Definition daemon_cfg (fl : Flags) : AppConfig := mkAppConfig (fl_data fl) "" (mkConfig 0 0 0 0 0).

(** What the system answers: the disk, the node's sockets, the key generator
    and the nonce of [Setup], and whether the web address can be bound. *)
Record System := mkSystem {
  sy_disk : Disk B; sy_start : StartEnv; sy_now : Z; sy_rng : result string; sy_rnd : option string;
  sy_bind : result unit }.

(** How [run] goes on: it has printed the version, returned an error (with the
    app it closed on the way, if it had opened one), or serves the interface
    of an app at an address. *)
Inductive started :=
| Printed
| Failed (e : error) (closed : option (App B))
| Serving (addr : string) (a : App B).

(** [run] up to the interface being served; [None] is a panic. *)
Definition run (fl : Flags) (sy : System) : option started :=
  if fl_version fl then Some Printed else
  match requireLoopback (fl_http fl) with
  | Err e => Some (Failed e None)
  | Ok _ =>
      match Open (sy_start sy) (sy_now sy) (sy_disk sy) (daemon_cfg fl) with
      | Err e => Some (Failed e None)
      | Ok a =>
          '(r, a) ← (if bool_decide (a_n a = None) && negb (fl_name fl =s? "")
                     then Setup (sy_start sy) (sy_now sy) (sy_rng sy) (sy_rnd sy) (fl_name fl) a
                     else Some (Ok tt, a));
          match r with
          | Err e => Some (Failed e (Some (Close a)))
          | Ok _ =>
              match sy_bind sy with
              | Err e => Some (Failed e (Some (Close a)))
              | Ok _ => Some (Serving (fl_http fl) a)
              end
          end
      end
  end.

(** What ends the serving: a signal, or the server ([None] when it was closed). *)
Inductive ending := Signal | ServeEnded (e : option error).
Definition finish (why : ending) (a : App B) : result unit * App B :=
  (match why with ServeEnded (Some e) => Err e | _ => Ok tt end, Close a).
End daemon.
Arguments started B : clear implicits.
Arguments System B : clear implicits.

(** ** The demonstration *)

Definition botNames : list string := ["Alex Rivera"; "Sam Okafor"; "Priya N."; "Dana Kim"].

(** [autoReply] answers a message that came in. *)
Definition autoReplies (e : Event) : option string :=
  match ev_Message e with
  | Some m => if (ev_Type e =s? "message") && (m_Dir m =s? DirIn) then Some (ev_Peer e) else None
  | None => None
  end.

Definition replies : list string :=
  ["Sounds good, see you at 3."; "Can you also bring the HDMI adapter?"; "Ha, yes. Working on it now.";
   "Nice. That went through without any server at all."; "Got it."].

(** The first contact online that is not a bot gets the greeting. *)
Definition greeted (ps : list PeerView) : option PeerView :=
  head (filter (λ p, pv_Online p = true ∧ pv_Name p ∉ botNames) ps).

Definition attachment_line : string :=
  "14:02  agreed: the daemon stays on loopback, the UI talks to it over SSE" +:+ of_bytes [10].

(** [for len(b) < 400<<10 { b = append(b, line...) }]. *)
Fixpoint attachment_loop (fuel : nat) (b : string) : option string :=
  match fuel with
  | O => None
  | S fuel => if slen b <? Z.shiftl 400 10 then attachment_loop fuel (b +:+ attachment_line) else Some b
  end.
Definition demoAttachment : option string :=
  attachment_loop (S (Z.to_nat (Z.shiftl 400 10))) "".

Section bots.
Context {B : Type → Type} `{Bolt B} `{Primitives} `{Curve} `{UnicodeTables} `{DiskFaults}.

(** A bot's node over its own database; without an identity it makes one. *)
Definition newBot (opened : result (DB B)) (dir : path) (disk : FS) (id : option Identity) (name : string)
    (rng : result string) : result (Node B) :=
  match StoreCore.Open opened (dir ++ ["files"]) disk with
  | Err e => Err e
  | Ok st =>
      let made := match id with Some id => Ok id | None => Generate name rng end in
      match made with Err e => Err e | Ok id => Ok (New st (mkConfig 0 0 0 0 0) id) end
  end.

(** What the loop of [autoReply] does with an event, the reply drawn being [i]. *)
Definition autoReply (now : Z) (rng : string) (rnd : option string) (i : nat) (e : Event) : M B unit :=
  match autoReplies e with
  | Some peer => _ ← Send now rng rnd peer (default "" (replies !! i)); mret tt
  | None => mret tt
  end.

(** A turn of the greeting: whether it was given. *)
Definition greet_turn (sk : Sockets) (now : Z) (rng1 rng2 : string) (rnd1 rnd2 : option string) : M B bool :=
  n ← get;
  match greeted (match Peers sk n with Ok ps => ps | Err _ => [] end) with
  | None => mret false
  | Some p =>
      _ ← Send now rng1 rnd1 (pv_Name p) "Hey, are you on the same Wi-Fi? Just testing Chirp.";
      _ ← SendFile now rng2 rnd2 (pv_Name p) "meeting-notes.txt" (default "" demoAttachment);
      mret true
  end.
End bots.

(** ** Reading addresses *)

Section addresses.

(** Every byte, written in decimal, is one field. *)
Lemma parse_ipv4_byte b l fields :
  is_byte b → parse_ipv4_fields (dec b ++ l) fields 0 0 true
              = parse_ipv4_fields l fields b (Z.of_nat (length (dec b))) false.
Proof.
  intros Hb. assert (Hall : Forall (λ b, ∀ l fields, parse_ipv4_fields (dec b ++ l) fields 0 0 true
    = parse_ipv4_fields l fields b (Z.of_nat (length (dec b))) false) (seqZ 0 256)).
  { clear. let l := eval vm_compute in (seqZ 0 256) in replace (seqZ 0 256) with l by (vm_compute; reflexivity).
    repeat (apply Forall_cons_2; [intros l fields; reflexivity|]). constructor. }
  rewrite Forall_forall in Hall. apply Hall, elem_of_seqZ. unfold is_byte in Hb. lia.
Qed.

Lemma dotted_cons b c ip : dotted (b :: c :: ip) = dec b ++ 46 :: dotted (c :: ip).
Proof. done. Qed.

Lemma bytes_nonneg ip : Forall is_byte ip → Forall (λ b, 0 <= b) ip.
Proof. intros Hip. eapply Forall_impl; [exact Hip|]. by intros b [? _]. Qed.

(** Four bytes in dotted form, the first of them already begun or not. *)
Lemma parse_ipv4_dotted ip fields :
  ip ≠ [] → Forall is_byte ip → (length fields + length ip = 4)%nat →
  parse_ipv4_fields (dotted ip) fields 0 0 true = Some (fields ++ ip).
Proof.
  intros Hne Hip. revert fields Hne. induction Hip as [|b ip Hb Hip IH]; intros fields Hne Hl; [done|].
  destruct ip as [|c ip].
  - cbn [dotted]. rewrite <- (app_nil_r (dec b)), parse_ipv4_byte by done. cbn [parse_ipv4_fields length] in *.
    destruct (Nat.ltb_spec (length fields) 3); [lia|done].
  - rewrite dotted_cons, parse_ipv4_byte by done. cbn [parse_ipv4_fields].
    change (is_dec 46) with false. change (46 =? 46) with true. cbv iota.
    destruct (dotted_bytes (c :: ip) ltac:(done) (bytes_nonneg _ Hip)) as [_ Hd].
    destruct (dotted (c :: ip)) as [|e t]; [done|]. cbn [orb].
    cbn [length] in Hl. destruct (Nat.eqb_spec (length fields) 3); [lia|].
    rewrite (IH (fields ++ [b])); [by rewrite <- (assoc_L (++))|done|rewrite length_app; cbn; lia].
Qed.

Lemma ip_kind_dotted l r : Forall (λ b, is_dec b = true) l → ip_kind (l ++ 46 :: r) = Some 46.
Proof.
  induction 1 as [|b l Hb _ IH]; [done|]. cbn. rewrite IH. unfold is_dec in Hb. ztests; done.
Qed.

Lemma dec_digits b : is_byte b → Forall (λ c, is_dec c = true) (dec b).
Proof.
  intros [Hb _]. unfold dec. destruct (Z.ltb_spec b 0); [lia|]. by apply dec_nat_bytes.
Qed.

(** A dotted address is read back, as sixteen bytes. *)
Lemma ParseIP_dotted ip :
  length ip = 4%nat → Forall is_byte ip → ParseIP (IPString ip) = Some (v4_in_v6 ++ ip).
Proof.
  intros Hl Hip. unfold ParseIP, IPString.
  assert (Hne : ip ≠ []) by by intros ->.
  destruct (dotted_bytes ip Hne (bytes_nonneg _ Hip)) as [Hd _].
  rewrite bytes_of_of by (eapply Forall_impl; [exact Hd|unfold is_dec, is_byte; cbn; lia]).
  destruct ip as [|a [|b ip]]; [done..|]. rewrite dotted_cons.
  rewrite ip_kind_dotted by (apply dec_digits; by inversion Hip). rewrite <- dotted_cons.
  unfold parse_ipv4. rewrite (parse_ipv4_dotted (a :: b :: ip) []); done.
Qed.

Lemma To4_mapped ip : length ip = 4%nat → To4 (v4_in_v6 ++ ip) = Some ip.
Proof. intros Hl. unfold To4. rewrite length_app, Hl. by destruct ip as [|? [|? [|? [|? []]]]]. Qed.

(** *** Sixteen bytes in full *)

(** A group of sixteen bits as four digits. *)
Definition hex16 (g : Z) : list Z :=
  [hex_digit (g / 4096); hex_digit (g / 256 mod 16); hex_digit (g / 16 mod 16); hex_digit (g mod 16)].
Fixpoint coloned (gs : list Z) : list Z :=
  match gs with
  | [] => []
  | [g] => hex16 g
  | g :: gs => hex16 g ++ 58 :: coloned gs
  end.
Definition group_bytes (gs : list Z) : list Z := g ← gs; [g / 256; g mod 256].
Definition is_group (g : Z) : Prop := 0 <= g < 65536.

Lemma hex_group_16 g rest :
  is_group g → match rest with [] => True | c :: _ => hex_val c = None end →
  hex_group (hex16 g ++ rest) 0 0 = Some (4%nat, g, rest).
Proof.
  intros Hg Hr. assert (0 <= g / 4096 < 16) as H1.
  { split; [apply Z.div_pos; unfold is_group in Hg; lia|apply Z.div_lt_upper_bound; unfold is_group in Hg; lia]. }
  pose proof (Z.mod_pos_bound (g / 256) 16 ltac:(lia)) as H2.
  pose proof (Z.mod_pos_bound (g / 16) 16 ltac:(lia)) as H3.
  pose proof (Z.mod_pos_bound g 16 ltac:(lia)) as H4.
  assert (E : g = ((g / 4096 * 16 + g / 256 mod 16) * 16 + g / 16 mod 16) * 16 + g mod 16).
  { pose proof (Z.div_mod g 16 ltac:(lia)). pose proof (Z.div_mod (g / 16) 16 ltac:(lia)).
    pose proof (Z.div_mod (g / 256) 16 ltac:(lia)).
    assert (g / 16 / 16 = g / 256) by by rewrite Z.div_div.
    assert (g / 256 / 16 = g / 4096) by by rewrite Z.div_div. lia. }
  unfold is_group in Hg. unfold hex16. cbn [app hex_group]. rewrite !hex_val_digit by lia.
  cbn [Nat.ltb Nat.leb orb]. change (0 * 16) with 0. rewrite Z.add_0_l, <- E.
  repeat match goal with |- context [65535 <? ?x] => destruct (Z.ltb_spec 65535 x); [lia|] end.
  destruct rest as [|c rest]; [done|]. cbn [hex_group]. by rewrite Hr.
Qed.

(** The groups one after the other. *)
Lemma ipv6_coloned gs fuel ip :
  gs ≠ [] → Forall is_group gs → (length ip + 2 * length gs = 16)%nat → (length gs <= fuel)%nat →
  ipv6_groups fuel ip None (coloned gs) = Some (ip ++ group_bytes gs, None, []).
Proof.
  intros Hne Hgs. revert fuel ip Hne. induction Hgs as [|g gs Hg Hgs IH]; intros fuel ip Hne Hl Hf; [done|].
  destruct fuel as [|fuel]; [cbn in Hf; lia|]. cbn [length] in Hl, Hf. cbn [ipv6_groups].
  destruct (Nat.leb_spec 16 (length ip)); [lia|]. destruct gs as [|g2 gs].
  - cbn [coloned]. rewrite <- (app_nil_r (hex16 g)), hex_group_16 by done. done.
  - change (coloned (g :: g2 :: gs)) with (hex16 g ++ 58 :: coloned (g2 :: gs)).
    rewrite hex_group_16 by done. cbn [mbind option_bind Nat.eqb]. change (negb (58 =? 58)) with false. cbv iota.
    assert (Hc : ∃ d t, coloned (g2 :: gs) = hex_digit d :: t ∧ 0 <= d < 16).
    { inversion Hgs as [|? ? [? ?]]; subst. destruct gs; (eexists (g2 / 4096), _; split; [reflexivity|]).
      all: split; [apply Z.div_pos; lia|apply Z.div_lt_upper_bound; lia]. }
    destruct Hc as (d & t & Hc & Hd). specialize (IH fuel (ip ++ [g / 256; g mod 256]) ltac:(done)).
    rewrite <- (assoc_L (++)) in IH. rewrite Hc in *. 
    assert (hex_digit d ≠ 58) by (unfold hex_digit; ztests; lia).
    change (group_bytes (g :: g2 :: gs)) with ([g / 256; g mod 256] ++ group_bytes (g2 :: gs)).
    rewrite <- IH by (rewrite ?length_app; cbn [length] in *; lia).
    destruct (hex_digit d) as [|q|q]; [done| |done]. do 6 (destruct q as [q|q|]; try done).
Qed.

Lemma ip_kind_coloned g g2 gs : is_group g → ip_kind (coloned (g :: g2 :: gs)) = Some 58.
Proof.
  intros [Hg1 Hg2]. assert (Hd : ∀ d, 0 <= d < 16 → ((hex_digit d =? 46) || (hex_digit d =? 58) || (hex_digit d =? 37)) = false).
  { intros d Hd. unfold hex_digit. ztests; done. }
  change (coloned (g :: g2 :: gs)) with (hex16 g ++ 58 :: coloned (g2 :: gs)). unfold hex16. cbn [app ip_kind].
  rewrite !Hd; [done|..]; try (apply Z.mod_pos_bound; lia).
  split; [apply Z.div_pos; lia|apply Z.div_lt_upper_bound; lia].
Qed.

Lemma coloned_bytes gs : Forall is_group gs → Forall (λ c, is_hex c = true ∨ c = 58) (coloned gs).
Proof.
  assert (H16 : ∀ g, is_group g → Forall (λ c, is_hex c = true ∨ c = 58) (hex16 g)).
  { intros g [Hg1 Hg2]. assert (Hd : ∀ d, 0 <= d < 16 → is_hex (hex_digit d) = true ∨ hex_digit d = 58).
    { intros d Hd. left. by apply hex_digit_range. }
    unfold hex16. repeat apply Forall_cons_2; [..|constructor]; apply Hd; try (apply Z.mod_pos_bound; lia).
    split; [apply Z.div_pos; lia|apply Z.div_lt_upper_bound; lia]. }
  induction 1 as [|g gs Hg Hgs IH]; [constructor|]. destruct gs as [|g2 gs]; [by apply H16|].
  change (coloned (g :: g2 :: gs)) with (hex16 g ++ 58 :: coloned (g2 :: gs)).
  apply Forall_app. split; [by apply H16|]. constructor; [by right|done].
Qed.

Lemma coloned_of gs : Forall is_group gs → bytes_of (of_bytes (coloned gs)) = coloned gs.
Proof.
  intros Hgs. apply bytes_of_of. eapply Forall_impl; [by apply coloned_bytes|].
  unfold is_hex, is_byte. cbn. lia.
Qed.

(** An address in full is read back. *)
Lemma ParseIP_coloned gs :
  length gs = 8%nat → Forall is_group gs → ParseIP (of_bytes (coloned gs)) = Some (group_bytes gs).
Proof.
  intros Hl Hgs. unfold ParseIP. rewrite coloned_of by done.
  destruct gs as [|g [|g2 gs]]; [done..|]. rewrite ip_kind_coloned by by inversion Hgs.
  unfold parse_ipv6. assert (Hp : has_byte 37 (coloned (g :: g2 :: gs)) = false).
  { unfold has_byte. apply not_true_iff_false. intros (c & Hc & E)%existsb_exists.
    pose proof (coloned_bytes _ Hgs) as Hb. rewrite Forall_forall in Hb.
    specialize (Hb c ltac:(by apply list_elem_of_In)). unfold is_hex in Hb. lia. }
  rewrite Hp. cbn [length] in Hl.
  pose proof (ipv6_coloned (g :: g2 :: gs) 9 [] ltac:(done) Hgs ltac:(cbn in *; lia) ltac:(cbn in *; lia)) as Hi.
  assert (Hx : ∃ d t, coloned (g :: g2 :: gs) = d :: t ∧ d ≠ 58).
  { exists (hex_digit (g / 4096)). eexists. split; [reflexivity|]. inversion Hgs as [|? ? [? ?]]; subst.
    assert (0 <= g / 4096 < 16) by (split; [apply Z.div_pos; lia|apply Z.div_lt_upper_bound; lia]).
    unfold hex_digit. ztests; lia. }
  destruct Hx as (d & t & E & Hd). rewrite E in *.
  assert (Hr : ∀ o, ipv6_groups 9 [] None (d :: t) = Some o → (r ← ipv6_groups 9 [] None (d :: t); expand_ellipsis r)
    = expand_ellipsis o) by by intros o ->.
  assert (Hm : match d :: t with
    | [58; 58] => Some (replicate 16 0)
    | 58 :: 58 :: s' => r ← ipv6_groups 9 [] (Some 0%nat) s'; expand_ellipsis r
    | _ => r ← ipv6_groups 9 [] None (d :: t); expand_ellipsis r
    end = r ← ipv6_groups 9 [] None (d :: t); expand_ellipsis r).
  { destruct d as [|q|q]; [done| |done]. do 6 (destruct q as [q|q|]; try done). }
  rewrite Hm, (Hr _ Hi). cbn [app expand_ellipsis]. 
  assert (Hlen : length (group_bytes (g :: g2 :: gs)) = 16%nat).
  { unfold group_bytes. do 6 (destruct gs as [|? gs]; [done|]). by destruct gs. }
  rewrite Hlen. done.
Qed.

Lemma IP_IsLoopback_mapped ip :
  length ip = 4%nat → IP_IsLoopback (v4_in_v6 ++ ip) = true ↔ head ip = Some 127.
Proof.
  intros Hl. unfold IP_IsLoopback. rewrite To4_mapped by done.
  destruct ip as [|a ip]; [done|]. cbn. rewrite Z.eqb_eq. naive_solver.
Qed.

(** The loopback addresses among sixteen bytes: ::1, and 127.x.y.z mapped. *)
Lemma IP_IsLoopback_groups gs :
  length gs = 8%nat → Forall is_group gs →
  IP_IsLoopback (group_bytes gs) = true ↔
  gs = [0; 0; 0; 0; 0; 0; 0; 1] ∨
  ∃ x y, gs = [0; 0; 0; 0; 0; 65535; x; y] ∧ 127 * 256 <= x < 128 * 256.
Proof.
  intros Hl Hgs. do 8 (destruct gs as [|? gs]; [done|]). destruct gs; [clear Hl|done].
  assert (Hpair : ∀ g h, is_group g → is_group h → g / 256 = h / 256 → g mod 256 = h mod 256 → g = h).
  { intros g h _ _ H1 H2. rewrite (Z.div_mod g 256), (Z.div_mod h 256) by lia. congruence. }
  repeat match goal with Hf : Forall is_group (_ :: _) |- _ => apply Forall_cons in Hf as [? Hf] end.
  assert (Hg0 : is_group 0 ∧ is_group 65535 ∧ is_group 1) by (unfold is_group; lia).
  destruct Hg0 as (? & ? & ?).
  unfold IP_IsLoopback, To4. cbn [group_bytes mbind list_bind app length Nat.eqb andb take drop].
  case_bool_decide as Hm.
  - injection Hm as E1 E2 E3 E4 E5 E6 E7 E8 E9 E10 E11 E12. cbn [IsLoopback]. rewrite Z.eqb_eq.
    rewrite (Hpair z 0), (Hpair z0 0), (Hpair z1 0), (Hpair z2 0), (Hpair z3 0), (Hpair z4 65535) by done.
    split.
    + intros Ex. right. exists z5, z6. split; [done|]. pose proof (Z.div_mod z5 256 ltac:(lia)).
      pose proof (Z.mod_pos_bound z5 256 ltac:(lia)). lia.
    + intros [[=]|(x & y & [= -> ->] & Hx)]. pose proof (Z.div_mod x 256 ltac:(lia)).
      pose proof (Z.mod_pos_bound x 256 ltac:(lia)). lia.
  - rewrite bool_decide_eq_true. split.
    + intros Hz. injection Hz as ? ? ? ? ? ? ? ? ? ? ? ? ? ? ? ?. left.
      repeat f_equal; by apply Hpair.
    + intros [Hz|(x & y & Hz & _)]; injection Hz; intros; subst; [done|]. by destruct Hm.
Qed.

(** A bracketed host. *)
Lemma SplitHostPort_bracket host port :
  Forall (λ c, is_hex c = true ∨ c = 58) host → plain_part port →
  SplitHostPort ("[" +:+ (of_bytes host +:+ ("]:" +:+ port))) = Ok (of_bytes host, port).
Proof.
  intros Hh Hp. unfold SplitHostPort. rewrite !bytes_of_app.
  assert (Hb : bytes_of (of_bytes host) = host).
  { apply bytes_of_of. eapply Forall_impl; [exact Hh|]. unfold is_hex, is_byte. cbn. lia. }
  assert (Hno : ∀ c, c ∈ [91; 93] → c ∉ host).
  { intros c Hc Hin. rewrite Forall_forall in Hh. specialize (Hh c Hin). unfold is_hex in Hh. set_unfold. lia. }
  rewrite Hb. change (bytes_of "[") with [91]. change (bytes_of "]:") with [93; 58]. cbn [app].
  replace (91 :: host ++ 93 :: 58 :: bytes_of port) with ((91 :: host ++ [93]) ++ 58 :: bytes_of port)
    by (cbn; by rewrite <- (assoc_L (++))).
  rewrite cut_last_app by (apply (plain_not_in port); [done|set_solver]). cbv zeta. cbn [app].
  rewrite cut_byte_app by (apply Hno; set_solver).
  cbn [length]. rewrite Nat.eqb_refl.
  assert (H91 : has_byte 91 (host ++ 93 :: 58 :: bytes_of port) = false).
  { apply has_byte_false. rewrite elem_of_app, !elem_of_cons.
    pose proof (Hno 91 ltac:(set_solver)). pose proof (plain_not_in port 91 Hp ltac:(set_solver)). naive_solver lia. }
  assert (H93 : has_byte 93 (58 :: bytes_of port) = false).
  { apply has_byte_false. rewrite elem_of_cons. pose proof (plain_not_in port 93 Hp ltac:(set_solver)). naive_solver lia. }
  by rewrite H91, H93, of_bytes_of.
Qed.
End addresses.

(** ** Starting *)

Section starting.
Context {B : Type → Type} `{Bolt B} `{Primitives} `{Curve} `{UnicodeTables}.
Implicit Types (a : App B) (sy : System B) (fl : Flags).

Lemma requireLoopback_ok addr :
  requireLoopback addr = Ok tt ↔
  ∃ host port, SplitHostPort addr = Ok (host, port) ∧
    (host = "localhost" ∨ ∃ ip, ParseIP host = Some ip ∧ IP_IsLoopback ip = true).
Proof.
  unfold requireLoopback. destruct (SplitHostPort addr) as [[host port]|e]; [|split; [done|by intros (? & ? & [=] & _)]].
  assert (Hs : ∀ P : string → Prop, (∃ h p, Ok (host, port) = Ok (h, p) ∧ P h) ↔ P host).
  { intros P. split; [by intros (? & ? & [= <- <-] & ?)|eauto]. }
  rewrite Hs. destruct (host =s? "localhost") eqn:E; [apply eqs_true in E; split; by auto|]. apply eqs_false in E.
  destruct (ParseIP host) as [ip|]; [destruct (IP_IsLoopback ip) eqn:Hi|].
  - split; [intros _; right; by exists ip|done].
  - split; [done|]. intros [?|(? & [= <-] & ?)]; [done|congruence].
  - split; [done|]. by intros [?|(? & ? & _)].
Qed.

Lemma run_serving fl sy addr a :
  run fl sy = Some (Serving addr a) → addr = fl_http fl ∧ requireLoopback (fl_http fl) = Ok tt.
Proof.
  unfold run. destruct (fl_version fl); [done|]. destruct (requireLoopback _) as [[]|]; [|done].
  destruct (Open _ _ _ _) as [a0|]; [|done].
  destruct (if bool_decide _ && _ then _ else _) as [[[]]|]; cbn [mbind option_bind]; [|done..].
  destruct (sy_bind sy); [|done]. by intros [= -> _].
Qed.

(** C27: the interface, which asks for no login, is served on the loopback
    interface only.  If [run] gets as far as serving, it serves the address
    of its flag, whose host is "localhost" or an address [net.ParseIP] reads
    as a loopback one; and of the addresses written out, dotted or in eight
    groups, with any port, the check takes exactly those whose first byte is
    127, ::1 and the mapped 127.x.y.z.  The demonstration serves no other. *)
Theorem ui_stays_on_loopback :
  (∀ fl sy addr a, run fl sy = Some (Serving addr a) →
     addr = fl_http fl ∧ ∃ host port, SplitHostPort addr = Ok (host, port) ∧
       (host = "localhost" ∨ ∃ ip, ParseIP host = Some ip ∧ IP_IsLoopback ip = true)) ∧
  (∀ ip port, length ip = 4%nat → Forall is_byte ip → plain_part port →
     requireLoopback (IPString ip +:+ (":" +:+ port)) = Ok tt ↔ head ip = Some 127) ∧
  (∀ gs port, length gs = 8%nat → Forall is_group gs → plain_part port →
     requireLoopback ("[" +:+ (of_bytes (coloned gs) +:+ ("]:" +:+ port))) = Ok tt ↔
     gs = [0; 0; 0; 0; 0; 0; 0; 1] ∨
     ∃ x y, gs = [0; 0; 0; 0; 0; 65535; x; y] ∧ 127 * 256 <= x < 128 * 256) ∧
  (∀ addr, demo_requireLoopback addr = true → requireLoopback addr = Ok tt).
Proof.
  split_and!.
  - intros fl sy addr a Hr. apply run_serving in Hr as [-> Hr]. split; [done|].
    by apply requireLoopback_ok.
  - intros ip port Hl Hip Hp. rewrite requireLoopback_ok, <- (IP_IsLoopback_mapped ip Hl).
    assert (Hh : plain_part (IPString ip)) by (apply IPString_plain; [by intros ->|by apply bytes_nonneg]).
    rewrite (SplitHostPort_plain _ _ Hh Hp). pose proof (ParseIP_dotted ip Hl Hip) as E. split.
    + intros (? & ? & [= <- <-] & [Hx|(ip' & Hx & Hy)]); [|congruence]. by rewrite Hx in E.
    + intros Hx. eauto 10.
  - intros gs port Hl Hgs Hp. rewrite requireLoopback_ok, <- (IP_IsLoopback_groups gs Hl Hgs).
    rewrite SplitHostPort_bracket by (done || by apply coloned_bytes).
    pose proof (ParseIP_coloned gs Hl Hgs) as E. split.
    + intros (? & ? & [= <- <-] & [Hx|(ip' & Hx & Hy)]); [|congruence]. by rewrite Hx in E.
    + intros Hx. eauto 10.
  - intros addr Hd. apply requireLoopback_ok. unfold demo_requireLoopback in Hd.
    destruct (SplitHostPort addr) as [[host port]|]; [|done]. destruct (ParseIP host) eqn:E; [|done]. eauto 10.
Qed.

(** An address the daemon takes need not be one the interface answers at: the
    middleware knows three names of the machine only. *)
Lemma ui_forbidden_elsewhere `{Wire} `{DiskFaults} `{QR} `{Web} env r a host port :
  SplitHostPort (rq_Host r) = Ok (host, port) → host ∉ ["127.0.0.1"; "localhost"; "[::1]"; "::1"] →
  Handler env r a = Some (http_Error 403 "forbidden host", a).
Proof.
  intros Hs Hn. unfold Handler, secure, hostname. rewrite Hs.
  assert (loopback host = false) as ->; [|done].
  unfold loopback. apply not_true_iff_false. intros (h & Hh & ->%eqs_true)%existsb_exists.
  by apply Hn, list_elem_of_In.
Qed.

(** Nothing outside the data directory stops the start, whose database is [d]. *)
Definition goes_on fl sy (d : DB B) : Prop :=
  fl_version fl = false ∧ requireLoopback (fl_http fl) = Ok tt ∧ sy_bind sy = Ok tt ∧ starts (sy_start sy) ∧
  dk_mkdir (sy_disk sy) = Ok tt ∧ dk_db (sy_disk sy) = Ok d.

Definition protected (d : DB B) : bool := PassphraseSet (mkStore d None None [] ∅).
Definition empty_device (d : DB B) : Prop := bget (d_meta d) "identity" = None ∧ protected d = false.

Lemma Open_protected fl sy d :
  goes_on fl sy d → protected d = true →
  Open (sy_start sy) (sy_now sy) (sy_disk sy) (daemon_cfg fl)
  = Ok (mkApp (daemon_cfg fl) None (Some (Sentinel ErrPassphraseRequired)) None true).
Proof.
  intros (_ & _ & _ & _ & Hm & Hd) Hp. unfold App.Open. rewrite Hm, Hd. unfold OpenWithPassphrase, openStore.
  cbn [mbind result_bind]. unfold protected, PassphraseSet in Hp. unfold loadKDF in *. cbn [s_db fst] in *.
  by rewrite Hp.
Qed.

Lemma Open_empty fl sy d :
  goes_on fl sy d → empty_device d →
  let s := mkStore d None None (fl_data fl ++ ["files"]) (dk_files (sy_disk sy)) in
  let a := mkApp (daemon_cfg fl) (Some s) None None false in
  Open (sy_start sy) (sy_now sy) (sy_disk sy) (daemon_cfg fl) = Ok a ∧ first_run a s.
Proof.
  intros (_ & _ & _ & _ & Hm & Hd) [Hi Hp]. cbv zeta. split; [|by split_and!].
  unfold App.Open. rewrite Hm, Hd. unfold OpenWithPassphrase, openStore.
  cbn [mbind result_bind daemon_cfg ac_DataDir]. unfold protected, PassphraseSet, loadKDF in *. cbn [s_db fst] in *.
  rewrite Hp. cbn [negb]. unfold LoadIdentity, View. tx_unfold. cbn [s_db]. by rewrite Hi.
Qed.

(** A device with an identity runs it, whatever name is given. *)
Lemma run_identity fl sy d id :
  goes_on fl sy d → has_identity d id →
  ∃ a n, run fl sy = Some (Serving (fl_http fl) a) ∧ a_n a = Some n ∧ n_id n = id ∧ s_db (n_store n) = d.
Proof.
  intros (Hv & Hl & Hb & He & Hm & Hd) Hi.
  destruct (Open_has_identity (sy_start sy) (sy_now sy) (sy_disk sy) (daemon_cfg fl) d id He Hm Hd Hi)
    as (a & n & E & En & Eid & Edb & _).
  exists a, n. split_and!; [|done..]. unfold run. rewrite Hv, Hl, E, En.
  rewrite bool_decide_eq_false_2 by done. cbn [andb mbind option_bind]. by rewrite Hb.
Qed.

(** C28: what the daemon starts as, when nothing but its database decides.  On
    a device without an identity it serves the setup page, or, given a valid
    name, runs a node with a new identity of that name, which every later
    start finds again whatever name it is given; an invalid name ends it
    with the database as it was.  On a device with an identity it runs it.
    On a device protected by a passphrase it serves a locked shell, but given
    a valid name it panics. *)
Theorem daemon_starts_what_it_finds fl sy d :
  goes_on fl sy d →
  (empty_device d →
     (fl_name fl = "" → ∃ a, run fl sy = Some (Serving (fl_http fl) a) ∧ a_n a = None ∧ NeedsPassphrase a = false) ∧
     (∀ e, fl_name fl ≠ "" → Generate (fl_name fl) (sy_rng sy) = Err e →
        ∃ a s, run fl sy = Some (Failed e (Some a)) ∧ a_n a = None ∧ St a = Some s ∧ s_db s = d) ∧
     (∀ priv id, fl_name fl ≠ "" → sy_rng sy = Ok priv → Generate (fl_name fl) (Ok priv) = Ok id →
        IsEncrypted priv = false →
        ∃ a n, run fl sy = Some (Serving (fl_http fl) a) ∧ a_n a = Some n ∧ n_id n = id ∧
          ∀ fl' sy', goes_on fl' sy' (s_db (n_store n)) →
            ∃ a' n', run fl' sy' = Some (Serving (fl_http fl') a') ∧ a_n a' = Some n' ∧ n_id n' = id)) ∧
  (∀ id, has_identity d id →
     ∃ a n, run fl sy = Some (Serving (fl_http fl) a) ∧ a_n a = Some n ∧ n_id n = id ∧ s_db (n_store n) = d) ∧
  (protected d = true →
     (fl_name fl = "" → ∃ a, run fl sy = Some (Serving (fl_http fl) a) ∧ a_n a = None ∧ NeedsPassphrase a = true) ∧
     (fl_name fl ≠ "" → is_ok (Generate (fl_name fl) (sy_rng sy)) = true → run fl sy = None)).
Proof.
  intros Hg. pose proof Hg as (Hv & Hl & Hb & He & _). split_and!; [|intros; by apply run_identity|].
  - intros Hd. destruct (Open_empty fl sy d Hg Hd) as [E Hf].
    pose proof Hf as (Hn & HS & _ & _ & Hpp). cbn in Hpp. split_and!.
    + intros En. unfold run. rewrite Hv, Hl, E, En. cbn. rewrite Hb. by eexists.
    + intros e En Hgen. unfold run. rewrite Hv, Hl, E. rewrite (proj2 (eqs_false _ _) En). cbn [a_n negb].
      rewrite bool_decide_eq_true_2 by done. cbn [andb]. unfold Setup. cbn [a_n]. rewrite Hgen.
      cbn [mbind option_bind]. eexists _, _. split_and!; [reflexivity|done|done|done].
    + intros priv id En Hr Hgen Hp. assert (Hpriv : id_Private id = priv) by by eapply Generate_private.
      destruct (install_first (sy_start sy) (sy_now sy) (sy_rnd sy) id _ _ He Hf) as (a & n & Ei & Ea & Eid & Es).
      exists a, n. split_and!; [|done|done|].
      * unfold run. rewrite Hv, Hl, E, (proj2 (eqs_false _ _) En). cbn [a_n negb].
        rewrite bool_decide_eq_true_2 by done. cbn [andb]. unfold Setup. cbn [a_n]. rewrite Hr, Hgen, Ei.
        cbn [mbind option_bind]. by rewrite Hb.
      * intros fl' sy' Hg'. rewrite <- Hpriv in Hp.
        destruct (run_identity fl' sy' _ id Hg') as (a' & n' & ? & ? & ? & _); [|by exists a', n'].
        rewrite Es. by eapply saved_has_identity.
  - intros Hp. pose proof (Open_protected fl sy d Hg Hp) as E. split.
    + intros En. unfold run. rewrite Hv, Hl, E, En. cbn. rewrite Hb. by eexists.
    + intros En Hgen. unfold run. rewrite Hv, Hl, E, (proj2 (eqs_false _ _) En). cbn [a_n negb].
      rewrite bool_decide_eq_true_2 by done. cbn [andb]. unfold Setup. cbn [a_n].
      by destruct (Generate _ _).
Qed.
End starting.

(** The attachment of the demonstration is made: it needs several chunks. *)
Lemma attachment_loop_ends fuel b :
  slen b < Z.shiftl 400 10 + slen attachment_line →
  Z.shiftl 400 10 - slen b < Z.of_nat fuel → 0 < Z.of_nat fuel →
  ∃ r, attachment_loop fuel b = Some r ∧ Z.shiftl 400 10 <= slen r < Z.shiftl 400 10 + slen attachment_line.
Proof.
  change (slen attachment_line) with 73. change (Z.shiftl 400 10) with 409600.
  revert b. induction fuel as [|fuel IH]; intros b Hb Hf Hp; [done|].
  cbn [attachment_loop]. change (Z.shiftl 400 10) with 409600. destruct (Z.ltb_spec (slen b) 409600).
  - apply IH; rewrite ?slen_app; change (slen attachment_line) with 73; lia.
  - exists b. split; [done|lia].
Qed.

Lemma demoAttachment_several_chunks :
  ∃ b, demoAttachment = Some b ∧ 12 * ChunkSize < slen b <= MaxFileSize.
Proof.
  destruct (attachment_loop_ends (S (Z.to_nat (Z.shiftl 400 10))) "") as (b & Hb & Hl).
  - done.
  - change (slen "") with 0. change (Z.shiftl 400 10) with 409600. lia.
  - lia.
  - exists b. split; [exact Hb|]. revert Hl. change (Z.shiftl 400 10) with 409600.
    change (slen attachment_line) with 73. change ChunkSize with 32768. change MaxFileSize with 104857600. lia.
Qed.

(** ** Examples *)

#[local] Existing Instance gmap_bolt.
#[local] Existing Instance toy_primitives.
#[local] Existing Instance toy_curve.
#[local] Existing Instance ascii_tables.

Definition ex_system (d : DB gbucket) : System gbucket :=
  mkSystem (mkDisk (Ok tt) (Ok d) ∅) good_start 0 (Ok ex_secret) None (Ok tt).
Definition ex_flags (name : string) : Flags := mkFlags ["home"; "chirp"] "127.0.0.1:7777" name false.

(** Addresses the check takes and refuses. *)
Example requireLoopback_examples :
  (λ addr, is_ok (requireLoopback addr)) <$>
    ["127.0.0.1:7777"; "localhost:80"; "[::1]:80"; "[0:0::1]:80"; "[::ffff:127.0.0.1]:80"; "127.9.9.9:1";
     ":7777"; "0.0.0.0:80"; "[::]:80"; "127.0.0.01:80"; "127.1:80"; "[::1%lo]:80"; "[::ffff:10.0.0.1]:80";
     "127.0.0.1"; "example.com:80"; "[1::2::3]:80"]
  = replicate 6 true ++ replicate 10 false.
Proof. by vm_compute. Qed.

Lemma ui_stays_on_loopback_witness :
  requireLoopback ("127.0.0.2" +:+ (":" +:+ "80")) = Ok tt ∧
  requireLoopback ("192.168.0.1" +:+ (":" +:+ "80")) ≠ Ok tt ∧
  requireLoopback "[0000:0000:0000:0000:0000:0000:0000:0001]:80" = Ok tt.
Proof.
  destruct (ui_stays_on_loopback (B := gbucket)) as (_ & Hv4 & Hv6 & _).
  assert (Hp : plain_part "80") by (split; [done|]; repeat constructor; set_solver).
  assert (Hb : ∀ a b c d, forallb (λ x, (0 <=? x) && (x <? 256)) [a; b; c; d] = true → Forall is_byte [a; b; c; d]).
  { intros a b c d. cbn. unfold is_byte. intros ?. repeat constructor; lia. }
  split; [|split].
  - apply (Hv4 [127; 0; 0; 2] "80"); [done|by apply Hb|done|done].
  - intros Hx. apply (Hv4 [192; 168; 0; 1] "80") in Hx; [done|done|by apply Hb|done].
  - apply (Hv6 [0; 0; 0; 0; 0; 0; 0; 1] "80"); [done|repeat constructor; done|done|by left].
Defined.

Lemma daemon_starts_what_it_finds_witness :
  ∃ a n a' n', run (ex_flags "Alice") (ex_system empty_db) = Some (Serving "127.0.0.1:7777" a) ∧ a_n a = Some n ∧
    n_id n = ex_owner ∧
    run (ex_flags "Bob") (ex_system (s_db (n_store n))) = Some (Serving "127.0.0.1:7777" a') ∧ a_n a' = Some n' ∧
    n_id n' = ex_owner.
Proof.
  assert (Hg : ∀ name d, goes_on (ex_flags name) (ex_system d) d) by (intros; split_and!; by vm_compute).
  destruct (daemon_starts_what_it_finds (ex_flags "Alice") (ex_system empty_db) empty_db (Hg _ _)) as (Hd & _ & _).
  destruct Hd as (_ & _ & Hd); [done|].
  destruct (Hd ex_secret ex_owner) as (a & n & X1 & X2 & X3 & X4);
    [done|done|vm_compute; reflexivity|done|].
  destruct (X4 (ex_flags "Bob") (ex_system (s_db (n_store n))) (Hg _ _)) as (a' & n' & Y1 & Y2 & Y3).
  by exists a, n, a', n'.
Defined.
