(* ===== verification/Demo.v ===== *)
(** * The demonstration (cmd/demo/main.go)

    Its start, and the lives of its bots as transitions between the phases
    their goroutines wait in: who greets, who comes and goes, and who comes
    back under the same name with another key. *)

From S2P Require Import Prelude GoStrings Utf8 Proto Identity Base64 Json Crypto Backup Bolt StoreData StoreCore.
From S2P Require Import StoreMessages StorePeers PeerPins Backoff Invite NodeState NodeViews NodeCore App Api Daemon.

Section demo.
Context {B : Type → Type} `{Bolt B} `{Primitives} `{Curve} `{UnicodeTables} `{DiskFaults}.

(** ** The program *)

Record DemoFlags := mkDemoFlags { df_http : string; df_name : string; df_onboard : bool }.
Definition demo_defaults : DemoFlags := mkDemoFlags "127.0.0.1:7777" "You" false.

(** [log.Fatal], or an app that is served. *)
Inductive demo_started := DemoFatal | DemoServing (addr : string) (a : App B).

Definition demo_cfg (tmp : path) : AppConfig := mkAppConfig (tmp ++ ["you"]) "" (mkConfig 0 0 0 0 0).

(** [main] up to the interface being served; [None] is a panic. *)
Definition demo_main (fl : DemoFlags) (tmp : result path) (sy : System B) : option demo_started :=
  if negb (demo_requireLoopback (df_http fl)) then Some DemoFatal else
  match tmp with
  | Err _ => Some DemoFatal
  | Ok tmp =>
      match App.Open (sy_start sy) (sy_now sy) (sy_disk sy) (demo_cfg tmp) with
      | Err _ => Some DemoFatal
      | Ok a =>
          '(r, a) ← (if df_onboard fl then Some (Ok tt, a)
                     else Setup (sy_start sy) (sy_now sy) (sy_rng sy) (sy_rnd sy) (df_name fl) a);
          match r with
          | Err _ => Some DemoFatal
          | Ok _ => match sy_bind sy with Err _ => Some DemoFatal | Ok _ => Some (DemoServing (df_http fl) a) end
          end
      end
  end.

(** ** Bots *)

(** A node that starts, or does not. *)
Definition started_node (env : StartEnv) (now : Z) (n : Node B) : option (Node B) :=
  let (r, n) := Start env now n in match r with Ok _ => Some n | Err _ => None end.

(** [bot]: a node and the turns its greeting still has. *)
Record bot := mkBot { bt_node : Node B; bt_greet : nat }.

Definition bot_start (env : StartEnv) (now : Z) (opened : result (DB B)) (dir : path) (disk : FS) (name : string)
    (rng : result string) (greet : bool) : option bot :=
  match newBot opened dir disk None name rng with
  | Err _ => None
  | Ok n => n ← started_node env now n; Some (mkBot n (if greet then 60 else 0))
  end.

(** Half a second passed. *)
Definition bot_greets (sk : Sockets) (now : Z) (rng1 rng2 : string) (rnd1 rnd2 : option string) (b : bot) : bot :=
  match bt_greet b with
  | O => b
  | S turns =>
      let (given, n) := greet_turn sk now rng1 rng2 rnd1 rnd2 (bt_node b) in
      mkBot n (if (given : bool) then O else turns)
  end.
Definition bot_replies (now : Z) (rng : string) (rnd : option string) (i : nat) (e : Event) (b : bot) : bot :=
  mkBot (autoReply now rng rnd i e (bt_node b)).2 (bt_greet b).
(** The end: the node stops, the store is closed. *)
Definition bot_end (b : bot) : Store B := n_store (Stop (bt_node b)).2.

(** [flaky]: up for a while, down for a while, over the same store and identity. *)
Inductive flaky :=
| FlakyUp (id : Identity) (n : Node B)
| FlakyDown (id : Identity) (st : Store B)
| FlakyGone.

Definition flaky_up (env : StartEnv) (now : Z) (id : Identity) (st : Store B) : flaky :=
  match started_node env now (New st (mkConfig 0 0 0 0 0) id) with Some n => FlakyUp id n | None => FlakyGone end.

(** The error of [Generate] is ignored, and its nil identity dereferenced. *)
Definition flaky_start (env : StartEnv) (now : Z) (opened : result (DB B)) (dir : path) (disk : FS) (name : string)
    (rng : result string) : option flaky :=
  match StoreCore.Open opened (dir ++ ["files"]) disk with
  | Err _ => Some FlakyGone
  | Ok st => match Generate name rng with Err _ => None | Ok id => Some (flaky_up env now id st) end
  end.

(** The timer of the phase fires; [stopping] says that the context is cancelled. *)
Definition flaky_timer (env : StartEnv) (now : Z) (stopping : bool) (f : flaky) : flaky :=
  match f with
  | FlakyUp id n => FlakyDown id (n_store (Stop n).2)
  | FlakyDown id st => if stopping then FlakyGone else flaky_up env now id st
  | FlakyGone => FlakyGone
  end.
Definition flaky_replies (now : Z) (rng : string) (rnd : option string) (i : nat) (e : Event) (f : flaky) : flaky :=
  match f with FlakyUp id n => FlakyUp id (autoReply now rng rnd i e n).2 | f => f end.

(** [impostor]: a node, and after it one of the same name over a new database. *)
Inductive impostor := ImpostorFirst (n : Node B) | ImpostorSecond (n : Node B) | ImpostorGone.

Definition impostor_node (env : StartEnv) (now : Z) (opened : result (DB B)) (dir : path) (disk : FS) (name : string)
    (rng : result string) : option (Node B) :=
  match newBot opened dir disk None name rng with Err _ => None | Ok n => started_node env now n end.

Definition impostor_start env now opened dir disk name rng : impostor :=
  match impostor_node env now opened dir disk name rng with Some n => ImpostorFirst n | None => ImpostorGone end.
Definition impostor_timer env now opened dir disk name rng (stopping : bool) (i : impostor) : impostor :=
  match i with
  | ImpostorFirst _ =>
      if stopping then ImpostorGone else
      match impostor_node env now opened dir disk name rng with Some n => ImpostorSecond n | None => ImpostorGone end
  | _ => ImpostorGone
  end.

(** ** What the demonstration shows *)

Lemma started_node_keeps env now n n' : started_node env now n = Some n' → n_store n' = n_store n ∧ n_id n' = n_id n.
Proof.
  unfold started_node, Start. destruct (st_listen env); [|done]. destruct (st_browse env); [|done].
  destruct (st_announce env); [|done]. cbn. by intros [= <-].
Qed.

Lemma newBot_name opened dir disk name rng n :
  newBot opened dir disk None name rng = Ok n → Generate name rng = Ok (n_id n).
Proof. unfold newBot. destruct (StoreCore.Open _ _ _); [|done]. destruct (Generate name rng); by intros [= <-]. Qed.

Lemma impostor_node_id env now opened dir disk name rng n :
  impostor_node env now opened dir disk name rng = Some n → Generate name rng = Ok (n_id n).
Proof.
  unfold impostor_node. destruct (newBot _ _ _ _ _ _) as [n0|] eqn:E; [|done].
  intros [_ ->]%started_node_keeps. by apply newBot_name in E.
Qed.

Lemma closes_keep l (m : Node B) :
  n_store (for_each l close m).2 = n_store m ∧ n_id (for_each l close m).2 = n_id m.
Proof. revert m. induction l as [|c l IH]; intros m; [done|]. exact (IH (with_out (OClose c) m)). Qed.
Lemma stop_store (n : Node B) : n_store (Stop n).2 = n_store n.
Proof. exact (proj1 (closes_keep _ (with_announced false n))). Qed.

(** Who comes and goes is the same each time: after both timers the node is one
    with the identity and the data it had, so no contact sees a new key. *)
Lemma flaky_comes_back env now1 now2 id (n : Node B) :
  match flaky_timer env now2 false (flaky_timer env now1 false (FlakyUp id n)) with
  | FlakyUp id' n' => id' = id ∧ n_id n' = id ∧ n_store n' = n_store n
  | FlakyDown _ _ => False
  | FlakyGone => ¬ starts env
  end.
Proof.
  cbn [flaky_timer]. unfold flaky_up.
  destruct (started_node _ _ _) as [n'|] eqn:E.
  - apply started_node_keeps in E as [-> ->]. split_and!; [done|done|]. apply stop_store.
  - intros (E1 & E2 & E3). unfold started_node, Start in E. by rewrite E1, E2, E3 in E.
Qed.

(** The trust warning: a contact that pinned the first key refuses the second
    node under the same name and records its key, with the old pin in place. *)
Lemma impostor_is_flagged s env1 env2 now1 now2 op1 op2 d1 d2 k1 k2 name rng1 rng2 n1 n2 pin now rnd :
  impostor_node env1 now1 op1 d1 k1 name rng1 = Some n1 →
  impostor_node env2 now2 op2 d2 k2 name rng2 = Some n2 →
  id_Public (n_id n1) ≠ id_Public (n_id n2) →
  rows_ok s → pin_table s (peerKey (id_Name (n_id n1))) = Some pin → pin_key pin = id_Public (n_id n1) →
  peer_args_ok (PObserve (id_Name (n_id n2)) (id_Public (n_id n2)) now rnd) s →
  ∃ p s', Observe s (id_Name (n_id n2)) (id_Public (n_id n2)) now rnd = (Ok (p, false), s') ∧
    pin_table s' (peerKey (id_Name (n_id n2)))
    = Some (mkPin (id_Public (n_id n1)) (id_Public (n_id n2)) (pin_verified pin)).
Proof.
  intros Hi1%impostor_node_id Hi2%impostor_node_id Hne Hs Hp Hk Ha.
  assert (En : id_Name (n_id n1) = id_Name (n_id n2)).
  { unfold Generate in *. apply bind_ok in Hi1 as (m1 & Hm1 & ([a1 b1] & _ & E1)%bind_ok).
    apply bind_ok in Hi2 as (m2 & Hm2 & ([a2 b2] & _ & E2)%bind_ok). rewrite Hm1 in Hm2. simplify_eq.
    by rewrite <- E1, <- E2. }
  pose proof (observe_implements _ _ _ _ _ Hs Ha) as Hi. unfold peer_implements, run_peer in Hi.
  rewrite En in Hp. destruct (Observe _ _ _ _ _) as [r s']. destruct Hi as (Hr & Ht & _).
  cbn [spec_peer] in Hr, Ht. rewrite Hp in Hr, Ht. rewrite Hk in Hr, Ht. rewrite (proj2 (eqs_false _ _) Hne) in Hr, Ht.
  cbn [fst snd] in *. destruct r as [[p b]|]; [|done]. cbn [mbind result_bind] in Hr. simplify_eq/=.
  exists p, s'. split; [done|]. rewrite Ht. unfold set_pin. by rewrite decide_True.
Qed.
End demo.
