(* ===== verification/NodeLink.v ===== *)
(** * What a session's envelopes do (internal/node/link.go)

    One turn of [readLoop] per received envelope.  The result says whether the
    loop goes on; when it does not, [runSession] cleans up. *)

From S2P Require Import Prelude GoStrings Utf8 Proto Sha256 Identity Base64 Crypto Bolt.
From S2P Require Import StoreData StoreCore StoreMessages StorePeers StoreFiles StoreRooms.
From S2P Require Import Backoff NodeState NodeRooms NodeCore.

Definition maxMsgPerSec : Z := 100.

(** The rate limiter: the counters after a message, and whether it is over the limit. *)
Definition rate_step (now : Z) (count start : Z) : Z * Z * bool :=
  let '(count, start) :=
    if (start =? zero_time) || (Second <? time_Sub now start) then (0, now) else (count, start) in
  let count := count + 1 in
  (count, start, maxMsgPerSec <? count).

Section link.
Context {B : Type → Type} `{Bolt B} `{Primitives} `{UnicodeTables} `{Wire} `{DiskFaults}.

Definition handleMsg (now : Z) (rnd : option string) (c : nat) (l : Link) (e : Envelope)
    : M B bool :=
  let '(count, start, over) := rate_step now (lk_msgCount l) (lk_rateStart l) in
  _ ← update_link c (set_rate count start);
  if over then
    _ ← logf now "rate limit: %q exceeded %d msg/s"; _ ← close c; mret false
  else
    md ← on_store (λ s, AddMessage s
      (mkMessage (ID e) (lk_peer l) DirIn (Body e) now StatusReceived 0 zero_time 0 (ReplyTo e)) rnd);
    match (md : result (Message * bool)) with
    | Err _ => _ ← logf now "store inbound: %v"; mret false
    | Ok (m, dup) =>
        r ← send c (ack_envelope (ID e));
        match r with
        | Err _ => mret false
        | Ok _ =>
            _ ← (if dup then mret tt else emit (event_msg "message" (lk_peer l) m));
            mret true
        end
    end.

Definition handleAck (l : Link) (e : Envelope) : M B bool :=
  mc ← on_store (λ s, MarkDelivered s (lk_peer l) (ID e));
  _ ← (match (mc : result (Message * bool)) with
       | Ok (m, true) => emit (event_msg "status" (lk_peer l) m)
       | _ => mret tt
       end);
  mret true.

Definition handleDel (l : Link) (e : Envelope) : M B bool :=
  _ ← on_store (λ s, DeleteMessage s (Target e));
  _ ← emit (event "peers" (lk_peer l));
  mret true.

Definition handleFile (now : Z) (c : nat) (l : Link) (e : Envelope) : M B bool :=
  resume ← on_store (λ s, BeginReceive s (ID e) (lk_peer l) (Src e) (Hash e) (Size e) now);
  match resume with
  | Err _ => _ ← logf now "begin receive %s: %v"; _ ← close c; mret false
  | Ok resume =>
      _ ← update_link c (set_rx (ID e) resume (Hash e) (Size e) (Src e));
      _ ← (if 0 <? resume then logf now "resuming %s from %d of %d bytes" else mret tt);
      sent ← (if speaks l CapResume then send c (fileack_envelope (ID e) resume)
              else mret (Ok tt));
      match sent with
      | Err _ => _ ← logf now "fileack to %s: %v"; mret false
      | Ok _ =>
          _ ← emit (event_file "file" (lk_peer l) (ID e) (Src e) (Size e) (Hash e)
                      (progressOf resume (Size e)));
          mret true
      end
  end.

(** The end of a transfer: the file is verified and the session forgets it. *)
Definition complete_rx (now : Z) (rnd : option string) (c : nat) (l : Link) (id : string)
    : M B unit :=
  r ← on_store (λ s, CompleteFile s id rnd);
  _ ← (match r with
       | Err _ => logf now "complete file %s: %v"
       | Ok _ => emit (event_file "fileComplete" (lk_peer l) id (lk_rxFileName l) 0
                         (lk_rxFileHash l) (0, 1))
       end);
  update_link c (set_rx "" 0 "" 0 "").

Definition handleChunk (now : Z) (rnd : option string) (c : nat) (l : Link) (e : Envelope)
    : M B bool :=
  if negb (ID e =s? lk_rxFileID l) then mret true else
  f ← on_store (λ s, WriteChunk s (ID e) (Offset e) (Chunk e));
  match f with
  | Err _ => _ ← logf now "write chunk %s: %v"; _ ← close c; mret false
  | Ok f =>
      _ ← update_link c (set_rxOff (f_Received f));
      _ ← emit (event_file "fileProgress" (lk_peer l) (ID e) "" 0 (lk_rxFileHash l)
                  (progressOf (f_Received f) (lk_rxFileSize l)));
      _ ← (if lk_rxFileSize l <=? f_Received f then complete_rx now rnd c l (ID e) else mret tt);
      mret true
  end.

(** [switch e.T]. *)
Definition dispatch (now : Z) (rnd : option string) (c : nat) (l : Link) (e : Envelope)
    : M B bool :=
  if T e =s? TypePing then mret true
  else if T e =s? TypeMsg then handleMsg now rnd c l e
  else if T e =s? TypeAck then handleAck l e
  else if T e =s? TypeReact then
    if negb (Proto.Room e =s? "") then _ ← handleRoomReaction now l e; mret true
    else _ ← emit (event_target "reaction" (lk_peer l) (Emoji e) (Target e)); mret true
  else if (T e =s? TypeDel) || (T e =s? TypeDelAll) then handleDel l e
  else if T e =s? TypeTyping then _ ← emit (event "typing" (lk_peer l)); mret true
  else if T e =s? TypeRead then
    _ ← emit (event_target "read" (lk_peer l) "" (Target e)); mret true
  else if T e =s? TypeFile then handleFile now c l e
  else if T e =s? TypeFileAck then _ ← deliverFileAck c (ID e) (Offset e); mret true
  else if T e =s? TypeChunk then handleChunk now rnd c l e
  else if T e =s? TypeRoomMsg then _ ← handleRoomMsg now rnd c l e; mret true
  else if T e =s? TypeRoomAck then _ ← handleRoomAck now l e; mret true
  else if T e =s? TypeRoomEvent then _ ← handleRoomEvent now rnd l e; mret true
  else mret true.

(** One turn of [readLoop]: what [Recv] gives, a valid envelope or an error. *)
Definition read_turn (now : Z) (rnd : option string) (c : nat) (received : result Envelope)
    : M B bool :=
  match received with
  | Err _ => mret false
  | Ok e =>
      l ← link_at c;
      match l with None => mret false | Some l => dispatch now rnd c l e end
  end.

(** A turn and, when the loop ends, the clean-up of [runSession]. *)
Definition session_turn (now : Z) (rnd : option string) (c : nat) (received : result Envelope)
    : M B unit :=
  go ← read_turn now rnd c received;
  if (go : bool) then mret tt else runSession_end now c.
End link.
