(* ===== verification/NodeFrame.v ===== *)
(** * What a handler of the node leaves alone

    [steps R m]: whatever the node, running [m] leads to an [R]-related one.
    For a preorder [R] this composes along the code.  [quiet π Q] is such a
    preorder: the projection [π] of the database, the keys of the store and the names
    of the sessions stay, no session becomes the live one of its peer, and every
    envelope sent is valid and of a type in [Q]. *)

From S2P Require Import Prelude GoStrings Utf8 Proto Sha256 Identity Base64 Crypto Bolt.
From S2P Require Import StoreData StoreCore StoreMessages StorePeers StoreFiles StoreRooms.
From S2P Require Import StoreFrame Backoff NodeState NodeRooms NodeCore NodeLink.

Section steps.
Context {B : Type → Type} `{Bolt B} (R : Node B → Node B → Prop) `{!PreOrder R}.

Definition steps {A} (m : M B A) : Prop := ∀ n, R n (m n).2.

Lemma steps_read {A} (m : M B A) : (∀ n, (m n).2 = n) → steps m.
Proof. intros Hm n. by rewrite Hm. Qed.
Lemma steps_ret {A} (a : A) : steps (mret a).
Proof. by intros n. Qed.
Lemma steps_bind {A A'} (m : M B A) (f : A → M B A') :
  steps m → (∀ a, steps (f a)) → steps (mbind f m).
Proof.
  intros Hm Hf n. specialize (Hm n). unfold mbind, M_bind. destruct (m n) as [a n1]. cbn in Hm.
  etrans; [exact Hm|]. apply Hf.
Qed.
Lemma steps_try {A A'} (m : M B (result A)) (f : A → M B (result A')) :
  steps m → (∀ a, steps (f a)) → steps (try_ m f).
Proof. intros Hm Hf. apply steps_bind; [done|]. intros [a|e]; [apply Hf|apply steps_ret]. Qed.
Lemma steps_for_each {A} (l : list A) (f : A → M B unit) :
  (∀ a, steps (f a)) → steps (for_each l f).
Proof.
  intros Hf. induction l as [|a l IH]; [apply steps_ret|]. by apply steps_bind; [|intros _].
Qed.
End steps.

Create HintDb steps.
#[export] Hint Resolve steps_ret : steps.

Section quiet.
Context {B : Type → Type} `{Bolt B} `{Primitives} `{UnicodeTables} `{Wire} `{DiskFaults}.
Context {X : Type} (π : DB B → X) (Q : string → Prop).

(** An output that is no envelope, or a valid one of a type in [Q]. *)
Definition out_ok (o : output) : Prop :=
  match o with OSend _ e => Q (T e) ∧ is_ok (validate e) = true | _ => True end.

Definition conn_names (n : Node B) : gmap nat string := lk_peer <$> n_conns n.

Record quiet (n n' : Node B) : Prop := {
  q_store : same_part π (n_store n) (n_store n');
  q_conns : conn_names n' = conn_names n;
  q_out : ∃ o, n_out n' = n_out n ++ o ∧ Forall out_ok o;
  q_live : n_live n' ⊆ n_live n }.

#[export] Instance quiet_preorder : PreOrder quiet.
Proof.
  split.
  - intros n. split; [done..| |done]. exists []. by rewrite app_nil_r.
  - intros n1 n2 n3 [E1 E2 (o1 & E3 & F1) L1] [E4 E5 (o2 & E6 & F2) L2].
    split; [by etrans|congruence| |by etrans]. exists (o1 ++ o2). rewrite E6, E3, (assoc_L (++)).
    split; [done|by apply Forall_app].
Qed.

Abbreviation qsteps := (steps quiet).

(** A change of anything but the store, the sessions and the trace. *)
Lemma q_modify f :
  (∀ n, n_store (f n) = n_store n ∧ conn_names (f n) = conn_names n ∧ n_out (f n) = n_out n
        ∧ n_live (f n) ⊆ n_live n) →
  qsteps (modify f).
Proof.
  intros Hf n. destruct (Hf n) as (E1 & E2 & E3 & E4). cbn. split; rewrite ?E1; [done..| |done].
  exists []. by rewrite E3, app_nil_r.
Qed.

Lemma q_output o : out_ok o → qsteps (out o).
Proof. intros Ho n. split; [done..| |done]. exists [o]. by repeat constructor. Qed.

Lemma q_on_store {A} (f : Store B → result A * Store B) :
  (∀ s, same_part π s (f s).2) → qsteps (on_store f).
Proof.
  intros Hf n. specialize (Hf (n_store n)). unfold on_store.
  destruct (f (n_store n)) as [r s']. split; [done..| |done]. exists []. by rewrite app_nil_r.
Qed.

Lemma q_get : qsteps get.
Proof. apply steps_read; [apply quiet_preorder|done]. Qed.
Lemma q_my_name : qsteps my_name.
Proof. apply steps_read; [apply quiet_preorder|done]. Qed.
Lemma q_linkFor name : qsteps (linkFor name).
Proof. apply steps_read; [apply quiet_preorder|done]. Qed.
Lemma q_link_at c : qsteps (link_at c).
Proof. apply steps_read; [apply quiet_preorder|done]. Qed.
Lemma q_read_store {A} (f : Store B → A) : qsteps (read_store f).
Proof. apply steps_read; [apply quiet_preorder|done]. Qed.

Lemma q_emit e : qsteps (emit e).
Proof. apply steps_bind; [apply quiet_preorder|by apply q_modify|]. intros _. by apply q_output. Qed.
Lemma q_logf now f : qsteps (logf now f).
Proof. apply steps_bind; [apply quiet_preorder|by apply q_modify|]. intros _. by apply q_output. Qed.
Lemma q_spawn t : qsteps (spawn t).
Proof. by apply q_output. Qed.
Lemma q_close c : qsteps (close c).
Proof. by apply q_output. Qed.

Lemma q_send c e : Q (T e) → qsteps (send c e).
Proof.
  intros HQ n. unfold send. destruct (validate e) as [u|] eqn:Ev; [|done].
  destruct (wire_error _ _ _); [done|]. cbn. split; [done..| |done]. exists [OSend c e].
  repeat constructor; [done|]. by rewrite Ev.
Qed.

Lemma q_update_link c f : (∀ l, lk_peer (f l) = lk_peer l) → qsteps (update_link c f).
Proof.
  intros Hf. apply q_modify. intros n. split_and!; [done| |done|done]. unfold conn_names. cbn.
  apply map_eq. intros i. rewrite !lookup_fmap. destruct (decide (i = c)) as [->|].
  - rewrite lookup_alter. rewrite decide_True by done.
    destruct (n_conns n !! c) as [l|]; cbn; [by rewrite Hf|done].
  - by rewrite lookup_alter_ne.
Qed.

Lemma q_awaitFileAck c id : qsteps (awaitFileAck c id).
Proof. by apply q_update_link. Qed.
Lemma q_cancelFileAck c id : qsteps (cancelFileAck c id).
Proof. by apply q_update_link. Qed.
Lemma q_deliverFileAck c id off : qsteps (deliverFileAck c id off).
Proof. apply q_update_link. intros l. by repeat case_match. Qed.
End quiet.

#[export] Hint Resolve q_get q_my_name q_linkFor q_link_at q_read_store q_emit q_logf q_spawn q_close
  q_send q_awaitFileAck q_cancelFileAck q_deliverFileAck : steps.

Ltac steps_tac :=
  cbv zeta; repeat first
    [ solve [eauto 2 with steps]
    | apply q_on_store; intros ?; solve [eauto with frame typeclass_instances]
    | apply q_update_link; intros ?; reflexivity
    | apply steps_bind; [typeclasses eauto| |intros ?]
    | apply steps_try; [typeclasses eauto| |intros ?]
    | apply steps_for_each; [typeclasses eauto|intros ?]
    | case_match ].

Section handlers.
Context {B : Type → Type} `{Bolt B} `{Primitives} `{UnicodeTables} `{Wire} `{DiskFaults}.
Context {X : Type} (π : DB B → X) (Q : string → Prop).
Abbreviation qsteps := (steps (quiet π Q)).

(** ** Rooms *)

Section rooms.
Context `{!Untouched π bRooms} `{!Untouched π bRoomMsgs} `{!Untouched π bRoomIdx}
  `{!Untouched π bRoomOutbox} `{!Untouched π bRoomSeq}.
Context (HQ1 : Q TypeRoomEvent) (HQ2 : Q TypeRoomMsg) (HQ3 : Q TypeRoomAck) (HQ4 : Q TypeReact).

Lemma q_sendRoomEvent now mb room ev actor name l : qsteps (sendRoomEvent now mb room ev actor name l).
Proof. unfold sendRoomEvent. steps_tac. Qed.
Hint Resolve q_sendRoomEvent : steps.

Lemma q_tell_others now names skip room ev actor name l :
  qsteps (tell_others now names skip room ev actor name l).
Proof. unfold tell_others. steps_tac. Qed.
Hint Resolve q_tell_others : steps.

Lemma q_flush_room_loop c mb room now l : qsteps (flush_room_loop c mb room now l).
Proof. induction l as [|m l IH]; cbn [flush_room_loop]; steps_tac. Qed.
Hint Resolve q_flush_room_loop : steps.

Lemma q_flushRoomMember now mb room : qsteps (flushRoomMember now mb room).
Proof. unfold flushRoomMember. steps_tac. Qed.
Hint Resolve q_flushRoomMember : steps.

Lemma q_CreateRoom now rng rnd name l : qsteps (CreateRoom_ now rng rnd name l).
Proof. unfold CreateRoom_. steps_tac. Qed.
Lemma q_SendRoomMessage now rng rnd room body : qsteps (SendRoomMessage now rng rnd room body).
Proof. unfold SendRoomMessage. steps_tac. Qed.
Lemma q_AddRoomMember now rnd room mb : qsteps (AddRoomMember now rnd room mb).
Proof. unfold AddRoomMember. steps_tac. Qed.
Lemma q_RemoveRoomMember now rnd room mb : qsteps (RemoveRoomMember now rnd room mb).
Proof. unfold RemoveRoomMember. steps_tac. Qed.
Lemma q_LeaveRoom now rnd room : qsteps (LeaveRoom now rnd room).
Proof. unfold LeaveRoom. steps_tac. Qed.
Lemma q_RenameRoom now rnd room name : qsteps (RenameRoom now rnd room name).
Proof. unfold RenameRoom. steps_tac. Qed.
Lemma q_SendRoomReaction now room id emoji : qsteps (SendRoomReaction now room id emoji).
Proof. unfold SendRoomReaction. steps_tac. Qed.
Lemma q_AcceptRoomInvite now rnd room : qsteps (AcceptRoomInvite now rnd room).
Proof. unfold AcceptRoomInvite. steps_tac. Qed.
Lemma q_DeclineRoomInvite now room : qsteps (DeclineRoomInvite now room).
Proof. unfold DeclineRoomInvite. steps_tac. Qed.

Lemma q_handleRoomReaction now l e : qsteps (handleRoomReaction now l e).
Proof. unfold handleRoomReaction. steps_tac. Qed.
Lemma q_handleRoomMsg now rnd c l e : qsteps (handleRoomMsg now rnd c l e).
Proof. unfold handleRoomMsg. steps_tac. Qed.
Lemma q_handleRoomAck now l e : qsteps (handleRoomAck now l e).
Proof. unfold handleRoomAck. steps_tac. Qed.
Lemma q_handleRoomEvent now rnd l e : qsteps (handleRoomEvent now rnd l e).
Proof.
  unfold handleRoomEvent, handle_create, handle_join, handle_remove, handle_leave, handle_rename.
  steps_tac.
Qed.
End rooms.
(** ** Files *)

Section files.
Context `{!Untouched π bFiles} `{!Untouched π bFileOutbox}.
Context (HQ1 : Q TypeFile) (HQ2 : Q TypeChunk) (HQ3 : Q TypeFileAck).

Lemma q_pinned peer : qsteps (pinned peer).
Proof. unfold pinned. steps_tac. Qed.
Hint Resolve q_pinned : steps.

Lemma q_SendFile now rng rnd peer name data : qsteps (SendFile now rng rnd peer name data).
Proof. unfold SendFile. steps_tac. Qed.

Lemma q_file_sent peer f : qsteps (file_sent peer f).
Proof. unfold file_sent. steps_tac. Qed.
Hint Resolve q_file_sent : steps.

Lemma q_panic : qsteps (out OPanic).
Proof. by apply q_output. Qed.
Hint Resolve q_panic : steps.

Lemma q_chunk_loop now peer c f data fuel off : qsteps (chunk_loop now peer c f data fuel off).
Proof. revert off. induction fuel as [|fuel IH]; intros off; cbn [chunk_loop]; steps_tac. Qed.
Hint Resolve q_chunk_loop : steps.

Lemma q_flushFile_from now peer c f data off : qsteps (flushFile_from now peer c f data off).
Proof. unfold flushFile_from. steps_tac. Qed.
Hint Resolve q_flushFile_from : steps.

Lemma q_flushFile_prepare peer id : qsteps (flushFile_prepare peer id).
Proof. unfold flushFile_prepare. steps_tac. Qed.
Lemma q_flushFile_send now peer p : qsteps (flushFile_send now peer p).
Proof. unfold flushFile_send. destruct p as [[[c l] f] data]. steps_tac. Qed.
Lemma q_flushFile_answer now peer w t : qsteps (flushFile_answer now peer w t).
Proof. unfold flushFile_answer. destruct w as [[c f] data]. steps_tac. Qed.

Lemma q_handleFile now c l e : qsteps (handleFile now c l e).
Proof. unfold handleFile. steps_tac. Qed.
Lemma q_complete_rx now rnd c l id : qsteps (complete_rx now rnd c l id).
Proof. unfold complete_rx. steps_tac. Qed.
Hint Resolve q_complete_rx : steps.
Lemma q_handleChunk now rnd c l e : qsteps (handleChunk now rnd c l e).
Proof. unfold handleChunk. steps_tac. Qed.
Lemma q_DeleteFile id : qsteps (DeleteFile_ id).
Proof. unfold DeleteFile_. steps_tac. Qed.
End files.

(** ** Sessions, discovery and what the user interface sends *)

Lemma q_runSession_start c l : qsteps (runSession_start c l).
Proof. unfold runSession_start. steps_tac. Qed.
Lemma q_runSession_end now c : qsteps (runSession_end now c).
Proof.
  unfold runSession_end. steps_tac. apply q_modify. intros n. case_bool_decide; [|done].
  split_and!; [done..|]. cbn. apply delete_subseteq.
Qed.
Lemma q_ping c : Q TypePing → qsteps (ping c).
Proof. intros HQ. unfold ping. steps_tac. Qed.

Lemma q_dialDone now rnd fp ok : qsteps (dialDone now rnd fp ok).
Proof. by apply q_modify. Qed.
Hint Resolve q_dialDone : steps.
Lemma q_dial_failed now rnd fp : qsteps (dial_failed now rnd fp).
Proof. unfold dial_failed. steps_tac. Qed.
Lemma q_browse now p up : qsteps (browse now p up).
Proof. unfold browse. steps_tac. by apply q_modify. Qed.
Lemma q_dial_tick now : qsteps (dial_tick now).
Proof. unfold dial_tick, dial_entry. steps_tac; by apply q_modify. Qed.

Lemma q_send_to peer e : Q (T e) → qsteps (send_to peer e).
Proof. intros HQ. unfold send_to. steps_tac. Qed.
Hint Resolve q_send_to : steps.
Lemma q_SendReaction peer emoji id : Q TypeReact → qsteps (SendReaction peer emoji id).
Proof. intros HQ. unfold SendReaction. steps_tac. Qed.
Lemma q_SendTyping peer : Q TypeTyping → qsteps (SendTyping peer).
Proof. intros HQ. unfold SendTyping, if_allowed. steps_tac. Qed.
Lemma q_SendReadReceipt peer id : Q TypeRead → qsteps (SendReadReceipt peer id).
Proof. intros HQ. unfold SendReadReceipt, if_allowed. steps_tac. Qed.

Lemma q_Rename `{!Untouched π bMeta} now a err name : qsteps (Rename now a err name).
Proof.
  unfold Rename. steps_tac; first [by apply q_modify | by apply q_output].
Qed.
Lemma q_Subscribe : qsteps Subscribe.
Proof. unfold Subscribe. steps_tac. by apply q_modify. Qed.
Lemma q_Unsubscribe id : qsteps (Unsubscribe id).
Proof. by apply q_modify. Qed.
Lemma q_RetryNow peer : qsteps (RetryNow peer).
Proof. by apply q_spawn. Qed.
(** ** Messages *)

Section messages.
Context `{!Untouched π bMsgs} `{!Untouched π bIdx} `{!Untouched π bOutbox}.

Lemma q_SendReply now rng rnd peer body rt : qsteps (SendReply now rng rnd peer body rt).
Proof. unfold SendReply, pinned. steps_tac. Qed.

Lemma q_flush_loop now rnd peer c force l :
  Q TypeMsg → qsteps (flush_loop now rnd peer c force l).
Proof. intros HQ. induction l as [|m l IH]; cbn [flush_loop]; steps_tac. Qed.

Lemma q_flush now rnd peer force : Q TypeMsg → qsteps (flush now rnd peer force).
Proof.
  intros HQ. pose proof q_flush_loop as Hl. unfold flush. steps_tac.
Qed.

Lemma q_handleMsg now rnd c l e : Q TypeAck → qsteps (handleMsg now rnd c l e).
Proof. intros HQ. unfold handleMsg. steps_tac. Qed.
Lemma q_handleAck l e : qsteps (handleAck l e).
Proof. unfold handleAck. steps_tac. Qed.
Lemma q_handleDel l e : qsteps (handleDel l e).
Proof. unfold handleDel. steps_tac. Qed.
End messages.
End handlers.
