(* ===== verification/FileFlow.v ===== *)
(** * A file from one node to another

    The two ends of a transfer composed: [flushFile] of the sender, with the
    termination of its chunk loop, and the [TypeFile], [TypeFileAck] and
    [TypeChunk] cases of the read loop of both sides.  [FileTransfer] proves
    what the receiver's store does with slices in any order; here the slices
    are the ones the sender's code cuts. *)

From S2P Require Import Prelude GoStrings Utf8 Proto Sha256 Identity Base64 Crypto Bolt.
From S2P Require Import StoreData StoreCore StoreMessages MessageLog StorePeers StoreFiles.
From S2P Require Import FileTransfer StoreRooms Backoff NodeState NodeRooms NodeCore NodeLink.

(** ** Vocabulary *)

(** The envelopes handed to session [c] in a trace. *)
Definition sends (c : nat) (o : list output) : list Envelope :=
  omap (λ x, match x with OSend c' e => if decide (c' = c) then Some e else None | _ => None end) o.

(** The chunk that starts at [off], and all chunks from [off] on: the ones a
    sender of [data] owes a receiver that holds the first [off] bytes. *)
Definition chunk_at (id data : string) (off : Z) : Envelope :=
  chunk_envelope id off (slice_of data off (Z.min ChunkSize (slen data - off))).
Definition chunk_count (off size : Z) : Z := (size - off + (ChunkSize - 1)) / ChunkSize.
Definition chunk_plan (id data : string) (off : Z) : list Envelope :=
  (λ k, chunk_at id data (off + k * ChunkSize)) <$> seqZ 0 (chunk_count off (slen data)).

(** An identifier the validator accepts names a file. *)
Lemma checkID_file_id id : checkID id = Ok tt → file_id_ok id.
Proof.
  unfold checkID, IDLen. destruct (Z.eqb_spec (slen id) (16 * 2)) as [Hl|]; [|done].
  cbn [negb]. destruct (hex_decodable id) eqn:Eh; [|done]. intros _.
  apply andb_true_iff in Eh as [Eh _]. rewrite forallb_forall in Eh.
  split; [|lia]. split_and!; try (intros ->; by vm_compute in Hl).
  intros Hin. apply list_elem_of_In, Eh in Hin. by vm_compute in Hin.
Qed.

Lemma ChunkSize_pos : 0 < ChunkSize < 2 ^ 62.
Proof. by vm_compute. Qed.

Lemma chunk_plan_done id data : chunk_plan id data (slen data) = [].
Proof.
  unfold chunk_plan, chunk_count. pose proof ChunkSize_pos.
  rewrite Z.sub_diag, Z.div_small by lia. done.
Qed.

Lemma chunk_count_nonneg off size : off <= size → 0 <= chunk_count off size.
Proof. intros. pose proof ChunkSize_pos. apply Z.div_pos; lia. Qed.

(** One chunk less after every turn. *)
Lemma chunk_count_step off size :
  0 <= off < size → chunk_count off size = 1 + chunk_count (Z.min size (off + ChunkSize)) size.
Proof.
  intros Ho. pose proof ChunkSize_pos. unfold chunk_count.
  destruct (Z.min_spec size (off + ChunkSize)) as [[? ->]|[? ->]].
  - rewrite Z.sub_diag, (Z.div_small (0 + _)) by lia.
    symmetry. apply (Z.div_unique _ _ _ (size - off - 1)); lia.
  - rewrite <- Z.div_add_l by lia. f_equal. lia.
Qed.

Lemma chunks_left_count off size : chunks_left off size = Z.to_nat (chunk_count off size + 1).
Proof. done. Qed.

(** The plan as the loop follows it. *)
Lemma chunk_plan_step id data off :
  0 <= off < slen data →
  chunk_plan id data off
  = chunk_at id data off :: chunk_plan id data (Z.min (slen data) (off + ChunkSize)).
Proof.
  intros Ho. pose proof ChunkSize_pos as Hc. unfold chunk_plan at 1.
  pose proof (chunk_count_step off (slen data) Ho) as Hk.
  pose proof (chunk_count_nonneg (Z.min (slen data) (off + ChunkSize)) (slen data) ltac:(lia)).
  rewrite seqZ_cons by lia.
  cbn [fmap list_fmap]. f_equal; [by rewrite Z.mul_0_l, Z.add_0_r|].
  destruct (Z.min_spec (slen data) (off + ChunkSize)) as [[? E]|[? E]]; rewrite E in *.
  - rewrite chunk_plan_done, Hk. unfold chunk_count.
    rewrite Z.sub_diag, (Z.div_small (0 + _)) by lia. done.
  - rewrite Hk. unfold chunk_plan.
    replace (Z.pred _) with (chunk_count (off + ChunkSize) (slen data)) by lia.
    change (Z.succ 0) with (1 + 0). rewrite <- (fmap_add_seqZ 1 0 (chunk_count (off + ChunkSize) (slen data))).
    rewrite <- list_fmap_compose. apply list_fmap_ext. intros i k _. unfold compose.
    f_equal. lia.
Qed.

(** ** The sender *)

(** The read loop of session [c] on some envelopes, at one clock reading. *)
Definition run_turns {B : Type → Type} `{Bolt B} `{Primitives} `{UnicodeTables} `{Wire}
    `{DiskFaults} (now : Z) (rnd : option string) (c : nat) (es : list Envelope) : M B unit :=
  for_each es (λ e, session_turn now rnd c (Ok e)).

Lemma bindM {B : Type → Type} `{Bolt B} {A A'} (m : M B A) (f : A → M B A') n a n1 :
  m n = (a, n1) → (m ≫= f) n = f a n1.
Proof. intros E. unfold mbind, M_bind. by rewrite E. Qed.

Section sender.
Context {B : Type → Type} `{Bolt B} `{Primitives} `{UnicodeTables} `{Wire} `{DiskFaults}.
Implicit Types (n : Node B) (f : File).

Lemma logf_spec now s n : ∃ l, logf now s n = (tt, with_out (OLog s) (with_log l n)).
Proof. by eexists. Qed.

Lemma sends_app c o1 o2 : sends c (o1 ++ o2) = sends c o1 ++ sends c o2.
Proof. apply omap_app. Qed.

Lemma sends_one c e : sends c [OSend c e] = [e].
Proof. unfold sends. cbn. by rewrite decide_True. Qed.

(** A chunk passes the validator. *)
Lemma chunk_valid id data off :
  checkID id = Ok tt → 0 <= off < slen data → slen data <= MaxFileSize →
  validate (chunk_at id data off) = Ok tt.
Proof.
  intros Hid Ho Hm. pose proof ChunkSize_pos.
  pose proof (slice_len data off (Z.min ChunkSize (slen data - off))) as Hs.
  unfold validate, validate_body. cbn [chunk_at chunk_envelope T Seq Proto.ID Offset Chunk].
  cbn -[slen ChunkSize MaxFileSize slice_of Z.ltb Z.eqb]. rewrite Hid. cbn [mbind result_bind].
  rewrite Hs by lia.
  destruct (Z.ltb_spec off 0); [lia|]. destruct (Z.ltb_spec MaxFileSize off); [lia|].
  destruct (Z.eqb_spec (Z.min ChunkSize (slen data - off)) 0); [lia|].
  destruct (Z.ltb_spec (ChunkSize + 1024) (Z.min ChunkSize (slen data - off))); [lia|].
  done.
Qed.

(** One turn of the loop that goes on. *)
Lemma chunk_loop_turn now peer c f data fuel off n :
  slen data = f_Size f → checkID (f_ID f) = Ok tt → 0 <= off < slen data →
  slen data <= MaxFileSize →
  let stop := Z.min (slen data) (off + ChunkSize) in
  let e := chunk_at (f_ID f) data off in
  chunk_loop now peer c f data (S fuel) off n =
  match wire_error (n_out n) c e with
  | Some _ => (_ ← logf now "file chunk to %q: %v"; close c) n
  | None => (_ ← emit (event_file "fileProgress" peer (f_ID f) (f_Name f) 0 ""
                         (progressOf stop (f_Size f)));
             chunk_loop now peer c f data fuel stop) (with_out (OSend c e) n)
  end.
Proof.
  intros Hsz Hid Ho Hm stop e. cbn [chunk_loop]. rewrite <- Hsz.
  destruct (Z.ltb_spec off (slen data)); [|lia]. cbn [negb].
  replace (if slen data <? _ then _ else _) with stop.
  2: { unfold stop. destruct (Z.ltb_spec (slen data) (off + ChunkSize)); lia. }
  pose proof ChunkSize_pos. assert (Hst : off < stop <= slen data) by (unfold stop; lia).
  unfold slice. destruct (Z.leb_spec 0 off); [|lia].
  destruct (Z.leb_spec off stop); [|lia]. destruct (Z.leb_spec stop (slen data)); [|lia].
  cbn [andb]. change (str_take _ _) with (slice_of data off (stop - off)).
  replace (stop - off) with (Z.min ChunkSize (slen data - off)) by (unfold stop; lia).
  fold (chunk_at (f_ID f) data off). fold e. unfold mbind at 1, M_bind at 1. unfold send.
  pose proof (chunk_valid (f_ID f) data off Hid Ho Hm) as Hv. fold e in Hv. rewrite Hv.
  by destruct (wire_error _ _ _).
Qed.

(** What the chunk loop does from [off] on, whatever the fuel above the bound:
    it sends a prefix of the plan, all of it unless the wire fails. *)
Definition loop_result (c : nat) f (data : string) (off : Z) n n' : Prop :=
  ∃ o j, n_out n' = n_out n ++ o ∧ sends c o = take j (chunk_plan (f_ID f) data off)
    ∧ n_conns n' = n_conns n ∧
    ((j = length (chunk_plan (f_ID f) data off)
      ∧ n_store n' = (MarkFileSent (n_store n) (f_ID f)).2)
     ∨ (n_store n' = n_store n ∧ OClose c ∈ o
        ∧ ∃ o' e err, wire_error o' c e = Some err)).

Lemma chunk_loop_result now peer c f data fuel off n :
  slen data = f_Size f → checkID (f_ID f) = Ok tt → slen data <= MaxFileSize →
  0 <= off <= slen data → (chunks_left off (slen data) <= fuel)%nat →
  loop_result c f data off n (chunk_loop now peer c f data fuel off n).2.
Proof.
  intros Hsz Hid Hm. pose proof ChunkSize_pos as Hcs.
  revert off n. induction fuel as [|fuel IH]; intros off n Ho Hf.
  { rewrite chunks_left_count in Hf. pose proof (chunk_count_nonneg off (slen data)). lia. }
  destruct (Z.eq_dec off (slen data)) as [->|Hne].
  { cbn [chunk_loop]. rewrite <- Hsz, Z.ltb_irrefl. cbn [negb].
    unfold file_sent, on_store, loop_result. rewrite chunk_plan_done.
    unfold mbind, M_bind. destruct (MarkFileSent _ _) as [r s'].
    eexists [_], 0%nat. split_and!; [reflexivity|done|done|]. by left. }
  rewrite chunk_loop_turn by (done || lia). cbv zeta.
  unfold loop_result. rewrite chunk_plan_step by lia.
  destruct (wire_error _ _ _) as [err|] eqn:Ew.
  { eexists [OLog _; OClose c], 0%nat. cbn [n_out n_conns n_store].
    destruct (logf_spec now "file chunk to %q: %v" n) as [lg Hlg].
    rewrite (bindM _ _ _ _ _ Hlg).
    split_and!; [cbn; by rewrite <- app_assoc|done|done|].
    right. split_and!; [done|set_solver|eauto]. }
  set (ev := event_file _ _ _ _ _ _ _). set (n1 := with_out _ n).
  unfold mbind, M_bind. destruct (emit ev n1) as [[] n2] eqn:E2. injection E2 as E2.
  destruct (IH (Z.min (slen data) (off + ChunkSize)) n2) as (o & j & Ho' & Hs & Hc & Hr); [lia| |].
  { rewrite chunks_left_count in *. rewrite chunk_count_step in Hf by lia.
    pose proof (chunk_count_nonneg (Z.min (slen data) (off + ChunkSize)) (slen data)). lia. }
  exists ([OSend c (chunk_at (f_ID f) data off); OEmit ev] ++ o), (S j).
  assert (E : n_out n2 = n_out n ++ [OSend c (chunk_at (f_ID f) data off); OEmit ev])
    by (rewrite <- E2; cbn; by rewrite <- (assoc_L (++))).
  rewrite Ho', E, <- (assoc_L (++)). split; [done|]. rewrite sends_app, Hs. cbn [take length].
  split; [unfold sends at 1; cbn; by rewrite decide_True|].
  rewrite Hc. split; [by rewrite <- E2|]. destruct Hr as [[-> Hst]|(Hst & Hcl & Hw)].
  - left. split; [done|]. rewrite Hst. by rewrite <- E2.
  - right. rewrite Hst. split; [by rewrite <- E2|]. split; [set_solver|done].
Qed.
End sender.

(** The bound of turns is enough: more fuel changes nothing. *)
Section fuel.
Context {B : Type → Type} `{Bolt B} `{Primitives} `{UnicodeTables} `{Wire} `{DiskFaults}.

Lemma chunk_loop_fuel now peer c f data fuel fuel' off (n : Node B) :
  slen data = f_Size f → checkID (f_ID f) = Ok tt → slen data <= MaxFileSize →
  0 <= off <= slen data → (chunks_left off (slen data) <= fuel)%nat →
  (chunks_left off (slen data) <= fuel')%nat →
  chunk_loop now peer c f data fuel off n = chunk_loop now peer c f data fuel' off n.
Proof.
  intros Hsz Hid Hm. revert fuel' off n.
  induction fuel as [|fuel IH]; intros fuel' off n Ho Hf Hf'.
  { rewrite chunks_left_count in Hf. pose proof (chunk_count_nonneg off (slen data)). lia. }
  destruct fuel' as [|fuel'].
  { rewrite chunks_left_count in Hf'. pose proof (chunk_count_nonneg off (slen data)). lia. }
  destruct (Z.eq_dec off (slen data)) as [->|Hne].
  { cbn [chunk_loop]. by rewrite <- Hsz, Z.ltb_irrefl. }
  rewrite !chunk_loop_turn by (done || lia). cbv zeta.
  destruct (wire_error _ _ _); [done|]. unfold mbind, M_bind. destruct (emit _ _) as [[] n2].
  rewrite chunks_left_count, chunk_count_step in Hf, Hf' by lia.
  pose proof (chunk_count_nonneg (Z.min (slen data) (off + ChunkSize)) (slen data)).
  pose proof ChunkSize_pos. apply IH; rewrite ?chunks_left_count; lia.
Qed.

Lemma flushFile_from_loop now peer c f data off :
  off <= f_Size f →
  flushFile_from (B := B) now peer c f data off
  = chunk_loop now peer c f data (chunks_left off (f_Size f)) off.
Proof.
  intros Ho. unfold flushFile_from. destruct (Z.leb_spec (f_Size f) off); [|done].
  pose proof (chunk_count_nonneg off (f_Size f) Ho) as Hc. rewrite chunks_left_count.
  destruct (Z.to_nat _) eqn:E; [lia|]. cbn [chunk_loop].
  by destruct (Z.ltb_spec off (f_Size f)); [lia|].
Qed.
End fuel.

(** ** The receiver *)

Section receiver.
Context {B : Type → Type} `{Bolt B} `{Primitives} `{UnicodeTables} `{Wire} `{DiskFaults}.
Context (no_fault : ∀ op p, disk_fault op p = None).
Context (good : ∀ o c e, wire_error o c e = None).
Implicit Types (n m : Node B) (f : File).

(** A turn of the read loop that goes on. *)
Lemma turn_true now rnd c l e n n' :
  n_conns n !! c = Some l → dispatch now rnd c l e n = (true, n') →
  session_turn now rnd c (Ok e) n = (tt, n').
Proof.
  intros Hl Hd. unfold session_turn. rewrite (bindM _ _ n true n'); [done|].
  unfold read_turn. by rewrite (bindM _ _ n (Some l) n) by (unfold link_at; by rewrite Hl).
Qed.

Lemma send_good c e n : validate e = Ok tt → send c e n = (Ok tt, with_out (OSend c e) n).
Proof. intros Hv. unfold send. by rewrite Hv, good. Qed.

Lemma fileack_valid id off :
  checkID id = Ok tt → 0 <= off <= MaxFileSize → validate (fileack_envelope id off) = Ok tt.
Proof.
  intros Hid Ho. unfold validate, validate_body.
  cbn -[slen MaxFileSize Z.ltb]. rewrite Hid. cbn [mbind result_bind].
  destruct (Z.ltb_spec off 0); [lia|]. by destruct (Z.ltb_spec MaxFileSize off); [lia|].
Qed.

(** The header: the session expects the file, and a sender that resumes is answered. *)
Lemma header_turn now rnd c l f r n s' :
  n_conns n !! c = Some l → checkID (f_ID f) = Ok tt → 0 <= r <= MaxFileSize →
  BeginReceive (n_store n) (f_ID f) (lk_peer l) (f_Name f) (f_Hash f) (f_Size f) now = (Ok r, s') →
  ∃ n', session_turn now rnd c (Ok (file_envelope f)) n = (tt, n') ∧ n_store n' = s' ∧
    n_conns n' !! c = Some (set_rx (f_ID f) r (f_Hash f) (f_Size f) (f_Name f) l) ∧
    ∃ o, n_out n' = n_out n ++ o ∧
      sends c o = if speaks l CapResume then [fileack_envelope (f_ID f) r] else [].
Proof.
  intros Hl Hid Hr Hb. enough (∃ n', dispatch now rnd c l (file_envelope f) n = (true, n') ∧
    n_store n' = s' ∧
    n_conns n' !! c = Some (set_rx (f_ID f) r (f_Hash f) (f_Size f) (f_Name f) l) ∧
    ∃ o, n_out n' = n_out n ++ o ∧
      sends c o = if speaks l CapResume then [fileack_envelope (f_ID f) r] else []) as (n' & Hd & Hn').
  { exists n'. split; [by apply (turn_true _ _ _ l)|done]. }
  change (dispatch now rnd c l (file_envelope f) n) with (handleFile now c l (file_envelope f) n).
  unfold handleFile. cbn [file_envelope Proto.ID Proto.Src Proto.Hash Proto.Size].
  rewrite (bindM _ _ n (Ok r) (with_store s' n)) by (unfold on_store; by rewrite Hb).
  erewrite bindM by reflexivity. set (n1 := with_conns _ _).
  assert (∃ n2 lo, (if 0 <? r then logf now "resuming %s from %d of %d bytes" else mret tt) n1
            = (tt, n2) ∧ n_store n2 = s' ∧ n_conns n2 = n_conns n1 ∧ n_out n2 = n_out n ++ lo
            ∧ sends c lo = []) as (n2 & lo & E2 & Hs2 & Hc2 & Ho2 & Hlo).
  { destruct (0 <? r).
    - eexists _, [OLog _]. by split; [reflexivity|].
    - exists n1, []. by rewrite app_nil_r. }
  rewrite (bindM _ _ _ _ _ E2).
  destruct (speaks l CapResume).
  - erewrite bindM by (apply send_good; by apply fileack_valid).
    eexists. split; [reflexivity|]. split; [exact Hs2|]. split.
    { cbn [n_conns with_out with_subs]. rewrite Hc2. unfold n1. cbn [n_conns with_conns with_store].
      by rewrite lookup_alter_eq, Hl. }
    exists (lo ++ [OSend c (fileack_envelope (f_ID f) r); OEmit (event_file "file" (lk_peer l)
      (f_ID f) (f_Name f) (f_Size f) (f_Hash f) (progressOf r (f_Size f)))]). split.
    { cbn. rewrite Ho2, <- !app_assoc. done. }
    rewrite sends_app, Hlo. unfold sends. cbn. by rewrite decide_True.
  - erewrite bindM by reflexivity.
    eexists. split; [reflexivity|]. split; [exact Hs2|]. split.
    { cbn [n_conns with_out with_subs]. rewrite Hc2. unfold n1. cbn [n_conns with_conns with_store].
      by rewrite lookup_alter_eq, Hl. }
    exists (lo ++ [OEmit (event_file "file" (lk_peer l)
      (f_ID f) (f_Name f) (f_Size f) (f_Hash f) (progressOf r (f_Size f)))]). split.
    { cbn. by rewrite Ho2, <- !app_assoc. }
    by rewrite sends_app, Hlo.
Qed.

(** [WriteChunk] returns the row it stores. *)
Lemma WriteChunk_row s id off data f s' :
  file_id_ok id → WriteChunk s id off data = (Ok f, s') →
  bget (d_files (s_db s')) id = Some (json f).
Proof.
  intros Hid. unfold WriteChunk. destruct (os_OpenCreate _ _); [|done].
  destruct (os_WriteAt _ _ _ _); [|done]. unfold Update, run_update.
  destruct (chunk_tx _ _ _ _) as [[f' d]|] eqn:E; [|done]. intros [= <- <-].
  apply chunk_tx_ok in E as (f0 & k & _ & _ & ->); [|done]. cbn. by rewrite bget_set_eq.
Qed.

(** A chunk of the source that starts at or below the mark: the mark moves to
    its end, and at the size of the file the session completes it. *)
Lemma chunk_turn now nonce c l id src r off n :
  n_conns n !! c = Some l → lk_rxFileID l = id → lk_rxFileSize l = slen src →
  recv_ok (n_store n) id src r → file_id_ok id → slen src < 2 ^ 62 → slen nonce = 12 →
  0 <= off < slen src → off <= r < slen src →
  let r' := Z.max r (Z.min (slen src) (off + ChunkSize)) in
  ∃ n', session_turn now (Some nonce) c (Ok (chunk_at id src off)) n = (tt, n') ∧
    ∃ l', n_conns n' !! c = Some l' ∧
    if r' <? slen src then
      recv_ok (n_store n') id src r' ∧ lk_rxFileID l' = id ∧ lk_rxFileSize l' = slen src
    else FileData (n_store n') id = Ok src.
Proof.
  intros Hl Hrx Hsz Hok Hid Hbig Hn Ho Hr r'. pose proof ChunkSize_pos as Hcs.
  set (len := Z.min ChunkSize (slen src - off)).
  assert (Er : mark_step r (RSlice off len) = r').
  { unfold mark_step. destruct (Z.leb_spec off r); [|lia]. unfold len, r'. lia. }
  destruct (chunk_step no_fault (n_store n) id src r off len Hok Hid Hbig) as (res & s' & Hw & Hres & Hok').
  { unfold len. cbn [ev_ok]. lia. }
  rewrite Er in Hok'. replace (off <=? r) with true in Hres by (symmetry; apply Z.leb_le; lia).
  destruct res as [f|]; [|done].
  assert (Hf : f_Received f = r').
  { apply WriteChunk_row in Hw; [|done]. destruct Hok' as [_ (f' & Hf' & _ & _ & _ & <-) _]. congruence. }
  set (l1 := set_rxOff r' l). set (n1 := with_conns (alter (set_rxOff r') c (n_conns n)) (with_store s' n)).
  assert (Hl1 : n_conns n1 !! c = Some l1) by (cbn; by rewrite lookup_alter_eq, Hl).
  set (ev := event_file "fileProgress" (lk_peer l) id "" 0 (lk_rxFileHash l) (progressOf r' (slen src))).
  set (n2 := (emit ev n1).2).
  set (k := _ ← (if slen src <=? r' then complete_rx now (Some nonce) c l id else mret tt); mret true).
  assert (Hd : session_turn now (Some nonce) c (Ok (chunk_at id src off)) n = (tt, (k n2).2)).
  { apply (turn_true _ _ _ l); [done|].
    change (dispatch now (Some nonce) c l (chunk_at id src off) n)
      with (handleChunk now (Some nonce) c l (chunk_at id src off) n).
    unfold handleChunk. cbn [chunk_at chunk_envelope Proto.ID Proto.Offset Proto.Chunk].
    rewrite Hrx, eqs_refl. cbn [negb]. fold len.
    rewrite (bindM _ _ n (Ok f) (with_store s' n)) by (unfold on_store; by rewrite Hw).
    rewrite Hf, Hsz. erewrite bindM by reflexivity. fold n1. fold ev.
    rewrite (bindM _ _ n1 tt n2) by done. fold k.
    destruct (k n2) as [b n3] eqn:Ek. f_equal. unfold k, mbind, M_bind in Ek.
    destruct (if slen src <=? r' then _ else _) in Ek. by injection Ek as <-. }
  exists (k n2).2. split; [done|]. clear Hd. unfold k.
  destruct (Z.leb_spec (slen src) r') as [Hle|Hlt].
  - assert (r' = slen src) as -> by (unfold r'; lia).
    rewrite Z.ltb_irrefl. destruct (complete_full no_fault s' id src nonce Hok' Hid Hn) as (s2 & Hc & Hdata).
    unfold complete_rx. rewrite (bindM _ _ n2 tt
      (update_link c (set_rx "" 0 "" 0 "") (emit (event_file "fileComplete" (lk_peer l) id
         (lk_rxFileName l) 0 (lk_rxFileHash l) (0, 1)) (with_store s2 n2)).2).2).
    { exists (set_rx "" 0 "" 0 "" l1). split; [|exact Hdata].
      transitivity (alter (set_rx "" 0 "" 0 "") c (n_conns n1) !! c); [done|].
      by rewrite lookup_alter_eq, Hl1. }
    rewrite (bindM _ _ n2 (Ok tt) (with_store s2 n2)); [done|].
    unfold on_store. change (n_store n2) with s'. by rewrite Hc.
  - destruct (Z.ltb_spec r' (slen src)); [|lia]. by exists l1.
Qed.

(** All chunks from [off] on complete the file. *)
Lemma plan_turns now nonce c id src k :
  file_id_ok id → slen src < 2 ^ 62 → slen nonce = 12 →
  ∀ l r off n, slen src - off <= Z.of_nat k →
  n_conns n !! c = Some l → lk_rxFileID l = id → lk_rxFileSize l = slen src →
  recv_ok (n_store n) id src r → 0 <= off < slen src → off <= r < slen src →
  let n' := (run_turns now (Some nonce) c (chunk_plan id src off) n).2 in
  FileData (n_store n') id = Ok src ∧ ∃ l', n_conns n' !! c = Some l'.
Proof.
  intros Hid Hbig Hn. pose proof ChunkSize_pos. induction k as [|k IH];
    intros l r off n Hk Hl Hrx Hsz Hok Ho Hr; [lia|].
  destruct (chunk_turn now nonce c l id src r off n) as (n' & Ht & l' & Hl' & Hr'); try done.
  rewrite chunk_plan_step by lia. unfold run_turns. cbn [for_each].
  rewrite (bindM _ _ _ _ _ Ht). clear Ht.
  set (stop := Z.min (slen src) (off + ChunkSize)) in *.
  destruct (Z.ltb_spec (Z.max r stop) (slen src)).
  - destruct Hr' as (Hok' & Hrx' & Hsz').
    by apply (IH l' (Z.max r stop)); [lia|done..|lia|lia].
  - replace stop with (slen src) by lia. rewrite chunk_plan_done. split; [exact Hr'|eauto].
Qed.
End receiver.

(** ** The exchange *)

Section exchange.
Context {B : Type → Type} `{Bolt B} `{Primitives} `{UnicodeTables} `{Wire} `{DiskFaults}.
Implicit Types (n m : Node B) (f : File).

(** What a step handed to session [c]. *)
Definition new_sends (c : nat) n n' : list Envelope := sends c (drop (length (n_out n)) (n_out n')).

(** [flushFile] of [n], the read loop of [m] on what it sent, the read loop of
    [n] on the answer, the rest of [flushFile] and the read loop of [m] on it. *)
Definition transfer (now : Z) (rnd : option string) (peer id : string) (cn cm : nat) n m
    : Node B * Node B :=
  let (w, n1) := flushFile now peer id n in
  let m1 := (run_turns now rnd cm (new_sends cn n n1) m).2 in
  match w with
  | None => (n1, m1)
  | Some w =>
      let n2 := (run_turns now None cn (new_sends cm m m1) n1).2 in
      let n3 := (flushFile_answer now peer w false n2).2 in
      (n3, (run_turns now rnd cm (new_sends cn n2 n3) m1).2)
  end.

Lemma new_sends_app c n n' o : n_out n' = n_out n ++ o → new_sends c n n' = sends c o.
Proof. intros E. unfold new_sends. by rewrite E, drop_app_length. Qed.

Lemma GetFile_ok s id f : GetFile s id = Ok f → bget (d_files (s_db s)) id = Some (json f).
Proof.
  unfold GetFile, View, run_view. destruct (get_file _ _) as [[f0 d]|] eqn:E; [|done].
  apply get_file_ok in E as [-> E]. congruence.
Qed.

(** The rows a sender leaves. *)
Definition sending f : File :=
  set_Sent 0 (if f_Status f =s? FileQueued then set_FStatus FileSending f else f).

Lemma sending_row s id f :
  file_id_ok id → bget (d_files (s_db s)) id = Some (json f) →
  bget (d_files (s_db (MarkFileSending s id).2)) id = Some (json (sending f)).
Proof.
  intros Hid Hf. unfold MarkFileSending.
  destruct (rewrite_row s id sending Hid) as [[e He]|(f0 & Hf0 & He)];
    unfold sending in He; cbv zeta.
  - exfalso. revert He. unfold Update, run_update, mbind, tx_bind, get_file. tx_unfold.
    rewrite Hf. cbn. by rewrite (id_put id Hid).
  - rewrite He. cbn. rewrite bget_set_eq. by replace f0 with f by congruence.
Qed.

Lemma sent_row s id f :
  file_id_ok id → bget (d_files (s_db s)) id = Some (json f) →
  let s' := (MarkFileSent s id).2 in
  (∃ f', GetFile s' id = Ok f' ∧ f_Status f' = FileSent) ∧ bget (d_fileoutbox (s_db s')) id = None.
Proof.
  intros Hid Hf. unfold MarkFileSent. set (g := λ f : File, set_Sent (f_Size f) (set_FStatus FileSent f)).
  rewrite (Update_done s (leave_outbox id g) tt (bupd bFiles (bset (d_files (s_db s)) id (json (g f)))
    (bupd bFileOutbox (bdel (d_fileoutbox (s_db s)) id) (s_db s)))).
  2: { unfold leave_outbox. tx_unfold. cbn. rewrite Hf. cbn. by rewrite (id_put id Hid). }
  cbn [snd]. split.
  - exists (g f). split; [|done]. apply GetFile_row. cbn. by rewrite bget_set_eq.
  - cbn. by rewrite bget_del_eq.
Qed.

Context (good : ∀ o c e, wire_error o c e = None).

(** With a good wire all of the plan is sent and the file is marked. *)
Lemma from_sends_all now peer c f data off n :
  slen data = f_Size f → checkID (f_ID f) = Ok tt → slen data <= MaxFileSize →
  0 <= off <= slen data →
  let n' := (flushFile_from now peer c f data off n).2 in
  ∃ o, n_out n' = n_out n ++ o ∧ sends c o = chunk_plan (f_ID f) data off
    ∧ n_store n' = (MarkFileSent (n_store n) (f_ID f)).2.
Proof.
  intros Hsz Hid Hm Ho. rewrite flushFile_from_loop by lia.
  destruct (chunk_loop_result now peer c f data (chunks_left off (f_Size f)) off n)
    as (o & j & Hout & Hs & _ & [[-> Hst]|(_ & _ & o' & e & err & Hw)]);
    [done..|by rewrite Hsz| |by rewrite good in Hw].
  exists o. rewrite Hs. by rewrite take_ge.
Qed.

Lemma header_valid f :
  checkID (f_ID f) = Ok tt → f_Name f ≠ "" → 0 < f_Size f <= MaxFileSize →
  (∃ data, f_Hash f = hex_encode (Sum256 data)) → validate (file_envelope f) = Ok tt.
Proof.
  intros Hid Hn Hs [data Hh]. unfold validate, validate_body.
  cbn -[slen MaxFileSize Z.ltb Z.leb Z.eqb hex_decodable eqs]. 
  change (TypeFile =s? TypeMsg) with false. change (TypeFile =s? TypeAck) with false.
  change (TypeFile =s? TypePing) with false. change (TypeFile =s? TypeReact) with false.
  change (TypeFile =s? TypeDel) with false. change (TypeFile =s? TypeDelAll) with false.
  change (TypeFile =s? TypeTyping) with false. change (TypeFile =s? TypeRead) with false.
  change (TypeFile =s? TypeFile) with true. cbv iota.
  rewrite Hid. cbn [mbind result_bind]. apply eqs_false in Hn as ->.
  destruct (Z.leb_spec (f_Size f) 0); [lia|]. destruct (Z.ltb_spec MaxFileSize (f_Size f)); [lia|].
  rewrite Hh, hex_encode_decodable, hex_encode_length, Sum256_length.
  assert (E : (hex_encode (Sum256 data) =s? "") = false); [|by rewrite E].
  apply eqs_false. intros E. pose proof (hex_encode_length (Sum256 data)) as El.
  by rewrite E, Sum256_length in El.
Qed.

Definition sendable_row f : Prop := f_Status f = FileQueued ∨ f_Status f = FileSending.

(** What [flushFile] reads before the lock. *)
Lemma prepare_ready peer id c l f src n :
  linkFor peer n = (Some (c, l), n) → GetFile (n_store n) id = Ok f → sendable_row f →
  FileBlob (n_store n) id = Ok src →
  flushFile_prepare peer id n
  = (Some (c, l, under_id id f, src), with_store (MarkFileSending (n_store n) id).2 n).
Proof.
  intros Hl Hf Hst Hb. unfold flushFile_prepare. rewrite (bindM _ _ _ _ _ Hl).
  erewrite bindM by reflexivity. rewrite Hf.
  assert (negb (f_Status f =s? FileQueued) && negb (f_Status f =s? FileSending) = false) as ->
    by (by destruct Hst as [->| ->]).
  erewrite bindM by reflexivity. rewrite Hb.
  by destruct (MarkFileSending (n_store n) id) as [r s'] eqn:E;
    rewrite (bindM _ _ n r (with_store s' n)) by (unfold on_store; by rewrite E).
Qed.

(** The header goes out, and the transfer waits when the peer can resume. *)
Lemma send_start now peer c l l0 f src n :
  n_conns n !! c = Some l0 → validate (file_envelope f) = Ok tt →
  ∃ n1, n_store n1 = n_store n ∧ n_out n1 = n_out n ++ [OSend c (file_envelope f)] ∧
    (if speaks l CapResume then
       flushFile_send now peer (c, l, f, src) n = (Some (c, f, src), n1) ∧
       ∃ l1, n_conns n1 !! c = Some l1 ∧ lk_fileAck l1 !! f_ID f = Some None
     else flushFile_send now peer (c, l, f, src) n
          = (None, (flushFile_from now peer c f src 0 n1).2)).
Proof.
  intros Hc Hv. unfold flushFile_send. cbv zeta. destruct (speaks l CapResume).
  - erewrite bindM by reflexivity. erewrite bindM by (by apply send_good).
    eexists. split; [|split; [|split; [reflexivity|]]]; [done..|].
    cbn. rewrite lookup_alter_eq, Hc. eexists. split; [reflexivity|]. by cbn; rewrite lookup_insert_eq.
  - erewrite bindM by reflexivity. erewrite bindM by (by apply send_good).
    exists (with_out (OSend c (file_envelope f)) n).
    split; [done|]. split; [done|]. unfold mbind, M_bind. by destruct (flushFile_from _ _ _ _ _ _ _).
Qed.

Lemma linkFor_conn peer n c l : linkFor peer n = (Some (c, l), n) → n_conns n !! c = Some l.
Proof.
  unfold linkFor. intros Hl. destruct (n_live n !! _) as [c'|]; [|done]. cbn in Hl.
  destruct (n_conns n !! c') as [l'|] eqn:E; [|done]. cbn in Hl. congruence.
Qed.

(** Both, when nobody holds the lock. *)
Lemma flushFile_start now peer id c l f src n :
  linkFor peer n = (Some (c, l), n) → GetFile (n_store n) id = Ok f → sendable_row f →
  FileBlob (n_store n) id = Ok src → validate (file_envelope (under_id id f)) = Ok tt →
  ∃ n1, n_store n1 = (MarkFileSending (n_store n) id).2 ∧
    n_out n1 = n_out n ++ [OSend c (file_envelope (under_id id f))] ∧
    (if speaks l CapResume then
       flushFile now peer id n = (Some (c, under_id id f, src), n1) ∧
       ∃ l1, n_conns n1 !! c = Some l1 ∧ lk_fileAck l1 !! id = Some None
     else flushFile now peer id n
          = (None, (flushFile_from now peer c (under_id id f) src 0 n1).2)).
Proof.
  intros Hl Hf Hst Hb Hv. unfold flushFile.
  rewrite (bindM _ _ _ _ _ (prepare_ready _ _ _ _ _ _ _ Hl Hf Hst Hb)).
  apply (send_start now peer c l l (under_id id f) src (with_store (MarkFileSending (n_store n) id).2 n));
    [exact (linkFor_conn _ _ _ _ Hl)|done].
Qed.

(** The answer to the header reaches the transfer that waits for it. *)
Lemma ack_turn now c l id r n :
  n_conns n !! c = Some l → lk_fileAck l !! id = Some None →
  let n' := (run_turns now None c [fileack_envelope id r] n).2 in
  n_store n' = n_store n ∧ n_out n' = n_out n ∧
  ∃ l', n_conns n' !! c = Some l' ∧ lk_fileAck l' !! id = Some (Some r).
Proof.
  intros Hl Ha. unfold run_turns. cbn [for_each].
  assert (Ht : session_turn now None c (Ok (fileack_envelope id r)) n
             = (tt, (deliverFileAck c id r n).2)) by (by apply (turn_true _ _ _ l)).
  rewrite (bindM _ _ _ _ _ Ht). split; [done|]. split; [done|].
  cbn. rewrite lookup_alter_eq, Hl. cbn. rewrite Ha. eexists. split; [done|].
  cbn. by rewrite lookup_insert_eq.
Qed.

(** The end of the wait. *)
Lemma answer_sends now peer c l f data r n :
  slen data = f_Size f → checkID (f_ID f) = Ok tt → slen data <= MaxFileSize →
  0 <= r <= slen data → n_conns n !! c = Some l → lk_fileAck l !! f_ID f = Some (Some r) →
  let n' := (flushFile_answer now peer (c, f, data) false n).2 in
  ∃ o, n_out n' = n_out n ++ o ∧ sends c o = chunk_plan (f_ID f) data r ∧
    n_store n' = (MarkFileSent (n_store n) (f_ID f)).2.
Proof.
  intros Hsz Hid Hm Hr Hl Ha. unfold flushFile_answer.
  rewrite (bindM _ _ n (Some l) n) by (unfold link_at; by rewrite Hl).
  cbn [mbind option_bind]. rewrite Ha.
  cbv zeta. replace ((r <? 0) || (f_Size f <? r)) with false
    by (symmetry; apply orb_false_iff; rewrite !Z.ltb_ge; lia).
  set (lg := if 0 <? r then _ else _).
  assert (∃ n1 lo, lg n = (tt, n1) ∧ n_store n1 = n_store n ∧ n_out n1 = n_out n ++ lo
    ∧ sends c lo = []) as (n1 & lo & Hlg & Hs1 & Ho1 & Hlo).
  { unfold lg. destruct (0 <? r).
    - by eexists _, [OLog _].
    - exists n, []. by rewrite app_nil_r. }
  destruct (from_sends_all now peer c f data r n1 Hsz Hid Hm Hr) as (o & Ho & Hs & Hst).
  destruct (flushFile_from now peer c f data r n1) as [[] n2] eqn:E. cbn [snd] in *.
  rewrite (bindM _ _ n tt n2) by (by rewrite (bindM _ _ _ _ _ Hlg)).
  exists (lo ++ o). change (n_out (cancelFileAck c (f_ID f) n2).2) with (n_out n2).
  change (n_store (cancelFileAck c (f_ID f) n2).2) with (n_store n2).
  rewrite Ho, Ho1, <- app_assoc, sends_app, Hlo, Hst, Hs1. done.
Qed.
End exchange.

(** ** The composition *)

Section arrival.
Context {B : Type → Type} `{Bolt B} `{Primitives} `{UnicodeTables} `{Wire} `{DiskFaults}.
Implicit Types (n m : Node B) (f : File).

(** What a receiver holds of [src] under an identifier: nothing it can use, or
    a partial of which the first [r] bytes are there. *)
Definition holds (s : Store B) (id src : string) (r : Z) : Prop :=
  (resume_at s id (hex_encode (Sum256 src)) (slen src) = 0 ∧ r = 0) ∨ recv_ok s id src r.

(** A file in the outbox of [n] that is ready for session [c]. *)
Record ready n (peer id : string) (c : nat) (l : Link) f (src : string) : Prop := {
  rd_link : linkFor peer n = (Some (c, l), n);
  rd_row : GetFile (n_store n) id = Ok f;
  rd_status : sendable_row f;
  rd_data : FileBlob (n_store n) id = Ok src;
  rd_size : f_Size f = slen src;
  rd_hash : f_Hash f = hex_encode (Sum256 src);
  rd_name : f_Name f ≠ "";
  rd_len : 0 < slen src <= MaxFileSize;
  rd_id : checkID id = Ok tt }.

Context (no_fault : ∀ op p, disk_fault op p = None).
Context (good : ∀ o c e, wire_error o c e = None).

Lemma holds_begin s id src r peer name now :
  files_inv s → file_id_ok id → holds s id src r →
  ∃ s', BeginReceive s id peer name (hex_encode (Sum256 src)) (slen src) now = (Ok r, s')
    ∧ recv_ok s' id src r.
Proof. intros Hs Hid [[Hr ->]|Hok]; [by apply begin_fresh|by apply begin_resume]. Qed.

Lemma recv_range s id src r : recv_ok s id src r → 0 <= r <= slen src.
Proof. intros [_ _ (t & _ & _ & ? & ?)]. lia. Qed.

(** The receiver on the header of a ready file. *)
Lemma header_received now rnd c l f id src r m :
  n_conns m !! c = Some l → files_inv (n_store m) → holds (n_store m) id src r →
  f_Size f = slen src → f_Hash f = hex_encode (Sum256 src) → slen src <= MaxFileSize →
  checkID id = Ok tt →
  ∃ m1, session_turn now rnd c (Ok (file_envelope (under_id id f))) m = (tt, m1) ∧
    recv_ok (n_store m1) id src r ∧
    (∃ l1, n_conns m1 !! c = Some l1 ∧ lk_rxFileID l1 = id ∧ lk_rxFileSize l1 = slen src) ∧
    ∃ o, n_out m1 = n_out m ++ o ∧
      sends c o = if speaks l CapResume then [fileack_envelope id r] else [].
Proof.
  intros Hl Hs Hh Hsz Hha Hm Hid.
  destruct (holds_begin (n_store m) id src r (lk_peer l) (f_Name f) now Hs (checkID_file_id _ Hid) Hh)
    as (s' & Hb & Hok). pose proof (recv_range _ _ _ _ Hok).
  destruct (header_turn good now rnd c l (under_id id f) r m s') as (m1 & Ht & <- & Hc & Ho);
    cbn [under_id f_ID f_Size f_Hash f_Name]; rewrite ?Hsz, ?Hha; [done..|lia|done|].
  exists m1. split; [done|]. split; [done|]. split; [|done]. eexists. split; [exact Hc|].
  cbn. by rewrite Hsz.
Qed.

(** The sender's half with an answer, and without. *)
Lemma sender_done n s id f :
  file_id_ok id → GetFile (n_store n) id = Ok f →
  s = (MarkFileSent (MarkFileSending (n_store n) id).2 id).2 →
  (∃ f', GetFile s id = Ok f' ∧ f_Status f' = FileSent) ∧ bget (d_fileoutbox (s_db s)) id = None.
Proof.
  intros Hid Hf%GetFile_ok ->. apply (sent_row _ _ (sending f)); [done|]. by apply sending_row.
Qed.

(** The whole exchange: what crossed, and where both sides are before the
    receiver reads the chunks. *)
Lemma transfer_runs now rnd peer id cn cm n m l lr f src r :
  ready n peer id cn l f src → n_conns m !! cm = Some lr →
  speaks lr CapResume = speaks l CapResume → files_inv (n_store m) → holds (n_store m) id src r →
  let off := if speaks l CapResume then r else 0 in
  let (n', m') := transfer now rnd peer id cn cm n m in
  new_sends cn n n' = file_envelope (under_id id f) :: chunk_plan id src off ∧
  ((∃ f', GetFile (n_store n') id = Ok f' ∧ f_Status f' = FileSent)
   ∧ bget (d_fileoutbox (s_db (n_store n'))) id = None) ∧
  ∃ m1 l1, recv_ok (n_store m1) id src r ∧ n_conns m1 !! cm = Some l1 ∧ lk_rxFileID l1 = id ∧
    lk_rxFileSize l1 = slen src ∧ m' = (run_turns now rnd cm (chunk_plan id src off) m1).2.
Proof.
  intros [Hlink Hrow Hst Hdata Hsz Hha Hname Hlen Hid] Hlr Hsp Hs Hh off.
  pose proof (checkID_file_id _ Hid) as Hfid.
  assert (Hv : validate (file_envelope (under_id id f)) = Ok tt).
  { apply header_valid; cbn; rewrite ?Hsz; [done|done|done|by exists src]. }
  destruct (flushFile_start good now peer id cn l f src n Hlink Hrow Hst Hdata Hv)
    as (n1 & Hs1 & Ho1 & Hflush).
  destruct (header_received now rnd cm lr f id src r m Hlr Hs Hh Hsz Hha ltac:(lia) Hid)
    as (m1 & Ht & Hok & (l1 & Hl1 & Hrx & Hrs) & om & Hom & Hsm).
  pose proof (recv_range _ _ _ _ Hok) as Hr. unfold transfer. rewrite Hsp in Hsm.
  destruct (speaks l CapResume); subst off.
  - destruct Hflush as [-> (la & Hla & Hack)].
    assert (Em : run_turns now rnd cm [file_envelope (under_id id f)] m = (tt, m1))
      by exact (bindM _ _ _ _ _ Ht).
    rewrite (new_sends_app cn n n1 _ Ho1), sends_one. cbv zeta. rewrite Em. cbn [snd].
    rewrite (new_sends_app cm m m1 _ Hom), Hsm.
    destruct (ack_turn now cn la id r n1 Hla Hack) as (Hs2 & Ho2 & (l2 & Hl2 & Hack2)).
    set (n2 := (run_turns now None cn _ n1).2) in *.
    destruct (answer_sends good now peer cn l2 (under_id id f) src r n2) as (o & Ho3 & Hsent & Hs3);
      [by cbn|done|lia|lia|done|done|].
    set (n3 := (flushFile_answer _ _ _ _ n2).2) in *. cbn [under_id f_ID] in *.
    split; [|split].
    + rewrite (new_sends_app cn n n3 ([OSend cn (file_envelope (under_id id f))] ++ o)).
      * by rewrite sends_app, sends_one, Hsent.
      * by rewrite Ho3, Ho2, Ho1, <- app_assoc.
    + apply (sender_done n _ id f); [done..|]. by rewrite Hs3, Hs2, Hs1.
    + exists m1, l1. rewrite (new_sends_app cn n2 n3 _ Ho3), Hsent. done.
  - rewrite Hflush. set (n3 := (flushFile_from _ _ _ _ _ _ n1).2).
    destruct (from_sends_all good now peer cn (under_id id f) src 0 n1) as (o & Ho3 & Hsent & Hs3);
      [by cbn|done|lia|lia|]. fold n3 in Ho3, Hs3. cbn [under_id f_ID] in *.
    assert (E : new_sends cn n n3 = file_envelope (under_id id f) :: chunk_plan id src 0).
    { rewrite (new_sends_app cn n n3 ([OSend cn (file_envelope (under_id id f))] ++ o)).
      - by rewrite sends_app, sends_one, Hsent.
      - by rewrite Ho3, Ho1, <- app_assoc. }
    split; [done|]. split.
    + apply (sender_done n _ id f); [done..|]. by rewrite Hs3, Hs1.
    + exists m1, l1. rewrite E. unfold run_turns at 1. cbn [for_each].
      by rewrite (bindM _ _ _ _ _ Ht).
Qed.

(** Nothing is missing: the receiver can read the file, and its session is up. *)
Lemma transfer_arrives now nonce peer id cn cm n m l lr f src r :
  slen nonce = 12 → ready n peer id cn l f src → n_conns m !! cm = Some lr →
  speaks lr CapResume = speaks l CapResume → files_inv (n_store m) →
  holds (n_store m) id src r → r < slen src →
  let (n', m') := transfer now (Some nonce) peer id cn cm n m in
  (FileData (n_store m') id = Ok src ∧ ∃ l', n_conns m' !! cm = Some l') ∧
  ((∃ f', GetFile (n_store n') id = Ok f' ∧ f_Status f' = FileSent) ∧
   bget (d_fileoutbox (s_db (n_store n'))) id = None) ∧
  new_sends cn n n' = file_envelope (under_id id f)
                      :: chunk_plan id src (if speaks l CapResume then r else 0).
Proof.
  intros Hn Hr Hlr Hsp Hs Hh Hlt.
  pose proof (transfer_runs now (Some nonce) peer id cn cm n m l lr f src r Hr Hlr Hsp Hs Hh) as Ht.
  cbv zeta in Ht. destruct (transfer _ _ _ _ _ _ _ _) as [n' m'].
  destruct Ht as (Hsend & Hrow & m1 & l1 & Hok & Hl1 & Hrx & Hrs & ->).
  split; [|done]. pose proof (recv_range _ _ _ _ Hok). pose proof (rd_len _ _ _ _ _ _ _ Hr) as Hlen.
  change MaxFileSize with (100 * 2 ^ 20) in Hlen.
  apply (plan_turns no_fault now nonce cm id src (Z.to_nat (slen src))) with (l := l1) (r := r);
    [|lia|done|..|done|done|done|done| |]; try (destruct (speaks l CapResume); lia).
  by apply checkID_file_id, (rd_id _ _ _ _ _ _ _ Hr).
Qed.

(** A goroutine that has read the row leaves the file ready for another one. *)
Lemma ready_prepared n peer id c l f src :
  ready n peer id c l f src →
  flushFile_prepare peer id n
  = (Some (c, l, under_id id f, src), with_store (MarkFileSending (n_store n) id).2 n)
  ∧ ready (with_store (MarkFileSending (n_store n) id).2 n) peer id c l (sending f) src.
Proof.
  intros [Hlink Hrow Hst Hdata Hsz Hha Hname Hlen Hid].
  split; [by apply prepare_ready|].
  assert (f_Size (sending f) = f_Size f ∧ f_Hash (sending f) = f_Hash f
               ∧ f_Name (sending f) = f_Name f ∧ sendable_row (sending f)) as (E1 & E2 & E3 & E4).
  { unfold sending, sendable_row. by destruct Hst as [Hst|Hst]; rewrite Hst; cbn; rewrite ?Hst; auto. }
  split; rewrite ?E1, ?E2, ?E3; try done; cbn [n_store with_store].
  - unfold linkFor in *. cbn [n_live n_conns with_store]. congruence.
  - apply GetFile_row, sending_row; [by apply checkID_file_id|by apply GetFile_ok].
  - rewrite <- Hdata. apply blob_eq; unfold MarkFileSending, Update, same_keys;
      by destruct (run_update _ _).
Qed.

(** A header for a row in any other state than receiving starts over. *)
Lemma begin_over s id f0 peer name hash size now :
  file_id_ok id → GetFile s id = Ok f0 →
  f_Status f0 ≠ FileReceiving →
  let (r, s') := BeginReceive s id peer name hash size now in
  r = Ok 0 ∧ GetFile s' id = Ok (mkFile id peer DirIn name size hash FileReceiving 0 0 now).
Proof.
  intros Hid Hf Hst. unfold BeginReceive, os_MkdirAll. rewrite (fault_none no_fault).
  assert (resume_at s id hash size = 0) as ->.
  { unfold resume_at. rewrite Hf. by apply eqs_false in Hst as ->. }
  cbn [Z.eqb]. unfold os_WriteFile. rewrite (fault_none no_fault). cbn [mbind result_bind].
  set (f := mkFile _ _ _ _ _ _ _ _ _ _).
  erewrite Update_done; [|tx_unfold; rewrite (id_put id Hid); reflexivity].
  split; [done|]. apply GetFile_row. cbn. by rewrite bget_set_eq.
Qed.

Lemma header_over now rnd c l f0 f n :
  n_conns n !! c = Some l → checkID (f_ID f) = Ok tt →
  GetFile (n_store n) (f_ID f) = Ok f0 → f_Status f0 ≠ FileReceiving →
  let n' := (session_turn now rnd c (Ok (file_envelope f)) n).2 in
  GetFile (n_store n') (f_ID f) = Ok (mkFile (f_ID f) (lk_peer l) DirIn (f_Name f) (f_Size f)
    (f_Hash f) FileReceiving 0 0 now) ∧
  FileData (n_store n') (f_ID f) = Err (Errorf "store: file not complete").
Proof.
  intros Hl Hid Hf Hst n'.
  pose proof (begin_over (n_store n) (f_ID f) f0 (lk_peer l) (f_Name f) (f_Hash f) (f_Size f) now
    (checkID_file_id _ Hid) Hf Hst) as Hb.
  destruct (BeginReceive _ _ _ _ _ _ _) as [r s'] eqn:Eb. destruct Hb as [-> Hf'].
  destruct (header_turn good now rnd c l f 0 n s' Hl Hid ltac:(by vm_compute) Eb)
    as (n1 & Ht & Hs1 & _). unfold n'. rewrite Ht. cbn [snd]. rewrite Hs1.
  split; [done|]. unfold FileData. by rewrite Hf'.
Qed.

(** A complete file is one that can be read. *)
Lemma readable_complete s id data :
  FileData s id = Ok data → ∃ f, GetFile s id = Ok f ∧ f_Status f ≠ FileReceiving.
Proof.
  intros (f & Hf & Hd)%bind_ok. exists f. split; [done|]. intros E. by rewrite E in Hd.
Qed.

(** A goroutine that comes to the lock sends the header it has read before. *)
Lemma send_waits now peer c l f src n :
  speaks l CapResume = true → validate (file_envelope f) = Ok tt →
  let n' := (flushFile_send now peer (c, l, f, src) n).2 in
  n_out n' = n_out n ++ [OSend c (file_envelope f)].
Proof.
  intros Hl Hv. unfold flushFile_send. rewrite Hl. cbv zeta.
  erewrite bindM by reflexivity. by erewrite bindM by (by apply send_good).
Qed.

End arrival.

(** ** Properties *)

Section property.
Context {B : Type → Type} `{Bolt B} `{Primitives} `{UnicodeTables} `{Wire} `{DiskFaults}.
Implicit Types (n m : Node B) (f : File).

(** C5: a queued file arrives.  Over a session with no disk or wire error, the
    header, its answer and the chunks leave the receiver with a file that
    reads back as the sender's bytes; the sender's row is marked sent and
    leaves its outbox.  When both ends can resume, exactly the chunks of the
    bytes the receiver does not hold cross, otherwise all of them: also an
    interrupted transfer completes with a peer that cannot resume. *)
Theorem file_arrives now nonce peer id cn cm n m l lr f src r :
  (∀ op p, disk_fault op p = None) → (∀ o c e, wire_error o c e = None) → slen nonce = 12 →
  ready n peer id cn l f src → n_conns m !! cm = Some lr →
  speaks lr CapResume = speaks l CapResume → files_inv (n_store m) →
  holds (n_store m) id src r → r < slen src →
  let (n', m') := transfer now (Some nonce) peer id cn cm n m in
  FileData (n_store m') id = Ok src ∧
  (∃ f', GetFile (n_store n') id = Ok f' ∧ f_Status f' = FileSent) ∧
  bget (d_fileoutbox (s_db (n_store n'))) id = None ∧
  new_sends cn n n' = file_envelope (under_id id f)
                      :: chunk_plan id src (if speaks l CapResume then r else 0).
Proof.
  intros Hnf Hg Hn Hr Hlr Hsp Hs Hh Hlt.
  pose proof (transfer_arrives Hnf Hg now nonce peer id cn cm n m l lr f src r Hn Hr Hlr Hsp Hs Hh Hlt)
    as Ht. destruct (transfer _ _ _ _ _ _ _ _) as [n' m']. by destruct Ht as ([? _] & [? ?] & ?).
Qed.

(** C6: the sender's loop ends, and sends what is missing.  From any offset of
    the file, more turns than [chunks_left] change nothing, and the chunks
    handed to the session are those of [chunk_plan] in order: all of them, and
    then the file is marked sent; or those before the one the wire refuses,
    and then the store is as it was and the session closed, so that the next
    attempt resumes. *)
Theorem flushFile_sends_the_rest now peer c f data off n :
  slen data = f_Size f → checkID (f_ID f) = Ok tt → slen data <= MaxFileSize →
  0 <= off <= slen data →
  let n' := (flushFile_from now peer c f data off n).2 in
  (∀ fuel, (chunks_left off (slen data) <= fuel)%nat →
     (chunk_loop now peer c f data fuel off n).2 = n') ∧
  ∃ o j, n_out n' = n_out n ++ o ∧ sends c o = take j (chunk_plan (f_ID f) data off) ∧
    ((j = length (chunk_plan (f_ID f) data off)
      ∧ n_store n' = (MarkFileSent (n_store n) (f_ID f)).2)
     ∨ (n_store n' = n_store n ∧ OClose c ∈ o ∧ ∃ o' e err, wire_error o' c e = Some err)).
Proof.
  intros Hsz Hid Hm Ho n'. unfold n'. rewrite flushFile_from_loop, <- Hsz by lia. split.
  - intros fuel Hf. f_equal. by apply chunk_loop_fuel.
  - destruct (chunk_loop_result now peer c f data (chunks_left off (slen data)) off n)
      as (o & j & Hout & Hs & _ & Hr); [done..|]. by exists o, j.
Qed.

(** C36: a receiver that holds every byte of a file it has not completed never
    completes it.  After a stop between the last [WriteChunk] and
    [CompleteFile], or a failure inside the latter, the next transfer between
    peers that can resume sends the header only: no chunk arrives, so nothing
    calls [CompleteFile]; the receiver's file stays in the receiving state and
    cannot be read, while the sender marks it sent and drops it. *)
Theorem full_partial_stalls now rnd peer id cn cm n m l lr f src :
  (∀ op p, disk_fault op p = None) → (∀ o c e, wire_error o c e = None) →
  ready n peer id cn l f src → n_conns m !! cm = Some lr →
  speaks l CapResume = true → speaks lr CapResume = true → files_inv (n_store m) →
  recv_ok (n_store m) id src (slen src) →
  let (n', m') := transfer now rnd peer id cn cm n m in
  new_sends cn n n' = [file_envelope (under_id id f)] ∧
  (∃ f', GetFile (n_store n') id = Ok f' ∧ f_Status f' = FileSent) ∧
  bget (d_fileoutbox (s_db (n_store n'))) id = None ∧
  (∃ f', GetFile (n_store m') id = Ok f' ∧ f_Status f' = FileReceiving) ∧
  FileData (n_store m') id = Err (Errorf "store: file not complete").
Proof.
  intros Hnf Hg Hr Hlr Hl Hlr' Hs Hok.
  pose proof (transfer_runs Hnf Hg now rnd peer id cn cm n m l lr f src (slen src) Hr Hlr
    (eq_trans Hlr' (eq_sym Hl)) Hs (or_intror Hok)) as Ht.
  cbv zeta in Ht. rewrite Hl, chunk_plan_done in Ht. destruct (transfer _ _ _ _ _ _ _ _) as [n' m'].
  destruct Ht as (Hsend & [Hrow Hout] & m1 & l1 & [_ (f' & Hf' & Hst & _) _] & _ & _ & _ & ->).
  apply GetFile_row in Hf'. change (run_turns now rnd cm [] m1).2 with m1.
  split_and!; [done..|by exists f'|]. unfold FileData. rewrite Hf'. cbn [mbind result_bind].
  by rewrite Hst.
Qed.

(** Any peer that knows the identifier of a file can take it over.  A header
    under the identifier of a stored file that is not being received, whoever
    it came from or is meant for, replaces its row by an incoming one of the
    peer that sent the header: a complete file cannot be read any more, and
    a file of ours that is queued or being sent is not sent any more. *)
Lemma header_reopens_file now rnd c l f0 f n :
  (∀ op p, disk_fault op p = None) → (∀ o c e, wire_error o c e = None) →
  n_conns n !! c = Some l → checkID (f_ID f) = Ok tt →
  GetFile (n_store n) (f_ID f) = Ok f0 → f_Status f0 ≠ FileReceiving →
  let n' := (session_turn now rnd c (Ok (file_envelope f)) n).2 in
  GetFile (n_store n') (f_ID f) = Ok (mkFile (f_ID f) (lk_peer l) DirIn (f_Name f) (f_Size f)
    (f_Hash f) FileReceiving 0 0 now) ∧
  FileData (n_store n') (f_ID f) = Err (Errorf "store: file not complete") ∧
  ∀ peer, flushFile now peer (f_ID f) n' = (None, n').
Proof.
  intros Hnf Hg Hl Hid Hf Hst n'.
  destruct (header_over Hnf Hg now rnd c l f0 f n Hl Hid Hf Hst) as [Hf' Hd]. fold n' in Hf', Hd.
  split; [done|]. split; [done|]. intros peer. unfold flushFile, flushFile_prepare, linkFor.
  unfold mbind at 1 2, M_bind at 1 2. destruct (c0 ← _; _) as [[c' l']|]; [|done].
  erewrite bindM by reflexivity. by rewrite Hf'.
Qed.

(** C35: a transfer that waited for another one undoes it.  [flushFile] reads the
    row before it takes the lock of the session, and the outbox loop starts it
    anew on every tick: one that has read the row of a file while another
    goroutine sends it goes on to send the header again after the file has
    arrived and is marked sent, and the receiver's complete file goes back to
    the receiving state and cannot be read. *)
Theorem overlapping_flush_reopens now nonce peer id cn cm n m l lr f src r :
  (∀ op p, disk_fault op p = None) → (∀ o c e, wire_error o c e = None) → slen nonce = 12 →
  ready n peer id cn l f src → n_conns m !! cm = Some lr →
  speaks l CapResume = true → speaks lr CapResume = true → files_inv (n_store m) →
  holds (n_store m) id src r → r < slen src →
  let (waiting, n0) := flushFile_prepare peer id n in
  let (n1, m1) := transfer now (Some nonce) peer id cn cm n0 m in
  let n2 := (match waiting with Some p => flushFile_send now peer p n1 | None => (None, n1) end).2 in
  let m2 := (run_turns now (Some nonce) cm (new_sends cn n1 n2) m1).2 in
  (∃ f', GetFile (n_store n1) id = Ok f' ∧ f_Status f' = FileSent) ∧
  FileData (n_store m1) id = Ok src ∧
  new_sends cn n1 n2 = [file_envelope (under_id id f)] ∧
  FileData (n_store m2) id = Err (Errorf "store: file not complete").
Proof.
  intros Hnf Hg Hn Hr Hlr Hl Hlr' Hs Hh Hlt. pose proof (rd_id _ _ _ _ _ _ _ Hr) as Hid.
  destruct (ready_prepared n peer id cn l f src Hr) as [-> Hr0].
  set (n0 := with_store _ n) in *. clearbody n0.
  pose proof (transfer_arrives Hnf Hg now nonce peer id cn cm n0 m l lr _ src r Hn Hr0 Hlr
    (eq_trans Hlr' (eq_sym Hl)) Hs Hh Hlt) as Ht.
  destruct (transfer _ _ _ _ _ _ _ _) as [n1 m1].
  destruct Ht as ([Hd (l1 & Hl1)] & [Hrow _] & _).
  assert (Hv : validate (file_envelope (under_id id f)) = Ok tt).
  { destruct Hr. apply header_valid; cbn; rewrite ?rd_size0; [done|done|done|by exists src]. }
  pose proof (send_waits Hg now peer cn l (under_id id f) src n1 Hl Hv) as Ho. cbv zeta in *.
  set (n2 := (flushFile_send _ _ _ n1).2) in *.
  rewrite (new_sends_app cn n1 n2 _ Ho), sends_one. split_and!; [done..|].
  destruct (readable_complete _ _ _ Hd) as (f1 & Hf1 & Hst).
  unfold run_turns. cbn [for_each].
  destruct (header_over Hnf Hg now (Some nonce) cm l1 f1 (under_id id f) m1 Hl1 Hid Hf1 Hst) as [_ Hx].
  unfold mbind, M_bind. destruct (session_turn _ _ _ _ m1) as [[] m2]. exact Hx.
Qed.
End property.

(** ** Witnesses *)

#[local] Existing Instance gmap_bolt.
#[local] Existing Instance toy_primitives.
#[local] Existing Instance ascii_tables.
#[local] Existing Instance good_wire.
#[local] Existing Instance no_faults.

Definition ex_hash : string := hex_encode (Sum256 ex_src).
Definition ex_node (s : Store gbucket) (peer : string) (c : nat) (caps : list string) : Node gbucket :=
  with_live {[ToLower peer := c]} (with_conns {[c := newLink peer caps 5]}
    (New s (mkConfig 0 0 0 0 0) (mkIdentity "Me" "m" "MMMM"))).

(** A sender with a queued file, a receiver that holds six of its twelve bytes. *)
Definition ex_sender (caps : list string) : Node gbucket :=
  ex_node (run_file (FAdd ex_id "Bob" "f.txt" ex_hash ex_src 5 (Some "nonce nonce ")) ex_empty)
    "Bob" 7 caps.
Definition ex_partial (len : Z) : Store gbucket :=
  recv_run ex_id ex_src [RSlice 0 len] (recv_step ex_id ex_src ex_empty (RHeader "Alice" "f.txt" 4)).
Definition ex_receiver (len : Z) (caps : list string) : Node gbucket :=
  ex_node (ex_partial len) "Alice" 9 caps.

Definition ex_row : File :=
  mkFile ex_id "Bob" DirOut "f.txt" 12 ex_hash FileQueued 0 0 5.

Lemma ex_ready caps : ready (ex_sender caps) "bob" ex_id 7 (newLink "Bob" caps 5) ex_row ex_src.
Proof.
  assert (Hl : ToLower "bob" = ToLower "Bob") by (by vm_compute).
  split; [|by vm_compute|by left|by vm_compute|done|done|done|by vm_compute|by vm_compute].
  unfold linkFor, ex_sender, ex_node. cbn [n_live n_conns with_live with_conns].
  rewrite Hl, lookup_singleton_eq. cbn [mbind option_bind]. by rewrite lookup_singleton_eq.
Qed.

Lemma ex_partial_ok len : 0 < len <= 12 → recv_ok (ex_partial len) ex_id ex_src len.
Proof.
  intros Hlen. assert (Hnf : ∀ op p, @disk_fault no_faults op p = None) by done.
  destruct (begin_fresh Hnf ex_empty ex_id ex_src "Alice" "f.txt" 4 ex_files_inv ex_id_ok)
    as (s' & Hb & Hok); [by vm_compute|].
  pose proof (recv_run_ok Hnf ex_id ex_src [RSlice 0 len] s' 0 Hok ex_id_ok) as Hr.
  replace len with (mark [RSlice 0 len] 0) at 2 by (cbn; lia).
  unfold ex_partial. cbn [recv_step]. unfold ex_hash in *. rewrite Hb. apply Hr; [by vm_compute|].
  repeat constructor; try lia. change (slen ex_src) with 12. lia.
Qed.

Lemma file_arrives_witness :
  let (n', m') := transfer 9 (Some "nonce nonce ") "bob" ex_id 7 9
                    (ex_sender [CapResume]) (ex_receiver 6 [CapResume]) in
  FileData (n_store m') ex_id = Ok ex_src ∧
  new_sends 7 (ex_sender [CapResume]) n'
  = [file_envelope ex_row; chunk_envelope ex_id 6 "l file"].
Proof.
  assert (Hp : recv_ok (ex_partial 6) ex_id ex_src 6) by (apply ex_partial_ok; lia).
  assert (Hc : chunk_plan ex_id ex_src 6 = [chunk_envelope ex_id 6 "l file"]) by (by vm_compute).
  pose proof (file_arrives 9 "nonce nonce " "bob" ex_id 7 9 (ex_sender [CapResume])
    (ex_receiver 6 [CapResume]) (newLink "Bob" [CapResume] 5) (newLink "Alice" [CapResume] 5)
    ex_row ex_src 6 ltac:(done) ltac:(done) ltac:(done) (ex_ready _) (lookup_singleton_eq _ _)
    ltac:(done) (ro_inv _ _ _ _ Hp) (or_intror Hp) ltac:(by vm_compute)) as Ha.
  destruct (transfer _ _ _ _ _ _ _ _) as [n' m']. destruct Ha as (Hd & _ & _ & Hs).
  split; [exact Hd|]. etrans; [exact Hs|]. exact (f_equal (cons _) Hc).
Defined.

Lemma flushFile_sends_the_rest_witness :
  ∃ o j, n_out (flushFile_from 5 "Bob" 7 ex_row ex_src 6 (ex_sender [])).2
         = n_out (ex_sender []) ++ o ∧
    sends 7 o = take j [chunk_envelope ex_id 6 "l file"].
Proof.
  assert (Hc : chunk_plan ex_id ex_src 6 = [chunk_envelope ex_id 6 "l file"]) by (by vm_compute).
  destruct (flushFile_sends_the_rest 5 "Bob" 7 ex_row ex_src 6 (ex_sender []))
    as (_ & o & j & Ho & Hs & _); [done|by vm_compute|by vm_compute|by vm_compute|].
  exists o, j. split; [exact Ho|]. etrans; [exact Hs|]. exact (f_equal (take j) Hc).
Defined.

Lemma full_partial_stalls_witness :
  let (n', m') := transfer 9 (Some "nonce nonce ") "bob" ex_id 7 9
                    (ex_sender [CapResume]) (ex_receiver 12 [CapResume]) in
  (∃ f', GetFile (n_store n') ex_id = Ok f' ∧ f_Status f' = FileSent) ∧
  FileData (n_store m') ex_id = Err (Errorf "store: file not complete").
Proof.
  assert (Hp : recv_ok (ex_partial 12) ex_id ex_src 12) by (apply ex_partial_ok; lia).
  pose proof (full_partial_stalls 9 (Some "nonce nonce ") "bob" ex_id 7 9 (ex_sender [CapResume])
    (ex_receiver 12 [CapResume]) (newLink "Bob" [CapResume] 5) (newLink "Alice" [CapResume] 5)
    ex_row ex_src ltac:(done) ltac:(done) (ex_ready _) (lookup_singleton_eq _ _)
    ltac:(done) ltac:(done) (ro_inv _ _ _ _ Hp) Hp) as Ha.
  destruct (transfer _ _ _ _ _ _ _ _) as [n' m']. destruct Ha as (_ & Hr & _ & _ & Hd).
  exact (conj Hr Hd).
Defined.

(** A file received from Alice, and a header under its identifier from Mallory. *)
Definition ex_complete : Node gbucket :=
  ex_node (CompleteFile (ex_partial 12) ex_id (Some "nonce nonce ")).2 "Mallory" 4 [].

Lemma header_reopens_file_example :
  FileData (n_store ex_complete) ex_id = Ok ex_src ∧
  FileData (n_store (session_turn 8 None 4 (Ok (file_envelope ex_row)) ex_complete).2) ex_id
  = Err (Errorf "store: file not complete").
Proof.
  assert (Hd : FileData (n_store ex_complete) ex_id = Ok ex_src) by (vm_compute; reflexivity).
  assert (Hf : ∃ f, GetFile (n_store ex_complete) ex_id = Ok f ∧ f_Status f ≠ FileReceiving)
    by (eexists; split; [vm_compute; reflexivity|done]).
  destruct Hf as (f0 & Hf & Hst). split; [exact Hd|].
  apply (header_reopens_file 8 None 4 (newLink "Mallory" [] 5) f0 ex_row ex_complete
    ltac:(done) ltac:(done) (lookup_singleton_eq _ _) ltac:(by vm_compute) Hf Hst).
Defined.

Lemma overlapping_flush_reopens_witness :
  let (waiting, n0) := flushFile_prepare "bob" ex_id (ex_sender [CapResume]) in
  let (n1, m1) := transfer 9 (Some "nonce nonce ") "bob" ex_id 7 9 n0 (ex_receiver 6 [CapResume]) in
  let n2 := (match waiting with Some p => flushFile_send 9 "bob" p n1 | None => (None, n1) end).2 in
  let m2 := (run_turns 9 (Some "nonce nonce ") 9 (new_sends 7 n1 n2) m1).2 in
  FileData (n_store m1) ex_id = Ok ex_src ∧
  FileData (n_store m2) ex_id = Err (Errorf "store: file not complete").
Proof.
  assert (Hp : recv_ok (ex_partial 6) ex_id ex_src 6) by (apply ex_partial_ok; lia).
  pose proof (overlapping_flush_reopens 9 "nonce nonce " "bob" ex_id 7 9 (ex_sender [CapResume])
    (ex_receiver 6 [CapResume]) (newLink "Bob" [CapResume] 5) (newLink "Alice" [CapResume] 5)
    ex_row ex_src 6 ltac:(done) ltac:(done) ltac:(done) (ex_ready _) (lookup_singleton_eq _ _)
    ltac:(done) ltac:(done) (ro_inv _ _ _ _ Hp) (or_intror Hp) ltac:(by vm_compute)) as Ha.
  destruct (flushFile_prepare _ _ _) as [p n0].
  destruct (transfer _ _ _ _ _ _ _ _) as [n1 m1].
  destruct Ha as (_ & Hd & _ & Hx). exact (conj Hd Hx).
Defined.
