(* ===== verification/Delivery.v ===== *)
(** * Two nodes and an unreliable network

    The delivery protocol of one-to-one messages: the outbox resends until an
    acknowledgement comes back, the receiver stores by identifier and always
    acknowledges.  Two nodes run any of their handlers in any order; the
    network may lose, delay, reorder and repeat what they send, sessions may
    break and be set up again, stores and wires may fail, and the nodes may be
    restarted. *)

From S2P Require Import Prelude GoStrings Utf8 Proto Sha256 Identity Base64 Crypto Bolt.
From S2P Require Import StoreData StoreCore StoreMessages MessageLog StorePeers StoreFiles.
From S2P Require Import StoreRooms StoreFrame Backoff NodeState NodeRooms NodeCore NodeLink.
From S2P Require Import PeerPins NodeFrame.

(** ** Logs *)

(** What of a message never changes. *)
Definition core (m : Message) : string * string * string * string * Z * string :=
  (m_ID m, m_Peer m, m_Dir m, m_Body m, m_TS m, m_ReplyTo m).

Definition outbound (m : Message) : Prop := m_Dir m = DirOut.
Definition delivered (m : Message) : Prop := m_Status m = StatusDelivered.

(** The same text under the same identifier. *)
Definition same_text (m m' : Message) : Prop :=
  m_ID m = m_ID m' ∧ m_Body m = m_Body m' ∧ m_ReplyTo m = m_ReplyTo m'.

(** An envelope carries a message; an envelope acknowledges a message. *)
Definition carries (e : Envelope) (m : Message) : Prop :=
  T e = TypeMsg ∧ ID e = m_ID m ∧ Body e = m_Body m ∧ ReplyTo e = m_ReplyTo m.
Definition acks (e : Envelope) (m : Message) : Prop := T e = TypeAck ∧ ID e = m_ID m.

(** Messages stay, and stay delivered. *)
Definition log_le (l l' : list Message) : Prop :=
  ∀ m, m ∈ l → ∃ m', m' ∈ l' ∧ core m' = core m ∧ (delivered m → delivered m').

(** Outbound messages are old or under an identifier in [S]. *)
Definition outs_in (S : string → Prop) (l l' : list Message) : Prop :=
  ∀ m', m' ∈ l' → outbound m' → (∃ m, m ∈ l ∧ core m = core m') ∨ S (m_ID m').

Lemma core_id m m' : core m = core m' → m_ID m = m_ID m'.
Proof. by intros [= ->]. Qed.
Lemma core_outbound m m' : core m = core m' → outbound m → outbound m'.
Proof. unfold outbound. by intros [= _ _ -> _ _ _]. Qed.
Lemma core_text m m' : core m = core m' → same_text m m'.
Proof. unfold same_text. by intros [= -> _ _ -> _ ->]. Qed.
Lemma core_carries e m m' : core m = core m' → carries e m → carries e m'.
Proof. unfold carries. by intros [= -> _ _ -> _ ->]. Qed.
Lemma core_acks e m m' : core m = core m' → acks e m → acks e m'.
Proof. unfold acks. by intros [= -> _ _ _ _ _]. Qed.
Lemma carries_text e m m' : carries e m → carries e m' → same_text m m'.
Proof. unfold carries, same_text. intros (_ & -> & -> & ->) (_ & -> & -> & ->). done. Qed.

#[export] Instance log_le_preorder : PreOrder log_le.
Proof.
  split; [intros l m; eauto|]. intros l1 l2 l3 H12 H23 m (m2 & Hm2 & Hc2 & Hd2)%H12.
  destruct (H23 m2 Hm2) as (m3 & Hm3 & Hc3 & Hd3). exists m3. split_and!; [done|congruence|auto].
Qed.

Lemma outs_in_refl S l : outs_in S l l.
Proof. intros m Hm _. left. by exists m. Qed.
Lemma outs_in_trans S l1 l2 l3 : outs_in S l1 l2 → outs_in S l2 l3 → outs_in S l1 l3.
Proof.
  intros H12 H23 m3 Hm3 Ho3. destruct (H23 m3 Hm3 Ho3) as [(m2 & Hm2 & Hc)|]; [|by right].
  destruct (H12 m2 Hm2) as [(m1 & Hm1 & Hc1)|].
  - by eapply core_outbound.
  - left. exists m1. split; [done|congruence].
  - right. by rewrite <- (core_id _ _ Hc).
Qed.

(** Updating the message under an identifier keeps the cores. *)
Definition core_update (f : Message → Message) : Prop :=
  ∀ m, core (f m) = core m ∧ (delivered m → delivered (f m)).

Lemma core_set_delivered : core_update (set_Status StatusDelivered).
Proof. done. Qed.
Lemma core_bump now : core_update (bump_attempt now).
Proof. done. Qed.

Lemma update_id_elem id f l m' :
  m' ∈ update_id id f l ↔ ∃ m, m ∈ l ∧ m' = (if decide (m_ID m = id) then f m else m).
Proof. unfold update_id. rewrite list_elem_of_fmap. naive_solver. Qed.

Lemma update_id_le id f l : core_update f → log_le l (update_id id f l).
Proof.
  intros Hf m Hm. exists (if decide (m_ID m = id) then f m else m). rewrite update_id_elem.
  split; [eauto|]. case_decide; [apply Hf|done].
Qed.

Lemma update_id_outs S id f l : core_update f → outs_in S l (update_id id f l).
Proof.
  intros Hf m' (m & Hm & ->)%update_id_elem _. left. exists m. split; [done|].
  case_decide; [by rewrite (proj1 (Hf m))|done].
Qed.

(** ** What a node keeps true, whatever the other one does *)

(** A peer name that fits in the keys of the message bucket. *)
Definition name_ok `{UnicodeTables} (p : string) : Prop := no_nul p ∧ slen (peerKey p) <= 32000.
Abbreviation peers_named := (names_are name_ok).

Section good.
Context {B : Type → Type} `{Bolt B} `{Primitives} `{UnicodeTables} `{Wire} `{DiskFaults}.
Implicit Types (n : Node B) (s : Store B) (e : Envelope) (m : Message).

Definition log n : list Message := msg_log (n_store n).
Definition sent n e : Prop := ∃ c, OSend c e ∈ n_out n.
Definition sent_le n n' : Prop := ∀ e, sent n e → sent n' e.


(** An envelope a node may have sent, given its log. *)
Record backed (l : list Message) e : Prop := {
  bk_valid : is_ok (validate e) = true;
  bk_no_del : T e ≠ TypeDel ∧ T e ≠ TypeDelAll;
  bk_msg : T e = TypeMsg → ∃ m, m ∈ l ∧ outbound m ∧ carries e m;
  bk_ack : T e = TypeAck → ∃ m, m ∈ l ∧ acks e m }.

(** [In] is what the other node ever sent. *)
Record Good (In : Envelope → Prop) n : Prop := {
  g_msgs : msgs_inv (n_store n);
  g_names c l : n_conns n !! c = Some l → name_ok (lk_peer l);
  g_peers : peers_named (s_db (n_store n));
  g_sent e : sent n e → backed (log n) e;
  g_in m : m ∈ log n → ¬ outbound m → ∃ e, In e ∧ carries e m;
  g_delivered m : m ∈ log n → outbound m → delivered m → ∃ e, In e ∧ acks e m }.

Definition grow (In : Envelope → Prop) (S : string → Prop) n n' : Prop :=
  Good In n → Good In n' ∧ log_le (log n) (log n') ∧ outs_in S (log n) (log n') ∧ sent_le n n'.

#[export] Instance grow_preorder In S : PreOrder (grow In S).
Proof.
  split.
  - intros n Hg. split_and!; [done|reflexivity|apply outs_in_refl|by intros e].
  - intros n1 n2 n3 H12 H23 Hg. destruct (H12 Hg) as (Hg2 & Hl2 & Ho2 & Hs2).
    destruct (H23 Hg2) as (Hg3 & Hl3 & Ho3 & Hs3).
    split_and!; [done|by etrans|by eapply outs_in_trans|]. intros e He. auto.
Qed.

Lemma backed_le l l' e : log_le l l' → backed l e → backed l' e.
Proof.
  intros Hl [Hv Hd Hm Ha]. split; [done..| |].
  - intros (m & (m' & Hm' & Hc & _)%Hl & Ho & Hca)%Hm. exists m'.
    split_and!; [done|by eapply core_outbound|by eapply core_carries].
  - intros (m & (m' & Hm' & Hc & _)%Hl & Hca)%Ha. exists m'.
    split; [done|by eapply core_acks].
Qed.

(** *** Steps that leave the messages and the peers alone *)

Definition msgs_part (d : DB B) := (d_msgs d, d_idx d, d_outbox d).
Definition part (d : DB B) := (msgs_part d, d_peers d).

(** The types of envelope that say nothing about one-to-one messages. *)
Definition harmless (t : string) : Prop := t ∉ [TypeMsg; TypeAck; TypeDel; TypeDelAll].

Lemma same_log s s' : same_part msgs_part s s' → msg_log s' = msg_log s.
Proof.
  intros (Hk & Hi & Hp). destruct s, s'. cbn in *. subst.
  unfold msg_log, decoded, decryptMessage, decryptString, decrypt. cbn.
  unfold msgs_part in Hp. injection Hp as -> _ _. done.
Qed.

Lemma same_inv s s' : same_part msgs_part s s' → msgs_inv s → msgs_inv s'.
Proof.
  intros (Hk & Hi & Hp) [Hkeys [W1 W2 W3 W4 W5] Hread]. unfold msgs_part in Hp.
  injection Hp as P1 P2 P3. split.
  - unfold keys_ok. by rewrite Hk, Hi.
  - by split; rewrite ?P1, ?P2, ?P3.
  - intros k m. rewrite P1. intros Hg. specialize (Hread k m Hg).
    destruct s, s'. cbn in *. by subst.
Qed.
Lemma validate_id e : T e = TypeMsg → is_ok (validate e) = true → slen (ID e) = 32.
Proof.
  intros Ht. unfold validate, validate_body. rewrite Ht. cbn [mbind].
  rewrite (proj2 (eqs_true TypeMsg TypeMsg) eq_refl). unfold checkID.
  destruct (Z.eqb_spec (slen (ID e)) (IDLen * 2)) as [E|]; [done|done].
Qed.

Lemma sent_app n n' o e : n_out n' = n_out n ++ o → sent n' e → sent n e ∨ ∃ c, OSend c e ∈ o.
Proof. intros Ho [c Hc]. rewrite Ho, elem_of_app in Hc. destruct Hc; [left|right]; by exists c. Qed.

Lemma harmless_backed l e : out_ok harmless (OSend 0 e) → backed l e.
Proof.
  intros [Hh Hv]. unfold harmless in Hh. split; [done|split|..]; intros E; rewrite ?E in Hh;
    set_solver.
Qed.

Lemma grow_same In S n n' :
  same_part msgs_part (n_store n) (n_store n') →
  (peers_named (s_db (n_store n)) → peers_named (s_db (n_store n'))) →
  ((∀ c l, n_conns n !! c = Some l → name_ok (lk_peer l)) →
   (∀ c l, n_conns n' !! c = Some l → name_ok (lk_peer l))) →
  (∃ o, n_out n' = n_out n ++ o ∧ Forall (out_ok harmless) o) →
  grow In S n n'.
Proof.
  intros Hs Hp Hc (o & Ho & Hf) [G1 G2 G3 G4 G5 G6].
  assert (El : log n' = log n) by by apply same_log. split_and!.
  - split; rewrite ?El; [by eapply same_inv|by apply Hc|auto| |done|done].
    intros e [He|[c He]]%(sent_app _ _ _ _ Ho); [auto|]. apply harmless_backed.
    by rewrite Forall_forall in Hf; apply (Hf _ He).
  - by rewrite El.
  - rewrite El. apply outs_in_refl.
  - intros e [c He]. exists c. rewrite Ho. set_solver.
Qed.

Lemma quiet_grow In S n n' : quiet part harmless n n' → grow In S n n'.
Proof.
  intros [(Hk & Hi & Hp) Hc Ho]. pose proof (f_equal fst Hp) as Hm.
  pose proof (f_equal snd Hp) as Hpe. cbn in Hm, Hpe. apply grow_same.
  - done.
  - unfold names_are. by rewrite Hpe.
  - intros Hn c l Hl. assert (Hl' : conn_names n' !! c = Some (lk_peer l))
      by (unfold conn_names; by rewrite lookup_fmap, Hl).
    rewrite Hc in Hl'. unfold conn_names in Hl'. rewrite lookup_fmap in Hl'.
    destruct (n_conns n !! c) as [l'|] eqn:E; [|done]. injection Hl' as <-. eauto.
  - done.
Qed.

Lemma steps_quiet {A} In S (m : M B A) : steps (quiet part harmless) m → steps (grow In S) m.
Proof. intros Hm n. apply quiet_grow, Hm. Qed.
End good.

(** ** The operations of the message store, on the log *)

(** A successful random read has the twelve bytes asked for. *)
Definition rnd_ok (rnd : option string) : Prop := ∀ nonce, rnd = Some nonce → slen nonce = 12.

Section store_ops.
Context {B : Type → Type} `{Bolt B} `{Primitives} `{UnicodeTables}.
Implicit Types (s : Store B) (m : Message).

(** Room for one more sequence number. *)
Definition has_room s : Prop := bseq (d_msgs (s_db s)) + 1 < 2 ^ 64 - 1.

(** Without a nonce encryption fails, or needed none. *)
Lemma encryptString_no_nonce s body :
  (∃ e, encryptString s body None = Err e) ∨
  ∀ nonce, encryptString s body (Some nonce) = encryptString s body None.
Proof.
  unfold encryptString. destruct (s_encKey s) as [k|]; [|by right].
  destruct (body =s? ""); [by right|].
  destruct (Encrypt k body None) as [raw|e] eqn:E; [|left; by eexists].
  unfold Encrypt in E. destruct (aead_new k) in E; cbn in E; done.
Qed.

(** Adding: an error changes nothing, a known identifier changes nothing, a
    new message goes last. *)
Lemma AddMessage_log s m rnd :
  msgs_inv s → name_ok (m_Peer m) → 0 < slen (m_ID m) <= 32768 → rnd_ok rnd → has_room s →
  let '(r, s') := AddMessage s m rnd in
  msgs_inv s' ∧ bseq (d_msgs (s_db s')) <= bseq (d_msgs (s_db s)) + 1 ∧
  match r with
  | Err _ => rnd = None ∧ msg_log s' = msg_log s
  | Ok (_, true) => msg_log s' = msg_log s ∧ ∃ m0, m0 ∈ msg_log s ∧ m_ID m0 = m_ID m
  | Ok (m', false) => ∃ q, m' = set_Seq q m ∧ msg_log s' = msg_log s ++ [m']
                           ∧ ∀ m0, m0 ∈ msg_log s → m_ID m0 ≠ m_ID m
  end.
Proof.
  intros Hs [Hnn Hp] Hid Hr Hroom.
  assert (Hsome : ∀ nonce, slen nonce = 12 → implements (OpAdd m (Some nonce)) s).
  { intros nonce Hn. apply add_implements; [done| |done]. split_and!; try done; try lia. eauto. }
  assert (Herr : ∀ e, encryptString s (m_Body m) rnd = Err e →
    AddMessage s m rnd = (Err (Wrapf "store: encrypt body" e), s)).
  { intros e He. unfold AddMessage. by rewrite He. }
  assert (Hcase : (∃ e, encryptString s (m_Body m) rnd = Err e) ∨
    ∃ nonce, slen nonce = 12 ∧ AddMessage s m rnd = AddMessage s m (Some nonce)).
  { destruct rnd as [nonce|]; [right; exists nonce; eauto|].
    destruct (encryptString_no_nonce s (m_Body m)) as [He|He]; [by left|right].
    exists "nonce nonce ". split; [done|]. unfold AddMessage. by rewrite He. }
  destruct Hcase as [[e He]|(nonce & Hn & ->)].
  { rewrite (Herr e He). split_and!; [done|lia| |done]. destruct rnd as [nonce|]; [|done].
    destruct (encryptString_total s nonce (m_Body m) (inv_keys _ Hs)) as [ct Hct]. congruence. }
  specialize (Hsome nonce Hn). unfold implements, run_op, spec_op, msg_state in Hsome.
  destruct (AddMessage s m (Some nonce)) as [r s'].
  destruct (find_id (m_ID m) (msg_log s)) as [m0|] eqn:Ef; cbn in Hsome;
    destruct Hsome as ([= ->] & [= Hl Hq] & Hs'); (split; [done|split; [lia|]]).
  - split; [done|]. exists m0. by apply find_id_Some in Ef.
  - eexists. split_and!; [done|done|]. intros m0 Hm0 Hi.
    by rewrite (proj2 (find_id_Some s (m_ID m) m0 Hs)) in Ef.
Qed.

Lemma RecordAttempt_log s id now :
  msgs_inv s →
  let '(r, s') := RecordAttempt s id now in
  msgs_inv s' ∧ (msg_log s' = msg_log s ∨ msg_log s' = update_id id (bump_attempt now) (msg_log s))
  ∧ ((∃ m, m ∈ msg_log s ∧ m_ID m = id) → is_ok r = true).
Proof.
  intros Hs. pose proof (attempt_implements id now s Hs) as Hi.
  unfold implements, run_op, spec_op, msg_state in Hi.
  destruct (RecordAttempt s id now) as [r s'].
  destruct (find_id id (msg_log s)) eqn:Ef; cbn in Hi; destruct Hi as ([= Er] & [= Hl _] & ?);
    (split_and!; [done|auto|]).
  - intros _. by destruct r.
  - intros (m & Hm & Hid). by rewrite (proj2 (find_id_Some s id m Hs)) in Ef.
Qed.

(** Marking: the message of that identifier, and it must be outbound. *)
Lemma MarkDelivered_log s peer id :
  msgs_inv s →
  let '(r, s') := MarkDelivered s peer id in
  msgs_inv s' ∧ (msg_log s' = msg_log s ∨
                 msg_log s' = update_id id (set_Status StatusDelivered) (msg_log s))
  ∧ (∀ m, m ∈ msg_log s → m_ID m = id → outbound m → EqualFold (m_Peer m) peer = true →
       ∃ m', m' ∈ msg_log s' ∧ core m' = core m ∧ delivered m').
Proof.
  intros Hs. pose proof (mark_implements peer id s Hs) as Hi.
  unfold implements, run_op, spec_op, msg_state in Hi.
  destruct (MarkDelivered s peer id) as [r s'].
  assert (Hfind : ∀ m, m ∈ msg_log s → m_ID m = id → find_id id (msg_log s) = Some m)
    by by intros m Hm Hid; apply find_id_Some.
  destruct (find_id id (msg_log s)) as [m|];
    [destruct (negb _ || _) eqn:Ec; [|destruct (m_Status m =s? _) eqn:Ed]|];
    cbn in Hi; destruct Hi as (_ & [= Hl _] & ?); (split_and!; [done|auto|]);
    intros m1 Hm1 Hid Ho Hf; specialize (Hfind m1 Hm1 Hid); try done; injection Hfind as ->.
  - rewrite Hf, (proj2 (eqs_true _ _) Ho) in Ec. done.
  - apply eqs_true in Ed. exists m1. by rewrite Hl.
  - exists (set_Status StatusDelivered m1). rewrite Hl, update_id_elem. split; [|done].
    exists m1. by rewrite decide_True.
Qed.
End store_ops.

#[export] Hint Extern 1 (harmless _) =>
  (unfold harmless; apply (bool_decide_unpack _); vm_compute; exact I) : steps.
#[export] Hint Extern 1 (Untouched _ _) => typeclasses eauto : steps.
#[export] Hint Resolve q_handleRoomReaction q_handleRoomMsg q_handleRoomAck q_handleRoomEvent
  q_handleFile q_handleChunk q_flushRoomMember q_CreateRoom q_SendRoomMessage q_AddRoomMember
  q_RemoveRoomMember q_LeaveRoom q_RenameRoom q_SendRoomReaction q_AcceptRoomInvite
  q_DeclineRoomInvite q_SendFile q_flushFile_prepare q_flushFile_send q_flushFile_answer q_DeleteFile q_runSession_start
  q_runSession_end q_ping q_dialDone q_dial_failed q_browse q_dial_tick q_SendReaction q_SendTyping
  q_SendReadReceipt q_Rename q_Subscribe q_Unsubscribe q_RetryNow : steps.

(** ** The handlers of messages *)

Section handlers.
Context {B : Type → Type} `{Bolt B} `{Primitives} `{UnicodeTables} `{Wire} `{DiskFaults}.
Context (In : Envelope → Prop) (S : string → Prop).
Implicit Types (n : Node B) (s : Store B) (e : Envelope) (m : Message).
Abbreviation gsteps := (steps (grow In S)).

(** A new log: where its messages come from. *)
Record log_step (l l' : list Message) : Prop := {
  ls_le : log_le l l';
  ls_outs : outs_in S l l';
  ls_in m' : m' ∈ l' → ¬ outbound m' →
    (∃ m, m ∈ l ∧ core m = core m') ∨ ∃ e, In e ∧ carries e m';
  ls_del m' : m' ∈ l' → outbound m' → delivered m' →
    (∃ m, m ∈ l ∧ core m = core m' ∧ delivered m) ∨ ∃ e, In e ∧ acks e m' }.

Lemma log_step_refl l : log_step l l.
Proof. split; [done|apply outs_in_refl|left; eauto|left; eauto]. Qed.

Lemma log_step_update id f l :
  core_update f →
  (∀ m, m ∈ l → m_ID m = id → delivered (f m) → delivered m ∨ ∃ e, In e ∧ acks e m) →
  log_step l (update_id id f l).
Proof.
  intros Hf Ha. split; [by apply update_id_le|by apply update_id_outs| |].
  - intros m' (m & Hm & ->)%update_id_elem _. left. exists m. split; [done|].
    case_decide; [by rewrite (proj1 (Hf m))|done].
  - intros m' (m & Hm & ->)%update_id_elem _ Hd. case_decide as Hi; [|left; eauto].
    destruct (Ha m Hm Hi Hd) as [|(e & He & Hack)].
    + left. exists m. by rewrite (proj1 (Hf m)).
    + right. exists e. split; [done|]. by eapply core_acks; [symmetry; apply Hf|].
Qed.

(** The store is replaced: the peers stay, the log takes a step. *)
Lemma grow_store n s' :
  msgs_inv s' → d_peers (s_db s') = d_peers (s_db (n_store n)) →
  log_step (log n) (msg_log s') → grow In S n (with_store s' n).
Proof.
  intros Hs Hp [Hl Ho Hin Hd] [G1 G2 G3 G4 G5 G6].
  change (log (with_store s' n)) with (msg_log s'). split_and!; [|done|done|by intros e].
  split; cbn [n_store with_store]; [done|done| | | |].
  - unfold names_are. by rewrite Hp.
  - intros e He. eapply backed_le; [exact Hl|]. by apply G4.
  - intros m' Hm' Hno. destruct (Hin m' Hm' Hno) as [(m & Hm & Hc)|]; [|done].
    destruct (G5 m Hm) as (e & He & Hca).
    { contradict Hno. by eapply core_outbound. }
    exists e. split; [done|]. by eapply core_carries.
  - intros m' Hm' Hout Hdel. destruct (Hd m' Hm' Hout Hdel) as [(m & Hm & Hc & Hdm)|]; [|done].
    destruct (G6 m Hm) as (e & He & Hca); [by eapply core_outbound|done|].
    exists e. split; [done|]. by eapply core_acks.
Qed.

(** Sending an envelope the log backs. *)
Lemma grow_send c e n :
  (is_ok (validate e) = true → backed (log n) e) → grow In S n (send c e n).2.
Proof.
  intros Hb. unfold send. destruct (validate e) as [u|] eqn:Ev; [|done].
  destruct (wire_error _ _ _); [done|]. cbn. intros [G1 G2 G3 G4 G5 G6].
  split_and!; [|done|apply outs_in_refl|].
  - split; try done. intros e' [c' He']. cbn in He'. apply elem_of_app in He' as [He'|He'].
    + apply G4. by exists c'.
    + apply list_elem_of_singleton in He' as [= _ ->]. by apply Hb.
  - intros e' [c' He']. exists c'. cbn. set_solver.
Qed.

Lemma gsteps_emit ev : gsteps (emit ev).
Proof. apply steps_quiet, q_emit. Qed.
Lemma gsteps_logf now f : gsteps (logf now f).
Proof. apply steps_quiet, q_logf. Qed.
Lemma gsteps_close c : gsteps (close c).
Proof. apply steps_quiet, q_close. Qed.
Lemma gsteps_spawn t : gsteps (spawn t).
Proof. apply steps_quiet, q_spawn. Qed.
Lemma gsteps_get : gsteps get.
Proof. apply steps_quiet, q_get. Qed.
Lemma gsteps_linkFor name : gsteps (linkFor name).
Proof. apply steps_quiet, q_linkFor. Qed.
Lemma gsteps_read_store {A} (f : Store B → A) : gsteps (read_store f).
Proof. apply steps_quiet, q_read_store. Qed.

Lemma gsteps_handleAck l e : In e → T e = TypeAck → gsteps (handleAck l e).
Proof.
  intros He Ht. apply steps_bind; [apply grow_preorder| |].
  - intros n Hg. pose proof (MarkDelivered_log (n_store n) (lk_peer l) (ID e) (g_msgs _ _ Hg)) as Hm.
    pose proof (MarkDelivered_frame d_peers (n_store n) (lk_peer l) (ID e)) as (_ & _ & Hp).
    revert Hg. unfold on_store. destruct (MarkDelivered _ _ _) as [r s']. cbn in Hp |- *.
    destruct Hm as (Hs' & Hl & _). apply grow_store; [done|done|].
    destruct Hl as [->| ->]; [apply log_step_refl|]. apply log_step_update; [done|].
    intros m Hm Hid _. right. by exists e.
  - intros mc. apply steps_bind; [apply grow_preorder| |intros ?; apply steps_ret, _].
    repeat case_match; first [apply gsteps_emit | apply steps_ret, _].
Qed.
Lemma bind_at {A A'} (m : M B A) (f : A → M B A') n :
  grow In S n (m n).2 → grow In S (m n).2 (f (m n).1 (m n).2).2 →
  grow In S n ((mbind f m) n).2.
Proof. unfold mbind, M_bind. destruct (m n) as [a n']. cbn. intros. by etrans. Qed.

Lemma bind_good {A A'} (m : M B A) (f : A → M B A') n :
  (Good In n → grow In S n (m n).2 ∧ grow In S (m n).2 (f (m n).1 (m n).2).2) →
  grow In S n ((mbind f m) n).2.
Proof. intros Hf Hg. destruct (Hf Hg) as [H1' H2']. by apply (bind_at m f n H1' H2'). Qed.

(** A received message: what the store answers. *)
Lemma on_store_AddMessage n m rnd :
  msgs_inv (n_store n) → name_ok (m_Peer m) → 0 < slen (m_ID m) <= 32768 → rnd_ok rnd →
  has_room (n_store n) →
  (outbound m → S (m_ID m) ∧ ¬ delivered m) →
  (¬ outbound m → ∃ e, In e ∧ carries e m) →
  let '(r, n') := on_store (λ s, AddMessage s m rnd) n in
  grow In S n n' ∧
  match r with
  | Err _ => True
  | Ok (_, true) => ∃ m0, m0 ∈ log n' ∧ m_ID m0 = m_ID m
  | Ok (m', false) => m' ∈ log n' ∧ core m' = core m
  end.
Proof.
  intros Hs Hp Hid Hr Hroom Hout Hin.
  pose proof (AddMessage_log (n_store n) m rnd Hs Hp Hid Hr Hroom) as Ha.
  pose proof (AddMessage_frame d_peers (n_store n) m rnd) as (_ & _ & Hpe).
  unfold on_store. destruct (AddMessage _ _ _) as [r s']. cbn in Hpe.
  destruct Ha as (Hs' & _ & Hl). destruct r as [[m' [|]]|err].
  - destruct Hl as (El & m0 & Hm0 & Hi). split.
    + apply grow_store; [done|done|]. rewrite El. apply log_step_refl.
    + exists m0. unfold log. cbn. by rewrite El.
  - destruct Hl as (q & -> & El & _). split.
    + apply grow_store; [done|done|]. rewrite El. split.
      * intros x Hx. exists x. split_and!; [set_solver|done|done].
      * intros x [Hx|Hx%list_elem_of_singleton]%elem_of_app Ho; [left; by exists x|].
        subst x. right. by apply Hout.
      * intros x [Hx|Hx%list_elem_of_singleton]%elem_of_app Ho; [left; by exists x|].
        subst x. right. by apply Hin.
      * intros x [Hx|Hx%list_elem_of_singleton]%elem_of_app Ho Hd; [left; by exists x|].
        subst x. by destruct (Hout Ho) as [_ []].
    + unfold log. cbn. rewrite El. split; [set_solver|done].
  - split; [|done]. apply grow_store; [done|done|]. rewrite (proj2 Hl). apply log_step_refl.
Qed.

Lemma grow_handleMsg now rnd c l e n :
  In e → T e = TypeMsg → is_ok (validate e) = true → name_ok (lk_peer l) → rnd_ok rnd →
  has_room (n_store n) → grow In S n (handleMsg now rnd c l e n).2.
Proof.
  intros He Ht Hv Hp Hr Hroom. unfold handleMsg.
  destruct (rate_step now (lk_msgCount l) (lk_rateStart l)) as [[count start] over].
  apply bind_at; [apply (steps_quiet In S (update_link c (set_rate count start))), q_update_link; done|].
  set (n1 := (update_link c (set_rate count start) n).2).
  assert (Hroom1 : has_room (n_store n1)) by done. clearbody n1. clear Hroom n.
  destruct over.
  { apply (steps_bind _ _ _ (gsteps_logf _ _)). intros _.
    apply (steps_bind _ _ _ (gsteps_close _)). intros _. apply steps_ret, _. }
  pose proof (validate_id e Ht Hv) as Hlen.
  set (m := mkMessage (ID e) (lk_peer l) DirIn (Body e) now StatusReceived 0 zero_time 0 (ReplyTo e)).
  assert (Hno : ¬ outbound m) by by intros ?.
  apply bind_good. intros Hg.
  pose proof (on_store_AddMessage n1 m rnd (g_msgs _ _ Hg) Hp ltac:(cbn; lia) Hr Hroom1
    ltac:(done) ltac:(by exists e)) as Ha.
  destruct (on_store (λ s, AddMessage s m rnd) n1) as [r n2]. destruct Ha as [Hg2 Ha].
  split; [exact Hg2|]. cbn [fst snd]. destruct r as [[m' dup]|err].
  - apply bind_at.
    + apply grow_send. intros Hok. split; [done|done|done|]. intros _. destruct dup.
      * destruct Ha as (m0 & Hm0 & Hi). by exists m0.
      * destruct Ha as [Hm' Hc]. exists m'. split; [done|]. split; [done|].
        by rewrite (core_id _ _ Hc).
    + destruct (send c (ack_envelope (ID e)) n2) as [[[]|err] n3]; cbn [fst snd]; [|done].
      apply (steps_bind _ _ _); [destruct dup; [apply steps_ret, _|apply gsteps_emit]|].
      intros _. apply steps_ret, _.
  - apply (steps_bind _ _ _ (gsteps_logf _ _)). intros _. apply steps_ret, _.
Qed.

(** A message that is still in the log may be sent again. *)
Definition in_log n m : Prop := outbound m ∧ ∃ m', m' ∈ log n ∧ core m' = core m.

Lemma in_log_grow n n' m : Good In n → grow In S n n' → in_log n m → in_log n' m.
Proof.
  intros Hg Hgr [Ho (m' & Hm' & Hc)]. destruct (Hgr Hg) as (_ & Hl & _).
  destruct (Hl m' Hm') as (m2 & Hm2 & Hc2 & _). split; [done|]. exists m2.
  split; [done|congruence].
Qed.

Lemma in_log_all n n' l :
  Good In n → grow In S n n' → Forall (in_log n) l → Forall (in_log n') l.
Proof. intros Hg Hgr Hf. eapply Forall_impl; [exact Hf|]. intros m. by apply in_log_grow. Qed.

Lemma grow_send_msg c m n : (Good In n → in_log n m) → grow In S n (send c (msg_envelope m) n).2.
Proof.
  intros Hm Hg. destruct (Hm Hg) as (Ho & m' & Hm' & Hc). refine (grow_send c _ n _ Hg).
  intros Hok. split; [done|done| |done]. intros _. exists m'. split_and!; [done| |].
  - by eapply core_outbound.
  - by eapply (core_carries _ m).
Qed.

Lemma gsteps_attempt id now : gsteps (on_store (λ s, RecordAttempt s id now)).
Proof.
  intros n Hg. pose proof (RecordAttempt_log (n_store n) id now (g_msgs _ _ Hg)) as Ha.
  pose proof (RecordAttempt_frame d_peers (n_store n) id now) as (_ & _ & Hpe).
  revert Hg. unfold on_store. destruct (RecordAttempt _ _ _) as [r s']. cbn in Hpe |- *.
  destruct Ha as (Hs' & Hl & _). apply grow_store; [done|done|].
  destruct Hl as [->| ->]; [apply log_step_refl|].
  apply log_step_update; [apply core_bump|]. auto.
Qed.

Lemma gsteps_failed now f c : gsteps (_ ← logf now f; close c).
Proof. apply (steps_bind _ _ _ (gsteps_logf _ _)). intros _. apply gsteps_close. Qed.

(** The loop of [flush]: every message it sends is in the log. *)
Lemma grow_flush_loop now rnd peer c force pend n :
  (Good In n → Forall (in_log n) pend) →
  grow In S n (flush_loop now rnd peer c force pend n).2.
Proof.
  revert n. induction pend as [|m pend IH]; intros n Hp; [done|]. cbn [flush_loop].
  apply bind_at; [done|]. cbn [fst snd get].
  destruct (negb force && not_yet _ _ _ _).
  { apply IH. intros Hg. by eapply Forall_inv_tail, Hp. }
  apply bind_good. intros Hg. pose proof (Hp Hg) as [Hm Hms]%Forall_cons.
  pose proof (gsteps_attempt (m_ID m) now n) as Hg1. split; [done|].
  apply (in_log_grow _ _ _ Hg Hg1) in Hm. apply (in_log_all _ _ _ Hg Hg1) in Hms.
  destruct (on_store _ n) as [[m2|err] n1]; cbn [fst snd] in *; [|by apply IH].
  apply bind_good. clear Hg Hg1. intros Hg.
  pose proof (grow_send_msg c m n1 (λ _, Hm)) as Hg1. split; [done|].
  apply (in_log_all _ _ _ Hg Hg1) in Hms.
  destruct (send c (msg_envelope m) n1) as [[[]|err] n2]; cbn [fst snd] in *; [|apply gsteps_failed].
  apply bind_good. clear Hg Hg1. intros Hg.
  pose proof (gsteps_emit (event_msg "status" peer m2) n2) as Hg1. split; [done|].
  apply (in_log_all _ _ _ Hg Hg1) in Hms. by apply IH.
Qed.

Lemma gsteps_flush now rnd peer force : gsteps (flush now rnd peer force).
Proof.
  apply steps_bind; [apply grow_preorder|apply gsteps_linkFor|].
  intros [[c l]|]; [|apply steps_ret, _].
  intros n. apply bind_at; [done|]. cbn [fst snd read_store].
  destruct (Pending (n_store n) peer) as [pend|err] eqn:Ep; [|apply gsteps_logf].
  apply grow_flush_loop. intros Hg. rewrite pending_log in Ep by apply Hg. injection Ep as <-.
  apply Forall_forall. intros m [Hu Hm]%list_elem_of_filter.
  apply andb_true_iff in Hu as [Hu _]. unfold undelivered in Hu.
  apply andb_true_iff in Hu as [Ho%eqs_true _]. split; [done|]. by exists m.
Qed.
(** *** Sending *)

Lemma pinned_named n peer p :
  peers_named (s_db (n_store n)) → (pinned peer n).1 = Ok p → name_ok (p_Name p).
Proof.
  intros Hn. change (pinned peer n).1 with (match GetPeer (n_store n) peer with
    | Err e => Err (if errors_is e ErrNotFound then Sentinel ErrUnknownPeer else e)
    | Ok p => if negb (p_PendingKey p =s? "") then Err (Sentinel ErrKeyChanged) else Ok p
    end).
  destruct (GetPeer (n_store n) peer) as [p0|] eqn:E; [|done].
  case_match; [done|]. intros [= <-]. by eapply GetPeer_named.
Qed.

Lemma NewID_length rng id r : NewID rng = Ok (id, r) → slen id = 32.
Proof.
  unfold NewID. intros ([b r'] & [_ Hb]%ReadFull_ok & [= <- _])%bind_ok; [|done].
  by rewrite hex_encode_length, Hb.
Qed.

Lemma grow_SendReply now rng rnd peer body replyTo n :
  rnd_ok rnd → has_room (n_store n) → (∀ id r, NewID rng = Ok (id, r) → S id) →
  grow In S n (SendReply now rng rnd peer body replyTo n).2.
Proof.
  intros Hr Hroom Hid. unfold SendReply. case_match; [done|]. unfold try_.
  apply bind_good. intros Hg. split; [apply steps_quiet, q_pinned|].
  change (pinned peer n).2 with n. pose proof (pinned_named n peer) as Hpn.
  destruct (pinned peer n).1 as [p|err]; [|done].
  destruct (NewID rng) as [[id r]|err] eqn:En; [|done].
  specialize (Hpn p (g_peers _ _ Hg) eq_refl). apply NewID_length in En as Hlen.
  set (m := mkMessage id (p_Name p) DirOut body now StatusQueued 0 zero_time 0 replyTo).
  pose proof (on_store_AddMessage n m rnd (g_msgs _ _ Hg) Hpn ltac:(cbn; lia) Hr Hroom) as Ha.
  apply bind_at.
  - destruct (on_store _ n) as [r' n']. apply Ha; [|by intros []].
    intros _. split; [by eapply Hid|by intros ?].
  - destruct (on_store _ n).1 as [[m' dup]|err]; [|apply steps_ret, _]. cbv zeta.
    apply (steps_bind _ _ _ (gsteps_emit _)). intros _.
    apply (steps_bind _ _ _ (gsteps_spawn _)). intros _. apply steps_ret, _.
Qed.

(** *** Peers *)

Lemma gsteps_peers {A} (f : Store B → result A * Store B) :
  (∀ s, same_part msgs_part s (f s).2) →
  (∀ s, peers_named (s_db s) → peers_named (s_db (f s).2)) →
  gsteps (on_store f).
Proof.
  intros Hs Hp n. unfold on_store. specialize (Hs (n_store n)). specialize (Hp (n_store n)).
  destruct (f (n_store n)) as [r s']. apply grow_same; [done|done|done|].
  exists []. by rewrite app_nil_r.
Qed.

Lemma gsteps_Observe name key now rnd :
  name_ok name → gsteps (on_store (λ s, Observe s name key now rnd)).
Proof.
  intros Hn. apply gsteps_peers; [intros s; eauto with frame typeclass_instances|].
  intros s Hs. by apply Observe_named.
Qed.

Lemma gsteps_SetVerified name v : gsteps (on_store (λ s, SetVerified s name v)).
Proof.
  apply gsteps_peers; [intros s; eauto with frame typeclass_instances|].
  intros s. apply SetVerified_named.
Qed.

Lemma gsteps_AcceptPendingKey name : gsteps (on_store (λ s, AcceptPendingKey s name)).
Proof.
  apply gsteps_peers; [intros s; eauto with frame typeclass_instances|].
  intros s. apply AcceptPendingKey_named.
Qed.
(** *** Sessions *)

Lemma gsteps_ret {A} (a : A) : gsteps (mret a).
Proof. apply steps_ret, _. Qed.

(** A step that only replaces sessions and the map of live ones. *)
Lemma gsteps_sessions (f : Node B → Node B) :
  (∀ n, n_store (f n) = n_store n ∧ n_out (f n) = n_out n) →
  (∀ n c l, (∀ c l, n_conns n !! c = Some l → name_ok (lk_peer l)) →
     n_conns (f n) !! c = Some l → name_ok (lk_peer l)) →
  gsteps (modify f).
Proof.
  intros Hf Hc n. destruct (Hf n) as [Es Eo]. apply grow_same; cbn [modify snd].
  - by rewrite Es.
  - by rewrite Es.
  - intros Hn c l. by apply Hc.
  - exists []. by rewrite app_nil_r.
Qed.

Lemma gsteps_set_link c l : name_ok (lk_peer l) → gsteps (set_link c l).
Proof.
  intros Hl. apply gsteps_sessions; [done|]. intros n c' l' Hn. cbn.
  rewrite lookup_insert. case_decide; [by intros [= <-]|apply Hn].
Qed.

Lemma gsteps_with_live f : gsteps (modify (λ n, with_live (f n) n)).
Proof. apply gsteps_sessions; [done|]. intros n c l Hn. apply Hn. Qed.

Lemma grow_establish now rnd c sc wantFP :
  (∀ h, sc = Ok h → name_ok (hs_Name h)) → gsteps (establish now rnd c sc wantFP).
Proof.
  intros Hsc. destruct sc as [h|err]; cbn [establish].
  2: { apply (steps_bind _ _ _ (gsteps_close _)). intros _.
       apply (steps_bind _ _ _ (gsteps_logf _ _)). intros _. apply gsteps_ret. }
  specialize (Hsc h eq_refl). apply (steps_bind _ _ _ gsteps_get). intros n0.
  case_match; [apply (steps_bind _ _ _ (gsteps_close _)); intros _; apply gsteps_ret|].
  case_match.
  { apply (steps_bind _ _ _ (gsteps_close _)). intros _.
    apply (steps_bind _ _ _ (gsteps_logf _ _)). intros _. apply gsteps_ret. }
  intros n. apply bind_good. intros Hg.
  pose proof (Observe_named name_ok (n_store n) (hs_Name h) (hs_Key h) now rnd (g_peers _ _ Hg) Hsc) as [_ Hp].
  split; [by apply gsteps_Observe|]. unfold on_store in *.
  destruct (Observe (n_store n) (hs_Name h) (hs_Key h) now rnd) as [[[p [|]]|err] s'];
    cbn [fst snd] in *; generalize (with_store s' n); clear n Hg;
    match goal with |- ∀ n, grow _ _ n (?m n).2 => change (gsteps m) end.
  - specialize (Hp p true eq_refl). apply (steps_bind _ _ _ gsteps_get). intros n1.
    apply steps_bind; [apply grow_preorder|case_match; [apply gsteps_close|apply gsteps_ret]|].
    intros _. apply steps_bind; [apply grow_preorder|by apply gsteps_set_link|]. intros _.
    apply (steps_bind _ _ _ (gsteps_with_live _)). intros _.
    apply (steps_bind _ _ _ (gsteps_logf _ _)). intros _.
    apply (steps_bind _ _ _ (gsteps_emit _)). intros _. apply gsteps_ret.
  - apply (steps_bind _ _ _ (gsteps_close _)). intros _.
    apply (steps_bind _ _ _ (gsteps_logf _ _)). intros _.
    apply (steps_bind _ _ _ (gsteps_emit _)). intros _. apply gsteps_ret.
  - apply (steps_bind _ _ _ (gsteps_close _)). intros _.
    apply (steps_bind _ _ _ (gsteps_logf _ _)). intros _. apply gsteps_ret.
Qed.

Lemma grow_true {A} (m : M B A) (b : bool) :
  gsteps m → gsteps (_ ← m; mret b).
Proof. intros Hm. apply (steps_bind _ _ _ Hm). intros _. apply gsteps_ret. Qed.

(** [readLoop]'s switch, on an envelope the other node sent. *)
Lemma grow_dispatch now rnd c l e n :
  In e → is_ok (validate e) = true → T e ≠ TypeDel ∧ T e ≠ TypeDelAll →
  name_ok (lk_peer l) → rnd_ok rnd → (T e = TypeMsg → has_room (n_store n)) →
  grow In S n (dispatch now rnd c l e n).2.
Proof.
  intros He Hv [Hd1 Hd2] Hp Hr Hroom. unfold dispatch.
  destruct (T e =s? TypePing); [done|].
  destruct (T e =s? TypeMsg) eqn:Em; [apply eqs_true in Em; apply grow_handleMsg; auto|].
  destruct (T e =s? TypeAck) eqn:Ea; [apply eqs_true in Ea; by apply gsteps_handleAck|].
  rewrite (proj2 (eqs_false _ _) Hd1), (proj2 (eqs_false _ _) Hd2). cbn [orb].
  revert n Hroom. intros n _. revert n.
  match goal with |- ∀ n, grow _ _ n (?m n).2 => change (gsteps m) end.
  apply steps_quiet. steps_tac.
Qed.
End handlers.

(** ** The pair of nodes *)

(** What a user, a timer or a peer can make a node do besides exchanging
    one-to-one messages.  (Deleting messages, forgetting a peer and pruning
    are left out: they are meant to lose messages.) *)
Inductive side_act :=
| ACreateRoom (now : Z) (rng : string) (rnd : option string) (name : string) (members : list string)
| ASendRoomMessage (now : Z) (rng : string) (rnd : option string) (room body : string)
| AAddRoomMember (now : Z) (rnd : option string) (room member : string)
| ARemoveRoomMember (now : Z) (rnd : option string) (room member : string)
| ALeaveRoom (now : Z) (rnd : option string) (room : string)
| ARenameRoom (now : Z) (rnd : option string) (room name : string)
| ASendRoomReaction (now : Z) (room id emoji : string)
| AAcceptRoomInvite (now : Z) (rnd : option string) (room : string)
| ADeclineRoomInvite (now : Z) (room : string)
| ASendFile (now : Z) (rng : string) (rnd : option string) (peer name data : string)
| APrepareFile (peer id : string)
| AFlushFile (now : Z) (peer : string) (p : nat * Link * File * string)
| AFlushFileAnswer (now : Z) (peer : string) (w : nat * File * string) (timeout : bool)
| ADeleteFile (id : string)
| APing (c : nat)
| ABrowse (now : Z) (p : DiscPeer) (up : bool)
| ADialTick (now : Z)
| ADialFailed (now : Z) (rnd : option string) (fp : string)
| ADialDone (now : Z) (rnd : option string) (fp : string) (ok : bool)
| ARename (now : Z) (announcer announce_error : bool) (name : string)
| ASendReaction (peer emoji id : string)
| ASendTyping (peer : string)
| ASendReadReceipt (peer id : string)
| ASubscribe
| AUnsubscribe (id : Z)
| ARetryNow (peer : string).

Inductive act :=
| ASend (now : Z) (rng : string) (rnd : option string) (peer body replyTo : string)
| AFlush (now : Z) (rnd : string → option string) (peer : string) (force : bool)
| ATick (now : Z) (rnd : string → option string)
| AReceive (now : Z) (rnd : option string) (c : nat) (e : Envelope)
| ABroken (now : Z) (c : nat) (err : error)
| AServe (now : Z) (rnd : option string) (c : nat) (sc : result Handshake)
| ADial (now : Z) (rnd : option string) (c : result nat) (sc : result Handshake) (fp : string)
| AVerify (name : string) (v : bool)
| AAcceptKey (name : string)
| ARestart
| ASide (a : side_act).

Section pair.
Context {B : Type → Type} `{Bolt B} `{Primitives} `{UnicodeTables} `{Wire} `{DiskFaults}.
Implicit Types (n : Node B) (e : Envelope) (m : Message).

Definition ignore {A} (m : M B A) : M B unit := _ ← m; mret tt.

Definition run_side (a : side_act) : M B unit :=
  match a with
  | ACreateRoom now rng rnd name members => ignore (CreateRoom_ now rng rnd name members)
  | ASendRoomMessage now rng rnd room body => ignore (SendRoomMessage now rng rnd room body)
  | AAddRoomMember now rnd room mb => ignore (AddRoomMember now rnd room mb)
  | ARemoveRoomMember now rnd room mb => ignore (RemoveRoomMember now rnd room mb)
  | ALeaveRoom now rnd room => ignore (LeaveRoom now rnd room)
  | ARenameRoom now rnd room name => ignore (RenameRoom now rnd room name)
  | ASendRoomReaction now room id emoji => ignore (SendRoomReaction now room id emoji)
  | AAcceptRoomInvite now rnd room => ignore (AcceptRoomInvite now rnd room)
  | ADeclineRoomInvite now room => ignore (DeclineRoomInvite now room)
  | ASendFile now rng rnd peer name data => ignore (SendFile now rng rnd peer name data)
  | APrepareFile peer id => ignore (flushFile_prepare peer id)
  | AFlushFile now peer p => ignore (flushFile_send now peer p)
  | AFlushFileAnswer now peer w t => flushFile_answer now peer w t
  | ADeleteFile id => ignore (DeleteFile_ id)
  | APing c => ping c
  | ABrowse now p up => browse now p up
  | ADialTick now => dial_tick now
  | ADialFailed now rnd fp => dial_failed now rnd fp
  | ADialDone now rnd fp ok => dialDone now rnd fp ok
  | ARename now an err name => ignore (Rename now an err name)
  | ASendReaction peer emoji id => ignore (SendReaction peer emoji id)
  | ASendTyping peer => ignore (SendTyping peer)
  | ASendReadReceipt peer id => ignore (SendReadReceipt peer id)
  | ASubscribe => ignore Subscribe
  | AUnsubscribe id => Unsubscribe id
  | ARetryNow peer => RetryNow peer
  end.

(** [Stop], then [New] and [Start] on the same database: what was in memory
    is gone.  (The trace is the history of what was sent.) *)
Definition restart n : Node B :=
  mkNode (n_store n) (n_cfg n) (n_id n) (n_myFP n) ∅ ∅ ∅ ∅ 0 [] false (n_out n).

Definition run_act (a : act) : M B unit :=
  match a with
  | ASend now rng rnd peer body replyTo => ignore (SendReply now rng rnd peer body replyTo)
  | AFlush now rnd peer force => flush now rnd peer force
  | ATick now rnd => outbox_tick now rnd
  | AReceive now rnd c e => session_turn now rnd c (Ok e)
  | ABroken now c err => session_turn now None c (Err err)
  | AServe now rnd c sc => ignore (serve now rnd c sc "")
  | ADial now rnd c sc fp => ignore (Dial now rnd c sc fp)
  | AVerify name v => ignore (Verify name v)
  | AAcceptKey name => ignore (AcceptKey name)
  | ARestart => modify restart
  | ASide a => run_side a
  end.

(** What the environment lets happen: a received envelope was sent by the
    other node (some time, on some session), a random identifier is not one
    the other node drew, random reads have their length, a handshake gives
    a display name of bounded length. *)
Definition allowed (a : act) (self other : Node B) : Prop :=
  match a with
  | ASend _ rng rnd _ _ _ =>
      rnd_ok rnd ∧ has_room (n_store self) ∧
      ∀ id r m, NewID rng = Ok (id, r) → m ∈ log other → outbound m → m_ID m ≠ id
  | AReceive _ rnd _ e => rnd_ok rnd ∧ (T e = TypeMsg → has_room (n_store self)) ∧ sent other e
  | AServe _ _ _ sc | ADial _ _ _ sc _ => ∀ h, sc = Ok h → name_ok (hs_Name h)
  | _ => True
  end.

(** A step of either node. *)
Inductive pair_step : Node B * Node B → Node B * Node B → Prop :=
| step_left a x y : allowed a x y → pair_step (x, y) ((run_act a x).2, y)
| step_right a x y : allowed a y x → pair_step (x, y) (x, (run_act a y).2).

(** A node that has no message yet. *)
Record fresh_node n : Prop := {
  fn_msgs : msgs_inv (n_store n);
  fn_peers : peers_named (s_db (n_store n));
  fn_log : log n = [];
  fn_conns : n_conns n = ∅;
  fn_out : n_out n = [] }.

Record pair_inv (x y : Node B) : Prop := {
  pi_left : Good (sent y) x;
  pi_right : Good (sent x) y;
  pi_ids m m' : m ∈ log x → m' ∈ log y → outbound m → outbound m' → m_ID m ≠ m_ID m' }.

(** ** The invariant *)

Definition new_id (a : act) (id : string) : Prop :=
  match a with ASend _ rng _ _ _ _ => ∃ r, NewID rng = Ok (id, r) | _ => False end.

Lemma side_quiet a : steps (quiet part harmless) (run_side a).
Proof.
  destruct a; cbn [run_side]; unfold ignore;
    try (apply steps_bind; [typeclasses eauto| |intros ?; apply steps_ret, _]);
    solve [eauto 2 with steps].
Qed.

Section acts.
Context (In : Envelope → Prop) (S : string → Prop).
Abbreviation gsteps := (steps (grow In S)).

Lemma gsteps_ignore {A} (m : M B A) : gsteps m → gsteps (ignore m).
Proof. intros Hm. apply (steps_bind _ _ _ Hm). intros _. apply gsteps_ret. Qed.

Lemma gsteps_tick now rnd : gsteps (outbox_tick now rnd).
Proof.
  apply (steps_bind _ _ _ (gsteps_get _ _)). intros n0. cbv zeta.
  apply steps_bind; [apply grow_preorder|apply steps_for_each; [apply grow_preorder|]|].
  { intros name. apply gsteps_flush. }
  intros _. apply steps_quiet. steps_tac.
Qed.

Lemma gsteps_serve now rnd c sc wantFP :
  (∀ h, sc = Ok h → name_ok (hs_Name h)) → gsteps (serve now rnd c sc wantFP).
Proof.
  intros Hh. apply steps_try; [apply grow_preorder|by apply grow_establish|].
  intros l. apply steps_quiet. steps_tac.
Qed.

Lemma gsteps_Dial now rnd c sc fp :
  (∀ h, sc = Ok h → name_ok (hs_Name h)) → gsteps (Dial now rnd c sc fp).
Proof.
  intros Hh. unfold Dial. destruct c as [c|err]; [|apply gsteps_ret].
  apply steps_bind; [apply grow_preorder|by apply grow_establish|].
  intros l. apply steps_quiet. steps_tac.
Qed.

Lemma gsteps_Verify name v : gsteps (Verify name v).
Proof.
  apply steps_try; [apply grow_preorder|apply gsteps_SetVerified|]. intros [].
  apply steps_quiet. steps_tac.
Qed.

Lemma gsteps_AcceptKey name : gsteps (AcceptKey name).
Proof.
  apply steps_try; [apply grow_preorder|apply gsteps_AcceptPendingKey|]. intros [].
  apply steps_quiet. steps_tac.
Qed.

Lemma gsteps_restart : gsteps (modify restart).
Proof. apply gsteps_sessions; [done|]. intros n c l _. cbn. by rewrite lookup_empty. Qed.

Lemma gsteps_end now c (go : bool) : gsteps (if go then mret tt else runSession_end now c).
Proof. destruct go; [apply gsteps_ret|]. apply steps_quiet. eauto 2 with steps. Qed.

Lemma grow_turn now rnd c e n :
  In e → is_ok (validate e) = true → T e ≠ TypeDel ∧ T e ≠ TypeDelAll →
  rnd_ok rnd → (T e = TypeMsg → has_room (n_store n)) →
  grow In S n (session_turn now rnd c (Ok e) n).2.
Proof.
  intros He Hv Hd Hr Hroom. apply bind_at; [|apply gsteps_end].
  cbn [read_turn]. apply bind_good. intros Hg. split; [done|]. cbn [fst snd link_at].
  destruct (n_conns n !! c) as [l|] eqn:El; [|done].
  apply grow_dispatch; try done. by eapply g_names.
Qed.
End acts.

Lemma act_grow a self other :
  allowed a self other → Good (sent self) other →
  grow (sent other) (new_id a) self (run_act a self).2.
Proof.
  intros Ha Ho. destruct a as [now rng rnd peer body rt| | |now rnd c e|now c err| | | | | |a];
    cbn [run_act allowed] in *.
  - destruct Ha as (Hr & Hroom & _). apply bind_at; [|done].
    apply grow_SendReply; [done|done|]. intros id r Hid. by exists r.
  - apply gsteps_flush.
  - apply gsteps_tick.
  - destruct Ha as (Hr & Hroom & He). destruct (g_sent _ _ Ho e He) as [Hv Hd _ _].
    by apply grow_turn.
  - apply bind_at; [done|apply gsteps_end].
  - by apply gsteps_ignore, gsteps_serve.
  - by apply gsteps_ignore, gsteps_Dial.
  - apply gsteps_ignore, gsteps_Verify.
  - apply gsteps_ignore, gsteps_AcceptKey.
  - apply gsteps_restart.
  - apply steps_quiet, side_quiet.
Qed.

Lemma Good_mono (In In' : Envelope → Prop) n :
  (∀ e, In e → In' e) → Good In n → Good In' n.
Proof.
  intros Hi [G1 G2 G3 G4 G5 G6]. split; [done..| |].
  - intros m Hm Ho. destruct (G5 m Hm Ho) as (e & ? & ?). eauto.
  - intros m Hm Ho Hd. destruct (G6 m Hm Ho Hd) as (e & ? & ?). eauto.
Qed.

Lemma pair_inv_sym x y : pair_inv x y → pair_inv y x.
Proof. intros [Hx Hy Hi]. split; [done|done|]. intros m m' ? ? ? ? E. by eapply (Hi m' m). Qed.

(** One step of one side: the invariant stays, nothing is lost. *)
Lemma act_inv a x y :
  pair_inv x y → allowed a x y →
  pair_inv (run_act a x).2 y ∧ log_le (log x) (log (run_act a x).2).
Proof.
  intros [Hx Hy Hi] Ha. pose proof (act_grow a x y Ha Hy Hx) as (Hg & Hl & Ho & Hs).
  split; [|done]. split; [done|by eapply Good_mono|].
  intros m m' Hm Hm' Hout Hout' E. destruct (Ho m Hm Hout) as [(m0 & Hm0 & Hc)|Hn].
  - apply (Hi m0 m' Hm0 Hm'); [by eapply core_outbound|done|]. by rewrite (core_id _ _ Hc).
  - destruct a; cbn in Hn; try done. destruct Hn as [r Hr]. destruct Ha as (_ & _ & Hf).
    by apply (Hf _ _ m' Hr).
Qed.

Lemma pair_step_inv p q :
  pair_inv p.1 p.2 → pair_step p q →
  pair_inv q.1 q.2 ∧ log_le (log p.1) (log q.1) ∧ log_le (log p.2) (log q.2).
Proof.
  intros Hp Hs. revert Hp. destruct Hs as [a x y Ha|a x y Ha]; cbn [fst snd]; intros Hp.
  - by destruct (act_inv a x y Hp Ha).
  - destruct (act_inv a y x (pair_inv_sym _ _ Hp) Ha) as [Hq Hl].
    split; [by apply pair_inv_sym|done].
Qed.

Lemma pair_steps_inv p q :
  pair_inv p.1 p.2 → rtc pair_step p q →
  pair_inv q.1 q.2 ∧ log_le (log p.1) (log q.1) ∧ log_le (log p.2) (log q.2).
Proof.
  intros Hp Hr. induction Hr as [p|p q r Hpq _ IH]; [done|].
  destruct (pair_step_inv p q Hp Hpq) as (Hq & Hl1 & Hl2).
  destruct (IH Hq) as (Hr & Hl3 & Hl4). split_and!; [done|by etrans..].
Qed.

Lemma fresh_Good In n : fresh_node n → Good In n.
Proof.
  intros [F1 F2 F3 F4 F5]. split; [done| |done| | |].
  - intros c l. by rewrite F4, lookup_empty.
  - intros e [c He]. rewrite F5 in He. by apply not_elem_of_nil in He.
  - intros m Hm. rewrite F3 in Hm. by apply not_elem_of_nil in Hm.
  - intros m Hm. rewrite F3 in Hm. by apply not_elem_of_nil in Hm.
Qed.

Lemma fresh_pair x y : fresh_node x → fresh_node y → pair_inv x y.
Proof.
  intros Hx Hy. split; [by apply fresh_Good..|]. intros m m' Hm. rewrite (fn_log _ Hx) in Hm.
  by apply not_elem_of_nil in Hm.
Qed.

(** What [y] received, [x] sent; what [x] shows as delivered, [y] has. *)
Definition delivery_correct (x y : Node B) : Prop :=
  (∀ m, m ∈ log y → ¬ outbound m → ∃ m', m' ∈ log x ∧ outbound m' ∧ same_text m m') ∧
  (∀ m, m ∈ log x → outbound m → delivered m →
     ∃ m', m' ∈ log y ∧ ¬ outbound m' ∧ same_text m m') ∧
  NoDup (m_ID <$> log y).

Lemma log_ids s : msgs_inv s → NoDup (m_ID <$> msg_log s).
Proof.
  intros Hs. apply NoDup_fmap_2_strong.
  - intros m m' Hm Hm'. by apply (log_id_inj s).
  - pose proof (msg_log_sorted s (inv_wf _ Hs)) as Hsrt. revert Hsrt.
    generalize (msg_log s). induction 1 as [|m l Hl IH Hall]; constructor; [|done].
    intros Hm. rewrite Forall_forall in Hall. apply Hall in Hm. unfold seq_lt in Hm. lia.
Qed.

Lemma pair_inv_delivery x y : pair_inv x y → delivery_correct x y.
Proof.
  intros [Hx Hy Hi].
  assert (Hsent : ∀ m, m ∈ log y → ¬ outbound m →
    ∃ m', m' ∈ log x ∧ outbound m' ∧ same_text m m').
  { intros m Hm Ho. destruct (g_in _ _ Hy m Hm Ho) as (e & He & Hc).
    destruct (bk_msg _ _ (g_sent _ _ Hx e He) (proj1 Hc)) as (m' & Hm' & Ho' & Hc').
    exists m'. split_and!; [done|done|]. by eapply carries_text. }
  split_and!; [done| |apply log_ids, Hy].
  intros m Hm Ho Hd. destruct (g_delivered _ _ Hx m Hm Ho Hd) as (e & He & Hack).
  destruct (bk_ack _ _ (g_sent _ _ Hy e He) (proj1 Hack)) as (m' & Hm' & Hack').
  assert (Eid : m_ID m = m_ID m') by (destruct Hack, Hack'; congruence).
  assert (Hno : ¬ outbound m') by (intros Ho'; by apply (Hi m m')).
  exists m'. split_and!; [done|done|].
  destruct (Hsent m' Hm' Hno) as (m2 & Hm2 & _ & (E1 & E2 & E3)).
  assert (m2 = m) as -> by (eapply (log_id_inj (n_store x)); try done; [apply Hx|congruence]).
  done.
Qed.
End pair.

(** ** Properties *)

Section properties.
Context {B : Type → Type} `{Bolt B} `{Primitives} `{UnicodeTables} `{Wire} `{DiskFaults}.

(** C1: exactly-once delivery.  Two fresh nodes run any of their handlers in
    any interleaving; the network loses, delays, reorders and repeats
    envelopes at will; sessions break, stores and wires fail, nodes
    restart.  In every reachable state and in both directions: each message
    a node received is one the other node sent, same identifier, text and
    quotation, and is stored once; and each message a sender shows as
    delivered is stored by the receiver with that text. *)
Theorem exactly_once_delivery (x0 y0 x y : Node B) :
  fresh_node x0 → fresh_node y0 → rtc pair_step (x0, y0) (x, y) →
  delivery_correct x y ∧ delivery_correct y x.
Proof.
  intros Hx Hy Hr. destruct (pair_steps_inv (x0, y0) (x, y) (fresh_pair _ _ Hx Hy) Hr) as [Hp _].
  split; [by apply pair_inv_delivery|by apply pair_inv_delivery, pair_inv_sym].
Qed.

(** C13: nothing is lost.  Between any two states of such a run, a message in
    the log of either node stays there with the same identifier, peer,
    direction, text, time and quotation, and once it shows as delivered it
    keeps doing so. *)
Theorem messages_never_lost (x0 y0 x1 y1 x2 y2 : Node B) :
  fresh_node x0 → fresh_node y0 → rtc pair_step (x0, y0) (x1, y1) →
  rtc pair_step (x1, y1) (x2, y2) →
  log_le (log x1) (log x2) ∧ log_le (log y1) (log y2).
Proof.
  intros Hx Hy H01 H12. destruct (pair_steps_inv (x0, y0) (x1, y1) (fresh_pair _ _ Hx Hy) H01) as [Hp _].
  by destruct (pair_steps_inv (x1, y1) (x2, y2) Hp H12) as (_ & ? & ?).
Qed.
End properties.

(** ** An execution *)

#[local] Existing Instance gmap_bolt.
#[local] Existing Instance toy_primitives.
#[local] Existing Instance ascii_tables.
#[local] Existing Instance good_wire.
#[local] Existing Instance no_faults.

Definition ex_cfg : Config := mkConfig 0 0 0 0 0.
Definition ex_alice : Node gbucket := New ex_empty ex_cfg (mkIdentity "Alice" "a" "AAAA").
Definition ex_bob : Node gbucket := New ex_empty ex_cfg (mkIdentity "Bob" "b" "BBBB").
Definition ex_nonce : option string := Some "nonce nonce ".
Definition ex_rng : string := "0123456789abcdef".

(** [true] is a step of the left node. *)
Definition run_pair {B} `{Bolt B} `{Primitives} `{UnicodeTables} `{Wire} `{DiskFaults}
    (l : list (bool * act)) (p : Node B * Node B) : Node B * Node B :=
  fold_left (λ p ba, if ba.1 : bool then ((run_act ba.2 p.1).2, p.2) else (p.1, (run_act ba.2 p.2).2)) l p.

(** Both nodes set up the session. *)
Definition ex_up : list (bool * act) :=
  [ (true, AServe 1000 ex_nonce 7 (Ok (mkHandshake "Bob" "BBBB" [])));
    (false, AServe 1000 ex_nonce 9 (Ok (mkHandshake "Alice" "AAAA" []))) ].

(** The envelopes a node sent. *)
Definition ex_sent (n : Node gbucket) : list Envelope :=
  omap (λ o, match o with OSend _ e => Some e | _ => None end) (n_out n).

Definition ex_state (l : list (bool * act)) := run_pair l (ex_alice, ex_bob).

(** Alice writes, the first copy is delivered twice, the first acknowledgement is lost. *)
Definition ex_send : list (bool * act) :=
  ex_up ++ [ (true, ASend 2000 ex_rng ex_nonce "bob" "hello" "");
             (true, AFlush 3000 (λ _, None) "Bob" true) ].
Definition ex_run : list (bool * act) :=
  ex_send ++
  match ex_sent (ex_state ex_send).1 with
  | e :: _ => [ (false, AReceive 4000 ex_nonce 9 e); (false, AReceive 5000 ex_nonce 9 e);
                (true, AReceive 6000 None 7 (ack_envelope (ID e))) ]
  | [] => []
  end.

Example ex_run_logs :
  (λ m, (m_ID m, m_Body m, m_Status m)) <$> log (ex_state ex_run).1
  = [(hex_encode ex_rng, "hello", StatusDelivered)] ∧
  (λ m, (m_ID m, m_Body m, m_Peer m)) <$> log (ex_state ex_run).2
  = [(hex_encode ex_rng, "hello", "Alice")].
Proof. split; by vm_compute. Qed.

Section runs.
Context {B : Type → Type} `{Bolt B} `{Primitives} `{UnicodeTables} `{Wire} `{DiskFaults}.

Fixpoint all_allowed (l : list (bool * act)) (p : Node B * Node B) : Prop :=
  match l with
  | [] => True
  | ba :: l =>
      (if ba.1 : bool then allowed ba.2 p.1 p.2 else allowed ba.2 p.2 p.1)
      ∧ all_allowed l (run_pair [ba] p)
  end.

Lemma run_pair_reach l p : all_allowed l p → rtc pair_step p (run_pair l p).
Proof.
  revert p. induction l as [|[[|] a] l IH]; intros [x y] Hl; [done|..].
  - destruct Hl as [Ha Hl]. eapply rtc_l; [apply (step_left a x y), Ha|]. exact (IH _ Hl).
  - destruct Hl as [Ha Hl]. eapply rtc_l; [apply (step_right a x y), Ha|]. exact (IH _ Hl).
Qed.
End runs.

Lemma ex_fresh id : fresh_node (New ex_empty ex_cfg id).
Proof.
  split; [apply msgs_inv_empty, ex_keys| |by vm_compute|done|done].
  intros k p Hg. change (bget (V := row Peer) bempty k = Some (json p)) in Hg.
  rewrite bget_empty in Hg. done.
Qed.

(** Discharges one condition of [allowed] on concrete nodes. *)
Ltac allowed_tac :=
  lazymatch goal with
  | |- rnd_ok _ => first [by intros ? [= <-] | by intros ? [=]]
  | |- sent _ _ => eexists; apply list_elem_of_In; vm_compute; tauto
  | |- ∀ id r m, NewID _ = _ → m ∈ ?l → _ =>
      let Hm := fresh in intros ? ? ? _ Hm; apply list_elem_of_In in Hm; vm_compute in Hm; by destruct Hm
  | Hh : Ok _ = Ok ?h |- no_nul (hs_Name ?h) =>
      injection Hh as <-; intros Hz; vm_compute in Hz; set_solver
  | Hh : Ok _ = Ok ?h |- _ => injection Hh as <-; by vm_compute
  | |- _ => by vm_compute
  end.

Lemma ex_run_allowed : all_allowed ex_run (ex_alice, ex_bob).
Proof.
  let l := eval vm_compute in ex_run in change ex_run with l.
  repeat split; cbn [fst snd allowed all_allowed]; allowed_tac.
Qed.

Lemma exactly_once_delivery_witness :
  length (log (ex_state ex_run).2) = 1%nat ∧
  delivery_correct (ex_state ex_run).1 (ex_state ex_run).2.
Proof.
  split; [by vm_compute|].
  apply (exactly_once_delivery ex_alice ex_bob (ex_state ex_run).1 (ex_state ex_run).2
    (ex_fresh _) (ex_fresh _)).
  rewrite <- surjective_pairing. apply run_pair_reach, ex_run_allowed.
Defined.

Lemma ex_up_allowed : all_allowed ex_up (ex_alice, ex_bob).
Proof. repeat split; cbn [fst snd allowed all_allowed]; allowed_tac. Qed.

Lemma messages_never_lost_witness :
  log_le (log (ex_state ex_run).1) (log (run_pair [(true, ARestart)] (ex_state ex_run)).1).
Proof.
  apply (messages_never_lost ex_alice ex_bob (ex_state ex_run).1 (ex_state ex_run).2
    (run_pair [(true, ARestart)] (ex_state ex_run)).1
    (run_pair [(true, ARestart)] (ex_state ex_run)).2 (ex_fresh _) (ex_fresh _)).
  - rewrite <- surjective_pairing. apply run_pair_reach, ex_run_allowed.
  - rewrite <- !surjective_pairing. apply run_pair_reach. by repeat split.
Defined.
