(* ===== verification/LiveKeys.v ===== *)
(** * Whom a session is with (node.go, views.go, link.go)

    A node answers for the other end of a session by the name of a peer.
    Beside the node the key each connection was authenticated with is kept;
    [secure] says that the open sessions are with the keys pinned under the
    names of their peers.  Every handler of the node keeps that, but for two
    on a peer whose session is open: accepting its changed key, and forgetting
    it by its name with spaces around. *)

From S2P Require Import Prelude GoStrings Utf8 Proto Sha256 Identity Base64 Crypto Bolt.
From S2P Require Import StoreData StoreCore StoreMessages MessageLog StorePeers StoreFiles.
From S2P Require Import StoreRooms StoreFrame Backoff NodeState NodeRooms NodeCore NodeLink.
From S2P Require Import PeerPins NodeFrame Delivery.

Section sessions.
Context {B : Type → Type} `{Bolt B} `{Primitives} `{UnicodeTables} `{Wire} `{DiskFaults}.
Implicit Types (n : Node B) (s : Store B) (keys : gmap nat string).

Definition trimmed (p : string) : Prop := TrimSpace p = p.

Definition closed n (c : nat) : Prop := OClose c ∈ n_out n.

Definition pinned_to s (p k : string) : Prop := ∃ pin, pin_table s (peerKey p) = Some pin ∧ pin_key pin = k.

(** [c] is an open session, the live one of the peer [p]. *)
Definition open_session n (c : nat) (p : string) : Prop :=
  n_live n !! ToLower p = Some c ∧ conn_names n !! c = Some p ∧ ¬ closed n c.

Record secure n keys : Prop := {
  sc_rows : rows_ok (n_store n);
  sc_names : names_are trimmed (s_db (n_store n));
  sc_live name c : n_live n !! name = Some c → ∃ p, conn_names n !! c = Some p ∧ ToLower p = name ∧ trimmed p;
  sc_keys c p : open_session n c p → ∃ k, keys !! c = Some k ∧ pinned_to (n_store n) p k }.

(** ** Handlers that have nothing to do with peers *)

Abbreviation psteps := (steps (quiet d_peers (λ _, True))).

Lemma part_decrypt s s' data : same_part d_peers s s' → decrypt s' data = decrypt s data.
Proof. intros (Ek & Ei & _). unfold decrypt. by rewrite Ek, Ei. Qed.

Lemma part_rows s s' : same_part d_peers s s' → rows_ok s → rows_ok s'.
Proof.
  intros Hp [(K1 & K2 & K3) Hr]. pose proof Hp as (Ek & Ei & Ed). split.
  - unfold keys_ok. by rewrite Ek, Ei.
  - intros k r. rewrite Ed. intros Hg. apply Hr in Hg as (p & key & pend & Hg). exists p, key, pend.
    by rewrite !(part_decrypt _ _ _ Hp).
Qed.

Lemma part_pins s s' k : same_part d_peers s s' → pin_table s' k = pin_table s k.
Proof.
  intros Hp. pose proof Hp as (_ & _ & Ed). unfold pin_table. rewrite Ed.
  destruct (bget (d_peers (s_db s)) k) as [[p|]|]; [|done..].
  cbn. by rewrite !(part_decrypt _ _ _ Hp).
Qed.

(** What keeps a state secure: no new live session, no session opened again,
    and the pins of the open ones. *)
Lemma secure_step n n' keys :
  secure n keys → rows_ok (n_store n') → names_are trimmed (s_db (n_store n')) →
  conn_names n' = conn_names n → n_live n' ⊆ n_live n → (∃ o, n_out n' = n_out n ++ o) →
  (∀ c p k, open_session n' c p → pinned_to (n_store n) p k → pinned_to (n_store n') p k) →
  secure n' keys.
Proof.
  intros [_ _ Hl Hk] Hr Hn Hc Hs [o Ho] Hp. split; [done|done| |].
  - intros name c Hin. rewrite Hc. apply Hl. by eapply lookup_weaken.
  - intros c p Hop. destruct Hop as (Hin & Hcn & Hop). destruct (Hk c p) as (k & Hkk & Hpk).
    + split_and!; [by eapply lookup_weaken|by rewrite <- Hc|].
      contradict Hop. unfold closed. rewrite Ho. set_solver.
    + exists k. split; [done|]. by apply (Hp c).
Qed.

Lemma secure_quiet n n' keys : quiet d_peers (λ _, True) n n' → secure n keys → secure n' keys.
Proof.
  intros [Hs Hc (o & Ho & _) Hl] Hi. eapply secure_step; [done| | |done|done|by exists o|].
  - by eapply part_rows, Hi.
  - destruct Hs as (_ & _ & Ed). intros k p. rewrite Ed. apply Hi.
  - intros c p k _ (pin & Ht & Hk). exists pin. by rewrite (part_pins _ _ _ Hs).
Qed.

Lemma secure_psteps {A} (m : M B A) n keys : psteps m → secure n keys → secure (m n).2 keys.
Proof. intros Hm. apply secure_quiet, Hm. Qed.

(** ** Peers *)

Lemma Observe_name s name key now rnd p b s' :
  rows_ok s → Observe s name key now rnd = (Ok (p, b), s') → peerKey (p_Name p) = peerKey name.
Proof.
  intros Hs. unfold Observe. destruct (encrypt s key rnd) as [enc|]; [|done].
  unfold Update, run_update. destruct (observe_tx s name key enc now (s_db s)) as [[[q b'] d]|] eqn:E; [|done].
  intros [= -> _ _]. revert E. unfold observe_tx.
  destruct (getPeer_spec s name Hs) as [[_ ->]|(p0 & k0 & pend & -> & Hn & _)].
  - case_match; [|done]. unfold mbind, tx_bind. case_match; [|done]. case_match. by intros [= <- _ _].
  - destruct (decrypt s (p_Key p0)) as [sk|]; [|done].
    destruct (sk =s? key); unfold mbind, tx_bind; case_match; try done; case_match; by intros [= <- _ _].
Qed.

(** What a handshake does to the table: pinned keys stay, and a peer taken is
    pinned to the key it came with. *)
Lemma Observe_secure s name key now rnd :
  rows_ok s → names_are trimmed (s_db s) → trimmed name → peer_args_ok (PObserve name key now rnd) s →
  ∃ p b s', Observe s name key now rnd = (Ok (p, b), s') ∧ rows_ok s' ∧ names_are trimmed (s_db s') ∧
    trimmed (p_Name p) ∧ (∀ q k, pinned_to s q k → pinned_to s' q k) ∧ (b = true → pinned_to s' (p_Name p) key).
Proof.
  intros Hs Hn Ht Ha. pose proof (observe_implements name key now rnd s Hs Ha) as Hi.
  destruct (Observe_named trimmed s name key now rnd Hn Ht) as [Hn' Hp].
  unfold peer_implements, run_peer in Hi.
  destruct (Observe s name key now rnd) as [r s'] eqn:E. cbn [fst snd] in *.
  destruct Hi as (Hr & Hpt & Hrows & _ & _). cbn [spec_peer] in Hr, Hpt.
  destruct r as [[p b]|e]; [|by repeat case_match]. cbn [mbind result_bind snd] in Hr.
  pose proof (Observe_name _ _ _ _ _ _ _ _ Hs E) as Hpk.
  exists p, b, s'. split_and!; [done|done|done|by eapply Hp| |].
  - intros q k (pin & Hq & Hk). unfold pinned_to. rewrite Hpt.
    destruct (pin_table s (peerKey name)) as [pin0|] eqn:E0; [case_match|]; cbn [snd]; unfold set_pin; case_decide as Hd;
      eauto; rewrite <- Hd, E0 in Hq; simplify_eq; by eexists.
  - intros ->. unfold pinned_to. rewrite Hpt, Hpk.
    destruct (pin_table s (peerKey name)) as [pin0|]; [destruct (pin_key pin0 =s? key) eqn:Ek|];
      cbn [fst snd] in *; [| |]; unfold set_pin; rewrite ?decide_True by done; [|done|].
    + apply eqs_true in Ek. by eexists.
    + by eexists.
Qed.

(** ** Handlers *)

Lemma q_establish_rest {A} now (p : string) (a : A) :
  psteps (_ ← logf now "session up with %q (%s…) from %s"; _ ← emit (event "peers" p); mret a : M B A).
Proof. steps_tac. Qed.

(** A new session, on a connection not used before. *)
Lemma secure_new_session n keys c l :
  secure n keys → n_conns n !! c = None → trimmed (lk_peer l) →
  (∃ k, keys !! c = Some k ∧ pinned_to (n_store n) (lk_peer l) k) →
  secure (with_live (<[ToLower (lk_peer l) := c]> (n_live n)) (with_conns (<[c := l]> (n_conns n)) n)) keys.
Proof.
  intros [Hr Hn Hl Hk] Hc Ht Hp.
  assert (Hnew : ∀ c', conn_names (with_live (<[ToLower (lk_peer l) := c]> (n_live n))
      (with_conns (<[c := l]> (n_conns n)) n)) !! c' = if decide (c = c') then Some (lk_peer l) else conn_names n !! c').
  { intros c'. unfold conn_names. cbn. rewrite !lookup_fmap, lookup_insert. by case_decide. }
  assert (Hfresh : ∀ name, n_live n !! name ≠ Some c).
  { intros name Hin. apply Hl in Hin as (p & Hin & _). unfold conn_names in Hin. by rewrite lookup_fmap, Hc in Hin. }
  split; [done|done| |].
  - intros name c'. cbn [n_live with_live]. rewrite Hnew, lookup_insert. case_decide as Hd.
    + intros [= <-]. rewrite decide_True by done. by exists (lk_peer l).
    + intros Hin. rewrite decide_False; [by apply Hl|]. intros <-. by apply Hfresh in Hin.
  - intros c' p (Hin & Hcn & Hop). rewrite Hnew in Hcn. cbn [n_live with_live] in Hin.
    case_decide as Hd; [by simplify_eq|]. apply (Hk c' p). split_and!; [|done|done].
    rewrite lookup_insert in Hin. case_decide; [by simplify_eq|done].
Qed.

Lemma secure_keys n keys c k : secure n keys → n_conns n !! c = None → secure n (<[c := k]> keys).
Proof.
  intros [Hr Hn Hl Hk] Hc. split; [done..|]. intros c' p Hop. rewrite lookup_insert_ne; [by apply Hk|].
  intros <-. destruct Hop as (_ & Hcn & _). unfold conn_names in Hcn. by rewrite lookup_fmap, Hc in Hcn.
Qed.

Definition handshake_ok n now rnd (sc : result Handshake) : Prop :=
  ∀ h, sc = Ok h → trimmed (hs_Name h) ∧ peer_args_ok (PObserve (hs_Name h) (hs_Key h) now rnd) (n_store n).

Definition keys_after (c : nat) (sc : result Handshake) keys : gmap nat string :=
  match sc with Ok h => <[c := hs_Key h]> keys | Err _ => keys end.

Lemma secure_out n keys o : secure n keys → secure (with_out o n) keys.
Proof.
  intros Hs. eapply secure_step; [exact Hs|apply Hs|apply Hs|done|done|by exists [o]|done].
Qed.

Lemma secure_establish n keys now rnd c sc wantFP :
  secure n keys → n_conns n !! c = None → handshake_ok n now rnd sc →
  secure (establish now rnd c sc wantFP n).2 (keys_after c sc keys).
Proof.
  intros Hs Hc Hok. destruct sc as [h|e]; cbn [keys_after].
  2: { apply secure_psteps; [|exact Hs]. cbn [establish]. steps_tac. }
  specialize (Hok h eq_refl) as [Ht Ha]. pose proof (secure_keys _ _ c (hs_Key h) Hs Hc) as Hs1.
  cbn [establish]. unfold mbind at 1, M_bind at 1, get at 1.
  destruct (hs_Key h =s? _); [apply secure_psteps; [steps_tac|exact Hs1]|].
  destruct (negb _ && negb _); [apply secure_psteps; [steps_tac|exact Hs1]|].
  destruct (Observe_secure (n_store n) (hs_Name h) (hs_Key h) now rnd (sc_rows _ _ Hs) (sc_names _ _ Hs) Ht Ha)
    as (p & b & s' & E & Hr & Hn & Hp & Hkeep & Hb).
  unfold mbind at 1, M_bind at 1, on_store at 1. rewrite E.
  assert (Hs2 : secure (with_store s' n) (<[c := hs_Key h]> keys)).
  { eapply secure_step; [exact Hs1|done|done|done|done|by exists []; rewrite app_nil_r|]. intros c' q k _. apply Hkeep. }
  destruct b; [|apply secure_psteps; [steps_tac|exact Hs2]].
  unfold mbind at 1, M_bind at 1, get at 1.
  set (l := newLink (p_Name p) (hs_Caps h) now).
  assert (Hend : ∀ n1, secure n1 (<[c := hs_Key h]> keys) → n_conns n1 = n_conns n → n_store n1 = s' →
    secure ((_ ← logf now "session up with %q (%s…) from %s"; _ ← emit (event "peers" (p_Name p)); mret (Ok l))
      (with_live (<[ToLower (lk_peer l) := c]> (n_live n1)) (with_conns (<[c := l]> (n_conns n1)) n1))).2
      (<[c := hs_Key h]> keys)).
  { intros n1 Hn1 Ec Es. apply (secure_psteps _ _ _ (q_establish_rest _ _ _)), secure_new_session; [done|by rewrite Ec|done|].
    exists (hs_Key h). rewrite lookup_insert_eq, Es. split; [done|]. by apply Hb. }
  destruct (n_live (with_store s' n) !! ToLower (p_Name p)) as [old|].
  - by apply (Hend (with_out (OClose old) (with_store s' n))); [apply secure_out|..].
  - by apply (Hend (with_store s' n)).
Qed.

(** An operation on the peers, and what follows it. *)
Lemma secure_on_store {A A'} (f : Store B → result A * Store B) (g : A → M B (result A')) n keys :
  (∀ x, psteps (g x)) → secure n keys →
  rows_ok (f (n_store n)).2 → names_are trimmed (s_db (f (n_store n)).2) →
  (∀ c p k, open_session n c p → pinned_to (n_store n) p k → pinned_to (f (n_store n)).2 p k) →
  secure (try_ (on_store f) g n).2 keys.
Proof.
  intros Hg Hs Hr Hn Hp. unfold try_, mbind, M_bind, on_store. destruct (f (n_store n)) as [r s']. cbn [snd] in *.
  assert (Hs' : secure (with_store s' n) keys).
  { eapply secure_step; [exact Hs|done|done|done|done|by exists []; rewrite app_nil_r|done]. }
  destruct r as [x|e]; [by apply secure_psteps|done].
Qed.

Lemma secure_Verify n keys name v : secure n keys → secure (Verify name v n).2 keys.
Proof.
  intros Hs. pose proof (verify_implements name v _ (sc_rows _ _ Hs)) as Hi.
  unfold peer_implements, run_peer in Hi. apply secure_on_store; [intros []; steps_tac|done|..].
  - destruct (SetVerified _ _ _). by destruct Hi as (_ & _ & Hi & _).
  - apply SetVerified_named, Hs.
  - intros c p k _ (pin & Hq & Hk). destruct (SetVerified _ _ _) as [r s']. cbn [snd].
    destruct Hi as (_ & Hi & _). unfold pinned_to. rewrite Hi. cbn [spec_peer].
    destruct (pin_table (n_store n) (peerKey name)) as [pin0|] eqn:E0; cbn [snd]; [|eauto].
    unfold set_pin. case_decide as Hd; [|eauto]. rewrite <- Hd, E0 in Hq. simplify_eq. by eexists.
Qed.

(** The one handler that can leave an open session with another key than the
    pinned one. *)
Lemma secure_AcceptKey n keys name :
  secure n keys → (∀ c p, open_session n c p → peerKey p ≠ peerKey name) →
  secure (AcceptKey name n).2 keys.
Proof.
  intros Hs Ho. pose proof (accept_implements name _ (sc_rows _ _ Hs)) as Hi.
  unfold peer_implements, run_peer in Hi. apply secure_on_store; [intros []; steps_tac|done|..].
  - destruct (AcceptPendingKey _ _). by destruct Hi as (_ & _ & Hi & _).
  - apply AcceptPendingKey_named, Hs.
  - intros c p k Hop (pin & Hq & Hk). specialize (Ho c p Hop).
    destruct (AcceptPendingKey _ _) as [r s']. cbn [snd].
    destruct Hi as (_ & Hi & _). exists pin. split; [|done]. rewrite Hi. cbn [spec_peer].
    repeat case_match; cbn [snd]; unfold set_pin; by rewrite ?decide_False.
Qed.

Lemma ForgetPeer_rows s name :
  rows_ok s → names_are trimmed (s_db s) →
  rows_ok (ForgetPeer s name).2 ∧ names_are trimmed (s_db (ForgetPeer s name).2) ∧
  ∀ q k, peerKey q ≠ peerKey name → pinned_to s q k → pinned_to (ForgetPeer s name).2 q k.
Proof.
  intros [Hk Hr] Hn. unfold ForgetPeer, Update, run_update. 
  match goal with |- context [match ?f (s_db s) with _ => _ end] => destruct (f (s_db s)) as [[u d]|] eqn:E end;
    [|by split_and!].
  assert (Hd : ∀ k, bget (d_peers d) k = if decide (peerKey name = k) then None else bget (d_peers (s_db s)) k).
  { revert E. unfold mbind, tx_bind. destruct (getPeer name (s_db s)) as [[p0 d0]|] eqn:Eg; [|done].
    apply (getPeer_named trimmed) in Eg as [_ ->]; [|done].
    destruct (deleteMessages _ _) as [[ms d1]|] eqn:Ed; [|done]. intros [= _ <-] k.
    apply (deleteMessages_keeps d_peers) in Ed. cbn. by rewrite bget_del, Ed. }
  split_and!.
  - split; [done|]. intros k r. cbn. rewrite Hd. case_decide; [done|apply Hr].
  - intros k p. cbn. rewrite Hd. case_decide; [done|apply Hn].
  - intros q k Hq (pin & Ht & Hk'). exists pin. split; [|done]. unfold pin_table. cbn [s_db with_db].
    rewrite Hd, decide_False by done. exact Ht.
Qed.

(** Whatever open session the store counts as [name]'s, the node finds by [name]:
    the one trims what the interface passes, the other does not. *)
Definition found_by n name : Prop :=
  ∀ c p, open_session n c p → peerKey p = peerKey name → ToLower p = ToLower name.

(** Which holds of every trimmed name. *)
Lemma trimmed_found n keys name : secure n keys → trimmed name → found_by n name.
Proof.
  intros Hs Ht c p (Hin & Hc & _). destruct (sc_live _ _ Hs _ _ Hin) as (p' & Hc' & _ & Hp').
  assert (p' = p) as -> by congruence. unfold peerKey. by rewrite Hp', Ht.
Qed.

(** Forgetting a peer closes the session found by its name first. *)
Lemma secure_Forget n keys name : secure n keys → found_by n name → secure (Forget name n).2 keys.
Proof.
  intros Hs Hf. unfold Forget. unfold mbind at 1, M_bind at 1, linkFor at 1.
  destruct (ForgetPeer_rows (n_store n) name (sc_rows _ _ Hs) (sc_names _ _ Hs)) as (Hr & Hn & Hp).
  destruct (c ← n_live n !! ToLower name; l ← n_conns n !! c; Some (c, l)) as [[c l]|] eqn:El.
  - assert (Hc : n_live n !! ToLower name = Some c).
    { destruct (n_live n !! ToLower name) as [c'|]; [|done]. cbn in El. destruct (n_conns n !! c'); by simplify_eq/=. }
    pose proof (secure_out n keys (OClose c) Hs) as Hs1.
    change (secure (try_ (on_store (λ s, ForgetPeer s name)) (λ _, _ ← emit (event "peers" name); mret (Ok tt))
      (with_out (OClose c) n)).2 keys).
    apply secure_on_store; [intros []; steps_tac|done|done|done|].
    intros c' p k (Hin & Hcn & Hcl) Hpk. apply Hp; [|done]. intros Hpn.
    assert (Hcl' : ¬ closed n c') by (contradict Hcl; unfold closed in *; cbn; set_solver).
    specialize (Hf c' p (conj Hin (conj Hcn Hcl')) Hpn). rewrite Hf in Hin. cbn in Hin. rewrite Hc in Hin.
    simplify_eq. apply Hcl. unfold closed. cbn. set_solver.
  - change (secure (try_ (on_store (λ s, ForgetPeer s name)) (λ _, _ ← emit (event "peers" name); mret (Ok tt)) n).2 keys).
    apply secure_on_store; [intros []; steps_tac|done|done|done|].
    intros c' p k Hop Hpk. apply Hp; [|done]. intros Hpn. pose proof (Hf c' p Hop Hpn) as Hl.
    destruct Hop as (Hin & Hcn & _). rewrite Hl in Hin. rewrite Hin in El. cbn in El.
    unfold conn_names in Hcn. rewrite lookup_fmap in Hcn. by destruct (n_conns n !! c').
Qed.

(** ** Runs *)

Lemma psteps_turn now rnd c rcv : psteps (session_turn now rnd c rcv).
Proof.
  unfold session_turn. apply steps_bind; [typeclasses eauto| |intros go].
  - destruct rcv as [e|]; cbn [read_turn]; [|apply steps_ret, _].
    pose proof (q_handleMsg d_peers (λ _, True)). pose proof (q_handleAck d_peers (λ _, True)).
    pose proof (q_handleDel d_peers (λ _, True)).
    unfold dispatch. steps_tac.
  - steps_tac.
Qed.

Lemma psteps_tick now rnd : psteps (outbox_tick now rnd).
Proof. pose proof (q_flush d_peers (λ _, True)). unfold outbox_tick. steps_tac. Qed.

Lemma psteps_side a : psteps (run_side a).
Proof.
  destruct a; cbn [run_side]; unfold ignore;
    try (apply steps_bind; [typeclasses eauto| |intros ?; apply steps_ret, _]); solve [eauto 2 with steps].
Qed.

(** What the environment gives an action: a connection not used before, a
    handshake that [session.finish] let through; and the two exceptions:
    accepting a key is for a peer without an open session, and a name to
    forget is one that finds the open session it stands for. *)
Definition fits n (a : act) : Prop :=
  match a with
  | AServe now rnd c sc | ADial now rnd (Ok c) sc _ => n_conns n !! c = None ∧ handshake_ok n now rnd sc
  | AAcceptKey name => ∀ c p, open_session n c p → peerKey p ≠ peerKey name
  | _ => True
  end.

Definition keys_of (a : act) keys : gmap nat string :=
  match a with
  | AServe _ _ c sc | ADial _ _ (Ok c) sc _ => keys_after c sc keys
  | _ => keys
  end.

Inductive live_step : Node B * gmap nat string → Node B * gmap nat string → Prop :=
| live_act a n keys : fits n a → live_step (n, keys) ((run_act a n).2, keys_of a keys)
| live_forget name n keys : found_by n name → live_step (n, keys) ((Forget name n).2, keys).

Lemma secure_act a n keys : fits n a → secure n keys → secure (run_act a n).2 (keys_of a keys).
Proof.
  intros Hf Hs. destruct a as [|now rnd peer force| | | |now rnd c sc|now rnd [c|e] sc fp|name v|name| |a];
    cbn [run_act keys_of fits] in *; unfold ignore.
  - apply secure_psteps; [|done]. pose proof (q_SendReply d_peers (λ _, True)). steps_tac.
  - apply secure_psteps; [|done]. by apply q_flush.
  - apply secure_psteps; [apply psteps_tick|done].
  - apply secure_psteps; [apply psteps_turn|done].
  - apply secure_psteps; [apply psteps_turn|done].
  - destruct Hf as [Hc Hok]. pose proof (secure_establish n keys now rnd c sc "" Hs Hc Hok) as He.
    unfold serve, try_, mbind, M_bind. destruct (establish now rnd c sc "" n) as [[l|e] n1]; cbn [snd] in *; [|done].
    by apply (secure_psteps (runSession_start c l)); [steps_tac|].
  - destruct Hf as [Hc Hok]. pose proof (secure_establish n keys now rnd c sc fp Hs Hc Hok) as He.
    unfold Dial, mbind, M_bind. destruct (establish now rnd c sc fp n) as [[l|e] n1]; cbn [snd] in *; [|done].
    by apply secure_out.
  - done.
  - pose proof (secure_Verify n keys name v Hs). unfold mbind, M_bind. by destruct (Verify name v n).
  - pose proof (secure_AcceptKey n keys name Hs Hf). unfold mbind, M_bind. by destruct (AcceptKey name n).
  - destruct Hs as [Hr Hn _ _]. split; [done|done| |]; cbn.
    + intros name c. by rewrite lookup_empty.
    + intros c p (Hin & _). cbn in Hin. by rewrite lookup_empty in Hin.
  - apply secure_psteps; [apply psteps_side|done].
Qed.

Lemma secure_run x y : rtc live_step x y → secure x.1 x.2 → secure y.1 y.2.
Proof.
  induction 1 as [x|x y z Hxy _ IH]; [done|]. intros Hs. apply IH.
  destruct Hxy; cbn [fst snd] in *; [by apply secure_act|by apply secure_Forget].
Qed.

(** C9: an open session is with the pinned key.  From a node without sessions
    over a well-formed table of peers, whatever its handlers do in any order
    (handshakes that come in or are dialed, with any names and keys,
    verification, forgetting, every message, room, file and timer handler,
    restarts), the live session of a peer, until it is closed, is the one
    whose handshake proved the key now pinned under that peer's name; so what
    is sent to a name goes to the holder of its pinned key.  There are two
    exceptions, both for a peer whose session is open: accepting its changed
    key, and forgetting it by its name with spaces around (the interface
    passes the name as it came, the store trims it and deletes the pin, the
    node does not trim it and leaves the session open). *)
Theorem sessions_hold_pinned_keys n0 keys0 n keys :
  rows_ok (n_store n0) → names_are trimmed (s_db (n_store n0)) → n_live n0 = ∅ →
  rtc live_step (n0, keys0) (n, keys) →
  ∀ name c l, (linkFor name n).1 = Some (c, l) → ¬ closed n c →
    ToLower (lk_peer l) = ToLower name ∧
    ∃ k pin, keys !! c = Some k ∧ pin_table (n_store n) (peerKey (lk_peer l)) = Some pin ∧ pin_key pin = k.
Proof.
  intros Hr Hn Hl Hrun name c l Hlink Hc.
  assert (Hs : secure n keys).
  { apply (secure_run _ _ Hrun). split; [done|done| |]; cbn.
    - intros name' c'. by rewrite Hl, lookup_empty.
    - intros c' p (Hin & _). by rewrite Hl, lookup_empty in Hin. }
  unfold linkFor in Hlink. cbn [fst] in Hlink. destruct (n_live n !! ToLower name) as [c'|] eqn:El; [|done].
  cbn in Hlink. destruct (n_conns n !! c') as [l'|] eqn:Ec; [|done]. cbn in Hlink. simplify_eq.
  destruct (sc_live _ _ Hs _ _ El) as (p & Hp & Hlow & _).
  unfold conn_names in Hp. rewrite lookup_fmap, Ec in Hp. injection Hp as <-. split; [done|].
  destruct (sc_keys _ _ Hs c (lk_peer l)) as (k & Hk & pin & Hpin & Hkey).
  - split_and!; [by rewrite Hlow|unfold conn_names; by rewrite lookup_fmap, Ec|done].
  - by exists k, pin.
Qed.
End sessions.

(** ** Examples *)

#[local] Existing Instance gmap_bolt.
#[local] Existing Instance toy_primitives.
#[local] Existing Instance ascii_tables.
#[local] Existing Instance good_wire.
#[local] Existing Instance no_faults.

Definition ex_host : Node gbucket :=
  New ex_empty (mkConfig 0 0 0 0 0) (mkIdentity "me" "0123456789abcdef" "me's public key").

Definition ex_hello (key : string) : result Handshake := Ok (mkHandshake "Alice" key []).
Definition ex_nonce : option string := Some "nonce nonce ".

Definition closes (c : nat) (o : output) : bool := match o with OClose c' => (c' =? c)%nat | _ => false end.

Lemma not_closed (n : Node gbucket) c : existsb (closes c) (n_out n) = false → ¬ closed n c.
Proof.
  intros Hn Hc. apply list_elem_of_In in Hc. apply not_true_iff_false in Hn. apply Hn, existsb_exists.
  exists (OClose c). split; [done|]. cbn. apply Nat.eqb_refl.
Qed.

(** Alice's session, and somebody else who comes under her name. *)
Definition ex_session : Node gbucket := (run_act (AServe 5 ex_nonce 1 (ex_hello ex_key1)) ex_host).2.
Definition ex_claimed : Node gbucket := (run_act (AServe 6 ex_nonce 2 (ex_hello ex_key2)) ex_session).2.

Lemma ex_handshake (n : Node gbucket) c now key :
  s_encKey (n_store n) = s_encKey ex_empty → slen key = 32 → n_conns n !! c = None →
  fits n (AServe now ex_nonce c (ex_hello key)).
Proof.
  intros Ek Hk Hc. split; [done|]. intros h [= <-]. split; [by vm_compute|]. split_and!; [done|by vm_compute|done| |].
  - unfold storable. by rewrite Ek.
  - by exists "nonce nonce ".
Qed.

Lemma sessions_hold_pinned_keys_witness :
  ∃ c l, (linkFor "alice" ex_claimed).1 = Some (c, l) ∧ lk_peer l = "Alice" ∧
    ∃ pin, pin_table (n_store ex_claimed) (peerKey "Alice") = Some pin ∧ pin_key pin = ex_key1 ∧ pin_pending pin = ex_key2.
Proof.
  assert (E1 : s_encKey (n_store ex_session) = s_encKey ex_empty) by by vm_compute.
  assert (E2 : n_conns ex_session !! 2%nat = None) by by vm_compute.
  assert (E3 : existsb (closes 1) (n_out ex_claimed) = false) by by vm_compute.
  assert (E4 : ∃ l, (linkFor "alice" ex_claimed).1 = Some (1%nat, l) ∧ lk_peer l = "Alice")
    by (eexists; split; vm_compute; reflexivity).
  assert (E5 : pin_pending <$> pin_table (n_store ex_claimed) (peerKey "Alice") = Some ex_key2) by by vm_compute.
  assert (Hrun : rtc live_step (ex_host, ∅) (ex_claimed, <[2%nat := ex_key2]> (<[1%nat := ex_key1]> ∅))).
  { eapply rtc_l; [apply (live_act (AServe 5 ex_nonce 1 (ex_hello ex_key1))), ex_handshake; done|].
    eapply rtc_l; [apply (live_act (AServe 6 ex_nonce 2 (ex_hello ex_key2))), ex_handshake; done|]. done. }
  destruct E4 as (l & El & Ep). exists 1%nat, l. split; [done|]. split; [done|].
  destruct (sessions_hold_pinned_keys ex_host ∅ ex_claimed _ (peers_rows _ ex_peers_inv)
    ltac:(intros k p Hg; change (bget (V := row Peer) bempty k = Some (json p)) in Hg; by rewrite bget_empty in Hg)
    eq_refl Hrun "alice" 1%nat l El) as (_ & k & pin & Hk & Hpin & Hkey).
  - by apply not_closed.
  - rewrite Ep in Hpin. rewrite Hpin in E5. injection E5 as E5. exists pin. split; [done|]. split; [|done].
    rewrite lookup_insert_ne, lookup_insert_eq in Hk by done. congruence.
Defined.

(** The first exception.  While Alice's session is open somebody else comes under her
    name; the user accepts the new key; the session with the old one stays
    the live one, and what is sent to Alice now leaves on it. *)
Definition ex_accepted : Node gbucket :=
  (run_act (AFlush 8 (λ _, None) "alice" true)
    (run_act (ASend 7 "0123456789abcdef" ex_nonce "alice" "secret" "")
      (run_act (AAcceptKey "alice") ex_claimed).2).2).2.

Lemma accepted_key_keeps_old_session :
  pin_key <$> pin_table (n_store ex_accepted) "alice" = Some ex_key2 ∧
  n_live ex_accepted !! "alice" = Some 1%nat ∧ existsb (closes 1) (n_out ex_accepted) = false ∧
  existsb (λ o, match o with OSend 1 e => Body e =s? "secret" | _ => false end) (n_out ex_accepted) = true.
Proof. by vm_compute. Qed.

(** The second.  Alice is forgotten as "alice" with a space before it: her pin
    is gone, and her session is still the live one. *)
Definition ex_forgotten : Node gbucket := (Forget " alice" ex_session).2.

Lemma spaced_forget_keeps_session :
  pin_key <$> pin_table (n_store ex_session) "alice" = Some ex_key1 ∧
  pin_table (n_store ex_forgotten) "alice" = None ∧
  n_live ex_forgotten !! "alice" = Some 1%nat ∧ existsb (closes 1) (n_out ex_forgotten) = false ∧
  existsb (closes 1) (n_out (Forget "alice" ex_session).2) = true.
Proof. by vm_compute. Qed.
