(* ===== verification/WellTyped.v ===== *)
(** * The types of the rows (store.go, files.go, node.go, rooms.go, link.go)

    The database holds JSON text whose fields are strings and numbers; the
    rest of the program takes more for granted: which strings a direction or
    a status may be, that identifiers are hex, that lists have their bound,
    that a row lies under the key made from its fields.  [typed] says so for
    every bucket, and every operation of the store and handler of the node
    keeps it.  Rooms and room messages, whose times come from peers, may also
    be the empty value [marshal] puts for a time that has no JSON text. *)

From S2P Require Import Prelude GoStrings Utf8 Proto Sha256 Identity Base64 Crypto Bolt.
From S2P Require Import StoreData StoreCore StoreMessages StorePeers StoreFiles StoreRooms.
From S2P Require Import StoreFrame Backoff NodeState NodeRooms NodeCore NodeLink NodeFrame Delivery.

(** ** The types *)

Definition valid_id (id : string) : Prop := checkID id = Ok tt.
Definition is_int64 (z : Z) : Prop := - 2 ^ 63 <= z < 2 ^ 63.

Record message_ok (m : Message) : Prop := {
  mo_id : valid_id (m_ID m);
  mo_state : (m_Dir m = DirOut ∧ (m_Status m = StatusQueued ∨ m_Status m = StatusDelivered))
    ∨ (m_Dir m = DirIn ∧ m_Status m = StatusReceived);
  mo_reply : m_Dir m = DirIn → m_ReplyTo m = "" ∨ valid_id (m_ReplyTo m);
  mo_attempts : is_int64 (m_Attempts m) }.

(** An inbound room message may be marked delivered, and no room message is
    ever stored with a reply reference. *)
Record room_message_ok (m : RoomMessage) : Prop := {
  rmo_id : valid_id (rm_ID m);
  rmo_room : valid_id (rm_Room m);
  rmo_state : (rm_Dir m = DirOut ∧ (rm_Status m = StatusQueued ∨ rm_Status m = StatusDelivered))
    ∨ (rm_Dir m = DirIn ∧ (rm_Status m = StatusReceived ∨ rm_Status m = StatusDelivered));
  rmo_reply : rm_ReplyTo m = "";
  rmo_attempts : is_int64 (rm_Attempts m);
  rmo_reactions : Z.of_nat (length (rm_Reactions m)) <= MaxRoomReactions }.

Record room_ok (r : Room) : Prop := {
  ro_id : valid_id (r_ID r);
  ro_state : r_State r = RoomJoined ∨ r_State r = RoomPending;
  ro_members : Z.of_nat (length (r_Members r)) <= MaxRoomMembers }.

(** A header that comes for an outgoing file turns its row around, so that any
    direction may meet any status. *)
Record file_ok (f : File) : Prop := {
  fo_id : valid_id (f_ID f);
  fo_dir : f_Dir f = DirOut ∨ f_Dir f = DirIn;
  fo_status : f_Status f ∈ [FileQueued; FileSending; FileSent; FileReceiving; FileComplete; FileFailed];
  fo_size : 0 < f_Size f <= MaxFileSize;
  fo_hash : slen (f_Hash f) = 64;
  fo_received : 0 <= f_Received f <= f_Size f;
  fo_sent : f_Sent f = 0 ∨ f_Sent f = f_Size f }.

(** A row that decodes, with the key it lies under. *)
Definition is_row {A} (P : string → A → Prop) (k : string) (r : row A) : Prop := ∃ a, r = json a ∧ P k a.

(** A row of [marshal]: it decodes, or it is the empty value put where
    [json.Marshal] failed on a time. *)
Definition is_marshalled {A} (P : string → A → Prop) (k : string) (r : row A) : Prop :=
  r = corrupt ∨ is_row P k r.

Lemma marshalled {A} `{Jsonable A} (P : string → A → Prop) k (a : A) : P k a → is_marshalled P k (marshal a).
Proof. intros Ha. unfold marshal. destruct (jsonable a); [right; by eexists|by left]. Qed.
Lemma marshalled_json {A} (P : string → A → Prop) k a : is_marshalled P k (json a) → P k a.
Proof. by intros [?|(a' & [= <-] & Ha)]. Qed.

Definition meta_ok (k : string) (v : MetaVal) : Prop :=
  match v with
  | MBytes _ => k = "kdf" ∨ k = "kdSalt"
  | MIdentity r => k = "identity" ∧ is_row (λ _ _, True) k r
  | MSettings r => k = "settings" ∧ is_row (λ _ st, 0 <= RetentionDays st <= 3650) k r
  end.

Section typed.
Context {B : Type → Type} `{Bolt B} `{Primitives} `{UnicodeTables}.
Implicit Types (d : DB B) (s : Store B).

Definition peer_row (k : string) (p : Peer) : Prop := k = peerKey (p_Name p).
Definition message_row (k : string) (m : Message) : Prop := k = msgKey (m_Peer m) (m_Seq m) ∧ message_ok m.
Definition room_row (k : string) (r : Room) : Prop := k = r_ID r ∧ room_ok r.
Definition room_message_row (k : string) (m : RoomMessage) : Prop :=
  k = roomMsgKey (rm_Room m) (rm_Seq m) ∧ room_message_ok m.
Definition file_row (k : string) (f : File) : Prop := k = f_ID f ∧ file_ok f.

Definition rows {V} (P : string → V → Prop) (b : B V) : Prop := ∀ k v, bget b k = Some v → P k v.

Record typed d : Prop := {
  ty_meta : rows meta_ok (d_meta d);
  ty_peers : rows (is_row peer_row) (d_peers d);
  ty_msgs : rows (is_row message_row) (d_msgs d);
  ty_rooms : rows (is_marshalled room_row) (d_rooms d);
  ty_roommsgs : rows (is_marshalled room_message_row) (d_roommsgs d);
  ty_files : rows (is_row file_row) (d_files d) }.

Lemma typed_empty : typed empty_db.
Proof. by split; intros k v; cbn; rewrite bget_empty. Qed.

(** A bucket whose values have a type. *)
Class BucketType {V} (b : bucket B V) (P : string → V → Prop) := {
  bt_get d : typed d → rows P (bsel b d);
  bt_upd d x : typed d → rows P x → typed (bupd b x d) }.

Ltac bucket_type := split; [intros d []; cbn; done | intros d x [] Hx; split; cbn; done].
#[export] Instance meta_type : BucketType bMeta meta_ok.
Proof. bucket_type. Qed.
#[export] Instance peers_type : BucketType bPeers (is_row peer_row).
Proof. bucket_type. Qed.
#[export] Instance msgs_type : BucketType bMsgs (is_row message_row).
Proof. bucket_type. Qed.
#[export] Instance rooms_type : BucketType bRooms (is_marshalled room_row).
Proof. bucket_type. Qed.
#[export] Instance roommsgs_type : BucketType bRoomMsgs (is_marshalled room_message_row).
Proof. bucket_type. Qed.
#[export] Instance files_type : BucketType bFiles (is_row file_row).
Proof. bucket_type. Qed.

Abbreviation any := (λ (_ : string) (_ : string), True).
#[export] Instance idx_type : BucketType bIdx any.
Proof. bucket_type. Qed.
#[export] Instance outbox_type : BucketType bOutbox any.
Proof. bucket_type. Qed.
#[export] Instance roomidx_type : BucketType bRoomIdx any.
Proof. bucket_type. Qed.
#[export] Instance roomoutbox_type : BucketType bRoomOutbox any.
Proof. bucket_type. Qed.
#[export] Instance roomseq_type : BucketType bRoomSeq any.
Proof. bucket_type. Qed.
#[export] Instance fileoutbox_type : BucketType bFileOutbox any.
Proof. bucket_type. Qed.

(** ** Transactions *)

(** A transaction that succeeds keeps the types and gives a [Q]. *)
Definition gives {A} (f : Tx B A) (Q : A → Prop) : Prop :=
  ∀ d a d', typed d → f d = Ok (a, d') → typed d' ∧ Q a.
Abbreviation keeps_types f := (gives f (λ _, True)).

Lemma gives_weaken {A} (f : Tx B A) (P Q : A → Prop) : gives f P → (∀ a, P a → Q a) → gives f Q.
Proof. intros Hf Hi d a d' Hd E. destruct (Hf d a d' Hd E). auto. Qed.
Lemma gives_ret {A} (a : A) (Q : A → Prop) : Q a → gives (mret a) Q.
Proof. by intros Hq d a' d' Hd [= <- <-]. Qed.
Lemma gives_fail {A} e (Q : A → Prop) : gives (fail e) Q.
Proof. done. Qed.
Lemma gives_lift {A} (r : result A) : gives (lift r) (λ a, r = Ok a).
Proof. intros d a d' Hd. unfold lift. destruct r; [|done]. by intros [= <- <-]. Qed.
Lemma gives_bind {A A'} (f : Tx B A) (g : A → Tx B A') P Q :
  gives f P → (∀ a, P a → gives (g a) Q) → gives (mbind g f) Q.
Proof.
  intros Hf Hg d a d' Hd. unfold mbind, tx_bind. destruct (f d) as [[x d1]|] eqn:E; [|done].
  destruct (Hf _ _ _ Hd E). by apply Hg.
Qed.

Section bucket.
Context {V} (b : bucket B V) (P : string → V → Prop) `{!BucketType b P}.

Lemma gives_Get k : gives (Get b k) (λ v, ∀ x, v = Some x → P k x).
Proof. intros d a d' Hd [= <- <-]. split; [done|]. intros x. by apply (bt_get d Hd). Qed.
Lemma gives_Items : gives (Items b) (λ l, Forall (λ kv, P kv.1 kv.2) l).
Proof.
  intros d a d' Hd [= <- <-]. split; [done|]. apply Forall_forall. intros [k v] Hin%bitems_get.
  by apply (bt_get d Hd).
Qed.
Lemma gives_Put k v : P k v → keeps_types (Put b k v).
Proof.
  intros Hp d a d' Hd. unfold Put. destruct (put_error k); [done|]. intros [= <- <-]. split; [|done].
  apply bt_upd; [done|]. intros k' v'. rewrite bget_set. case_decide as Hk; [|by apply (bt_get d Hd)].
  by intros [= <-]; subst k'.
Qed.
Lemma gives_Delete k : keeps_types (Delete b k).
Proof.
  intros d a d' Hd [= <- <-]. split; [|done]. apply bt_upd; [done|]. intros k' v'. rewrite bget_del.
  case_decide; [done|by apply (bt_get d Hd)].
Qed.
Lemma gives_NextSequence : keeps_types (NextSequence b).
Proof.
  intros d a d' Hd [= <- <-]. split; [|done]. apply bt_upd; [done|]. intros k' v'. rewrite bget_next.
  by apply (bt_get d Hd).
Qed.
End bucket.

(** A row that is read and decoded. *)
Lemma gives_load {A} (b : bucket B (row A)) (P : string → A → Prop) `{!BucketType b (is_row P)} k (e : error) :
  gives (v ← Get b k; match v with None => fail e | Some r => lift (unmarshal r) end) (P k).
Proof.
  eapply gives_bind; [apply gives_Get, _|]. intros [r|] Hv; [|apply gives_fail].
  eapply gives_weaken; [apply gives_lift|]. destruct (Hv r eq_refl) as (a & -> & Ha). by intros ? [= <-].
Qed.

Lemma gives_load_marshalled {A} (b : bucket B (row A)) (P : string → A → Prop)
    `{!BucketType b (is_marshalled P)} k (e : error) :
  gives (v ← Get b k; match v with None => fail e | Some r => lift (unmarshal r) end) (P k).
Proof.
  eapply gives_bind; [apply gives_Get, _|]. intros [r|] Hv; [|apply gives_fail].
  eapply gives_weaken; [apply gives_lift|]. intros a ->%unmarshal_ok. by apply marshalled_json, Hv.
Qed.
End typed.

Create HintDb gives.

Ltac gives_step :=
  lazymatch goal with
  | |- gives (Get _ _) _ => eapply gives_Get; typeclasses eauto
  | |- gives (Items _) _ => eapply gives_Items; typeclasses eauto
  | |- gives (Put _ _ _) _ => eapply gives_Put; [typeclasses eauto|try exact I]
  | |- gives (Delete _ _) _ => eapply gives_Delete; typeclasses eauto
  | |- gives (NextSequence _) _ => eapply gives_NextSequence; typeclasses eauto
  | |- gives (fail _) _ => apply gives_fail
  | |- gives (lift _) _ => apply gives_lift
  | |- gives (mret _) _ => apply gives_ret; done
  | |- gives _ _ => solve [eauto 2 with gives]
  end.

(** A transaction built from the primitives; what is left are the types of the
    rows it puts. *)
Ltac gives_tac :=
  cbv zeta; repeat lazymatch goal with
  | |- gives (mbind _ _) _ => first
      [ eapply gives_bind; [gives_step|intros ? ?] | eapply (gives_bind _ _ (λ _, True)); [|intros ? _] ]
  | |- gives (match _ with _ => _ end) _ => case_match; simplify_eq/=
  | |- gives _ _ => gives_step
  end.
(** ** Rows that change *)

Lemma set_Body_ok b m : message_ok m → message_ok (set_Body b m).
Proof. by intros []. Qed.
Lemma set_Seq_ok q m : message_ok m → message_ok (set_Seq q m).
Proof. by intros []. Qed.
Lemma int64_is z : is_int64 (int64 z).
Proof. apply int64_range. Qed.
Lemma bump_attempt_ok now m : message_ok m → message_ok (bump_attempt now m).
Proof. intros []. by split; [..|apply int64_is]. Qed.
Lemma delivered_ok m : message_ok m → m_Dir m = DirOut → message_ok (set_Status StatusDelivered m).
Proof. intros [] Hd. split; [done|by left; split; [|right]|done..]. Qed.

Lemma rset_Body_ok b m : room_message_ok m → room_message_ok (rset_Body b m).
Proof. by intros []. Qed.
Lemma rset_Seq_ok q m : room_message_ok m → room_message_ok (rset_Seq q m).
Proof. by intros []. Qed.
Lemma rbump_attempt_ok now m : room_message_ok m → room_message_ok (rbump_attempt now m).
Proof. intros []. by split; [..|apply int64_is|]. Qed.
Lemma rdelivered_ok m : room_message_ok m → room_message_ok (rset_Status StatusDelivered m).
Proof. intros []. split; [done|done| |done..]. cbn. naive_solver. Qed.
Lemma rset_Reactions_ok l m :
  room_message_ok m → Z.of_nat (length l) <= MaxRoomReactions → room_message_ok (rset_Reactions l m).
Proof. intros [] Hl. by split. Qed.

Lemma set_RName_ok name r : room_ok r → room_ok (set_RName name r).
Proof. by intros []. Qed.
Lemma set_RState_ok r : room_ok r → room_ok (set_RState RoomJoined r).
Proof. intros []. by split; [|left|]. Qed.
Lemma set_CreatedBy_ok c r : room_ok r → room_ok (set_CreatedBy c r).
Proof. by intros []. Qed.
Lemma set_Members_ok l r : room_ok r → Z.of_nat (length l) <= MaxRoomMembers → room_ok (set_Members l r).
Proof. intros [] Hl. by split. Qed.

Lemma set_FStatus_ok st f :
  file_ok f → st ∈ [FileQueued; FileSending; FileSent; FileReceiving; FileComplete; FileFailed] →
  file_ok (set_FStatus st f).
Proof. intros [] Hst. by split. Qed.
Lemma set_Sent_ok f n : file_ok f → n = 0 ∨ n = f_Size f → file_ok (set_Sent n f).
Proof. intros [] Hn. by split. Qed.
Lemma set_Received_ok f n : file_ok f → 0 <= n <= f_Size f → file_ok (set_Received n f).
Proof. intros [] Hn. by split. Qed.

#[export] Hint Resolve set_Body_ok set_Seq_ok bump_attempt_ok delivered_ok rset_Body_ok rset_Seq_ok rbump_attempt_ok
  rdelivered_ok rset_Reactions_ok set_RName_ok set_RState_ok set_CreatedBy_ok : gives.

(** ** Operations of the store *)

Section store.
Context {B : Type → Type} `{Bolt B} `{Primitives} `{UnicodeTables} `{DiskFaults}.
Implicit Types (d : DB B) (s : Store B).
Abbreviation keeps_types f := (gives f (λ _, True)).

Definition has_types s : Prop := typed (s_db s).
Definition op_types {A} (f : Store B → result A * Store B) : Prop := ∀ s, has_types s → has_types (f s).2.

Lemma Update_types {A} s (f : Tx B A) Q : gives f Q → has_types s → has_types (Update s f).2.
Proof.
  intros Hf Hs. unfold Update, run_update. destruct (f (s_db s)) as [[a d]|] eqn:E; [|done].
  by destruct (Hf _ _ _ Hs E).
Qed.
Lemma Update_types_eq {A} s (f : Tx B A) Q r s' : Update s f = (r, s') → gives f Q → has_types s → has_types s'.
Proof. intros E Hf Hs. change s' with (r, s').2. rewrite <- E. by eapply Update_types. Qed.
Lemma View_gives {A} s (f : Tx B A) Q a : gives f Q → has_types s → View s f = Ok a → Q a.
Proof.
  intros Hf Hs. unfold View, run_view. destruct (f (s_db s)) as [[a' d]|] eqn:E; [|done]. intros [= <-].
  by destruct (Hf _ _ _ Hs E).
Qed.

(** *** Messages *)

Lemma loadByID_gives id : gives (loadByID (B := B) id) (λ mk, message_row mk.2 mk.1).
Proof.
  unfold loadByID. eapply gives_bind; [gives_step|intros [k|] _; [|done]].
  eapply gives_bind; [gives_step|intros [r|] Hr; [|done]].
  destruct (Hr r eq_refl) as (m & -> & Hm). eapply gives_bind; [apply gives_lift|]. intros ? [= <-].
  by apply gives_ret.
Qed.
Hint Resolve loadByID_gives : gives.

Lemma add_tx_types m : message_ok m → keeps_types (add_tx m : Tx B _).
Proof.
  intros Hm. unfold add_tx. gives_tac. eexists. split; [done|]. split; [done|]. by apply set_Seq_ok.
Qed.
Lemma AddMessage_types s m rnd : message_ok m → has_types s → has_types (AddMessage s m rnd).2.
Proof.
  intros Hm Hs. unfold AddMessage. destruct (encryptString s (m_Body m) rnd) as [b|]; [|done].
  destruct (Update s _) as [r s'] eqn:E.
  assert (Hs' : has_types s'); [|by destruct r]. refine (Update_types_eq _ _ (λ _, True) _ _ E _ Hs).
  by apply add_tx_types, set_Body_ok.
Qed.

Lemma mark_tx_types peer id : keeps_types (mark_tx peer id : Tx B _).
Proof.
  unfold mark_tx. eapply gives_bind; [gives_step|]. intros [m k] [Hk Hm]. cbn [fst snd] in *.
  destruct (m_Dir m =s? DirOut) eqn:Ed; cbn [negb orb]; [|apply gives_fail]. apply eqs_true in Ed.
  gives_tac. eexists; split; [done|]. split; [done|]. by apply delivered_ok.
Qed.
Lemma MarkDelivered_types peer id : op_types (λ s, MarkDelivered s peer id).
Proof.
  intros s Hs. unfold MarkDelivered. destruct (Update s _) as [r s'] eqn:E.
  by apply (Update_types_eq _ _ _ _ _ E (mark_tx_types peer id)).
Qed.
Lemma RecordAttempt_types id now : op_types (λ s, RecordAttempt s id now).
Proof.
  intros s Hs. unfold RecordAttempt. destruct (Update s _) as [r s'] eqn:E.
  refine (Update_types_eq _ _ (λ _, True) _ _ E _ Hs). unfold attempt_tx.
  eapply gives_bind; [gives_step|]. intros [m k] [Hk Hm]. gives_tac.
  eexists; split; [done|]. split; [done|]. by apply bump_attempt_ok.
Qed.
Lemma DeleteFromOutbox_types id : op_types (λ s, DeleteFromOutbox s id).
Proof. intros s. apply Update_types with (λ _, True). gives_tac. Qed.
Lemma DeleteMessage_types id : op_types (λ s, DeleteMessage s id).
Proof. intros s. apply Update_types with (λ _, True). gives_tac. Qed.
Lemma deleteMessages_types pred : keeps_types (deleteMessages pred : Tx B _).
Proof.
  assert (Hl : ∀ l, keeps_types (delete_keys l : Tx B _)).
  { induction l as [|[k v] l IH]; cbn [delete_keys]; gives_tac. }
  unfold deleteMessages. gives_tac.
Qed.
Hint Resolve deleteMessages_types : gives.
Lemma DeleteAllMessages_types : op_types DeleteAllMessages.
Proof. intros s. apply Update_types with (λ _, True). gives_tac. Qed.
Lemma Prune_types cutoff : op_types (λ s, Prune s cutoff).
Proof. intros s. apply Update_types with (λ _, True). gives_tac. Qed.

(** *** Peers *)

Lemma getPeer_gives name : gives (getPeer (B := B) name) (peer_row (peerKey name)).
Proof. apply gives_load, _. Qed.
Hint Resolve getPeer_gives : gives.
Lemma putPeer_types p : keeps_types (putPeer p : Tx B _).
Proof. unfold putPeer. gives_tac. by eexists. Qed.
Hint Resolve putPeer_types : gives.

Lemma observe_tx_types s name key enc now : keeps_types (observe_tx s name key enc now).
Proof.
  assert (Hput : ∀ p b, keeps_types (_ ← putPeer p; mret (p, b) : Tx B (Peer * bool))).
  { intros p b. gives_tac. }
  intros d x d' Hd. unfold observe_tx. destruct (getPeer name d) as [[p d1]|e] eqn:Eg.
  - apply getPeer_gives in Eg as [Hd1 _]; [|done]. destruct (decrypt s (p_Key p)); [|done].
    case_match; by apply Hput.
  - case_match; [|done]. by apply Hput.
Qed.
Lemma Observe_types name key now rnd : op_types (λ s, Observe s name key now rnd).
Proof.
  intros s Hs. unfold Observe. destruct (encrypt s key rnd); [|done].
  by apply Update_types with (λ _, True); [apply observe_tx_types|].
Qed.
Lemma SetVerified_types name v : op_types (λ s, SetVerified s name v).
Proof. intros s. apply Update_types with (λ _, True). gives_tac. Qed.
Lemma AcceptPendingKey_types name : op_types (λ s, AcceptPendingKey s name).
Proof. intros s. apply Update_types with (λ _, True). unfold accept_tx. gives_tac. Qed.
Lemma ForgetPeer_types name : op_types (λ s, ForgetPeer s name).
Proof. intros s. apply Update_types with (λ _, True). gives_tac. Qed.

(** *** The identity and the settings *)

Lemma RenameIdentity_types name : op_types (λ s, RenameIdentity s name).
Proof.
  intros s. apply Update_types with (λ _, True). gives_tac. split; [done|]. by eexists.
Qed.
Lemma SaveSettings_types st : op_types (λ s, SaveSettings s st).
Proof.
  intros s Hs. unfold SaveSettings. destruct (_ || _) eqn:E; [done|]. apply Update_types with (λ _, True); [|done].
  gives_tac. split; [done|]. eexists. split; [done|]. apply orb_false_iff in E as [E1 E2]. lia.
Qed.

(** *** Rooms *)

Lemma encryptRoom_typed s r rnd enc : room_ok r → encryptRoom s r rnd = Ok enc → room_ok enc ∧ r_ID enc = r_ID r.
Proof.
  intros Hr. unfold encryptRoom. intros (name & _ & [= <-])%bind_ok. by split; [apply set_RName_ok|].
Qed.
Lemma decryptRoom_typed s r r' : room_ok r → decryptRoom s r = Ok r' → room_ok r' ∧ r_ID r' = r_ID r.
Proof.
  intros Hr. unfold decryptRoom. intros (name & _ & [= <-])%bind_ok.
  case_match; split; try done; by repeat apply set_RName_ok, set_RState_ok || apply set_RName_ok.
Qed.

Lemma put_room_types enc : room_ok enc → keeps_types (put_room enc : Tx B _).
Proof. intros He. unfold put_room. gives_tac. by apply marshalled. Qed.
Lemma CreateRoom_types r rnd :
  valid_id (r_ID r) → r_State r = RoomJoined ∨ r_State r = RoomPending → op_types (λ s, CreateRoom s r rnd).
Proof.
  intros Hi Hst s Hs. unfold CreateRoom.
  destruct (Z.ltb_spec MaxRoomMembers (Z.of_nat (length (r_Members r)))); [done|].
  destruct (encryptRoom s r rnd) as [enc|] eqn:E; [|done].
  apply encryptRoom_typed in E as [He _]; [|done]. by eapply Update_types; [apply put_room_types|].
Qed.
Lemma UpdateRoom_types r rnd : room_ok r → op_types (λ s, UpdateRoom s r rnd).
Proof.
  intros Hr s Hs. unfold UpdateRoom. destruct (encryptRoom s r rnd) as [enc|] eqn:E; [|done].
  apply encryptRoom_typed in E as [He _]; [|done]. by eapply Update_types; [apply put_room_types|].
Qed.

Lemma getRoom_gives id : gives (getRoom (B := B) id) (room_row id).
Proof. apply gives_load_marshalled, _. Qed.
Hint Resolve getRoom_gives : gives.
Lemma GetRoom_gives s id r : has_types s → GetRoom s id = Ok r → room_ok r ∧ r_ID r = id.
Proof.
  intros Hs. unfold GetRoom. intros (r0 & Hr0 & Hr)%bind_ok.
  apply (View_gives _ _ (room_row id)) in Hr0 as [-> H0]; [|apply getRoom_gives|done]. by eapply decryptRoom_typed.
Qed.

Lemma delete_room_msgs_types l : keeps_types (delete_room_msgs l : Tx B _).
Proof. induction l as [|[k v] l IH]; cbn [delete_room_msgs]; gives_tac. Qed.
Lemma delete_outbox_keys_types l : keeps_types (delete_outbox_keys l : Tx B _).
Proof. induction l as [|[k v] l IH]; cbn [delete_outbox_keys]; gives_tac. Qed.
Hint Resolve delete_room_msgs_types delete_outbox_keys_types : gives.
Lemma DeleteRoom_types id : op_types (λ s, DeleteRoom s id).
Proof. intros s. apply Update_types with (λ _, True). gives_tac. Qed.

Lemma load_room_msg_gives id : gives (load_room_msg (B := B) id) (λ mk, room_message_row mk.2 mk.1).
Proof.
  unfold load_room_msg. eapply gives_bind; [gives_step|intros [k|] _; [|done]].
  eapply gives_bind; [gives_step|intros [r|] Hr; [|done]].
  eapply gives_bind; [apply gives_lift|]. intros m ->%unmarshal_ok. apply gives_ret.
  by apply marshalled_json, Hr.
Qed.
Hint Resolve load_room_msg_gives : gives.

Lemma add_room_tx_types m : room_message_ok m → keeps_types (add_room_tx m : Tx B _).
Proof.
  intros Hm. unfold add_room_tx. gives_tac. apply marshalled. split; [done|]. by apply rset_Seq_ok.
Qed.
Lemma AddRoomMessage_types m rnd : room_message_ok m → op_types (λ s, AddRoomMessage s m rnd).
Proof.
  intros Hm s Hs. unfold AddRoomMessage. destruct (encryptString s (rm_Body m) rnd) as [b|]; [|done].
  destruct (Update s _) as [r s'] eqn:E.
  assert (Hs' : has_types s'); [|by destruct r]. refine (Update_types_eq _ _ (λ _, True) _ _ E _ Hs).
  by apply add_room_tx_types, rset_Body_ok.
Qed.
Lemma mark_room_tx_types room mb id : keeps_types (mark_room_tx room mb id : Tx B _).
Proof.
  unfold mark_room_tx. eapply gives_bind; [gives_step|]. intros [m k] [Hk Hm]. cbn [fst snd] in *.
  gives_tac. apply marshalled. split; [done|]. by apply rdelivered_ok.
Qed.
Lemma MarkRoomDelivered_types room mb id : op_types (λ s, MarkRoomDelivered s room mb id).
Proof.
  intros s Hs. unfold MarkRoomDelivered. destruct (Update s _) as [r s'] eqn:E.
  by apply (Update_types_eq _ _ _ _ _ E (mark_room_tx_types room mb id)).
Qed.
Lemma RoomRecordAttempt_types id now : op_types (λ s, RoomRecordAttempt s id now).
Proof.
  intros s. apply Update_types with (λ _, True). eapply gives_bind; [gives_step|]. intros [m k] [Hk Hm]. gives_tac.
  apply marshalled. split; [done|]. by apply rbump_attempt_ok.
Qed.

Lemma drop_reaction_length sender emoji l l' :
  drop_reaction sender emoji l = Some l' → (length l' <= length l)%nat.
Proof.
  revert l'. induction l as [|r l IH]; intros l'; cbn [drop_reaction]; [done|].
  case_match; [intros [= <-]; cbn; lia|]. destruct (drop_reaction sender emoji l) as [l0|]; [|done].
  intros [= <-]. specialize (IH l0 eq_refl). cbn. lia.
Qed.
Lemma toggle_tx_types room id sender emoji : keeps_types (toggle_tx room id sender emoji : Tx B _).
Proof.
  unfold toggle_tx. eapply gives_bind; [gives_step|]. intros [m k] [Hk Hm]. cbn [fst snd] in *.
  assert (Hput : ∀ l, Z.of_nat (length l) <= MaxRoomReactions →
    keeps_types (_ ← Put bRoomMsgs k (marshal (rset_Reactions l m)); mret (rset_Reactions l m) : Tx B _)).
  { intros l Hl. gives_tac. apply marshalled. split; [done|]. by apply rset_Reactions_ok. }
  case_match; [apply gives_fail|]. destruct (drop_reaction sender emoji (rm_Reactions m)) as [l|] eqn:E.
  - apply Hput. apply drop_reaction_length in E. pose proof (rmo_reactions _ Hm). lia.
  - destruct (Z.leb_spec MaxRoomReactions (Z.of_nat (length (rm_Reactions m)))); [apply gives_fail|].
    apply Hput. rewrite length_app. cbn. lia.
Qed.
Lemma ToggleRoomReaction_types room id sender emoji : op_types (λ s, ToggleRoomReaction s room id sender emoji).
Proof.
  intros s Hs. unfold ToggleRoomReaction. destruct (Update s _) as [r s'] eqn:E.
  by apply (Update_types_eq _ _ _ _ _ E (toggle_tx_types room id sender emoji)).
Qed.
Lemma NextRoomSenderSeq_types room sender : op_types (λ s, NextRoomSenderSeq s room sender).
Proof. intros s. apply Update_types with (λ _, True). unfold next_seq_tx. gives_tac. Qed.
Lemma AddRoomMemberToOutbox_types room mb id : op_types (λ s, AddRoomMemberToOutbox s room mb id).
Proof. intros s. apply Update_types with (λ _, True). gives_tac. Qed.

(** *** Files *)

Lemma get_file_gives id : gives (get_file (B := B) id) (file_row id).
Proof. apply gives_load, _. Qed.
Hint Resolve get_file_gives : gives.
Lemma put_file_types id f : file_row id f → keeps_types (Put bFiles id (json f) : Tx B _).
Proof. intros Hf. gives_tac. by eexists. Qed.

Lemma AddOutboundFile_types id peer name hash data now rnd :
  valid_id id → 0 < slen data <= MaxFileSize → slen hash = 64 →
  op_types (λ s, AddOutboundFile s id peer name hash data now rnd).
Proof.
  intros Hid Hd Hh s Hs. unfold AddOutboundFile. repeat case_match; [|done..].
  apply Update_types with (λ _, True); [|done]. gives_tac. eexists. split; [done|]. split; [done|].
  split; cbn; [done|by left|set_solver|done|done|lia|by left].
Qed.
Lemma resume_at_range s id hash size : 0 <= size → 0 <= resume_at s id hash size <= size.
Proof.
  intros Hz. unfold resume_at. repeat case_match; try lia.
  all: match goal with E : (_ || _)%bool = false |- _ => apply orb_false_iff in E as [? ?]; lia end.
Qed.
Lemma BeginReceive_types id peer name hash size now :
  valid_id id → 0 < size <= MaxFileSize → slen hash = 64 → op_types (λ s, BeginReceive s id peer name hash size now).
Proof.
  intros Hid Hz Hh s Hs. unfold BeginReceive. case_match; [|done]. case_match; [|done].
  destruct (Update _ _) as [r s'] eqn:E. refine (Update_types_eq _ _ (λ _, True) _ _ E _ Hs).
  apply put_file_types. split; [done|]. pose proof (resume_at_range s id hash size ltac:(lia)).
  split; cbn; [done|by right|set_solver|done|done|done|by left].
Qed.
(** The high-water mark after a chunk, wherever the sum of the offset and the
    length wraps to. *)
Lemma chunk_row_ok id f end_ :
  file_row id f →
  let f1 := if f_Received f <? end_ then set_Received end_ f else f in
  file_row id (if f_Size f1 <? f_Received f1 then set_Received (f_Size f1) f1 else f1).
Proof.
  intros [Hk Hf] f1. pose proof (fo_received _ Hf) as Hr. pose proof (fo_size _ Hf) as Hz.
  assert (Hs : f_Size f1 = f_Size f) by (subst f1; by destruct (f_Received f <? end_)).
  destruct (Z.ltb_spec (f_Size f1) (f_Received f1)) as [Hlt|Hge].
  - assert (E : set_Received (f_Size f1) f1 = set_Received (f_Size f) f)
      by (rewrite Hs; subst f1; by destruct (f_Received f <? end_)).
    rewrite E. split; [done|]. apply set_Received_ok; [done|lia].
  - rewrite Hs in Hge. subst f1. destruct (Z.ltb_spec (f_Received f) end_); [|by split].
    split; [done|]. apply set_Received_ok; [done|]. cbn [f_Received set_Received] in Hge. lia.
Qed.
Lemma WriteChunk_types id off data : op_types (λ s, WriteChunk s id off data).
Proof.
  intros s Hs. unfold WriteChunk. case_match; [|done]. case_match; [|done].
  apply Update_types with (λ _, True); [|done]. unfold chunk_tx. eapply gives_bind; [gives_step|].
  intros f [Hk Hf]. destruct (Z.ltb_spec (f_Received f) off) as [|Hoff]; [apply gives_fail|]. gives_tac. eexists. split; [done|].
  by apply chunk_row_ok.
Qed.
Lemma setFileStatus_types id st :
  st ∈ [FileQueued; FileSending; FileSent; FileReceiving; FileComplete; FileFailed] → op_types (λ s, setFileStatus s id st).
Proof.
  intros Hst s. apply Update_types with (λ _, True). eapply gives_bind; [gives_step|]. intros f [Hk Hf].
  apply put_file_types. split; [done|]. by apply set_FStatus_ok.
Qed.
Lemma CompleteFile_types id rnd : op_types (λ s, CompleteFile s id rnd).
Proof.
  intros s Hs. unfold CompleteFile. destruct (complete_read s id) as [[file data]|]; [|done].
  unfold complete_finish. case_match.
  - apply (setFileStatus_types id FileFailed); [set_solver|done].
  - case_match; [|done]. destruct (setFileStatus _ _ _) as [r s'] eqn:E.
    assert (Hs' : has_types s'); [|by destruct r].
    change s' with (r, s').2. rewrite <- E. by apply (setFileStatus_types id FileComplete); [set_solver|].
Qed.
Lemma leave_outbox_types id (g : File → File) :
  (∀ f, file_row id f → file_row id (g f)) → keeps_types (leave_outbox id g : Tx B _).
Proof.
  intros Hg. unfold leave_outbox. eapply gives_bind; [gives_step|intros ? _].
  eapply gives_bind; [gives_step|intros [r|] Hr; [|by apply gives_ret]].
  destruct (Hr r eq_refl) as (f & -> & Hf). eapply gives_bind; [apply gives_lift|]. intros ? [= <-].
  by apply put_file_types, Hg.
Qed.
Lemma MarkFileSent_types id : op_types (λ s, MarkFileSent s id).
Proof.
  intros s. apply Update_types with (λ _, True). apply leave_outbox_types. intros f [Hk Hf]. split; [done|].
  apply set_Sent_ok; [apply set_FStatus_ok; [done|set_solver]|by right].
Qed.
Lemma MarkFileSending_types id : op_types (λ s, MarkFileSending s id).
Proof.
  intros s. apply Update_types with (λ _, True). eapply gives_bind; [gives_step|]. intros f [Hk Hf].
  apply put_file_types. destruct (f_Status f =s? FileQueued); (split; [done|]).
  - apply set_Sent_ok; [apply set_FStatus_ok; [done|set_solver]|by left].
  - apply set_Sent_ok; [done|by left].
Qed.
Lemma DeleteFile_types id : op_types (λ s, DeleteFile s id).
Proof.
  intros s Hs. unfold DeleteFile. destruct (Update s _) as [r s'] eqn:E.
  assert (Hs' : has_types s'); [|by destruct r]. refine (Update_types_eq _ _ (λ _, True) _ _ E _ Hs). gives_tac.
Qed.
End store.
