(* ===== verification/TypedNode.v ===== *)
(** * A node keeps its rows well typed (node.go, link.go, rooms.go, views.go)

    Every handler of the node keeps the types of [WellTyped]: what comes from
    outside is checked by the validator or by the handler itself before it
    is stored.  What the store's readers return is then typed too.  [TypedApp]
    composes this with the interface. *)

From S2P Require Import Prelude GoStrings Utf8 Proto Sha256 Identity Base64 Crypto Bolt.
From S2P Require Import StoreData StoreCore StoreMessages StorePeers StoreFiles StoreRooms.
From S2P Require Import StoreFrame Backoff NodeState NodeRooms NodeCore NodeLink NodeFrame Delivery WellTyped.

(** ** What the validator and the generator of identifiers promise *)

Lemma checkID_as_valid m id : checkID_as m id = Ok tt → valid_id id.
Proof. unfold checkID_as, valid_id. by destruct (checkID id) as [[]|]. Qed.

Lemma NewID_valid rng id r : NewID rng = Ok (id, r) → valid_id id.
Proof.
  unfold NewID. intros ([b r'] & [_ Hb]%ReadFull_ok & [= <- _])%bind_ok; [|done].
  unfold valid_id, checkID. by rewrite hex_encode_length, Hb, hex_encode_decodable.
Qed.

Lemma hash_length data : slen (hex_encode (Sum256 data)) = 64.
Proof. by rewrite hex_encode_length, Sum256_length. Qed.

Record checked (e : Envelope) : Prop := {
  ck_msg : T e = TypeMsg → valid_id (ID e) ∧ (ReplyTo e = "" ∨ valid_id (ReplyTo e));
  ck_file : T e = TypeFile → valid_id (ID e) ∧ 0 < Size e <= MaxFileSize ∧ slen (Hash e) = 64;
  ck_roommsg : T e = TypeRoomMsg → valid_id (ID e);
  ck_event : T e = TypeRoomEvent → valid_id (Proto.Room e) }.

Lemma validate_checked e : is_ok (validate e) = true → checked e.
Proof.
  unfold validate. destruct (validate_body e) as [[]|] eqn:Hv; [intros _|done].
  unfold validate_body in Hv.
  split; intros Ht; rewrite Ht in Hv; cbn -[checkID slen MaxBody MaxFileSize eqs hex_decodable] in Hv.
  - apply bind_ok in Hv as ([] & Hi & Hv). split; [done|].
    do 3 apply bind_ok in Hv as ([] & _ & Hv).
    destruct (ReplyTo e =s? "") eqn:E; [left; by apply eqs_true|right]. by eapply checkID_as_valid.
  - apply bind_ok in Hv as ([] & Hi & Hv). split; [done|].
    apply bind_ok in Hv as ([] & _ & Hv). apply bind_ok in Hv as ([] & Hz%require_ok & Hv).
    apply bind_ok in Hv as ([] & Hh%require_ok & _).
    apply negb_true_iff, orb_false_iff in Hz as [Hz1%Z.leb_gt Hz2%Z.ltb_ge].
    apply negb_true_iff, orb_false_iff in Hh as [_ Hh%negb_false_iff%Z.eqb_eq]. done.
  - by apply bind_ok in Hv as ([] & Hi & _).
  - apply bind_ok in Hv as ([] & _ & Hv). apply bind_ok in Hv as ([] & Hi & _).
    by eapply checkID_as_valid.
Qed.

(** ** Handlers *)

Create HintDb types.
#[export] Hint Resolve MarkDelivered_types RecordAttempt_types DeleteFromOutbox_types DeleteMessage_types
  DeleteAllMessages_types Prune_types Observe_types SetVerified_types AcceptPendingKey_types ForgetPeer_types
  RenameIdentity_types SaveSettings_types CreateRoom_types UpdateRoom_types DeleteRoom_types AddRoomMessage_types
  MarkRoomDelivered_types RoomRecordAttempt_types ToggleRoomReaction_types NextRoomSenderSeq_types
  AddRoomMemberToOutbox_types WriteChunk_types CompleteFile_types MarkFileSent_types MarkFileSending_types
  DeleteFile_types : types.

Section handlers.
Context {B : Type → Type} `{Bolt B} `{Primitives} `{UnicodeTables} `{Wire} `{DiskFaults}.
Implicit Types (n : Node B) (s : Store B).

(** The step keeps the types of the rows. *)
Definition types_kept n n' : Prop := has_types (n_store n) → has_types (n_store n').
#[export] Instance types_kept_preorder : PreOrder types_kept.
Proof. split; [by intros n Ht|]. intros n1 n2 n3 H12 H23 Ht. by apply H23, H12. Qed.
Abbreviation tsteps := (steps types_kept).

Lemma t_quiet {A} (m : M B A) : steps (quiet (λ d, d) (λ _, True)) m → tsteps m.
Proof.
  intros Hm n Ht. destruct (q_store _ _ _ _ (Hm n)) as (_ & _ & Ed). unfold has_types in *. by rewrite Ed.
Qed.
Lemma t_on_store {A} (f : Store B → result A * Store B) : op_types f → tsteps (on_store f).
Proof. intros Hf n Ht. specialize (Hf _ Ht). unfold on_store. by destruct (f (n_store n)). Qed.
Lemma t_modify f : (∀ n, n_store (f n) = n_store n) → tsteps (modify f).
Proof. intros Hf n. unfold types_kept. cbn. by rewrite Hf. Qed.
Lemma t_update_link c f : tsteps (update_link c f).
Proof. by apply t_modify. Qed.

(** The room that [GetRoom] reads is typed. *)
Lemma t_see_room {A} id (g : result Room → M B A) :
  (∀ e, tsteps (g (Err e))) → (∀ r, room_ok r → valid_id id → tsteps (g (Ok r))) →
  tsteps (mbind g (read_store (λ s, GetRoom s id))).
Proof.
  intros He Hok n Ht. unfold mbind, M_bind, read_store. destruct (GetRoom (n_store n) id) as [r|e] eqn:E.
  - apply GetRoom_gives in E as [Hr <-]; [|done]. apply Hok; [done|apply Hr|done].
  - by apply He.
Qed.
Lemma t_try_room {A} id (g : Room → M B (result A)) :
  (∀ r, room_ok r → valid_id id → tsteps (g r)) → tsteps (try_ (read_store (λ s, GetRoom s id)) g).
Proof. intros Hok. apply t_see_room; [|done]. intros e. apply steps_ret, _. Qed.

Lemma t_ignore {A} (m : M B A) : tsteps m → tsteps (ignore m).
Proof. intros Hm. apply steps_bind; [typeclasses eauto|done|]. intros _. apply steps_ret, _. Qed.
End handlers.

(** A handler: its leaves are quiet or operations that keep the types; the
    rooms it reads are typed. *)
Ltac types_tac :=
  cbv zeta; repeat first
    [ solve [eauto 2 with types]
    | solve [apply t_quiet; eauto 2 with steps]
    | apply t_update_link
    | apply t_modify; reflexivity
    | apply t_on_store; solve [eauto 6 with types gives typeclass_instances]
    | apply t_try_room; intros ? ? ?
    | apply t_see_room; [intros ?|intros ? ? ?]
    | apply steps_try; [typeclasses eauto| |intros ?]
    | apply steps_bind; [typeclasses eauto| |intros ?]
    | apply steps_for_each; [typeclasses eauto|intros ?]
    | case_match ].

(** ** Lists that fit *)

Lemma sortStrings_length l : length (sortStrings l) = length l.
Proof. apply Permutation_length, sort_loop_Permutation. Qed.

Lemma room_add_ok r mb :
  room_ok r → (MaxRoomMembers <=? Z.of_nat (length (r_Members r))) = false →
  room_ok (set_Members (sortStrings (r_Members r ++ [mb])) r).
Proof.
  intros Hr Hl. apply set_Members_ok; [done|]. rewrite sortStrings_length, length_app. cbn [length]. lia.
Qed.
Lemma room_drop_ok r (P : string → Prop) `{!∀ x, Decision (P x)} :
  room_ok r → room_ok (set_Members (filter P (r_Members r)) r).
Proof.
  intros Hr. apply set_Members_ok; [done|]. pose proof (ro_members _ Hr).
  pose proof (length_filter P (r_Members r)). lia.
Qed.
#[export] Hint Resolve room_add_ok room_drop_ok NewID_valid : types.

Section node.
Context {B : Type → Type} `{Bolt B} `{Primitives} `{UnicodeTables} `{Wire} `{DiskFaults}.
Implicit Types (n : Node B) (s : Store B) (e : Envelope).
Abbreviation tsteps := (steps types_kept).

(** *** Rooms *)

Lemma room_message_fresh id room sender dir body ts status q :
  valid_id id → valid_id room →
  (dir = DirOut ∧ status = StatusQueued) ∨ (dir = DirIn ∧ status = StatusReceived) →
  room_message_ok (room_message id room sender dir body ts status q).
Proof.
  intros Hi Hr Hs. split; cbn; [done|done| |done|done|done]. naive_solver.
Qed.

Hint Resolve room_message_fresh : types.

Lemma t_sendRoomEvent now mb room ev actor name l : tsteps (sendRoomEvent now mb room ev actor name l : M B _).
Proof. by apply t_quiet, q_sendRoomEvent. Qed.
Lemma t_tell_others now names skip room ev actor name l :
  tsteps (tell_others now names skip room ev actor name l : M B _).
Proof. by apply t_quiet, q_tell_others. Qed.
Hint Resolve t_sendRoomEvent t_tell_others : types.

Lemma t_flush_room_loop c mb room now l : tsteps (flush_room_loop c mb room now l : M B _).
Proof. induction l as [|m l IH]; cbn [flush_room_loop]; types_tac. Qed.
Hint Resolve t_flush_room_loop : types.
Lemma t_flushRoomMember now mb room : tsteps (flushRoomMember now mb room : M B _).
Proof. unfold flushRoomMember. types_tac. Qed.
Hint Resolve t_flushRoomMember : types.

Lemma t_CreateRoom now rng rnd name l : tsteps (CreateRoom_ now rng rnd name l : M B _).
Proof.
  unfold CreateRoom_. types_tac.
Qed.
Lemma t_SendRoomMessage now rng rnd room body : tsteps (SendRoomMessage now rng rnd room body : M B _).
Proof.
  unfold SendRoomMessage. types_tac.
Qed.
Lemma t_AddRoomMember now rnd room mb : tsteps (AddRoomMember now rnd room mb : M B _).
Proof. unfold AddRoomMember. types_tac. Qed.
Lemma t_RemoveRoomMember now rnd room mb : tsteps (RemoveRoomMember now rnd room mb : M B _).
Proof. unfold RemoveRoomMember. types_tac. Qed.
Lemma t_LeaveRoom now rnd room : tsteps (LeaveRoom now rnd room : M B _).
Proof. unfold LeaveRoom. types_tac. Qed.
Lemma t_RenameRoom now rnd room name : tsteps (RenameRoom now rnd room name : M B _).
Proof. unfold RenameRoom. types_tac. Qed.
Lemma t_SendRoomReaction now room id emoji : tsteps (SendRoomReaction now room id emoji : M B _).
Proof. unfold SendRoomReaction. types_tac. Qed.
Lemma t_AcceptRoomInvite now rnd room : tsteps (AcceptRoomInvite now rnd room : M B _).
Proof. unfold AcceptRoomInvite. types_tac. Qed.
Lemma t_DeclineRoomInvite now room : tsteps (DeclineRoomInvite now room : M B _).
Proof. unfold DeclineRoomInvite. types_tac. Qed.

Lemma t_handleRoomReaction now l e : tsteps (handleRoomReaction now l e : M B _).
Proof. unfold handleRoomReaction. types_tac. Qed.
Lemma t_handleRoomMsg now rnd c l e : valid_id (ID e) → tsteps (handleRoomMsg now rnd c l e : M B _).
Proof. intros Hi. unfold handleRoomMsg. types_tac. Qed.
Lemma t_handleRoomAck now l e : tsteps (handleRoomAck now l e : M B _).
Proof. unfold handleRoomAck. types_tac. Qed.

Lemma t_handle_create now rnd actor e : valid_id (Proto.Room e) → tsteps (handle_create now rnd actor e : M B _).
Proof.
  intros Hi. unfold handle_create. apply steps_bind; [typeclasses eauto|types_tac|intros me]. cbv zeta.
  destruct (negb _); [types_tac|]. set (members := dedupeMembers _).
  destruct (Z.ltb_spec MaxRoomMembers (Z.of_nat (length members))); [types_tac|].
  apply t_see_room; [intros _; types_tac|]. intros r Hr _. case_match; [types_tac|].
  apply steps_bind; [typeclasses eauto| |intros _; types_tac].
  apply t_on_store, UpdateRoom_types, set_Members_ok; [by apply set_RName_ok|done].
Qed.
Lemma t_handleRoomEvent now rnd l e : valid_id (Proto.Room e) → tsteps (handleRoomEvent now rnd l e : M B _).
Proof.
  intros Hi. pose proof t_handle_create. unfold handleRoomEvent, handle_join, handle_remove, handle_leave, handle_rename, removePeer.
  types_tac.
Qed.

(** *** Messages *)

Lemma t_SendReply now rng rnd peer body rt : tsteps (SendReply now rng rnd peer body rt : M B _).
Proof.
  unfold SendReply, pinned. case_match; [types_tac|]. apply steps_try; [typeclasses eauto|types_tac|intros p].
  destruct (NewID rng) as [[id r]|err] eqn:E; [|types_tac]. apply steps_try; [typeclasses eauto| |intros md; types_tac].
  apply t_on_store. intros s. apply AddMessage_types. split; cbn; [by eapply NewID_valid|auto|done|done].
Qed.
Lemma t_flush_loop now rnd peer c force l : tsteps (flush_loop now rnd peer c force l : M B _).
Proof. induction l as [|m l IH]; cbn [flush_loop]; types_tac. Qed.
Hint Resolve t_flush_loop : types.
Lemma t_flush now rnd peer force : tsteps (flush now rnd peer force : M B _).
Proof. unfold flush. types_tac. Qed.
Hint Resolve t_flush : types.
Lemma t_outbox_tick now rnd : tsteps (outbox_tick now rnd : M B _).
Proof. unfold outbox_tick. types_tac. Qed.
Lemma t_retention_run now AddDate : tsteps (retention_run now AddDate : M B _).
Proof. unfold retention_run. types_tac. Qed.

Lemma t_handleMsg now rnd c l e :
  valid_id (ID e) → ReplyTo e = "" ∨ valid_id (ReplyTo e) → tsteps (handleMsg now rnd c l e : M B _).
Proof.
  intros Hi Hr. unfold handleMsg. destruct (rate_step _ _ _) as [[count start] over].
  apply steps_bind; [typeclasses eauto|types_tac|intros _]. destruct over; [types_tac|].
  apply steps_bind; [typeclasses eauto| |intros md; types_tac].
  apply t_on_store. intros s. apply AddMessage_types. split; cbn; [done|auto|done|done].
Qed.
Lemma t_handleAck l e : tsteps (handleAck l e : M B _).
Proof. unfold handleAck. types_tac. Qed.
Lemma t_handleDel l e : tsteps (handleDel l e : M B _).
Proof. unfold handleDel. types_tac. Qed.

(** *** Files *)

Lemma t_SendFile now rng rnd peer name data : tsteps (SendFile now rng rnd peer name data : M B _).
Proof.
  unfold SendFile, pinned. apply steps_try; [typeclasses eauto|types_tac|intros p].
  destruct (_ || _) eqn:Ez; [types_tac|]. apply orb_false_iff in Ez as [Ez1%Z.eqb_neq Ez2%Z.ltb_ge].
  destruct (NewID rng) as [[id r]|err] eqn:E; [|types_tac]. apply steps_try; [typeclasses eauto| |intros md; types_tac].
  pose proof (slen_nonneg data). apply t_on_store, AddOutboundFile_types; [by eapply NewID_valid|lia|apply hash_length].
Qed.
Lemma t_file_sent peer f : tsteps (file_sent peer f : M B _).
Proof. unfold file_sent. types_tac. Qed.
Hint Resolve t_file_sent : types.
Lemma t_chunk_loop now peer c f data fuel off : tsteps (chunk_loop now peer c f data fuel off : M B _).
Proof.
  pose proof (q_panic (B := B) (λ d, d) (λ _, True)).
  revert off. induction fuel as [|fuel IH]; intros off; cbn [chunk_loop]; types_tac.
Qed.
Hint Resolve t_chunk_loop : types.
Lemma t_flushFile_from now peer c f data off : tsteps (flushFile_from now peer c f data off : M B _).
Proof. unfold flushFile_from. types_tac. Qed.
Hint Resolve t_flushFile_from : types.
Lemma t_flushFile_prepare peer id : tsteps (flushFile_prepare peer id : M B _).
Proof. unfold flushFile_prepare. types_tac. Qed.
Lemma t_flushFile_send now peer p : tsteps (flushFile_send now peer p : M B _).
Proof. unfold flushFile_send. destruct p as [[[c l] f] data]. types_tac. Qed.
Lemma t_flushFile_answer now peer w t : tsteps (flushFile_answer now peer w t : M B _).
Proof. unfold flushFile_answer. destruct w as [[c f] data]. types_tac. Qed.

Lemma t_handleFile now c l e :
  valid_id (ID e) → 0 < Size e <= MaxFileSize → slen (Hash e) = 64 → tsteps (handleFile now c l e : M B _).
Proof.
  intros Hi Hz Hh. pose proof (BeginReceive_types (B := B)). unfold handleFile. types_tac.
Qed.
Lemma t_complete_rx now rnd c l id : tsteps (complete_rx now rnd c l id : M B _).
Proof. unfold complete_rx. types_tac. Qed.
Hint Resolve t_complete_rx : types.
Lemma t_handleChunk now rnd c l e : tsteps (handleChunk now rnd c l e : M B _).
Proof. unfold handleChunk. types_tac. Qed.
Lemma t_DeleteFile id : tsteps (DeleteFile_ id : M B _).
Proof. unfold DeleteFile_. types_tac. Qed.

(** *** Sessions and peers *)

Lemma t_dispatch now rnd c l e : checked e → tsteps (dispatch now rnd c l e : M B _).
Proof.
  intros [Hm Hf Hr He].
  assert (T e = TypeMsg → tsteps (handleMsg now rnd c l e : M B _)) by (intros []%Hm; by apply t_handleMsg).
  assert (T e = TypeFile → tsteps (handleFile now c l e : M B _)) by (intros (? & ? & ?)%Hf; by apply t_handleFile).
  assert (T e = TypeRoomMsg → tsteps (handleRoomMsg now rnd c l e : M B _)) by (intros ?%Hr; by apply t_handleRoomMsg).
  assert (T e = TypeRoomEvent → tsteps (handleRoomEvent now rnd l e : M B _))
    by (intros ?%He; by apply t_handleRoomEvent).
  pose proof t_handleAck. pose proof t_handleDel. pose proof t_handleChunk. pose proof t_handleRoomAck.
  pose proof t_handleRoomReaction. unfold dispatch.
  repeat match goal with
  | |- steps _ (if T e =s? ?t then _ else _) =>
      let Ht := fresh "Ht" in destruct (T e =s? t) eqn:Ht; [apply eqs_true in Ht|clear Ht]
  | |- steps _ (if (T e =s? _) || _ then _ else _) => case_match
  end.
  all: types_tac.
Qed.
Lemma t_session_turn now rnd c rcv :
  (∀ e, rcv = Ok e → is_ok (validate e) = true) → tsteps (session_turn now rnd c rcv : M B _).
Proof.
  intros Hv. unfold session_turn. apply steps_bind; [typeclasses eauto| |intros go; types_tac].
  destruct rcv as [e|]; cbn [read_turn]; [|types_tac]. apply steps_bind; [typeclasses eauto|types_tac|].
  intros [l|]; [|types_tac]. by apply t_dispatch, validate_checked, Hv.
Qed.

Lemma t_establish now rnd c sc wantFP : tsteps (establish now rnd c sc wantFP : M B _).
Proof.
  unfold establish, set_link. destruct sc as [h|err]; types_tac.
Qed.
Hint Resolve t_establish : types.
Lemma t_serve now rnd c sc wantFP : tsteps (serve now rnd c sc wantFP : M B _).
Proof. unfold serve. types_tac. Qed.
Lemma t_Dial now rnd c sc fp : tsteps (Dial now rnd c sc fp : M B _).
Proof. unfold Dial. types_tac. Qed.
Lemma t_Verify name v : tsteps (Verify name v : M B _).
Proof. unfold Verify. types_tac. Qed.
Lemma t_AcceptKey name : tsteps (AcceptKey name : M B _).
Proof. unfold AcceptKey. types_tac. Qed.
Lemma t_Forget name : tsteps (Forget name : M B _).
Proof. unfold Forget. types_tac. Qed.
Lemma t_Rename now a err name : tsteps (Rename now a err name : M B _).
Proof.
  unfold Rename. types_tac; first [by apply t_modify | by apply t_quiet, q_output].
Qed.
Lemma t_DeleteFromOutbox id : tsteps (DeleteFromOutbox_ id : M B _).
Proof. unfold DeleteFromOutbox_. types_tac. Qed.
Lemma t_DeleteMessage id : tsteps (DeleteMessage_ id : M B _).
Proof. unfold DeleteMessage_. types_tac. Qed.
Hint Resolve t_CreateRoom t_SendRoomMessage t_AddRoomMember t_RemoveRoomMember t_LeaveRoom t_RenameRoom
  t_SendRoomReaction t_AcceptRoomInvite t_DeclineRoomInvite t_SendFile t_flushFile_prepare t_flushFile_send
  t_flushFile_answer t_DeleteFile t_Rename t_SendReply t_outbox_tick t_serve t_Dial t_Verify t_AcceptKey
  t_Forget t_DeleteFromOutbox t_DeleteMessage t_retention_run : types.

Lemma t_side a : tsteps (run_side a : M B _).
Proof.
  destruct a; cbn [run_side]; try apply t_ignore; first
    [ solve [eauto 2 with types] | apply t_quiet; first [solve [eauto 2 with steps] | by apply q_ping] ].
Qed.

(** What the environment gives a handler: the session hands on valid envelopes only. *)
Definition received (a : act) : Prop :=
  match a with AReceive _ _ _ e => is_ok (validate e) = true | _ => True end.

Lemma t_act a : received a → tsteps (run_act a : M B _).
Proof.
  intros Ha. destruct a; cbn [run_act received] in *; try apply t_ignore; try solve [eauto 2 with types].
  - apply t_session_turn. by intros e0 [= <-].
  - by apply t_session_turn.
  - by apply t_modify.
  - apply t_side.
Qed.

(** One step of a node, with what the interface may ask for besides. *)
Inductive node_step : Node B → Node B → Prop :=
| node_act a n : received a → node_step n (run_act a n).2
| node_forget name n : node_step n (Forget name n).2
| node_unsend id n : node_step n (DeleteFromOutbox_ id n).2
| node_delete id n : node_step n (DeleteMessage_ id n).2
| node_retention now AddDate n : node_step n (retention_run now AddDate n).2
| node_settings st n : node_step n (on_store (λ s, SaveSettings s st) n).2
| node_clear n : node_step n (on_store DeleteAllMessages n).2.

Lemma node_step_types n n' : node_step n n' → has_types (n_store n) → has_types (n_store n').
Proof.
  intros Hs. destruct Hs as [a n Ha|name n|id n|id n|now AddDate n|st n|n].
  - by apply t_act.
  - apply t_Forget.
  - apply t_DeleteFromOutbox.
  - apply t_DeleteMessage.
  - apply t_retention_run.
  - apply t_on_store, SaveSettings_types.
  - apply t_on_store, DeleteAllMessages_types.
Qed.
Lemma node_run_types n n' : rtc node_step n n' → has_types (n_store n) → has_types (n_store n').
Proof. induction 1 as [|n n1 n2 Hs _ IH]; [done|]. intros Ht. by eapply IH, node_step_types. Qed.

(** ** What the readers return *)

Lemma mapM_Forall {X Y} (f : X → result Y) (P : Y → Prop) l ys :
  (∀ x y, x ∈ l → f x = Ok y → P y) → mapM f l = Ok ys → Forall P ys.
Proof.
  revert ys. induction l as [|x l IH]; intros ys Hf; cbn; [by intros [= <-]|].
  intros (y & Hy & (ys' & Hys & [= <-])%bind_ok)%bind_ok. constructor.
  - by apply (Hf x); [left|].
  - apply IH; [|done]. intros x' y' Hx'. apply Hf. by right.
Qed.

Section readers.
Context s (Ht : has_types s).

Lemma items_rows {V} (b : bucket B V) P `{!BucketType b P} kv : kv ∈ bitems (bsel b (s_db s)) → P kv.1 kv.2.
Proof. destruct kv as [k v]. intros Hin%bitems_get. by apply (bt_get _ Ht). Qed.

Lemma seek_rows {V} (b : bucket B V) P `{!BucketType b P} u :
  Forall (λ kv, P kv.1 kv.2) (c_seek_prev (bitems (bsel b (s_db s))) u).
Proof.
  rewrite c_seek_prev_filter by apply bitems_sorted. apply Forall_reverse, Forall_forall.
  intros kv [_ Hkv]%list_elem_of_filter. by apply (items_rows b).
Qed.

Lemma decryptMessage_typed m m' : message_ok m → decryptMessage s m = Ok m' → message_ok m'.
Proof. unfold decryptMessage. case_match; [|done]. intros Hm [= <-]. by apply set_Body_ok. Qed.
Lemma decryptRoomMessage_typed m m' : room_message_ok m → decryptRoomMessage s m = Ok m' → room_message_ok m'.
Proof. unfold decryptRoomMessage. intros Hm (b & _ & [= <-])%bind_ok. by apply rset_Body_ok. Qed.

Lemma collect_ok prefix lim vs out :
  Forall (λ kv, is_row message_row kv.1 kv.2) vs → collect s prefix lim vs = Ok out → Forall message_ok out.
Proof.
  intros Hvs. revert lim out. induction Hvs as [|[k v] vs (m & Hv & _ & Hm) _ IH]; intros lim out.
  { destruct lim; cbn; by intros [= <-]. }
  destruct lim as [|lim]; [cbn; by intros [= <-]|]. cbn in Hv. subst v. cbn [collect]. case_match; [|by intros [= <-]].
  cbn [unmarshal mbind result_bind]. intros (m' & Hm' & (out' & Ho & [= <-])%bind_ok)%bind_ok.
  constructor; [by eapply decryptMessage_typed|by eapply IH].
Qed.
Lemma Messages_ok peer limit l : Messages s peer limit = Ok l → Forall message_ok l.
Proof.
  unfold Messages, View. tx_unfold. destruct (collect _ _ _ _) as [out|] eqn:E; [|done]. intros [= <-].
  by apply Forall_reverse, (collect_ok _ _ _ _ (seek_rows bMsgs _ _) E).
Qed.

Lemma collect_room_ok prefix lim vs out :
  Forall (λ kv, is_marshalled room_message_row kv.1 kv.2) vs → collect_room s prefix lim vs = Ok out →
  Forall room_message_ok out.
Proof.
  intros Hvs. revert lim out. induction Hvs as [|[k v] vs Hv _ IH]; intros lim out.
  { destruct lim; cbn; by intros [= <-]. }
  destruct lim as [|lim]; [cbn; by intros [= <-]|]. cbn in Hv. cbn [collect_room]. case_match; [|by intros [= <-]].
  intros (m & ->%unmarshal_ok & (m' & Hm' & (out' & Ho & [= <-])%bind_ok)%bind_ok)%bind_ok.
  apply marshalled_json in Hv as [_ Hm].
  constructor; [by eapply decryptRoomMessage_typed|by eapply IH].
Qed.
Lemma RoomMessages_ok room limit l : RoomMessages s room limit = Ok l → Forall room_message_ok l.
Proof.
  unfold RoomMessages, View. tx_unfold. destruct (collect_room _ _ _ _) as [out|] eqn:E; [|done]. intros [= <-].
  by apply Forall_reverse, (collect_room_ok _ _ _ _ (seek_rows bRoomMsgs _ _) E).
Qed.

Lemma Pending_ok peer l : Pending s peer = Ok l → Forall message_ok l.
Proof.
  unfold Pending. intros (out & Ho & [= <-])%bind_ok. unfold sortBySeq.
  rewrite (sort_loop_Permutation _ (concat out)). apply Forall_concat.
  refine (mapM_Forall _ _ _ _ _ Ho). intros k ms _. unfold pending_entry.
  destruct (bget (d_msgs (s_db s)) k) as [r|] eqn:Eg; [|by intros [= <-]].
  destruct (bt_get _ Ht (b := bMsgs) _ _ Eg) as (m & -> & _ & Hm). cbn [unmarshal mbind result_bind].
  intros (m' & Hm' & [= <-])%bind_ok. case_match; [|done]. constructor; [by eapply decryptMessage_typed|done].
Qed.

Lemma ListRooms_ok l : ListRooms s = Ok l → Forall room_ok l.
Proof.
  apply mapM_Forall. intros r r' (kv & -> & Hkv)%list_elem_of_fmap.
  pose proof (items_rows bRooms _ kv Hkv) as Hr. intros (r0 & E%unmarshal_ok & Hd)%bind_ok.
  rewrite E in Hr. apply marshalled_json in Hr as [_ Hr]. by eapply decryptRoom_typed.
Qed.

Lemma ListFiles_ok : ∃ l, ListFiles s = Ok l ∧ Forall file_ok l.
Proof.
  set (g := λ r : row File, match r with json f => Some f | corrupt => None end).
  assert (Hin : ∀ r, r ∈ reverse (bitems (d_files (s_db s))).*2 → ∃ f, r = json f ∧ file_ok f).
  { intros r. rewrite elem_of_reverse. intros (kv & -> & Hkv)%list_elem_of_fmap.
    destruct (items_rows bFiles _ kv Hkv) as (f & -> & _ & Hf). by exists f. }
  assert (E : ListFiles s = Ok (omap g (reverse (bitems (d_files (s_db s))).*2))).
  { apply mapM_all_ok. intros r (f & -> & _)%Hin. by exists f. }
  eexists. split; [exact E|]. refine (mapM_Forall _ _ _ _ _ E). intros r f (f' & -> & Hf)%Hin. by intros [= <-].
Qed.

Lemma Settings_ok : ∃ st, Settings_ s = Ok st ∧ 0 <= RetentionDays st <= 3650.
Proof.
  unfold Settings_, View. tx_unfold. destruct (bget (d_meta (s_db s)) "settings") as [v|] eqn:Eg; [|by eexists].
  apply (bt_get _ Ht (b := bMeta)) in Eg. destruct v as [b|r|r]; cbn in Eg.
  - by destruct Eg.
  - by destruct Eg.
  - destruct Eg as (_ & st & -> & Hst). by exists st.
Qed.
End readers.
End node.

#[export] Hint Resolve t_CreateRoom t_SendRoomMessage t_AddRoomMember t_RemoveRoomMember t_LeaveRoom t_RenameRoom
  t_SendRoomReaction t_AcceptRoomInvite t_DeclineRoomInvite t_SendFile t_DeleteFile t_Rename t_SendReply t_Dial t_Verify
  t_AcceptKey t_Forget t_DeleteFromOutbox t_DeleteMessage : types.

(** ** Example: a message each way, a file and a room from a peer *)

#[local] Existing Instance gmap_bolt.
#[local] Existing Instance toy_primitives.
#[local] Existing Instance ascii_tables.
#[local] Existing Instance good_wire.
#[local] Existing Instance no_faults.

Definition ex_typed_start : Node gbucket :=
  New (mkStore empty_db None None ["data"; "files"] ∅) (mkConfig 0 0 0 0 0)
    (mkIdentity "me" "0123456789abcdef" "me's public key").

Definition ex_hex : string := "0123456789abcdef0123456789abcdef".
Definition ex_room_event : Envelope :=
  mkEnvelope TypeRoomEvent "" 5 "" "" "" "" "" 0 "" 0 "" ex_hex 0 "create" "Tea" "Alice" ["Alice"; "me"].
Definition ex_file_header : Envelope :=
  mkEnvelope TypeFile ex_hex 0 "" "" "" "" "a.txt" 10 (hex_encode (Sum256 "0123456789")) 0 "" "" 0 "" "" "" [].
Definition ex_hello : Envelope :=
  mkEnvelope TypeMsg ex_hex 5 "hello" "" "" "" "" 0 "" 0 "" "" 0 "" "" "" [].

Definition ex_acts : list act :=
  [AServe 5 (Some "nonce nonce ") 1 (Ok (mkHandshake "Alice" "alice's public key, 32 bytes... " []));
   ASend 6 "sixteen random b" (Some "nonce nonce ") "Alice" "hi" "";
   AReceive 7 (Some "nonce nonce ") 1 ex_hello;
   AReceive 8 (Some "nonce nonce ") 1 ex_room_event;
   AReceive 9 (Some "nonce nonce ") 1 ex_file_header].

Definition ex_typed_end : Node gbucket := foldl (λ n a, (run_act a n).2) ex_typed_start ex_acts.

Lemma ex_typed_run : rtc node_step ex_typed_start ex_typed_end.
Proof.
  unfold ex_typed_end, ex_acts. cbn [foldl].
  do 5 (eapply rtc_r; [|apply node_act; by vm_compute]). apply rtc_refl.
Qed.

Definition read_all (n : Node gbucket) : nat * nat * nat :=
  (length (match Messages (n_store n) "Alice" 10 with Ok l => l | Err _ => [] end),
   length (match ListRooms (n_store n) with Ok l => l | Err _ => [] end),
   length (match ListFiles (n_store n) with Ok l => l | Err _ => [] end)).

Lemma ex_typed_reads : read_all ex_typed_end = (2%nat, 1%nat, 1%nat).
Proof. vm_compute. reflexivity. Qed.
