(* ===== verification/TypedApp.v ===== *)
(** * The whole program keeps its rows well typed (app.go, api.go over the node)

    The program from its start: requests to the interface, envelopes and
    timers of the node, restarts on the database it left.  Its rows stay
    typed, and what the interface answers is. *)

From stdpp Require Import sorting.
From S2P Require Import Prelude GoStrings Utf8 Proto Sha256 Identity Base64 Json Codec Crypto Backup Bolt.
From S2P Require Import StoreData StoreCore StoreMessages StorePeers StoreFiles StoreRooms.
From S2P Require Import Backoff Invite NodeState NodeRooms NodeViews App NodeCore Sniff Api.
From S2P Require Import NodeLink NodeFrame Delivery WellTyped TypedNode.

(** ** What the interface answers *)

Definition view_ok (v : RoomView) : Prop :=
  valid_id (rv_ID v) ∧ (rv_State v = RoomJoined ∨ rv_State v = RoomPending) ∧
  Z.of_nat (length (rv_Members v)) <= MaxRoomMembers ∧
  match rv_LastMsg v with Some m => room_message_ok m | None => True end.

Definition last_ok (v : PeerView) : Prop := match pv_Last v with Some m => message_ok m | None => True end.

Definition payload_ok (p : payload) : Prop :=
  match p with
  | PMessages l => Forall message_ok l
  | PSearch l => Forall (λ ms, message_ok ms.1) l
  | PPeers l => Forall last_ok l
  | PRoomMessages l => Forall room_message_ok l
  | PRooms l => Forall view_ok l
  | PRoom v => view_ok v
  | PFiles l => Forall file_ok l
  | PFile f => file_ok f
  | PSettings st => 0 <= RetentionDays st <= 3650
  | _ => True
  end.

Section app.
Context {B : Type → Type} `{Bolt B} `{Primitives} `{Curve} `{UnicodeTables} `{Wire} `{DiskFaults} `{QR} `{Web}.
Implicit Types (a : App B) (n : Node B) (s : Store B).

(** ** Views *)

Lemma search_rows_typed s query lim rs l :
  (∀ r, r ∈ rs → ∃ k, is_row message_row k r) →
  search_rows s query lim rs = Some (Ok l) → Forall (λ ms, message_ok ms.1) l.
Proof.
  revert lim l. induction rs as [|r rs IH]; intros lim l Hin; cbn [search_rows].
  { intros [= <-]. constructor. }
  destruct lim as [|lim]; [intros [= <-]; constructor|].
  destruct (Hin r) as (k & m & -> & _ & Hm); [by left|]. cbn [unmarshal mbind result_bind].
  destruct (decryptMessage s m) as [m'|] eqn:E; [|done].
  assert (Hrs : ∀ r', r' ∈ rs → ∃ k, is_row message_row k r') by (intros r' Hr'; apply Hin; by right).
  case_match; [|by apply IH]. cbn [mbind option_bind]. destruct (make_snippet _ _) as [sn|]; [|done].
  destruct (search_rows s query lim rs) as [[out|]|] eqn:Eo; [|done..]. intros [= <-].
  constructor; [by eapply decryptMessage_typed|by eapply IH].
Qed.
Lemma Search_ok s query limit l :
  has_types s → Search s query limit = Some (Ok l) → Forall (λ ms, message_ok ms.1) l.
Proof.
  intros Hs. unfold Search. case_match; [by intros [= <-]|]. apply search_rows_typed.
  intros r (kv & -> & Hkv)%list_elem_of_fmap. exists kv.1. exact (items_rows s Hs bMsgs _ kv Hkv).
Qed.

Lemma Peers_ok sk n l : has_types (n_store n) → Peers sk n = Ok l → Forall last_ok l.
Proof.
  intros Hn. unfold Peers. intros (ps & _ & (pend & _ & [= <-])%bind_ok)%bind_ok.
  rewrite (sort_loop_Permutation _ (_ ++ _)). apply Forall_app. split; apply Forall_fmap, Forall_forall; [|done].
  intros p _. unfold last_ok. cbn [pv_Last pinned_view compose].
  destruct (Messages (n_store n) (p_Name p) 1) as [ms|] eqn:E; [|done].
  apply (Messages_ok _ Hn) in E. destruct E as [|m ms Hm Hms]; [done|]. by destruct ms.
Qed.

Lemma room_view_ok n r : has_types (n_store n) → room_ok r → view_ok (room_view n r).
Proof.
  intros Hn [Hi Hst Hl]. split_and!; [done|done|by cbn; rewrite length_fmap|]. cbn.
  destruct (RoomMessages (n_store n) (r_ID r) 1) as [ms|] eqn:E; [|done].
  apply (RoomMessages_ok _ Hn) in E. destruct (last ms) as [m|] eqn:El; [|done].
  apply last_Some in El as [l ->]. by apply Forall_app in E as [_ [Hm _]%Forall_cons].
Qed.
Lemma Rooms_ok n l : has_types (n_store n) → Rooms n = Ok l → Forall view_ok l.
Proof.
  intros Hn. unfold Rooms. intros (rs & Hr & [= <-])%bind_ok. apply (ListRooms_ok _ Hn) in Hr.
  apply Forall_fmap. eapply Forall_impl; [exact Hr|]. intros r. by apply room_view_ok.
Qed.
Lemma GetRoom_view_ok n id v : has_types (n_store n) → GetRoom_ n id = Ok v → view_ok v.
Proof.
  intros Hn. unfold GetRoom_. intros (r & Hr & [= <-])%bind_ok.
  apply GetRoom_gives in Hr as [Hr _]; [|done]. by apply room_view_ok.
Qed.
Lemma ListFiles_all s l : has_types s → ListFiles s = Ok l → Forall file_ok l.
Proof. intros Hs Hl. destruct (ListFiles_ok s Hs) as (l' & E & Hf). congruence. Qed.
Lemma Settings_range s st : has_types s → Settings_ s = Ok st → 0 <= RetentionDays st <= 3650.
Proof. intros Hs Hst. destruct (Settings_ok s Hs) as (st' & E & Hr). congruence. Qed.
Lemma GetFile_typed s id f : has_types s → GetFile s id = Ok f → file_ok f.
Proof. intros Hs Hf. by apply (View_gives _ _ (file_row id)) in Hf as [_ Hf]; [|apply get_file_gives|]. Qed.

(** ** The app *)

Definition app_types a : Prop :=
  (∀ s, a_St a = Some s → has_types s) ∧ (∀ n, a_n a = Some n → has_types (n_store n)).
Definition disk_types (dk : Disk B) : Prop := ∀ d, dk_db dk = Ok d → typed d.

Lemma St_types a s : app_types a → St a = Some s → has_types s.
Proof.
  intros [Hs Hn]. unfold St. destruct (a_n a) as [n|]; [|by apply Hs]. intros [= <-]. by apply Hn.
Qed.
Lemma with_n_types n a : app_types a → has_types (n_store n) → app_types (with_n n a).
Proof. intros [Hs _] Hn. split; [done|]. by intros ? [= <-]. Qed.
Lemma with_St_types s a : app_types a → has_types s → app_types (with_St s a).
Proof.
  intros [Hs Hn] Ht. unfold with_St. destruct (a_n a) as [n|]; split; cbn.
  - done.
  - by intros ? [= <-].
  - by intros ? [= <-].
  - done.
Qed.

Lemma SaveIdentity_types id rnd : op_types (λ s, SaveIdentity s id rnd).
Proof.
  intros s Hs. unfold SaveIdentity. destruct (encryptWith _ _ _); [|done].
  apply Update_types with (λ _, True); [|done]. gives_tac. split; [done|]. by eexists.
Qed.
Lemma EnablePassphrase_types s pass rnd1 rnd2 r s' :
  StoreCore.EnablePassphrase s pass rnd1 rnd2 = Some (r, s') → has_types s → has_types s'.
Proof.
  unfold StoreCore.EnablePassphrase. intros E Hs. repeat case_match; simplify_eq/=; try done.
  all: match goal with E : _ ≫= _ = Some _ |- _ => revert E end; unfold mbind, option_bind; case_match; [|done];
    repeat case_match; try done; intros [= <- <-];
    match goal with Hu : Update ?s0 ?f = (_, ?s1) |- _ =>
      assert (Ht : has_types s1); [|by destruct s1];
      refine (Update_types_eq s0 f (λ _, True) _ _ Hu _ Hs)
    end; unfold enable_tx; gives_tac; try (split; [done|by eexists]); cbn; auto.
Qed.

Lemma Start_types env now : steps types_kept (Start env now : M B _).
Proof. pose proof (q_output (B := B) (λ d, d) (λ _, True)). unfold Start. types_tac; by apply t_quiet, q_output. Qed.
Lemma startNode_types env now s id a r a' :
  startNode env now s id a = (r, a') → app_types a → has_types s → app_types a'.
Proof.
  unfold startNode. intros E Ha Hs. pose proof (Start_types env now (New s (ac_Timing (a_cfg a)) id) Hs) as Hn.
  destruct (Start _ _ _) as [r1 n]. destruct r1; simplify_eq; [by apply with_n_types|done].
Qed.

Lemma OpenWithPassphrase_types d pass dir files s :
  (∀ d', d = Ok d' → typed d') → OpenWithPassphrase d pass dir files = Ok s → has_types s.
Proof.
  intros Hd. unfold OpenWithPassphrase, openStore. destruct d as [d'|]; [|done]. specialize (Hd d' eq_refl).
  cbn [mbind result_bind]. intros E. repeat case_match; by simplify_eq/=.
Qed.
Lemma Open_types env now dk cfg a : disk_types dk → Open env now dk cfg = Ok a → app_types a.
Proof.
  intros Hd. unfold Open. case_match; [|done].
  destruct (OpenWithPassphrase _ _ _ _) as [s|e] eqn:Es; [|case_match; [by intros [= <-]|done]].
  apply (OpenWithPassphrase_types _ _ _ _ _ Hd) in Es.
  destruct (LoadIdentity s) as [[id|]|]; [|intros [= <-]; by split; [intros ? [= <-]|]|done].
  set (s' := match s_encKey s with None => _ | Some _ => s end).
  assert (Hs' : has_types s') by (subst s'; destruct (s_encKey s); exact Es).
  destruct (startNode _ _ _ _ _) as [r a1] eqn:Ea. destruct r; [|done]. intros [= <-].
  eapply startNode_types; [exact Ea| |exact Hs']. split; [by intros ? [= <-]|done].
Qed.
Lemma Replace_types next a : app_types next → app_types (Replace next a).
Proof. intros [Hs Hn]. by split. Qed.
Lemma install_types env now rnd id a r a' :
  install env now rnd id a = Some (r, a') → app_types a → app_types a'.
Proof.
  unfold install. intros E Ha. destruct (St a) as [s|] eqn:Es; [|done]. cbn [mbind option_bind] in E.
  pose proof (SaveIdentity_types id rnd (SetKey s (Some (DeriveKeyFromIdentity (id_Private id)))) (St_types _ _ Ha Es)) as Hs.
  cbv beta in Hs. destruct (SaveIdentity _ _ _) as [r1 s1]. cbn [snd] in Hs. destruct r1; simplify_eq.
  - eapply startNode_types; [exact E|by apply with_St_types|exact Hs].
  - by apply with_St_types.
Qed.

(** ** Handlers of the interface *)

(** What comes back is a [Q], and the app keeps its types. *)
Definition answers {A} (m : Hd A) (Q : A → Prop) : Prop :=
  ∀ a x a', app_types a → m a = Some (x, a') → app_types a' ∧ Q x.

Lemma answers_ret {A} (x : A) (Q : A → Prop) : Q x → answers (mret x) Q.
Proof. by intros Hq a y a' Ha [= <- <-]. Qed.
Lemma answers_bind {A A'} (m : Hd A) (f : A → Hd A') P Q :
  answers m P → (∀ x, P x → answers (f x) Q) → answers (mbind f m) Q.
Proof.
  intros Hm Hf a y a' Ha. unfold mbind, Hd_bind. destruct (m a) as [[x a1]|] eqn:E; [|done]. cbn [mbind option_bind].
  destruct (Hm _ _ _ Ha E). by apply Hf.
Qed.
Lemma answers_get : answers (get_app (B := B)) app_types.
Proof. by intros a x a' Ha [= <- <-]. Qed.
Lemma answers_set a0 : app_types a0 → answers (set_app a0) (λ _, True).
Proof. by intros Ha0 a x a' _ [= <- <-]. Qed.
Lemma answers_option {A} (o : option A) : answers (from_option_panic (B := B) o) (λ x, o = Some x).
Proof. destruct o as [x|]; [|done]. by apply answers_ret. Qed.
Lemma answers_see {A} (f : Node B → A) : answers (node_see f) (λ x, ∃ n, has_types (n_store n) ∧ x = f n).
Proof.
  intros a x a' Ha. unfold node_see. destruct (a_n a) as [n|] eqn:E; [|done]. cbn. intros [= <- <-].
  split; [done|]. exists n. split; [by apply Ha|done].
Qed.
Lemma answers_do {A} (m : M B A) : steps types_kept m → answers (node_do m) (λ x, ∃ n, x = (m n).1).
Proof.
  intros Hm a x a' Ha. unfold node_do. destruct (a_n a) as [n|] eqn:E; [|done]. cbn [mbind option_bind].
  destruct (m n) as [y n'] eqn:Em. intros [= <- <-]. split.
  - apply with_n_types; [done|]. specialize (Hm n (proj2 Ha n E)). by rewrite Em in Hm.
  - exists n. by rewrite Em.
Qed.
Lemma answers_need f Q : answers f Q → Q (writeErr 409 "setup required") → answers (needNode (B := B) f) Q.
Proof.
  intros Hf Hq a x a' Ha. unfold needNode. destruct (a_n a); [by apply Hf|]. by intros [= <- <-].
Qed.
Lemma answers_json {R} (fields : list (field R)) zero r k Q :
  (∀ x, answers (k x) Q) → Q (writeErr 400 "invalid JSON body") → answers (readJSON (B := B) fields zero r k) Q.
Proof. intros Hk Hq. unfold readJSON. destruct (read_value _ _ _); [apply Hk|by apply answers_ret]. Qed.

Definition resp_ok (resp : Response) : Prop := payload_ok (rs_Body resp).

Lemma answers_reply {A} (r : result A) ok :
  (∀ x, r = Ok x → resp_ok (ok x)) → answers (reply (B := B) r ok) resp_ok.
Proof. intros Hr. apply answers_ret. destruct r as [x|e]; [by apply Hr|]. unfold fail. by repeat case_match. Qed.

Lemma fail_ok e : resp_ok (fail e).
Proof. unfold fail. by repeat case_match. Qed.
End app.

(** A handler: requests are read, the node asked, the answer made; what is
    left are the payloads. *)
Ltac answers_tac :=
  cbv zeta; repeat lazymatch goal with
  | |- answers (mret _) _ => apply answers_ret
  | |- answers (reply _ _) _ => apply answers_reply; intros ? ?
  | |- answers (needNode _) _ => apply answers_need; [|done]
  | |- answers (readJSON _ _ _ _) _ => apply answers_json; [intros ?|done]
  | |- answers (mbind _ get_app) _ => eapply answers_bind; [apply answers_get|intros ? ?]
  | |- answers (mbind _ (from_option_panic _)) _ => eapply answers_bind; [apply answers_option|intros ? ?]
  | |- answers (mbind _ (node_see _)) _ => eapply answers_bind; [apply answers_see|intros ? (? & ? & ->)]
  | |- answers (mbind _ (node_do _)) _ => eapply answers_bind; [apply answers_do; types_tac|intros ? [? ->]]
  | |- answers (match _ with _ => _ end) _ => case_match
  | |- resp_ok (match _ with _ => _ end) => case_match
  | |- resp_ok (fail _) => apply fail_ok
  end.

Section requests.
Context {B : Type → Type} `{Bolt B} `{Primitives} `{Curve} `{UnicodeTables} `{Wire} `{DiskFaults} `{QR} `{Web}.
Implicit Types (a : App B) (env : Env (B := B)) (r : Request) (p : string → string).

Definition handler_ok (h : handler (B := B)) : Prop :=
  ∀ env r p, disk_types (e_disk env) → answers (h env r p) resp_ok.

Lemma state_ok : handler_ok state.
Proof. intros env r p Hd. unfold state. answers_tac; done. Qed.
Lemma unlock_ok : handler_ok unlock.
Proof.
  intros env r p Hd. unfold unlock. answers_tac; try done.
  match goal with E : Unlock _ _ _ _ _ = Ok _ |- _ => apply Open_types in E; [|done] end.
  eapply answers_bind; [by apply answers_set, Replace_types|]. intros _ _. by apply state_ok.
Qed.
Lemma setup_ok : handler_ok setup.
Proof.
  intros env r p Hd. unfold setup. answers_tac. eapply (answers_bind _ _ (λ _, True)).
  - intros a res a' Ha. unfold Setup. destruct (a_n a); [by intros [= <- <-]|].
    destruct (Generate _ _) as [id|]; [|by intros [= <- <-]]. intros E. split; [by eapply install_types|done].
  - intros res _. destruct res; [by apply state_ok|by apply answers_ret].
Qed.
Lemma restore_ok : handler_ok restore.
Proof.
  intros env r p Hd. unfold restore. answers_tac. eapply (answers_bind _ _ (λ _, True)).
  - intros a res a' Ha. unfold Restore. destruct (a_n a); [by intros [= <- <-]|].
    destruct (ImportBackup _ _) as [id|]; [|by intros [= <- <-]]. intros E. split; [by eapply install_types|done].
  - intros res _. destruct res; [by apply state_ok|]. answers_tac. done.
Qed.
Lemma enablePassphrase_ok : handler_ok enablePassphrase.
Proof.
  intros env r p Hd. unfold enablePassphrase. answers_tac. intros a res a' Ha. unfold App.EnablePassphrase.
  destruct (a_n a) as [n|] eqn:En; [|by intros [= <- <-]]. cbn [mbind option_bind].
  destruct (StoreCore.EnablePassphrase _ _ _ _) as [[r1 s1]|] eqn:E; [|done]. intros [= <- <-].
  apply EnablePassphrase_types in E; [|by apply Ha]. split; [by apply with_n_types|by destruct r1].
Qed.
Lemma putSettings_ok : handler_ok putSettings.
Proof.
  intros env r p Hd. unfold putSettings. apply answers_json; [intros st|done].
  eapply answers_bind; [apply answers_do; types_tac|]. intros res [n ->]. apply answers_ret.
  unfold on_store. destruct (SaveSettings (n_store n) st) as [res s'] eqn:E. cbn [fst].
  destruct res; [|done]. unfold SaveSettings in E.
  destruct (_ || _) eqn:Eb; [done|]. apply orb_false_iff in Eb as [E1 E2]. cbn. unfold resp_ok. cbn. lia.
Qed.
Lemma rename_ok : handler_ok rename.
Proof. intros env r p Hd. unfold rename, me. answers_tac; done. Qed.
Lemma t_Subscribe : steps types_kept (Subscribe : M B _).
Proof. apply t_quiet, q_Subscribe. Qed.
Hint Resolve t_Subscribe : types.

Lemma node_route_ok h : handler_ok h → handler_ok (node_route h).
Proof. intros Hh env r p Hd. unfold node_route. apply answers_need; [by apply Hh|done]. Qed.

(** The routes whose answers are read from the store. *)
Lemma reading_ok :
  Forall handler_ok [me; peers; messages; search; invite; outbox; diagnostics; getSettings; files; getFile; fileData;
    filePreview; rooms; getRoom_; roomMessages; events].
Proof.
  repeat first [apply Forall_nil_2|apply Forall_cons_2]; intros env r p Hd;
    unfold me, peers, messages, search, invite, outbox, diagnostics, getSettings, files, getFile, fileData,
      filePreview, rooms, getRoom_, roomMessages, events; answers_tac; try done; subst; unfold resp_ok; cbn;
    eauto using Peers_ok, Messages_ok, Pending_ok, Search_ok, Settings_range, GetFile_typed, Rooms_ok, GetRoom_view_ok,
      RoomMessages_ok, ListFiles_all.
Qed.

Lemma t_DeleteForEveryone peer id : steps types_kept (DeleteMessageForEveryone peer id : M B _).
Proof. apply t_quiet, q_send_to. done. Qed.
Lemma t_react peer emoji id : steps types_kept (SendReaction peer emoji id : M B _).
Proof. by apply t_quiet, q_SendReaction. Qed.
Lemma t_typing peer : steps types_kept (SendTyping peer : M B _).
Proof. by apply t_quiet, q_SendTyping. Qed.
Lemma t_read peer id : steps types_kept (SendReadReceipt peer id : M B _).
Proof. by apply t_quiet, q_SendReadReceipt. Qed.
Lemma t_RetryNow peer : steps types_kept (RetryNow peer : M B _).
Proof. by apply t_quiet, q_RetryNow. Qed.
Hint Resolve t_DeleteForEveryone t_react t_typing t_read t_RetryNow : types.

(** The routes that ask something of the node. *)
Lemma acting_ok :
  Forall handler_ok [send_; verify; acceptKey; retry; react; typing; readReceipt; deleteMessage; forget; dial; parseInvite;
    deleteOutbox; clearMessages; backup; sendFile; deleteFile; createRoom; sendRoomMessage; deleteRoom; addRoomMember;
    removeRoomMember; renameRoom; reactRoomMessage; acceptRoom; declineRoom].
Proof.
  repeat first [apply Forall_nil_2|apply Forall_cons_2]; intros env r p Hd;
    unfold send_, verify, acceptKey, retry, react, typing, readReceipt, deleteMessage, forget, dial, parseInvite,
      deleteOutbox, clearMessages, backup, sendFile, deleteFile, createRoom, sendRoomMessage, deleteRoom,
      addRoomMember, removeRoomMember, renameRoom, reactRoomMessage, acceptRoom, declineRoom; answers_tac; done.
Qed.

Lemma routes_ok : Forall (λ mph, handler_ok mph.2) (routes (B := B)).
Proof.
  pose proof reading_ok as Hr. pose proof acting_ok as Ha.
  pose proof (proj1 (Forall_forall _ _) Hr) as Hr'. pose proof (proj1 (Forall_forall _ _) Ha) as Ha'.
  unfold routes. repeat first [apply Forall_nil_2|apply Forall_cons_2]; cbn [snd];
    first [apply state_ok|apply setup_ok|apply restore_ok|apply unlock_ok|apply node_route_ok];
    first [apply enablePassphrase_ok|apply rename_ok|apply putSettings_ok
          |apply Hr'; repeat constructor; fail|apply Ha'; repeat constructor; fail].
Qed.

Lemma Handler_ok env r : disk_types (e_disk env) → answers (Handler env r) resp_ok.
Proof.
  intros Hd. unfold Handler, secure. repeat (case_match; [by apply answers_ret|]).
  eapply answers_bind; [|intros resp Hr; apply answers_ret; exact Hr].
  unfold ServeHTTP. case_match; [by apply answers_ret|].
  destruct (find_route routes r) as [[h vs]|] eqn:E; [|case_match; by apply answers_ret].
  apply find_route_in in E as (m & pat & Hin & _). pose proof routes_ok as Hall. rewrite Forall_forall in Hall.
  by apply (Hall _ Hin).
Qed.

(** ** The program *)

(** A request; a step of the node; the end of the process; and its start on the
    database the last one left. *)
Inductive app_step : App B → App B → Prop :=
| app_request env r resp a a' :
    disk_types (e_disk env) → Handler env r a = Some (resp, a') → app_step a a'
| app_node n n' a : a_n a = Some n → node_step n n' → app_step a (with_n n' a)
| app_close a : app_step a (Close a)
| app_restart (sv : StartEnv) now s files cfg a a' :
    St a = Some s → App.Open sv now (mkDisk (Ok tt) (Ok (s_db s)) files) cfg = Ok a' → app_step a a'.

Lemma Close_types a : app_types a → app_types (Close a).
Proof.
  intros [Hs Hn]. split; [done|]. cbn. destruct (a_n a) as [n|]; [|done]. cbn. intros ? [= <-].
  assert (Ht : steps types_kept (Stop : M B _)).
  { unfold Stop. types_tac. }
  by apply Ht, Hn.
Qed.

Lemma app_step_types a a' : app_step a a' → app_types a → app_types a'.
Proof.
  intros Hs Ha. destruct Hs as [env r resp a a' Hd E|n n' a En Hs|a|sv now s files cfg a a' Es E].
  - by eapply Handler_ok.
  - apply with_n_types; [done|]. eapply node_step_types; [done|]. by apply Ha.
  - by apply Close_types.
  - eapply Open_types; [|exact E]. intros d [= <-]. by eapply St_types.
Qed.
Lemma app_run_types a a' : rtc app_step a a' → app_types a → app_types a'.
Proof. induction 1 as [|a a1 a2 Hs _ IH]; [done|]. intros Ha. by eapply IH, app_step_types. Qed.

End requests.

(** ** Example: setup, a message each way, a room and a file from a peer, then
    the files are asked for *)

#[local] Existing Instance gmap_bolt.
#[local] Existing Instance toy_primitives.
#[local] Existing Instance toy_curve.
#[local] Existing Instance ascii_tables.
#[local] Existing Instance good_wire.
#[local] Existing Instance no_faults.
#[local] Existing Instance ex_qr.
#[local] Existing Instance ex_web.

Definition ex_app_env : Env (B := gbucket) :=
  mkEnv 0 "" (Some "nonce nonce ") None (Ok ex_secret) ex_sockets good_start (mkDisk (Ok tt) (Ok empty_db) ∅)
    (Err (Errorf "refused")) (Err (Errorf "refused")) (Ok []) true false.
Definition ex_setup : Request :=
  mkRequest "POST" "127.0.0.1:7777" ["api"; "setup"] [] "1" "" (of_bytes (print (to_json (one "name") "me"))) (Err (Errorf "no form")).
Definition ex_ask_files : Request := ex_request "GET" "127.0.0.1:7777" "" "" ["api"; "files"].

Definition ex_opened : App gbucket :=
  match App.Open good_start 0 (mkDisk (Ok tt) (Ok empty_db) ∅) App.ex_cfg with Ok a => a | Err _ => App.ex_fresh end.
Definition ex_set_up : App gbucket :=
  match Handler ex_app_env ex_setup ex_opened with Some (_, a) => a | None => ex_opened end.
Definition ex_used : App gbucket :=
  foldl (λ a x, match a_n a with Some n => with_n (run_act x n).2 a | None => a end) ex_set_up ex_acts.

Lemma ex_disk_types : disk_types (B := gbucket) (mkDisk (Ok tt) (Ok empty_db) ∅).
Proof. intros d [= <-]. apply typed_empty. Qed.

Lemma act_app_step x (a : App gbucket) :
  received x → app_step a (match a_n a with Some n => with_n (run_act x n).2 a | None => a end) ∨ a_n a = None.
Proof. intros Hx. destruct (a_n a) as [n|] eqn:E; [left|by right]. by eapply app_node; [|apply node_act]. Qed.

Lemma ex_app_run : rtc app_step ex_opened ex_used.
Proof.
  assert (Hacts : ∀ l (a : App gbucket), Forall received l → rtc app_step a
    (foldl (λ a x, match a_n a with Some n => with_n (run_act x n).2 a | None => a end) a l)).
  { induction l as [|x l IH]; intros a Hl; [apply rtc_refl|]. apply Forall_cons in Hl as [Hx Hl]. cbn [foldl].
    destruct (act_app_step x a Hx) as [Hs|Hn]; [by eapply rtc_l, IH|]. rewrite Hn. by apply IH. }
  eapply rtc_l; [|apply Hacts; repeat constructor].
  apply (app_request ex_app_env ex_setup (match Handler ex_app_env ex_setup ex_opened with Some (r, _) => r | None => ok_true end)).
  - apply ex_disk_types.
  - vm_compute. reflexivity.
Qed.

