(* ===== verification/Progress.v ===== *)
(** * What is queued can always be delivered

    Liveness of the delivery protocol of [Delivery]: from every state with the
    invariant in which the two nodes have a session and their wires work, the
    outbox of the peer can be emptied by handlers that are enabled. *)

From S2P Require Import Prelude GoStrings Utf8 Proto Sha256 Identity Base64 Crypto Bolt.
From S2P Require Import StoreData StoreCore StoreMessages MessageLog StorePeers StoreFiles.
From S2P Require Import StoreRooms StoreFrame Backoff NodeState NodeRooms NodeCore NodeLink.
From S2P Require Import NodeFrame Delivery.

(** A message whose envelope passes the validator. *)
Definition sendable (m : Message) : Prop := is_ok (validate (msg_envelope m)) = true.

Section live.
Context {B : Type → Type} `{Bolt B} `{Primitives} `{UnicodeTables} `{Wire} `{DiskFaults}.
(** From the [k]-th output on, no wire fails. *)
Context (k : nat) (Hwire : ∀ o c e, (k <= length o)%nat → wire_error o c e = None).
Implicit Types (n : Node B) (e : Envelope) (m : Message).

Lemma send_ok c e n :
  is_ok (validate e) = true → (k <= length (n_out n))%nat →
  send c e n = (Ok tt, with_out (OSend c e) n).
Proof. intros Hv Hk. unfold send. destruct (validate e); [|done]. by rewrite Hwire. Qed.

Lemma sent_with_out c e n : sent (with_out (OSend c e) n) e.
Proof. exists c. cbn. set_solver. Qed.

Lemma emit_out ev n : n_out (emit ev n).2 = n_out n ++ [OEmit ev].
Proof. done. Qed.

(** The trace only grows. *)
Definition trace_le n n' : Prop := ∀ e, sent n e → sent n' e.

Lemma quiet_trace {X} (π : DB B → X) Q n n' : quiet π Q n n' → trace_le n n'.
Proof. intros [_ _ (o & Ho & _)] e [c He]. exists c. rewrite Ho. set_solver. Qed.

(** The names of the sessions stay, for a handler built from sends and the store. *)
Abbreviation calm := (quiet (λ _ : DB B, tt) (λ _, True)).

Lemma flush_loop_sends In now rnd peer c pend n :
  Good In n → (k <= length (n_out n))%nat → Forall (in_log n) pend → Forall sendable pend →
  ∀ m, m ∈ pend → sent (flush_loop now rnd peer c true pend n).2 (msg_envelope m).
Proof.
  revert n. induction pend as [|m pend IH]; intros n Hg Hk Hin Hsd m0 Hm0; [by apply not_elem_of_nil in Hm0|].
  apply Forall_cons in Hin as [Hm Hin]. apply Forall_cons in Hsd as [Hs Hsd].
  cbn [flush_loop]. unfold mbind at 1, M_bind at 1. cbn [get negb andb].
  pose proof (gsteps_attempt In (λ _, False) (m_ID m) now n) as Hg1.
  pose proof (RecordAttempt_log (n_store n) (m_ID m) now (g_msgs _ _ Hg)) as Ha.
  unfold mbind at 1, M_bind at 1.
  unfold on_store in *. destruct (RecordAttempt (n_store n) (m_ID m) now) as [r s'].
  destruct Ha as (_ & _ & Hok). cbn [snd] in Hg1.
  assert (Hr : is_ok r = true).
  { apply Hok. destruct Hm as (_ & m' & Hm' & Hc). exists m'. split; [done|]. by apply core_id. }
  destruct r as [m2|err]; [|done]. clear Hok Hr.
  apply (in_log_all _ _ _ _ _ Hg Hg1) in Hin as Hin1.
  apply (in_log_grow _ _ _ _ _ Hg Hg1) in Hm as Hm1. apply Hg1 in Hg as [Hg1' _].
  clear Hg1. set (n1 := with_store s' n) in *.
  assert (Hk1 : (k <= length (n_out n1))%nat) by done. clearbody n1. clear n s' Hk Hm Hin.
  pose proof (grow_send_msg In (λ _, False) c m n1 (λ _, Hm1)) as Hg2.
  unfold mbind at 1, M_bind at 1. rewrite (send_ok c _ n1 Hs Hk1) in *. cbn [snd] in Hg2.
  apply (in_log_all _ _ _ _ _ Hg1' Hg2) in Hin1 as Hin2. apply Hg2 in Hg1' as [Hg2' _].
  set (n2 := with_out _ n1) in *.
  pose proof (gsteps_emit In (λ _, False) (event_msg "status" peer m2) n2) as Hg3.
  unfold mbind at 1, M_bind at 1.
  assert (Hk3 : (k <= length (n_out (emit (event_msg "status" peer m2) n2).2))%nat).
  { rewrite emit_out, length_app. unfold n2. cbn [n_out with_out]. rewrite length_app. lia. }
  destruct (emit (event_msg "status" peer m2) n2) as [[] n3] eqn:E3. cbn [snd] in Hg3, Hk3.
  apply (in_log_all _ _ _ _ _ Hg2' Hg3) in Hin2 as Hin3. apply Hg3 in Hg2' as (Hg3' & _ & _ & Hs3).
  apply elem_of_cons in Hm0 as [->|Hm0]; [|by apply IH].
  pose proof (grow_flush_loop In (λ _, False) now rnd peer c true pend n3 (λ _, Hin3) Hg3') as (_ & _ & _ & Hs4).
  apply Hs4, Hs3, sent_with_out.
Qed.

Lemma dispatch_msg now rnd c l e : T e = TypeMsg → dispatch now rnd c l e = handleMsg (B := B) now rnd c l e.
Proof. intros Ht. unfold dispatch. by rewrite Ht. Qed.
Lemma dispatch_ack now rnd c l e : T e = TypeAck → dispatch now rnd c l e = handleAck (B := B) l e.
Proof. intros Ht. unfold dispatch. by rewrite Ht. Qed.

(** A clock reading at which the rate limiter lets a message pass. *)
Lemma rate_passes count start : ∃ now, (rate_step now count start).2 = false.
Proof.
  exists (start + 2 * Second). unfold rate_step.
  assert (E : (Second <? time_Sub (start + 2 * Second) start) = true).
  { apply Z.ltb_lt. unfold time_Sub, Second. lia. }
  rewrite E, orb_true_r. done.
Qed.

(** The receiver acknowledges, and draws at most one sequence number. *)
Lemma receive_acks In c l e nonce n :
  Good In n → T e = TypeMsg → is_ok (validate e) = true → n_conns n !! c = Some l →
  slen nonce = 12 → has_room (n_store n) → (k <= length (n_out n))%nat →
  ∃ now, let n' := (session_turn now (Some nonce) c (Ok e) n).2 in
    sent n' (ack_envelope (ID e)) ∧
    bseq (d_msgs (s_db (n_store n'))) <= bseq (d_msgs (s_db (n_store n))) + 1.
Proof.
  intros Hg Ht Hv Hl Hn Hroom Hk. destruct (rate_passes (lk_msgCount l) (lk_rateStart l)) as [now Hr].
  exists now. enough (Hx : ∃ n', session_turn now (Some nonce) c (Ok e) n = (tt, n') ∧
    sent n' (ack_envelope (ID e)) ∧
    bseq (d_msgs (s_db (n_store n'))) <= bseq (d_msgs (s_db (n_store n))) + 1).
  { destruct Hx as (n' & -> & ?). done. }
  unfold session_turn, read_turn.
  unfold mbind at 1, M_bind at 1. unfold mbind at 1, M_bind at 1. cbn [link_at]. rewrite Hl.
  rewrite dispatch_msg by done. unfold handleMsg.
  destruct (rate_step now (lk_msgCount l) (lk_rateStart l)) as [[count start] over].
  cbn in Hr. subst over. unfold mbind at 1, M_bind at 1.
  destruct (update_link c (set_rate count start) n) as [[] n1] eqn:E1.
  assert (Es : n_store n1 = n_store n) by (by injection E1 as <-).
  unfold mbind at 1, M_bind at 1. unfold on_store. rewrite Es.
  pose proof (validate_id e Ht Hv) as Hlen.
  pose proof (AddMessage_log (n_store n) (mkMessage (ID e) (lk_peer l) DirIn (Body e) now
    StatusReceived 0 zero_time 0 (ReplyTo e)) (Some nonce) (g_msgs _ _ Hg) (g_names _ _ Hg _ _ Hl)
    ltac:(cbn; lia) ltac:(by intros ? [= <-]) Hroom) as Ha.
  destruct (AddMessage _ _ _) as [r s']. destruct Ha as (_ & Hq & Ha).
  destruct r as [[m' dup]|err]; [|by destruct Ha as [? _]]. clear Ha.
  set (n2 := with_store s' n1). unfold mbind at 1, M_bind at 1.
  rewrite send_ok.
  3: { by injection E1 as <-. }
  2: { revert Hv. unfold validate, validate_body. rewrite Ht. cbn.
       by destruct (checkID (ID e)). }
  set (n3 := with_out _ n2).
  assert (Hack : sent n3 (ack_envelope (ID e))) by apply sent_with_out.
  assert (Hq3 : bseq (d_msgs (s_db (n_store n3))) <= bseq (d_msgs (s_db (n_store n))) + 1) by done.
  clearbody n3. destruct dup; (eexists; split; [reflexivity|]); [done|]. split; [|done].
  destruct Hack as [c' Hack]. exists c'. cbn. set_solver.
Qed.

(** An acknowledgement marks the message it names. *)
Lemma receive_ack In now c l id m n :
  Good In n → n_conns n !! c = Some l → m ∈ log n → m_ID m = id → outbound m →
  EqualFold (m_Peer m) (lk_peer l) = true →
  let n' := (session_turn now None c (Ok (ack_envelope id)) n).2 in
  ∃ m', m' ∈ log n' ∧ core m' = core m ∧ delivered m'.
Proof.
  intros Hg Hl Hm Hid Ho Hf.
  assert (Es : n_store (session_turn now None c (Ok (ack_envelope id)) n).2
               = (MarkDelivered (n_store n) (lk_peer l) id).2).
  { unfold session_turn, read_turn, mbind, M_bind. cbn [link_at]. rewrite Hl.
    rewrite dispatch_ack by done. unfold handleAck, on_store, mbind, M_bind. cbn [ID ack_envelope].
    destruct (MarkDelivered _ _ _) as [[[m' [|]]|err] s']; done. }
  pose proof (MarkDelivered_log (n_store n) (lk_peer l) id (g_msgs _ _ Hg)) as Hd.
  cbv zeta. unfold log. rewrite Es. destruct (MarkDelivered _ _ _) as [r s'].
  destruct Hd as (_ & _ & Hd). by apply Hd.
Qed.

Lemma calm_turn now rnd c r : steps calm (session_turn now rnd c r).
Proof.
  unfold session_turn, read_turn, dispatch.
  steps_tac; eauto using q_handleMsg, q_handleAck, q_handleDel with steps.
Qed.
(** The two sessions of a pair, by connection and peer name. *)
Record linked (cx cy : nat) (px py : string) (x y : Node B) : Prop := {
  lk_x : conn_names x !! cx = Some px;
  lk_y : conn_names y !! cy = Some py;
  lk_kx : (k <= length (n_out x))%nat;
  lk_ky : (k <= length (n_out y))%nat }.

Lemma conn_link n c p : conn_names n !! c = Some p → ∃ l, n_conns n !! c = Some l ∧ lk_peer l = p.
Proof.
  unfold conn_names. rewrite lookup_fmap. destruct (n_conns n !! c) as [l|]; [|done].
  intros [= <-]. eauto.
Qed.

Lemma calm_linked cx cy px py x y x' y' :
  calm x x' → calm y y' → linked cx cy px py x y → linked cx cy px py x' y'.
Proof.
  intros [_ E1 (o1 & O1 & _)] [_ E2 (o2 & O2 & _)] [L1 L2 L3 L4].
  split; rewrite ?E1, ?E2, ?O1, ?O2, ?length_app; try done; lia.
Qed.

(** What is still to be delivered: sent by [x], to the peer of its session. *)
Definition to_deliver (px : string) (x : Node B) (m : Message) : Prop :=
  sendable m ∧ sent x (msg_envelope m) ∧ in_log x m ∧ EqualFold (m_Peer m) px = true.

Lemma to_deliver_grow In px x x' m :
  Good In x → grow In (λ _, False) x x' → to_deliver px x m → to_deliver px x' m.
Proof.
  intros Hg Hgr (Hs & Hsent & Hin & Hf). split_and!; [done| | |done].
  - by apply (Hgr Hg).
  - by eapply in_log_grow.
Qed.

Lemma deliver_one cx cy px py x y m nonce :
  pair_inv x y → linked cx cy px py x y → to_deliver px x m → slen nonce = 12 →
  has_room (n_store y) →
  ∃ x' y', rtc pair_step (x, y) (x', y') ∧ linked cx cy px py x' y' ∧
    bseq (d_msgs (s_db (n_store y'))) <= bseq (d_msgs (s_db (n_store y))) + 1 ∧
    Good (sent y') x ∧ grow (sent y') (λ _, False) x x' ∧
    ∃ m', m' ∈ log x' ∧ core m' = core m ∧ delivered m'.
Proof.
  intros Hp Hlk (Hs & Hsent & (Ho & m0 & Hm0 & Hc) & Hf) Hn Hroom.
  pose proof Hp as [Hgx Hgy _].
  destruct (conn_link y cy py (lk_y _ _ _ _ _ _ Hlk)) as (ly & Hly & _).
  destruct (receive_acks (sent x) cy ly (msg_envelope m) nonce y Hgy eq_refl Hs Hly Hn Hroom
    (lk_ky _ _ _ _ _ _ Hlk)) as [now [Hack Hq]].
  set (ay := AReceive now (Some nonce) cy (msg_envelope m)).
  set (y' := (session_turn now (Some nonce) cy (Ok (msg_envelope m)) y).2) in *.
  assert (Hay : allowed ay y x) by (split_and!; [by intros ? [= <-]|by intros _|done]).
  destruct (act_inv ay y x (pair_inv_sym _ _ Hp) Hay) as [Hp'%pair_inv_sym _].
  change (run_act ay y).2 with y' in Hp'.
  set (ax := AReceive 0 None cx (ack_envelope (m_ID m))).
  set (x' := (session_turn 0 None cx (Ok (ack_envelope (m_ID m))) x).2).
  assert (Hax : allowed ax x y') by (split_and!; [by intros ?|by intros [=]|done]).
  pose proof (act_grow ax x y' Hax (pi_right _ _ Hp')) as Hgr.
  exists x', y'. split_and!.
  - eapply rtc_l; [apply (step_right ay x y), Hay|].
    apply rtc_once, (step_left ax x y'), Hax.
  - eapply calm_linked; [apply calm_turn..|done].
  - done.
  - apply Hp'.
  - exact Hgr.
  - destruct (conn_link x cx px (lk_x _ _ _ _ _ _ Hlk)) as (lx & Hlx & <-).
    assert (Hf0 : EqualFold (m_Peer m0) (lk_peer lx) = true).
    { unfold core in Hc. injection Hc as _ -> _ _ _ _. done. }
    destruct (receive_ack (sent y) 0 cx lx (m_ID m) m0 x Hgx Hlx Hm0 (core_id _ _ Hc)
      ltac:(by eapply core_outbound) Hf0) as (m' & Hm' & Hc' & Hd').
    exists m'. split_and!; [done|congruence|done].
Qed.

Lemma deliver_all cx cy px py nonce ms x y :
  pair_inv x y → linked cx cy px py x y → Forall (to_deliver px x) ms → slen nonce = 12 →
  bseq (d_msgs (s_db (n_store y))) + Z.of_nat (length ms) < 2 ^ 64 - 1 →
  ∃ x' y', rtc pair_step (x, y) (x', y') ∧ outs_in (λ _, False) (log x) (log x') ∧
    ∀ m, m ∈ ms → ∃ m', m' ∈ log x' ∧ core m' = core m ∧ delivered m'.
Proof.
  revert x y. induction ms as [|m ms IH]; intros x y Hp Hlk Hms Hn Hroom.
  { exists x, y. split_and!; [done|apply outs_in_refl|]. intros m Hm. by apply not_elem_of_nil in Hm. }
  apply Forall_cons in Hms as [Hm Hms]. cbn [length] in Hroom.
  destruct (deliver_one cx cy px py x y m nonce Hp Hlk Hm Hn ltac:(unfold has_room; lia))
    as (x1 & y1 & Hr1 & Hlk1 & Hq1 & Hgx & Hgr1 & (m1 & Hm1 & Hc1 & Hd1)).
  destruct (pair_steps_inv (x, y) (x1, y1) Hp Hr1) as (Hp1 & _ & _). cbn [fst snd] in Hp1.
  destruct (Hgr1 Hgx) as (_ & _ & Ho1 & _).
  assert (Hms1 : Forall (to_deliver px x1) ms).
  { eapply Forall_impl; [exact Hms|]. intros m2. by apply (to_deliver_grow (sent y1)). }
  destruct (IH x1 y1 Hp1 Hlk1 Hms1 Hn ltac:(lia)) as (x' & y' & Hr & Ho & Hall).
  exists x', y'. split_and!; [by etrans|by eapply outs_in_trans|].
  intros m2 [->|Hm2]%elem_of_cons; [|by apply Hall].
  destruct (pair_steps_inv (x1, y1) (x', y') Hp1 Hr) as (_ & Hle & _).
  destruct (Hle m1 Hm1) as (m3 & Hm3 & Hc3 & Hd3). exists m3. split_and!; [done|congruence|auto].
Qed.

(** After the flush everything pending is on its way. *)
Lemma flush_sends In now peer c l pend n :
  Good In n → (k <= length (n_out n))%nat → n_live n !! ToLower peer = Some c →
  n_conns n !! c = Some l → Pending (n_store n) peer = Ok pend → Forall sendable pend →
  Forall (in_log n) pend ∧
  ∀ m, m ∈ pend → sent (flush now (λ _, None) peer true n).2 (msg_envelope m).
Proof.
  intros Hg Hk Hlive Hl Hpe Hs.
  assert (Hin : Forall (in_log n) pend).
  { rewrite pending_log in Hpe by apply Hg. injection Hpe as <-. apply Forall_forall.
    intros m [Hu Hm]%list_elem_of_filter. apply andb_true_iff in Hu as [Hu _].
    apply andb_true_iff in Hu as [Ho%eqs_true _]. split; [done|]. by exists m. }
  split; [done|]. intros m Hm. unfold flush, mbind, M_bind, linkFor.
  rewrite Hlive. cbn [mbind option_bind]. rewrite Hl. cbn [mbind option_bind].
  cbn [read_store]. rewrite Hpe. by apply (flush_loop_sends In).
Qed.

Lemma drain cx cy lx ly pend nonce x y :
  pair_inv x y → (k <= length (n_out x))%nat → (k <= length (n_out y))%nat →
  n_live x !! ToLower (lk_peer lx) = Some cx → n_conns x !! cx = Some lx →
  n_conns y !! cy = Some ly → slen nonce = 12 →
  Pending (n_store x) (lk_peer lx) = Ok pend → Forall sendable pend →
  bseq (d_msgs (s_db (n_store y))) + Z.of_nat (length pend) < 2 ^ 64 - 1 →
  lk_peer lx ≠ "" →
  ∃ x' y', rtc pair_step (x, y) (x', y') ∧ Pending (n_store x') (lk_peer lx) = Ok [] ∧
    ∀ m, m ∈ pend → ∃ m', m' ∈ log x' ∧ core m' = core m ∧ delivered m'.
Proof.
  intros Hp Hkx Hky Hlive Hlx Hly Hn Hpe Hs Hroom Hne.
  set (a := AFlush 0 (λ _, None) (lk_peer lx) true).
  pose proof (flush_sends (sent y) 0 (lk_peer lx) cx lx pend x (pi_left _ _ Hp) Hkx Hlive Hlx Hpe Hs)
    as [Hin Hsent].
  pose proof (act_grow a x y I (pi_right _ _ Hp)) as Hgr.
  change (run_act a x).2 with (flush 0 (λ _, None) (lk_peer lx) true x).2 in Hgr.
  set (x1 := (flush 0 (λ _, None) (lk_peer lx) true x).2) in *.
  destruct (act_inv a x y Hp I) as [Hp1 _]. change (run_act a x).2 with x1 in Hp1.
  assert (Hlk : linked cx cy (lk_peer lx) (lk_peer ly) x1 y).
  { apply (calm_linked cx cy _ _ x y).
    - apply q_flush; [typeclasses eauto|done].
    - done.
    - split; [unfold conn_names; by rewrite lookup_fmap, ?Hlx, ?Hly..|done|done]. }
  assert (Hto : Forall (to_deliver (lk_peer lx) x1) pend).
  { rewrite Forall_forall in Hs, Hin |- *. intros m Hm. split_and!; [by apply Hs|by apply Hsent| |].
    - eapply in_log_grow; [apply Hp|exact Hgr|by apply Hin].
    - rewrite pending_log in Hpe by apply Hp. injection Hpe as <-.
      apply list_elem_of_filter in Hm as [Hu _]. apply andb_true_iff in Hu as [_ Hu].
      by rewrite (proj2 (eqs_false _ _) Hne) in Hu. }
  destruct (deliver_all cx cy _ _ nonce pend x1 y Hp1 Hlk Hto Hn Hroom)
    as (x' & y' & Hr & Hout & Hall).
  assert (Hr0 : rtc pair_step (x, y) (x', y')) by (eapply rtc_l; [apply (step_left a x y I)|done]).
  exists x', y'. split; [done|].
  destruct (pair_steps_inv (x, y) (x', y') Hp Hr0) as (Hp' & Hle & _). cbn [fst snd] in *.
  assert (Hgone : ∀ m', m' ∈ log x' → undelivered m' = true →
    EqualFold (m_Peer m') (lk_peer lx) = true → False).
  { intros m' Hm' Hu Hf. unfold undelivered in Hu.
    apply andb_true_iff in Hu as [Ho%eqs_true Hnd%negb_true_iff%eqs_false].
    destruct (outs_in_trans _ _ _ _ (proj1 (proj2 (proj2 (Hgr (pi_left _ _ Hp))))) Hout m' Hm' Ho)
      as [(m & Hm & Hc)|[]].
    assert (Huniq : ∀ m2, m2 ∈ log x' → core m2 = core m → delivered m2 → False).
    { intros m2 Hm2 Hc2 Hd2. apply Hnd.
      assert (m' = m2) as ->; [|done].
      apply (log_id_inj (n_store x')); try done; [apply Hp'|]. apply core_id. congruence. }
    destruct (decide (delivered m)) as [Hd|Hd].
    - destruct (Hle m Hm) as (m2 & Hm2 & Hc2 & Hd2). eauto.
    - destruct (Hall m) as (m2 & Hm2 & Hc2 & Hd2); [|eauto].
      rewrite pending_log in Hpe by apply Hp. injection Hpe as <-. apply list_elem_of_filter.
      split; [|done]. unfold undelivered. unfold core in Hc. injection Hc as _ -> -> _ _ _.
      rewrite Hf, orb_true_r, (proj2 (eqs_true _ _) Ho), (proj2 (eqs_false _ _) Hd). done. }
  split; [|done].
  rewrite pending_log by apply Hp'. f_equal. apply filter_none, Forall_forall.
  intros m' Hm' Hu. apply andb_true_iff in Hu as [Hu Hf].
  apply (Hgone m' Hm' Hu). by rewrite (proj2 (eqs_false _ _) Hne) in Hf.
Qed.
End live.

(** ** Property *)

Section property.
Context {B : Type → Type} `{Bolt B} `{Primitives} `{UnicodeTables} `{Wire} `{DiskFaults}.

(** C2: queued messages can always be delivered.  Take any state that two
    fresh nodes reach, whatever was lost or failed before, in which a session
    is up between them and the wires work from now on.  Then the handlers
    that are enabled (one forced flush, and receiving what was sent) lead to
    a state where nothing is pending for that peer, and the other node has
    stored every message that was pending.  The messages must be ones the
    validator lets out, and the receiver must have sequence numbers left. *)
Theorem outbox_can_drain (x0 y0 x y : Node B) (k cx cy : nat) lx ly pend :
  fresh_node x0 → fresh_node y0 → rtc pair_step (x0, y0) (x, y) →
  (∀ o c e, (k <= length o)%nat → wire_error o c e = None) →
  (k <= length (n_out x))%nat → (k <= length (n_out y))%nat →
  n_live x !! ToLower (lk_peer lx) = Some cx → n_conns x !! cx = Some lx → lk_peer lx ≠ "" →
  n_conns y !! cy = Some ly →
  Pending (n_store x) (lk_peer lx) = Ok pend → Forall sendable pend →
  bseq (d_msgs (s_db (n_store y))) + Z.of_nat (length pend) < 2 ^ 64 - 1 →
  ∃ x' y', rtc pair_step (x, y) (x', y') ∧ Pending (n_store x') (lk_peer lx) = Ok [] ∧
    ∀ m, m ∈ pend → ∃ m', m' ∈ log y' ∧ ¬ outbound m' ∧ same_text m m'.
Proof.
  intros Hx0 Hy0 Hr Hw Hkx Hky Hlive Hlx Hne Hly Hpe Hs Hroom.
  destruct (pair_steps_inv (x0, y0) (x, y) (fresh_pair _ _ Hx0 Hy0) Hr) as [Hp _].
  cbn [fst snd] in Hp.
  destruct (drain k Hw cx cy lx ly pend "nonce nonce " x y Hp Hkx Hky Hlive Hlx Hly eq_refl
    Hpe Hs Hroom Hne) as (x' & y' & Hr' & Hpe' & Hall).
  exists x', y'. split_and!; [done..|]. intros m Hm.
  destruct (pair_steps_inv (x, y) (x', y') Hp Hr') as (Hp' & _). cbn [fst snd] in Hp'.
  destruct (pair_inv_delivery _ _ Hp') as (_ & Hdel & _).
  destruct (Hall m Hm) as (m1 & Hm1 & Hc & Hd).
  rewrite pending_log in Hpe by apply Hp. injection Hpe as <-.
  apply list_elem_of_filter in Hm as [Hu _]. apply andb_true_iff in Hu as [Hu _].
  apply andb_true_iff in Hu as [Ho%eqs_true _].
  destruct (Hdel m1 Hm1 ltac:(by eapply core_outbound) Hd) as (m' & Hm' & Hno & Hst).
  exists m'. split_and!; [done|done|]. destruct (core_text _ _ Hc) as (? & ? & ?), Hst as (? & ? & ?).
  split_and!; congruence.
Qed.
End property.

(** ** A message the validator refuses

    [SendReply] does not check the identifier it quotes, the validator does:
    such a message is queued and can never be sent. *)

Section unsendable.
Context {B : Type → Type} `{Bolt B} `{Primitives} `{UnicodeTables} `{Wire} `{DiskFaults}.
Implicit Types (n : Node B).

(** C33: a queued message the validator refuses blocks its peer's outbox.
    When it comes first, a forced flush sends nothing at all, neither that
    message nor those queued after it, and closes the session. *)
Theorem unsendable_message_blocks_outbox n peer c l m pend now rnd :
  msgs_inv (n_store n) → n_live n !! ToLower peer = Some c → n_conns n !! c = Some l →
  Pending (n_store n) peer = Ok (m :: pend) → ¬ sendable m →
  let n' := (flush now rnd peer true n).2 in
  (∀ e, sent n' e ↔ sent n e) ∧ OClose c ∈ n_out n' ∧
  m_ID <$> log n' = m_ID <$> log n.
Proof.
  intros Hs Hlive Hl Hpe Hns.
  assert (Hin : m ∈ log n).
  { rewrite pending_log in Hpe by done. injection Hpe as Hpe.
    assert (Hm : m ∈ m :: pend) by by left. rewrite <- Hpe in Hm.
    by apply list_elem_of_filter in Hm as [_ ?]. }
  assert (E : ∃ n', flush now rnd peer true n = (tt, n') ∧
    (∀ e, sent n' e ↔ sent n e) ∧ OClose c ∈ n_out n' ∧ m_ID <$> log n' = m_ID <$> log n).
  2: { destruct E as (n' & -> & ?). done. }
  unfold flush, mbind, M_bind, linkFor. rewrite Hlive. cbn [mbind option_bind]. rewrite Hl.
  cbn [mbind option_bind read_store]. rewrite Hpe. cbn [flush_loop negb andb].
  unfold mbind at 1, M_bind at 1. cbn [get]. unfold mbind at 1, M_bind at 1. unfold on_store.
  pose proof (RecordAttempt_log (n_store n) (m_ID m) now Hs) as Ha.
  destruct (RecordAttempt (n_store n) (m_ID m) now) as [r s']. destruct Ha as (_ & Hlog & Hok).
  destruct r as [m2|err]; [|by discriminate Hok; exists m].
  unfold mbind at 1, M_bind at 1. unfold send. unfold sendable in Hns.
  destruct (validate (msg_envelope m)) as [u|err]; [done|].
  eexists. split; [reflexivity|]. split_and!.
  - intros e. unfold sent. cbn. setoid_rewrite elem_of_app. setoid_rewrite elem_of_app.
    setoid_rewrite list_elem_of_singleton. naive_solver.
  - cbn. set_solver.
  - unfold log. cbn. destruct Hlog as [->| ->]; [done|]. unfold update_id.
    rewrite <- list_fmap_compose. apply list_fmap_ext. intros i x _. cbn. by case_decide.
Qed.
End unsendable.

(** ** Witnesses *)

#[local] Existing Instance gmap_bolt.
#[local] Existing Instance toy_primitives.
#[local] Existing Instance ascii_tables.
#[local] Existing Instance good_wire.
#[local] Existing Instance no_faults.

(** A session is up, two messages are queued; the first quotes [reply]. *)
Definition ex_queued (reply : string) : list (bool * act) :=
  ex_up ++ [ (true, ASend 2000 ex_rng ex_nonce "bob" "hello" reply);
             (true, ASend 2500 "fedcba9876543210" ex_nonce "bob" "again" "") ].

Lemma ex_queued_allowed : all_allowed (ex_queued "") (ex_alice, ex_bob).
Proof. repeat split; cbn [fst snd allowed all_allowed]; allowed_tac. Qed.

Lemma ex_queued_bad_allowed : all_allowed (ex_queued "not an id") (ex_alice, ex_bob).
Proof. repeat split; cbn [fst snd allowed all_allowed]; allowed_tac. Qed.

Lemma ex_state_inv l :
  all_allowed l (ex_alice, ex_bob) → msgs_inv (n_store (ex_state l).1).
Proof.
  intros Ha. unfold ex_state. apply run_pair_reach in Ha. generalize dependent (run_pair l (ex_alice, ex_bob)).
  intros p Hr. destruct (pair_steps_inv (ex_alice, ex_bob) p (fresh_pair _ _ (ex_fresh _) (ex_fresh _)) Hr)
    as [[Hg _ _] _]. apply Hg.
Qed.

Lemma outbox_can_drain_witness :
  let p := ex_state (ex_queued "") in
  match Pending (n_store p.1) "Bob" with Ok pend => m_Body <$> pend | Err _ => [] end
    = ["hello"; "again"] ∧
  ∃ x' y', rtc pair_step (p.1, p.2) (x', y') ∧ Pending (n_store x') "Bob" = Ok [].
Proof.
  split; [by vm_compute|].
  destruct (Pending (n_store (ex_state (ex_queued "")).1) "Bob") as [pend|] eqn:Hpe.
  2: { vm_compute in Hpe. discriminate. }
  destruct (outbox_can_drain ex_alice ex_bob (ex_state (ex_queued "")).1 (ex_state (ex_queued "")).2
    0 7 9 (newLink "Bob" [] 1000) (newLink "Alice" [] 1000) pend (ex_fresh _) (ex_fresh _))
    as (x' & y' & Hr & Hp & _).
  - rewrite <- surjective_pairing. apply run_pair_reach, ex_queued_allowed.
  - done.
  - lia.
  - lia.
  - by vm_compute.
  - by vm_compute.
  - done.
  - by vm_compute.
  - exact Hpe.
  - vm_compute in Hpe. injection Hpe as <-. by repeat constructor.
  - vm_compute in Hpe. injection Hpe as <-. by vm_compute.
  - exists x', y'. exact (conj Hr Hp).
Defined.

Lemma unsendable_message_blocks_outbox_witness :
  let n := (ex_state (ex_queued "not an id")).1 in
  ex_sent (flush 3000 (λ _, None) "Bob" true n).2 = ex_sent n ∧
  OClose 7 ∈ n_out (flush 3000 (λ _, None) "Bob" true n).2.
Proof.
  split; [by vm_compute|].
  destruct (Pending (n_store (ex_state (ex_queued "not an id")).1) "Bob") as [[|m pend]|] eqn:Hpe;
    [vm_compute in Hpe; discriminate| |vm_compute in Hpe; discriminate].
  apply (unsendable_message_blocks_outbox (ex_state (ex_queued "not an id")).1 "Bob" 7
    (newLink "Bob" [] 1000) m pend 3000 (λ _, None)); [|by vm_compute|by vm_compute|exact Hpe|].
  - apply ex_state_inv, ex_queued_bad_allowed.
  - vm_compute in Hpe. injection Hpe as <- _. by vm_compute.
Defined.
