(* ===== verification/RoomAuth.v ===== *)
(** * Who may change a room (internal/node/rooms.go)

    What the rooms bucket shows to the rest of the program is a table of rooms
    by identifier; the theorems say which changes of the table an envelope of
    a peer may cause. *)

From S2P Require Import Prelude GoStrings Utf8 Proto Sha256 Identity Base64 Crypto Bolt StoreData.
From S2P Require Import StoreCore StoreMessages MessageLog StorePeers StoreFiles StoreRooms StoreFrame.
From S2P Require Import RoomLog.
From S2P Require Import Backoff NodeState NodeRooms NodeCore NodeLink NodeFrame Delivery Progress.

(** ** The table of rooms *)

Section table.
Context {B : Type → Type} `{Bolt B} `{Primitives} `{UnicodeTables}.
Implicit Types (s : Store B) (r : Room).

Definition room_of s (id : string) : option Room :=
  match GetRoom s id with Ok r => Some r | Err _ => None end.

(** Every row that decodes lies under its identifier, has at most
    [MaxRoomMembers] members and a time that JSON has a text for. *)
Record rooms_inv s : Prop := {
  ri_keys : keys_ok s;
  ri_row k r : bget (d_rooms (s_db s)) k = Some (json r) →
    r_ID r = k ∧ Z.of_nat (length (r_Members r)) <= MaxRoomMembers ∧ jsonable r = true }.

Lemma decryptRoom_ok s r r' :
  decryptRoom s r = Ok r' →
  r_ID r' = r_ID r ∧ r_Members r' = r_Members r ∧ r_CreatedBy r' = r_CreatedBy r
  ∧ r_State r' ≠ "" ∧ jsonable r' = jsonable r.
Proof.
  unfold decryptRoom. intros (name & _ & [= <-])%bind_ok. cbn.
  destruct (r_State r =s? "") eqn:E; cbn; [done|]. apply eqs_false in E. done.
Qed.

Lemma room_of_row s id r :
  room_of s id = Some r →
  ∃ r0, bget (d_rooms (s_db s)) id = Some (json r0) ∧ decryptRoom s r0 = Ok r.
Proof.
  unfold room_of, GetRoom, View, getRoom. tx_unfold.
  destruct (bget (d_rooms (s_db s)) id) as [[r0|]|]; cbn; [|done..].
  destruct (decryptRoom s r0) as [r'|] eqn:E; [|done]. intros [= <-]. eauto.
Qed.

Lemma room_of_inv s id r :
  rooms_inv s → room_of s id = Some r →
  r_ID r = id ∧ Z.of_nat (length (r_Members r)) <= MaxRoomMembers ∧ jsonable r = true ∧ r_State r ≠ "".
Proof.
  intros Hs (r0 & Hg & (Hi & Hm & _ & Hst & Hj)%decryptRoom_ok)%room_of_row.
  apply (ri_row _ Hs) in Hg as (Hid & Hl & Hj0). rewrite Hi, Hm, Hj. done.
Qed.

Lemma GetRoom_room_of s id r : GetRoom s id = Ok r ↔ room_of s id = Some r.
Proof. unfold room_of. destruct (GetRoom s id); naive_solver. Qed.

Lemma same_room_of s s' id : same_part d_rooms s s' → room_of s' id = room_of s id.
Proof.
  intros (Hk & Hi & Hd). unfold room_of, GetRoom, View, getRoom. tx_unfold. rewrite Hd.
  destruct (bget (d_rooms (s_db s)) id) as [[r0|]|]; cbn; [|done..].
  unfold decryptRoom, decryptString, decrypt. by rewrite Hk, Hi.
Qed.

Lemma same_rooms_inv s s' : same_part d_rooms s s' → rooms_inv s → rooms_inv s'.
Proof.
  intros (Hk & Hi & Hd) [Hkeys Hrow]. split; [unfold keys_ok; by rewrite Hk, Hi|]. by rewrite Hd.
Qed.

Lemma encryptString_any s body rnd enc :
  keys_ok s → rnd_ok rnd → encryptString s body rnd = Ok enc → decryptString s enc = Ok body.
Proof.
  intros Hk Hr He. destruct rnd as [nonce|].
  - eapply decryptString_encryptString; [done|by apply Hr|done].
  - destruct (encryptString_no_nonce s body) as [[e He']|Hn]; [congruence|].
    rewrite <- (Hn "nonce nonce ") in He. exact (decryptString_encryptString s body "nonce nonce " enc Hk eq_refl He).
Qed.

(** Writing a room: an error leaves the table alone, success sets the entry,
    or removes it when the time has no JSON text. *)
Definition written r : option Room := if jsonable r then Some r else None.

Lemma put_room_table s r rnd :
  rooms_inv s → rnd_ok rnd → r_State r ≠ "" → Z.of_nat (length (r_Members r)) <= MaxRoomMembers →
  let '(res, s') := UpdateRoom s r rnd in
  rooms_inv s' ∧
  ((s' = s ∧ is_ok res = false) ∨
   (res = Ok tt ∧ ∀ id, room_of s' id = if decide (id = r_ID r) then written r else room_of s id)).
Proof.
  intros Hs Hr Hst Hlen. unfold UpdateRoom, encryptRoom.
  destruct (encryptString s (r_Name r) rnd) as [enc|e] eqn:He; cbn; [|by auto].
  apply encryptString_any in He as Hd; [|apply Hs|done].
  unfold Update, run_update, put_room, Put. cbn [r_ID set_RName].
  destruct (put_error (r_ID r)) as [e|] eqn:Hp; [destruct s; by auto|].
  split.
  - split; [apply Hs|]. intros k r'. cbn. rewrite bget_set. case_decide as Hk; [|apply Hs].
    intros [= [<- Hj]%marshal_json]. cbn. done.
  - right. split; [done|]. intros id. unfold room_of, GetRoom, View, getRoom. tx_unfold. cbn.
    rewrite bget_set. destruct (decide (id = r_ID r)) as [->|Hne].
    + rewrite decide_True by done. unfold marshal, written. change (jsonable (set_RName enc r)) with (jsonable r).
      destruct (jsonable r); cbn; [|done]. unfold decryptRoom. cbn.
      rewrite (proj2 (eqs_false _ _) Hst). cbn.
      change (decryptString (with_db s _)) with (decryptString s). rewrite Hd. by destruct r.
    + rewrite decide_False by congruence. by destruct (bget (d_rooms (s_db s)) id) as [[]|].
Qed.

Lemma CreateRoom_table s r rnd :
  rooms_inv s → rnd_ok rnd → r_State r ≠ "" →
  let '(res, s') := CreateRoom s r rnd in
  rooms_inv s' ∧
  ((s' = s ∧ is_ok res = false) ∨
   (res = Ok tt ∧ Z.of_nat (length (r_Members r)) <= MaxRoomMembers ∧
    ∀ id, room_of s' id = if decide (id = r_ID r) then written r else room_of s id)).
Proof.
  intros Hs Hr Hst. unfold CreateRoom. destruct (Z.ltb_spec MaxRoomMembers (Z.of_nat (length (r_Members r)))).
  { split; [done|]. by left. }
  pose proof (put_room_table s r rnd Hs Hr Hst ltac:(lia)) as Hp. unfold UpdateRoom in Hp.
  destruct (match encryptRoom s r rnd with Err e => _ | Ok enc => _ end) as [res s'].
  destruct Hp as [? [?|[? ?]]]; auto.
Qed.

(** The loops of [DeleteRoom] leave the rooms bucket alone and do not fail. *)
Lemma delete_room_msgs_ok l d : ∃ d', delete_room_msgs (B := B) l d = Ok (tt, d') ∧ d_rooms d' = d_rooms d.
Proof.
  revert d. induction l as [|[k v] l IH]; intros d; [by exists d|]. cbn [delete_room_msgs].
  destruct v as [m|]; tx_unfold; edestruct IH as (d' & -> & E); exists d'; by rewrite E.
Qed.
Lemma delete_outbox_keys_ok l d : ∃ d', delete_outbox_keys (B := B) l d = Ok (tt, d') ∧ d_rooms d' = d_rooms d.
Proof.
  revert d. induction l as [|[k v] l IH]; intros d; [by exists d|]. cbn [delete_outbox_keys].
  tx_unfold; edestruct IH as (d' & -> & E); exists d'; by rewrite E.
Qed.

Lemma DeleteRoom_table s id0 :
  rooms_inv s →
  let '(res, s') := DeleteRoom s id0 in
  res = Ok tt ∧ rooms_inv s' ∧
  ∀ id, room_of s' id = if decide (id = id0) then None else room_of s id.
Proof.
  intros Hs. unfold DeleteRoom, Update, run_update. unfold mbind at 1, tx_bind at 1. cbn [Items].
  unfold mbind at 1, tx_bind at 1.
  edestruct delete_room_msgs_ok as (d1 & -> & E1). unfold mbind at 1, tx_bind at 1. cbn [Items].
  unfold mbind at 1, tx_bind at 1.
  edestruct delete_outbox_keys_ok as (d2 & -> & E2). cbn.
  assert (Er : d_rooms d2 = d_rooms (s_db s)) by congruence. split_and!; [done| |].
  - split; [apply Hs|]. intros k r. cbn. rewrite bget_del, Er. case_decide; [done|]. apply Hs.
  - intros id. unfold room_of, GetRoom, View, getRoom. tx_unfold. cbn. rewrite bget_del, Er.
    destruct (decide (id = id0)) as [->|]; [by rewrite decide_True|].
    rewrite decide_False by congruence. by destruct (bget (d_rooms (s_db s)) id) as [[]|].
Qed.
End table.

(** ** Changes of the table *)

Section auth.
Context {B : Type → Type} `{Bolt B} `{Primitives} `{UnicodeTables} `{Wire} `{DiskFaults}.
Implicit Types (n : Node B) (r : Room) (e : Envelope).

(** What the rename, create, join and remove events of the creator [p] may
    change of a room: its name and its members. *)
Definition same_room_but_name_members r r' : Prop :=
  r_ID r' = r_ID r ∧ r_CreatedBy r' = r_CreatedBy r ∧ r_CreatedAt r' = r_CreatedAt r
  ∧ r_State r' = r_State r.

(** The changes an envelope of [p] may cause on the node of [me]. *)
Inductive authorised (me p rid : string) : option Room → option Room → Prop :=
| auth_invite r :
    r_ID r = rid → r_CreatedBy r = p → r_State r = RoomPending → isMember (r_Members r) me = true →
    authorised me p rid None (Some r)
| auth_creator r r' :
    r_CreatedBy r = p → same_room_but_name_members r r' →
    authorised me p rid (Some r) (Some r')
| auth_leave r :
    isMember (r_Members r) p = true →
    authorised me p rid (Some r) (Some (set_Members (removePeer (r_Members r) p) r))
| auth_removed r :
    r_CreatedBy r = p ∨ p = me → authorised me p rid (Some r) None.

(** One entry of the table changes, by [A]. *)
Definition room_change (rid : string) (A : option Room → option Room → Prop) n n' : Prop :=
  rooms_inv (n_store n) →
  rooms_inv (n_store n') ∧
  ∀ id, room_of (n_store n') id = room_of (n_store n) id
        ∨ (id = rid ∧ A (room_of (n_store n) id) (room_of (n_store n') id)).

(** Handlers that leave the rooms bucket alone. *)
Abbreviation rsteps := (steps (quiet d_rooms (λ _, True))).

Lemma bind_assoc {T1 T2 T3} (m : M B T1) (k' : T1 → M B T2) (k : T2 → M B T3) n :
  mbind k (mbind k' m) n = mbind (λ x, mbind k (k' x)) m n.
Proof. unfold mbind, M_bind. by destruct (m n). Qed.

Lemma change_same rid A n n' :
  same_part d_rooms (n_store n) (n_store n') → room_change rid A n n'.
Proof.
  intros Hs Hi. split; [by eapply same_rooms_inv|]. intros id. left. by apply same_room_of.
Qed.

Lemma change_quiet rid A {T} (m : M B T) n : rsteps m → room_change rid A n (m n).2.
Proof. intros Hm. apply change_same. destruct (Hm n) as [Hs _ _]. exact Hs. Qed.

Lemma change_then rid A n n1 n2 :
  room_change rid A n n1 → same_part d_rooms (n_store n1) (n_store n2) → room_change rid A n n2.
Proof.
  intros Hc Hs Hi. destruct (Hc Hi) as [Hi1 Ht]. split; [by eapply same_rooms_inv|].
  intros id. by rewrite (same_room_of _ _ _ Hs).
Qed.

(** A store operation, then steps that leave the rooms alone. *)
Lemma change_store rid A {T T'} (f : Store B → result T * Store B) (k : result T → M B T') n :
  room_change rid A n (with_store (f (n_store n)).2 n) → (∀ res, rsteps (k res)) →
  room_change rid A n ((mbind k (on_store f)) n).2.
Proof.
  intros Hf Hk. unfold mbind, M_bind, on_store. destruct (f (n_store n)) as [res s'].
  eapply change_then; [exact Hf|]. destruct (Hk res (with_store s' n)) as [Hs _ _]. exact Hs.
Qed.

Lemma change_UpdateRoom rid (A : option Room → option Room → Prop) r rnd n :
  rnd_ok rnd → r_ID r = rid → r_State r ≠ "" →
  (rooms_inv (n_store n) → Z.of_nat (length (r_Members r)) <= MaxRoomMembers ∧ jsonable r = true) →
  A (room_of (n_store n) rid) (Some r) →
  room_change rid A n (with_store (UpdateRoom (n_store n) r rnd).2 n).
Proof.
  intros Hr Hid Hst Hlen HA Hi. destruct (Hlen Hi) as [Hm Hj].
  pose proof (put_room_table _ r rnd Hi Hr Hst Hm) as Hp. unfold written in Hp. rewrite Hj in Hp.
  destruct (UpdateRoom (n_store n) r rnd) as [res s']. cbn [snd n_store with_store].
  destruct Hp as [Hi' [[-> _]|[_ Ht]]]; (split; [done|]); intros id; [by left|].
  rewrite Ht. destruct (decide (id = r_ID r)) as [->|]; [|by left]. right. by subst rid.
Qed.

Lemma change_DeleteRoom rid (A : option Room → option Room → Prop) n :
  A (room_of (n_store n) rid) None →
  room_change rid A n (with_store (DeleteRoom (n_store n) rid).2 n).
Proof.
  intros HA Hi. pose proof (DeleteRoom_table _ rid Hi) as Hd.
  destruct (DeleteRoom (n_store n) rid) as [res s']. cbn [snd n_store with_store].
  destruct Hd as (_ & Hi' & Ht). split; [done|]. intros id. rewrite Ht.
  destruct (decide (id = rid)) as [->|]; [by right|by left].
Qed.

(** Reading a room gives an entry of the table. *)
Lemma read_room rid n r :
  GetRoom (n_store n) rid = Ok r →
  room_of (n_store n) rid = Some r ∧
  (rooms_inv (n_store n) → r_ID r = rid ∧ Z.of_nat (length (r_Members r)) <= MaxRoomMembers ∧ jsonable r = true) ∧
  r_State r ≠ "".
Proof.
  intros Hg%GetRoom_room_of. split_and!; [done| |].
  - intros Hi. apply room_of_inv in Hg; naive_solver.
  - apply room_of_row in Hg as (r0 & _ & Hd%decryptRoom_ok). naive_solver.
Qed.

(** The lengths of the member lists handlers build. *)
Lemma sort_length {X} (lt : X → X → bool) l : length (sort_loop lt l) = length l.
Proof. by rewrite (sort_loop_Permutation lt l). Qed.
Lemma removePeer_length l p : (length (removePeer l p) <= length l)%nat.
Proof. apply length_filter. Qed.

(** ** What each room event does *)

(** After the change only events and log lines follow. *)
Ltac rest := intros ?; steps_tac.

Lemma create_change now rnd actor e n :
  rnd_ok rnd →
  room_change (Proto.Room e) (authorised (id_Name (n_id n)) actor (Proto.Room e)) n
    (handle_create now rnd actor e n).2.
Proof.
  intros Hr. unfold handle_create. unfold mbind at 1, M_bind at 1. cbn [my_name]. cbv zeta.
  set (ms := dedupeMembers _). destruct (isMember ms (id_Name (n_id n))) eqn:Hme; cbn [negb].
  2: { apply change_quiet. steps_tac. }
  destruct (Z.ltb_spec MaxRoomMembers (Z.of_nat (length ms))); [apply change_quiet; steps_tac|].
  unfold mbind at 1, M_bind at 1. cbn [read_store].
  destruct (GetRoom (n_store n) (Proto.Room e)) as [r|err] eqn:Hg.
  - apply read_room in Hg as (Ht & Hid & Hst).
    destruct (actor =s? r_CreatedBy r) eqn:Ea; cbn [negb]; [|apply change_quiet; steps_tac].
    apply eqs_true in Ea. intros Hi. specialize (Hid Hi) as (Hid & _ & Hj). revert Hi.
    apply change_store; [|rest]. apply change_UpdateRoom; [done..| |].
    + intros _. done.
    + rewrite Ht. by apply auth_creator.
  - apply change_store; [|rest]. set (room := mkRoom _ _ _ _ _ _). intros Hi.
    pose proof (CreateRoom_table (n_store n) room rnd Hi Hr ltac:(done)) as Hp.
    destruct (CreateRoom (n_store n) room rnd) as [res s']. cbn [snd n_store with_store].
    destruct Hp as [Hi' [[-> _]|(_ & _ & Ht)]]; (split; [done|]); intros id; [by left|].
    rewrite Ht. destruct (decide (id = r_ID room)) as [->|]; [|by left].
    replace (room_of (n_store n) (r_ID room)) with (@None Room) by (unfold room_of; cbn [r_ID room]; by rewrite Hg).
    unfold written. destruct (jsonable room); [right|by left]. split; [done|]. by apply auth_invite.
Qed.

Lemma join_change now rnd actor e n :
  rnd_ok rnd →
  room_change (Proto.Room e) (authorised (id_Name (n_id n)) actor (Proto.Room e)) n
    (handle_join now rnd actor e n).2.
Proof.
  intros Hr. unfold handle_join. unfold mbind at 1, M_bind at 1. cbn [read_store].
  destruct (GetRoom (n_store n) (Proto.Room e)) as [r|err] eqn:Hg; [|by apply change_quiet, steps_ret, _].
  apply read_room in Hg as (Ht & Hid & Hst).
  destruct (EqualFold actor (RoomActor e)); [apply change_quiet; steps_tac|].
  destruct (actor =s? r_CreatedBy r) eqn:Ea; cbn [negb]; [|apply change_quiet; steps_tac].
  apply eqs_true in Ea. destruct (isMember (r_Members r) (RoomActor e)); [apply change_quiet; steps_tac|].
  destruct (Z.leb_spec MaxRoomMembers (Z.of_nat (length (r_Members r)))); [apply change_quiet; steps_tac|].
  intros Hi. specialize (Hid Hi) as (Hid & _ & Hj). revert Hi.
  apply change_store; [|rest]. apply change_UpdateRoom; [done..| |].
  - intros _. split; [|done]. cbn. unfold sortStrings. rewrite sort_length, length_app. cbn. lia.
  - rewrite Ht. by apply auth_creator.
Qed.

Lemma remove_change now rnd actor e n :
  rnd_ok rnd →
  room_change (Proto.Room e) (authorised (id_Name (n_id n)) actor (Proto.Room e)) n
    (handle_remove now rnd actor e n).2.
Proof.
  intros Hr. unfold handle_remove. unfold mbind at 1, M_bind at 1. cbn [read_store].
  destruct (GetRoom (n_store n) (Proto.Room e)) as [r|err] eqn:Hg; [|by apply change_quiet, steps_ret, _].
  apply read_room in Hg as (Ht & Hid & Hst). unfold mbind at 1, M_bind at 1. cbn [my_name].
  destruct (actor =s? r_CreatedBy r) eqn:Ea; cbn [negb]; [|apply change_quiet; steps_tac].
  apply eqs_true in Ea. destruct (RoomActor e =s? id_Name (n_id n)) eqn:Em.
  - rewrite bind_assoc.
    apply change_store; [|rest]. apply change_DeleteRoom. rewrite Ht. apply auth_removed. by left.
  - destruct (isMember (r_Members r) (RoomActor e)); [|apply change_quiet; steps_tac].
    rewrite bind_assoc.
    intros Hi. specialize (Hid Hi) as (Hid & Hlen & Hj). revert Hi.
    apply change_store; [|rest]. apply change_UpdateRoom; [done..| |].
    + intros _. split; [|done]. pose proof (removePeer_length (r_Members r) (RoomActor e)). cbn. lia.
    + rewrite Ht. by apply auth_creator.
Qed.

Lemma leave_change now rnd actor e n :
  rnd_ok rnd →
  room_change (Proto.Room e) (authorised (id_Name (n_id n)) actor (Proto.Room e)) n
    (handle_leave now rnd actor e n).2.
Proof.
  intros Hr. unfold handle_leave. unfold mbind at 1, M_bind at 1. cbn [read_store].
  destruct (GetRoom (n_store n) (Proto.Room e)) as [r|err] eqn:Hg; [|by apply change_quiet, steps_ret, _].
  apply read_room in Hg as (Ht & Hid & Hst). unfold mbind at 1, M_bind at 1. cbn [my_name].
  destruct (actor =s? id_Name (n_id n)) eqn:Em.
  - apply change_store; [|rest]. apply change_DeleteRoom. rewrite Ht. apply auth_removed.
    right. by apply eqs_true.
  - destruct (isMember (r_Members r) actor) eqn:Hm; [|apply change_quiet; steps_tac].
    intros Hi. specialize (Hid Hi) as (Hid & Hlen & Hj). revert Hi.
    apply change_store; [|rest]. apply change_UpdateRoom; [done..| |].
    + intros _. split; [|done]. pose proof (removePeer_length (r_Members r) actor). cbn. lia.
    + rewrite Ht. by apply auth_leave.
Qed.

Lemma rename_change now rnd actor e n :
  rnd_ok rnd →
  room_change (Proto.Room e) (authorised (id_Name (n_id n)) actor (Proto.Room e)) n
    (handle_rename now rnd actor e n).2.
Proof.
  intros Hr. unfold handle_rename. unfold mbind at 1, M_bind at 1. cbn [read_store].
  destruct (GetRoom (n_store n) (Proto.Room e)) as [r|err] eqn:Hg; [|by apply change_quiet, steps_ret, _].
  apply read_room in Hg as (Ht & Hid & Hst).
  destruct (actor =s? r_CreatedBy r) eqn:Ea; cbn [negb]; [|apply change_quiet; steps_tac].
  apply eqs_true in Ea. intros Hi. specialize (Hid Hi) as (Hid & Hlen & Hj). revert Hi.
  apply change_store; [|rest]. apply change_UpdateRoom; [done..| |].
  - intros _. done.
  - rewrite Ht. by apply auth_creator.
Qed.

Lemma event_change now rnd l e n :
  rnd_ok rnd →
  room_change (Proto.Room e) (authorised (id_Name (n_id n)) (lk_peer l) (Proto.Room e)) n
    (handleRoomEvent now rnd l e n).2.
Proof.
  intros Hr. unfold handleRoomEvent. cbv zeta.
  repeat case_match;
    [by apply create_change|by apply join_change|by apply remove_change|by apply leave_change|
     by apply rename_change|by apply change_quiet, steps_ret, _].
Qed.

Lemma dispatch_event now rnd c l e :
  T e = TypeRoomEvent →
  dispatch now rnd c l e = (_ ← handleRoomEvent (B := B) now rnd l e; mret true).
Proof. intros Ht. unfold dispatch. by rewrite Ht. Qed.

(** Every envelope: the types other than room events leave the rooms alone. *)
Lemma dispatch_change now rnd c l e n :
  rnd_ok rnd →
  room_change (Proto.Room e) (authorised (id_Name (n_id n)) (lk_peer l) (Proto.Room e)) n
    (dispatch now rnd c l e n).2.
Proof.
  intros Hr. destruct (decide (T e = TypeRoomEvent)) as [Et|Et].
  - rewrite dispatch_event by done. unfold mbind, M_bind.
    pose proof (event_change now rnd l e n Hr) as Hc. by destruct (handleRoomEvent now rnd l e n).
  - apply change_quiet. unfold dispatch. rewrite (proj2 (eqs_false _ _) Et).
    steps_tac; eauto using q_handleMsg, q_handleAck, q_handleDel with steps.
Qed.

Lemma turn_change now rnd c l e n :
  rnd_ok rnd → n_conns n !! c = Some l →
  room_change (Proto.Room e) (authorised (id_Name (n_id n)) (lk_peer l) (Proto.Room e)) n
    (session_turn now rnd c (Ok e) n).2.
Proof.
  intros Hr Hl. unfold session_turn, read_turn. rewrite bind_assoc. unfold mbind at 1, M_bind at 1.
  cbn [link_at]. rewrite Hl. unfold mbind, M_bind.
  pose proof (dispatch_change now rnd c l e n Hr) as Hc.
  destruct (dispatch now rnd c l e n) as [[|] n1]; [done|].
  eapply change_then; [exact Hc|].
  by destruct (q_runSession_end d_rooms (λ _, True) now c n1) as [Hs _ _].
Qed.

(** Our name stays through what peers do. *)
Definition same_id n n' : Prop := n_id n' = n_id n.
#[export] Instance same_id_preorder : PreOrder same_id.
Proof. split; [done|]. unfold same_id. intros x y z ? ?. congruence. Qed.
Lemma id_modify f : (∀ n, n_id (f n) = n_id n) → steps same_id (modify f).
Proof. intros Hf n. apply Hf. Qed.
Lemma id_on_store {A} (f : Store B → result A * Store B) : steps same_id (on_store f).
Proof. intros n. unfold on_store. by destruct (f (n_store n)). Qed.
Lemma id_send c e : steps same_id (send c e).
Proof. intros n. unfold send. by repeat case_match. Qed.
Lemma id_read {A} (m : M B A) : (∀ n, (m n).2 = n) → steps same_id m.
Proof. intros Hm n. unfold same_id. by rewrite Hm. Qed.

Ltac id_tac_with handlers :=
  cbv zeta; repeat first
    [ handlers | apply id_on_store | apply id_send | apply steps_ret, _ | by apply id_read
    | apply steps_bind; [typeclasses eauto| |intros ?]
    | apply id_modify; intros ?; by repeat case_match
    | case_match ].
Ltac id_tac := id_tac_with fail.

Lemma id_handleFile now c l e : steps same_id (handleFile (B := B) now c l e).
Proof. unfold handleFile. id_tac. Qed.
Lemma id_handleChunk now rnd c l e : steps same_id (handleChunk (B := B) now rnd c l e).
Proof. unfold handleChunk, complete_rx. id_tac. Qed.
Lemma id_handleMsg now rnd c l e : steps same_id (handleMsg (B := B) now rnd c l e).
Proof. unfold handleMsg. id_tac. Qed.
Lemma id_handleAck l e : steps same_id (handleAck (B := B) l e).
Proof. unfold handleAck. id_tac. Qed.
Lemma id_handleDel l e : steps same_id (handleDel (B := B) l e).
Proof. unfold handleDel. id_tac. Qed.
Lemma id_handleRoomReaction now l e : steps same_id (handleRoomReaction (B := B) now l e).
Proof. unfold handleRoomReaction. id_tac. Qed.
Lemma id_handleRoomMsg now rnd c l e : steps same_id (handleRoomMsg (B := B) now rnd c l e).
Proof. unfold handleRoomMsg. id_tac. Qed.
Lemma id_handleRoomAck now l e : steps same_id (handleRoomAck (B := B) now l e).
Proof. unfold handleRoomAck. id_tac. Qed.
Lemma id_handleRoomEvent now rnd l e : steps same_id (handleRoomEvent (B := B) now rnd l e).
Proof. unfold handleRoomEvent, handle_create, handle_join, handle_remove,
    handle_leave, handle_rename. id_tac. Qed.

Lemma id_turn now rnd c rcv n : n_id (session_turn now rnd c rcv n).2 = n_id n.
Proof.
  assert (Hs : steps same_id (session_turn (B := B) now rnd c rcv)); [|apply Hs].
  unfold session_turn, read_turn, dispatch, runSession_end, deliverFileAck.
  id_tac_with ltac:(idtac; lazymatch goal with
    | |- steps _ (handleFile _ _ _ _) => simple apply id_handleFile
    | |- steps _ (handleChunk _ _ _ _ _) => simple apply id_handleChunk
    | |- steps _ (handleMsg _ _ _ _ _) => simple apply id_handleMsg
    | |- steps _ (handleAck _ _) => simple apply id_handleAck
    | |- steps _ (handleDel _ _) => simple apply id_handleDel
    | |- steps _ (handleRoomReaction _ _ _) => simple apply id_handleRoomReaction
    | |- steps _ (handleRoomMsg _ _ _ _ _) => simple apply id_handleRoomMsg
    | |- steps _ (handleRoomAck _ _ _) => simple apply id_handleRoomAck
    | |- steps _ (handleRoomEvent _ _ _ _) => simple apply id_handleRoomEvent
    end).
Qed.

(** ** Runs of the peers *)

(** What peers can make a node do: send it envelopes or break a session. *)
Inductive remote : Node B → Node B → Prop :=
| remote_turn now rnd c rcv n : rnd_ok rnd → remote n (session_turn now rnd c rcv n).2.

(** The names of all sessions are other people's. *)
Definition others n : Prop :=
  ∀ c p, conn_names n !! c = Some p → EqualFold p (id_Name (n_id n)) = false.

(** A room of ours after peers acted: the peers of our sessions may have left it. *)
Definition only_left n r r' : Prop :=
  r' = set_Members (r_Members r') r ∧
  (∀ m, m ∈ r_Members r' → m ∈ r_Members r) ∧
  (∀ m, m ∈ r_Members r → m ∉ r_Members r' →
     ∃ c p, conn_names n !! c = Some p ∧ EqualFold m p = true).

Lemma break_change now rnd c err n rid A :
  room_change rid A n (session_turn now rnd c (Err err) n).2.
Proof. apply change_quiet. unfold session_turn. steps_tac. Qed.

Lemma remote_step n n' :
  remote n n' → rooms_inv (n_store n) →
  rooms_inv (n_store n') ∧ conn_names n' = conn_names n ∧ n_id n' = n_id n ∧
  ∀ id, room_of (n_store n') id = room_of (n_store n) id ∨
        ∃ c p, conn_names n !! c = Some p ∧
               authorised (id_Name (n_id n)) p id (room_of (n_store n) id) (room_of (n_store n') id).
Proof.
  intros [now rnd c rcv n1 Hr] Hi.
  destruct (calm_turn now rnd c rcv n1) as [_ Hc _]. rewrite id_turn, Hc.
  assert (Ht : ∃ rid (A : option Room → option Room → Prop),
    room_change rid A n1 (session_turn now rnd c rcv n1).2 ∧
    ∀ o o', A o o' → ∃ c p, conn_names n1 !! c = Some p ∧ authorised (id_Name (n_id n1)) p rid o o').
  { destruct rcv as [e|err]; [|exists "", (λ _ _, False); split; [apply break_change|done]].
    destruct (n_conns n1 !! c) as [l|] eqn:El.
    - exists (Proto.Room e), (authorised (id_Name (n_id n1)) (lk_peer l) (Proto.Room e)).
      split; [by apply turn_change|]. intros o o' Ha. exists c, (lk_peer l). split; [|done].
      unfold conn_names. by rewrite lookup_fmap, El.
    - exists "", (λ _ _, False). split; [|done]. apply change_same.
      unfold session_turn, read_turn. rewrite bind_assoc. unfold mbind at 1, M_bind at 1.
      cbn [link_at]. rewrite El. by destruct (q_runSession_end d_rooms (λ _, True) now c n1) as [Hs _ _]. }
  destruct Ht as (rid & A & Hch & HA). destruct (Hch Hi) as [Hi' Ht]. split_and!; [done..|].
  intros id. destruct (Ht id) as [?|[-> Ha]]; [by left|right; by apply HA].
Qed.

Lemma remote_own n n' id r :
  remote n n' → rooms_inv (n_store n) → others n →
  room_of (n_store n) id = Some r → r_CreatedBy r = id_Name (n_id n) →
  ∃ r', room_of (n_store n') id = Some r' ∧ only_left n r r'.
Proof.
  intros Hrem Hi Ho Hg Hby. destruct (remote_step _ _ Hrem Hi) as (_ & _ & _ & Ht).
  destruct (Ht id) as [E|(c & p & Hc & Ha)].
  { exists r. rewrite E. split; [done|]. split_and!; [by destruct r|done|done]. }
  assert (Hp : p ≠ id_Name (n_id n)).
  { intros ->. apply Ho in Hc. by rewrite EqualFold_refl in Hc. }
  rewrite Hg in Ha. inversion Ha as [|r1 r' Hby' _|r1 Hm|r1 Hby' E1 E2]; subst.
  - congruence.
  - eexists. split; [by symmetry|]. split_and!; [by destruct r| |].
    + intros m [_ Hm']%list_elem_of_filter. done.
    + intros m Hin Hout. exists c, p. split; [done|].
      destruct (EqualFold m p) eqn:E; [done|]. destruct Hout. by apply list_elem_of_filter.
  - destruct Hby'; congruence.
Qed.

Lemma only_left_trans n n1 r r1 r2 :
  conn_names n1 = conn_names n → only_left n r r1 → only_left n1 r1 r2 → only_left n r r2.
Proof.
  intros Hc (E1 & S1 & L1) (E2 & S2 & L2). split_and!.
  - rewrite E2, E1. done.
  - auto.
  - intros m Hin Hout. destruct (decide (m ∈ r_Members r1)) as [Hm|Hm]; [|auto].
    destruct (L2 m Hm Hout) as (c & p & Hcp & Hf). rewrite Hc in Hcp. eauto.
Qed.
End auth.

(** The store stays, no envelope is sent. *)
Definition inert `{Bolt B} (n n' : Node B) : Prop :=
  n_store n' = n_store n ∧ ∀ c e, OSend c e ∈ n_out n' → OSend c e ∈ n_out n.
Lemma inert_refl `{Bolt B} (n : Node B) : inert n n.
Proof. done. Qed.
Lemma inert_logf `{Bolt B} now f (n : Node B) : inert n (logf now f n).2.
Proof. split; [done|]. intros c e. cbn. set_solver. Qed.

(** ** Properties *)

Section properties.
Context {B : Type → Type} `{Bolt B} `{Primitives} `{UnicodeTables} `{Wire} `{DiskFaults}.
Implicit Types (n : Node B) (r : Room) (e : Envelope).

(** C15: what a peer may do to rooms.  One turn of a session on any envelope
    whatever keeps the table of rooms well formed (rows that decode under their
    identifiers, at most 32 members, times of the years 0 to 9999) and changes at most the room the envelope
    names, and that entry only as the name of the session entitles to: invite
    us into an unknown room, left pending; as its creator rename it or
    change its members; leave it; as its creator remove us. *)
Theorem room_events_authorised now rnd c l e n :
  rnd_ok rnd → rooms_inv (n_store n) → n_conns n !! c = Some l →
  let n' := (session_turn now rnd c (Ok e) n).2 in
  rooms_inv (n_store n') ∧
  ∀ id, room_of (n_store n') id = room_of (n_store n) id ∨
        (id = Proto.Room e ∧
         authorised (id_Name (n_id n)) (lk_peer l) id
           (room_of (n_store n) id) (room_of (n_store n') id)).
Proof.
  intros Hr Hi Hl n'. destruct (turn_change now rnd c l e n Hr Hl Hi) as [Hi' Ht].
  split; [done|]. intros id. destruct (Ht id) as [?|[-> Ha]]; [by left|by right].
Qed.

(** C16: a room one created is one's own.  Whatever envelopes arrive, in any
    number and order, as long as no session carries our own name: the room
    stays, with its name, creator, time and state; nobody joins it; and the
    only members it loses are the peers of our sessions. *)
Theorem own_room_survives_peers n n' id r :
  rooms_inv (n_store n) → others n → rtc remote n n' →
  room_of (n_store n) id = Some r → r_CreatedBy r = id_Name (n_id n) →
  ∃ r', room_of (n_store n') id = Some r' ∧ only_left n r r'.
Proof.
  intros Hi Ho Hr Hg Hby. revert r Hi Ho Hg Hby.
  induction Hr as [n|n n1 n' Hs _ IH]; intros r Hi Ho Hg Hby.
  { exists r. split; [done|]. split_and!; [by destruct r|done|done]. }
  destruct (remote_own _ _ id r Hs Hi Ho Hg Hby) as (r1 & Hg1 & Hl1).
  destruct (remote_step _ _ Hs Hi) as (Hi1 & Hc & Hid & _).
  destruct (IH r1) as (r2 & Hg2 & Hl2); [done| |done| |].
  - unfold others. by rewrite Hc, Hid.
  - rewrite Hid. destruct Hl1 as [-> _]. done.
  - exists r2. split; [done|]. by eapply only_left_trans.
Qed.

(** C17: joining needs consent.  Whatever peers send, every room that is
    joined afterwards was joined before: an invitation stays pending until
    the user accepts it. *)
Theorem peers_never_join_us n n' id r' :
  rooms_inv (n_store n) → rtc remote n n' →
  room_of (n_store n') id = Some r' → r_State r' ≠ RoomPending →
  ∃ r, room_of (n_store n) id = Some r ∧ r_State r = r_State r'.
Proof.
  intros Hi Hr. revert Hi. induction Hr as [n|n n1 n' Hs _ IH]; intros Hi Hg Hst; [eauto|].
  destruct (remote_step _ _ Hs Hi) as (Hi1 & _ & _ & Ht).
  destruct (IH Hi1 Hg Hst) as (r1 & Hg1 & Hs1).
  destruct (Ht id) as [E|(c & p & _ & Ha)]; [exists r1; by rewrite <- E|].
  rewrite Hg1 in Ha. inversion Ha as [r0 _ _ Hp| r0 r2 _ (_ & _ & _ & E) E0 E1 |r0 _ E0 E1|]; subst.
  - by rewrite <- Hs1, Hp in Hst.
  - exists r0. split; [by symmetry|congruence].
  - exists r0. split; [by symmetry|]. done.
Qed.

(** Computes a handler on a room that is read as pending. *)
Ltac red_room :=
  cbv beta iota zeta;
  repeat match goal with
  | Hg : GetRoom _ _ = Ok _ |- _ => rewrite Hg
  | Hp : Room_Pending _ = true |- _ => rewrite Hp
  end; rewrite ?orb_true_r; cbv beta iota.

(** C19: a pending invitation is inert.  While a room is pending its messages
    and reactions are neither stored nor acknowledged, and writing to it or
    reacting in it fails: the store stays as it is and no envelope leaves. *)
Theorem pending_room_is_inert now rng rnd c l e n r body emoji target :
  room_of (n_store n) (Proto.Room e) = Some r → r_State r = RoomPending →
  inert n (handleRoomMsg now rnd c l e n).2 ∧ inert n (handleRoomReaction now l e n).2 ∧
  inert n (SendRoomMessage now rng rnd (Proto.Room e) body n).2 ∧
  is_ok (SendRoomMessage now rng rnd (Proto.Room e) body n).1 = false ∧
  inert n (SendRoomReaction now (Proto.Room e) target emoji n).2 ∧
  is_ok (SendRoomReaction now (Proto.Room e) target emoji n).1 = false.
Proof.
  intros Hg%GetRoom_room_of Hst.
  assert (Hp : Room_Pending r = true) by (unfold Room_Pending; by rewrite Hst).
  unfold handleRoomMsg, handleRoomReaction, SendRoomMessage, SendRoomReaction, try_.
  unfold mbind, M_bind, read_store, my_name.
  split_and!; red_room; repeat (case_match; red_room);
    first [apply inert_refl | apply inert_logf | reflexivity | simplify_eq; congruence].
Qed.

Lemma event_leave now rnd l e :
  RoomEvent e = "leave" → handleRoomEvent now rnd l e = handle_leave (B := B) now rnd (lk_peer l) e.
Proof. intros He. unfold handleRoomEvent. by rewrite He. Qed.

(** A peer that announces a room with a time JSON has no text for, which the
    validation of its envelope lets pass, leaves a row that cannot be read:
    from then on there is no list of rooms. *)
Lemma far_time_hides_rooms now nonce l e n err :
  keys_ok (n_store n) → RoomEvent e = "create" → 0 < slen (Proto.Room e) <= 32768 →
  let members := dedupeMembers (RoomMembers e) in
  isMember members (id_Name (n_id n)) = true → Z.of_nat (length members) <= MaxRoomMembers →
  GetRoom (n_store n) (Proto.Room e) = Err err → json_time (ofUnixMilli (TS e)) = false →
  let s' := n_store (handleRoomEvent now (Some nonce) l e n).2 in
  GetRoom s' (Proto.Room e) = Err ErrJSON ∧ is_ok (ListRooms s') = false.
Proof.
  intros Hk He Hid members Hm Hlen Hg Hj s'. subst s'. unfold handleRoomEvent. rewrite He.
  rewrite (proj2 (eqs_true _ _) eq_refl). unfold handle_create, mbind, M_bind, my_name, read_store, on_store.
  assert (Hne : RoomMembers e ≠ []) by (intros E; subst members; by rewrite E in Hm).
  assert ((match RoomMembers e with [] => [lk_peer l; id_Name (n_id n)] | x => x end) = RoomMembers e) as ->
    by by destruct (RoomMembers e).
  fold members. rewrite Hm. cbn [negb]. rewrite (proj2 (Z.ltb_ge _ _) Hlen), Hg.
  pose proof (put_spoils true (n_store n) (mkRoom (Proto.Room e) (RoomName e) members (lk_peer l)
    (ofUnixMilli (TS e)) RoomPending) nonce Hk Hid Hlen Hj) as Hs.
  cbn [run_room] in Hs. destruct (CreateRoom _ _ _) as [res s']. destruct Hs as ([= ->] & Hs). exact Hs.
Qed.

(** C34: names, not keys, command rooms, and our own name is no exception: a
    session whose peer goes by our display name (a handshake is refused for
    our key, not for our name) makes us delete any room, also our own, by
    one "leave" event. *)
Theorem own_name_deletes_rooms now rnd c l e n r :
  rooms_inv (n_store n) → n_conns n !! c = Some l → lk_peer l = id_Name (n_id n) →
  T e = TypeRoomEvent → RoomEvent e = "leave" →
  room_of (n_store n) (Proto.Room e) = Some r →
  room_of (n_store (session_turn now rnd c (Ok e) n).2) (Proto.Room e) = None.
Proof.
  intros Hi Hl Hp Ht He Hg%GetRoom_room_of. unfold session_turn, read_turn. rewrite bind_assoc.
  unfold mbind at 1, M_bind at 1. cbn [link_at]. rewrite Hl, dispatch_event by done.
  rewrite event_leave by done. unfold handle_leave.
  unfold mbind, M_bind, read_store, my_name, on_store. rewrite Hg, Hp.
  rewrite (proj2 (eqs_true _ _) eq_refl).
  pose proof (DeleteRoom_table (n_store n) (Proto.Room e) Hi) as Hd.
  destruct (DeleteRoom (n_store n) (Proto.Room e)) as [res s']. destruct Hd as (_ & _ & Ht').
  cbn. rewrite Ht'. by rewrite decide_True.
Qed.

(** Setting up a session leaves the rooms alone. *)
Definition same_rooms n n' : Prop := same_part d_rooms (n_store n) (n_store n').
#[export] Instance same_rooms_preorder : PreOrder same_rooms.
Proof. split; [by intros n|]. intros n1 n2 n3. unfold same_rooms. by etrans. Qed.
Lemma rooms_same_store n n' : n_store n' = n_store n → same_rooms n n'.
Proof. unfold same_rooms. by intros ->. Qed.
Lemma serve_rooms now rnd c sc fp : steps same_rooms (serve now rnd c sc fp).
Proof.
  unfold serve, establish, runSession_start.
  repeat first
    [ apply steps_ret, _ | by (intros ?; apply rooms_same_store)
    | apply steps_bind; [typeclasses eauto| |intros ?]
    | apply steps_try; [typeclasses eauto| |intros ?]
    | case_match ].
  intros n. unfold on_store, same_rooms.
  pose proof (Observe_frame d_rooms (n_store n) (hs_Name a) (hs_Key a) now rnd) as Ho.
  by destruct (Observe _ _ _ _ _).
Qed.
End properties.

(** ** Examples *)

#[local] Existing Instance gmap_bolt.
#[local] Existing Instance toy_primitives.
#[local] Existing Instance ascii_tables.
#[local] Existing Instance good_wire.
#[local] Existing Instance no_faults.

Definition ex_room : Room := mkRoom "r" "tea" ["Alice"; "Bob"] "Alice" 1000 RoomJoined.

(** Alice with that room in the given state, and a session with [p] on connection 7. *)
Definition ex_in_room (state p : string) : Node gbucket :=
  (set_link 7 (newLink p [CapRooms] 0)
     (with_store (CreateRoom ex_empty (set_RState state ex_room) ex_nonce).2 ex_alice)).2.

Definition ex_event (what actor : string) : Envelope :=
  room_event_envelope "r" what actor "coffee" [] 5000.

Lemma ex_no_rooms : rooms_inv ex_empty.
Proof.
  split; [apply ex_keys|]. intros k r Hg.
  change (bget (V := row Room) bempty k = Some (json r)) in Hg. by rewrite bget_empty in Hg.
Qed.

Lemma ex_in_room_inv state p : state ≠ "" → rooms_inv (n_store (ex_in_room state p)).
Proof.
  intros Hst. pose proof (CreateRoom_table ex_empty (set_RState state ex_room) ex_nonce ex_no_rooms
    ltac:(by intros ? [= <-]) Hst) as Hc.
  unfold ex_in_room. cbn [set_link modify snd n_store with_conns with_store].
  destruct (CreateRoom _ _ _) as [res s']. by destruct Hc.
Qed.

(** Such an event passes the validation, and Alice's rooms are gone from her list. *)
Lemma far_event_hides_rooms :
  let n := ex_in_room RoomJoined "Bob" in
  let id := String.concat "" (replicate 32 "0") in
  let e := room_event_envelope id "create" "Bob" "far" ["Alice"; "Bob"] (ofUnixMilli (2 ^ 55)) in
  let n' := (session_turn 6000 ex_nonce 7 (Ok e) n).2 in
  is_ok (validate e) = true ∧ is_ok (ListRooms (n_store n)) = true ∧ is_ok (ListRooms (n_store n')) = false.
Proof. by vm_compute. Qed.

Lemma room_events_authorised_witness :
  let n := ex_in_room RoomJoined "Bob" in
  let n' := (session_turn 6000 ex_nonce 7 (Ok (ex_event "leave" "")) n).2 in
  (r_Members <$> room_of (n_store n') "r") = Some ["Alice"] ∧
  rooms_inv (n_store n') ∧
  ∀ id, room_of (n_store n') id = room_of (n_store n) id ∨
        (id = "r" ∧ authorised "Alice" "Bob" id (room_of (n_store n) id) (room_of (n_store n') id)).
Proof.
  intros n n'. split; [by vm_compute|].
  apply (room_events_authorised 6000 ex_nonce 7 (newLink "Bob" [CapRooms] 0) (ex_event "leave" "") n);
    [by intros ? [= <-]|by apply ex_in_room_inv|by vm_compute].
Defined.

Lemma own_room_survives_peers_witness :
  let n := ex_in_room RoomJoined "Bob" in
  let n' := (session_turn 6000 ex_nonce 7 (Ok (ex_event "rename" "")) n).2 in
  ∃ r', room_of (n_store n') "r" = Some r' ∧ only_left n ex_room r'.
Proof.
  intros n n'. apply (own_room_survives_peers n n' "r" ex_room).
  - by apply ex_in_room_inv.
  - intros c p Hc. destruct (decide (c = 7%nat)) as [->|Hne].
    + vm_compute in Hc. injection Hc as <-. by vm_compute.
    + unfold conn_names, n, ex_in_room in Hc. cbn in Hc.
      rewrite lookup_fmap, lookup_insert_ne, lookup_empty in Hc by done. done.
  - apply rtc_once. apply remote_turn. by intros ? [= <-].
  - by vm_compute.
  - done.
Defined.

Lemma peers_never_join_us_witness :
  let n := ex_in_room RoomJoined "Bob" in
  let n' := (session_turn 6000 ex_nonce 7 (Ok (ex_event "leave" "")) n).2 in
  ∃ r, room_of (n_store n) "r" = Some r ∧ r_State r = RoomJoined.
Proof.
  intros n n'.
  apply (peers_never_join_us n n' "r" (set_Members ["Alice"] ex_room)).
  - by apply ex_in_room_inv.
  - apply rtc_once. apply remote_turn. by intros ? [= <-].
  - by vm_compute.
  - done.
Defined.

Lemma pending_room_is_inert_witness :
  let n := ex_in_room RoomPending "Bob" in let e := ex_event "" "" in
  Proto.Room e = "r" ∧
  inert n (handleRoomMsg 6000 ex_nonce 7 (newLink "Bob" [CapRooms] 0) e n).2 ∧
  is_ok (SendRoomMessage 6000 ex_rng ex_nonce (Proto.Room e) "hello" n).1 = false.
Proof.
  intros n e.
  assert (Hg : room_of (n_store n) (Proto.Room e) = Some (set_RState RoomPending ex_room)) by by vm_compute.
  assert (He : Proto.Room e = "r") by done. clearbody n.
  pose proof (pending_room_is_inert 6000 ex_rng ex_nonce 7 (newLink "Bob" [CapRooms] 0) e n
    (set_RState RoomPending ex_room) "hello" "+" "t" Hg eq_refl) as Hall.
  destruct Hall as (H1 & _ & _ & H2 & _). split_and!; [exact He|exact H1|exact H2].
Defined.

(** A stranger with another key calls itself Alice, gets a session, and
    removes Alice's room from her own node. *)
Lemma own_name_deletes_rooms_witness :
  let n := (serve 2000 ex_nonce 8 (Ok (mkHandshake "Alice" "MMMM" [])) ""
              (ex_in_room RoomJoined "Bob")).2 in
  let n' := (session_turn 6000 ex_nonce 8 (Ok (ex_event "leave" "")) n).2 in
  (lk_peer <$> n_conns n !! 8%nat) = Some "Alice" ∧ room_of (n_store n) "r" = Some ex_room ∧
  room_of (n_store n') "r" = None.
Proof.
  intros n n'. assert (Hg : room_of (n_store n) "r" = Some ex_room) by by vm_compute.
  split_and!; [by vm_compute|exact Hg|].
  apply (own_name_deletes_rooms 6000 ex_nonce 8 (newLink "Alice" [] 2000) (ex_event "leave" "") n ex_room);
    [|by vm_compute..].
  eapply same_rooms_inv; [apply (serve_rooms 2000 ex_nonce 8 (Ok (mkHandshake "Alice" "MMMM" [])) "")|].
  by apply ex_in_room_inv.
Defined.
